(* ===== verification/_CoqProject ===== *)
-Q . S2P
Prelude.v
Bitfield.v
Kregs.v
Regs.v
LinuxDefs.v
World.v
Base.v
Sim.v
BaseCfg.v
BaseTx.v
RxFifo.v
RxRtl.v
RxQueue.v
RxStore.v
RxRefine.v
BaseRx.v
RoundTrip.v
TxtBuf.v
TxArb.v
TxPrio.v
TxFsm.v
TxInv.v
TxLive.v
TxCore.v
TxRefine.v
TxSystem.v
TxOnRtl.v
IntMan.v
BaseErr.v
BaseIrq.v
Resources.v
BaseDev.v
Host.v
Probe.v
Platform.v
Pci.v
Endian.v
Session.v
RxIrq.v
Wake.v
Hw.v
HwEquiv.v
HwSpec.v
Headers.v
Bittiming.v
Timing.v
Regtest.v
Cli.v
PciFind.v
UserTool.v
Monitor.v
RxSystem.v
Kvaser.v
Format.v
StpLog.v
Stp.v
Logger.v
