(* ===== verification/Prelude.v ===== *)
(** * Verification of the CTU CAN FD drivers

    The CTU CAN FD core is a CAN controller (VHDL under [src/src/]) with
    memory-mapped registers, four to eight TXT buffers with priorities and an RX FIFO.
    [src/driver/] holds its software: a Linux network driver
    ([ctucanfd_base.c] with glue for the platform and PCI buses, on the masks
    of [ctucanfd_kregs.h] and [ctucanfd_kframe.h]) and a low-level layer for
    userspace tools ([ctucanfd_hw.c], [ctucanfd_hw.h], on the register unions
    of [ctucanfd_regs.h] and [ctucanfd_frame.h], with replacements for kernel
    headers in [ctucanfd_linux_defs.c] and [.h]), with the tools themselves
    ([ctucanfd_userspace.cpp], [regtest.cpp], [userspace_utils.cpp]).
    [src/tools/Kvaser_logger/] is a logger that sends random frames through a
    commercial interface and records the bus with a logic analyzer.

    ** How the code is modelled

    A driver acts only through loads and stores of 32-bit registers and
    through calls of kernel functions; a tool also calls the C library and the
    library of the interface.  [World] is the interface of everything
    on the other side: how the core, the kernel and the libraries answer.  A C function is a
    computation in the monad [M D W A] over the driver's own state [D] and a
    world [W]; it records all events in a trace and ends with a result, in
    undefined behaviour (null access, access out of bounds, division by zero,
    shift count out of range, signed overflow, an indeterminate value, use of a freed device) or out of fuel.  [wp m s Q] is total
    correctness: without undefined behaviour, with enough fuel, [Q] holds at
    the end.  Theorems quantify over every world, that is over every behaviour
    of hardware and kernel, unless a hypothesis on the core is named.
    Machine integers are [Z] with their wrap-around written out ([u8], [u32],
    [u64], [s32]); payload bytes are lists; [struct]s are records and
    assignments to members are the [set_] and [upd_] functions of [Base].
    Definitions keep the names of the C functions; parts of a long function
    (a loop, a [switch], a word that is formed) are definitions of their own.

    ** Files

    - [Prelude]: machine integers, [BIT], [GENMASK], [FIELD_GET], [FIELD_PREP],
      their laws, the hint database [u32] and tactics.
    - [Bitfield]: unions of a word with bit-fields, for both bit-field orders.
    - [Kregs], [Regs]: the constants and unions of the four register headers;
      [Headers]: the two descriptions agree, offset by offset and for all words of every field.
    - [LinuxDefs]: [ctucanfd_linux_defs.h]/[.c] (types, constants, DLC, byte order).
    - [World]: the world, the monad, [wp] and its rules.
    - [Base]: [ctucanfd.h], the state of the kernel driver, register access;
      [Sim]: a scripted world and sample devices for concrete runs.
    - [BaseCfg]: [ctucan_reset] .. [ctucan_chip_start], [ctucan_do_set_mode].
    - [BaseTx]: [ctucan_insert_frame], [ctucan_start_xmit], [ctucan_tx_interrupt].
    - [RxFifo]: the RX FIFO as the class [RxDevice]; [BaseRx]: [ctucan_rx], [ctucan_rx_poll].
    - [RxRtl]: the RX buffer of the core ([src/src/rx_buffer/], VHDL), one clock cycle at a time;
      [RxQueue]: the queue of frames that it promises, and the protocol of the CAN core; [RxStore]: a
      frame that is received; [RxRefine]: the buffer implements the queue; [RxSystem]: a world with this
      buffer, which is a [RxDevice].
    - [RoundTrip]: from the transmit path of one node to the receive path of another.
    - [TxCore]: the TXT buffers of the core as a state machine; [TxSystem]:
      driver and core together.
    - [TxtBuf]: a TXT buffer of the core ([src/src/txt_buffer/], VHDL), one clock cycle at a time: state
      machine, memory, masking; [TxArb]: the TX arbitrator ([src/src/tx_arbitrator/]: priority decoder, state machine,
      metadata registers) with the buffers and registers around it, [tx_tick] is one clock cycle of all;
      [TxPrio]: the decoder computes a maximum; [TxFsm], [TxInv]: the protocol of the
      environment ([cycle_ok]) and the invariant of the registers; [TxLive]: a ready buffer is offered;
      [TxRefine]: the design is an instance of [TxCore]; [TxOnRtl]: the transmit path of the driver on it.
    - [BaseErr]: [ctucan_err_interrupt]; [BaseIrq]: [ctucan_interrupt], [ctucan_chip_stop].
    - [Resources]: what is taken from the kernel and given back, on the trace;
      [BaseDev]: open, close, error counters.
    - [Host]: a bus device with its driver data and the allocated network devices;
      [Probe]: [ctucan_probe_common], suspend and resume, with the interface
      [DrvdataFnc] of the callback; [Platform], [Pci]: [ctucanfd_platform.c] and
      [ctucanfd_pci.c], which implement it.
    - [Endian]: the driver with big-endian accessors.  [Session]: the kernel driver as
      a whole, over all sequences of calls of one device; [keeps] is the logic for properties of all runs.
    - [IntMan]: the interrupt manager of the core ([src/src/interrupt_manager/], VHDL), one clock cycle at a
      time; [RxIrq]: masking, acknowledging, scheduling and unmasking of the receive interrupt in all runs of the
      driver, as automata, and how a poll ends; [Wake]: handlers, NAPI (the class [Napi], which calls the polls and
      looks at what they return) and interrupt manager together.
    - [Hw]: [ctucanfd_hw.c] and the inline functions of [ctucanfd_hw.h];
      [HwEquiv]: agreement with the kernel driver; [HwSpec]: what the functions do.
    - [Bittiming]: the calculation of bit timing of [ctucanfd_linux_defs.c];
      [Timing]: from bit rates to registers, as the start of [ctucanfd_userspace.cpp].
    - [Regtest]: [regtest.cpp] and [userspace_utils.cpp]; [Cli]: [getopt], [strtoul] and the
      reading of text files; [PciFind]: [pci_find_dev] of
      [ctucanfd_userspace.cpp]; [UserTool]: the rest of this file, from the command line to
      the monitoring loop; [Monitor]: what the loop prints.
    - [Kvaser]: [kvaser.c]; [Format]: formatted output; [StpLog]: [parse_stp_output]
      of [data_processor.c]; [Stp]: [stp.c]; [Logger]: the rest of
      [data_processor.c] and [kvalt_logger.c].

    ** What the theorems show

    - Transmission.  [ctucan_start_xmit] has exactly the outcomes [xmit] and
      [ctucan_tx_interrupt] the behaviour [tx_run]: the oldest buffers are
      completed one after the other, priorities are rotated before a buffer is
      released, each completed buffer is counted once, the lock is held
      for commands and priorities.  The [k]-th oldest buffer keeps priority [7 - k].
      Together with the core, which only knows priorities, frames are sent in
      the order in which they were queued, whatever the interleaving of the
      two handlers and the core ([tx_fifo]) and for every sequence of calls of the code
      ([tx_code_fifo]); a free buffer is always writable.
    - The TXT buffers and their arbitrator: the comparator tree finds the first buffer of the highest
      priority ([priority_decoder_spec]), every run of the cycle-accurate design is a run of the core against which
      the driver is verified, the frames presented to the protocol control included ([tx_rtl_refines_core]), and
      a ready buffer is offered after at most 12 cycles without disturbance ([ready_buffer_offered]).
      Together: first in, first out, from the C functions to the registers of the design ([tx_code_on_rtl]).
    - Reception.  [ctucan_rx] and [ctucan_rx_poll] refine a queue of frames:
      frames are delivered in order, each once, also when the allocation of a
      buffer fails, and within the NAPI quota.
    - The RX buffer: pointers, counters, memory and state machine have in every cycle the outputs of a
      bounded queue of whole frames ([rx_buffer_refines_queue]), a frame that fits is stored as a whole
      ([received_frame_stored]), and the buffer satisfies the interfaces on which the
      reception theorems of both drivers rest ([rtl_buffer_contracts]).  An error frame whose last
      word does not fit breaks it ([err_frame_truncated]).
    - Wake-up: however the interrupt handler, the poll and the other functions are interleaved with each other
      and with the core, as long as there are frames in the RX FIFO NAPI is going to call the poll or the interrupt is
      requested ([reception_never_sleeps]; [rx_poll_budget]: a poll that was not completed has used up its
      quota or could not allocate a buffer).  Not so when the interrupt comes while [ctucan_open] has not yet enabled
      polling ([early_interrupt_lost]), nor after a failed allocation ([failed_alloc_sleeps]).
    - Round trip: a frame sent with the words of [ctucan_insert_frame] is
      decoded as the same frame.
    - Errors and interrupts: the reported state and error frame for all
      register contents; the loop of [ctucan_interrupt] and its exit; the two defects found
      there are theorems as well.
    - Configuration and life cycle: bit timing is written without truncation within
      the limits of the device, the core is enabled last, [ctucan_open],
      [ctucan_close] and [ctucan_probe_common] hold or release their resources on every
      path; binding and unbinding a platform device or a board of several cores
      leaves everything as it was and accesses no freed device.
    - The driver as a whole: over every sequence of calls that the kernel may make,
      the interface holds its resources exactly while it is open, a reset leaves no
      stale words, and only whole frames are delivered ([driver_session_safe]).
    - Byte order: with big-endian accessors every entry point does what it does with
      little-endian ones on a core with swapped words.
    - Userspace layer: equal words and equal runs as the kernel driver where
      the functions correspond, exact effect on the fields of a register, and
      a consistent 64-bit timestamp.
    - Bit timing: the calculation finds the smallest bit rate error among all
      settings it searches; if any segments within the limits of the controller give a sample point up to the nominal
      one ([reachable], which does not mention the code), those it returns are within the limits and
      give the latest such sample point; and what is programmed from it is not truncated.
    - Register headers: all offsets of the two headers agree, and for all words and values a mask of the one
      reads and assigns what a member of a union of the other does ([headers_agree]).
    - Tools: the register test maps what it accesses and has the right verdict; the
      search for a device agrees with the list of all matches in pre-order; the options of the
      userspace tool are read back; it sets both bit timings before it enables the
      core, and while monitoring it prints exactly the frames of the RX FIFO, in order.
    - Logger: generated frames are well-formed; what is written for an exported
      file is the documented run-length code of its samples with every count after the first one too small by one
      ([parse_stp_code]); a log line identifies its frame; a run does its
      steps in order and, for arguments that fit, overflows no buffer.

    ** Assumptions on the other side

    [le_dev]: the theorems that speak of register addresses are for the little-endian
    accessors; [Endian] carries them over to the other ones (the resource theorems and the
    equivalences of [HwEquiv] hold for both).  [RandOk], [PageOk]: the range of [rand],
    and a page size that is a power of two.  [frame_wf], [sendable]: what the network layer
    promises of a frame.  [Napi]: what the documentation of the kernel says of scheduling a poll, of completing it and
    of its return value; [good_poll] leaves out the polls for which it says nothing.  [ring_wf], [ring_pow2]: one to eight TXT buffers,
    their number a divisor of 2^32.  [RxDevice], [RxCore] (a reset empties the FIFO), [RxMem]
    (the memory information agrees), [TsDevice], [core_step] and
    [dev_ev]: the RX FIFO, the timestamp counter and the TXT buffers of the core
    (from [src/src/rx_buffer/], [src/src/txt_buffer/txt_buffer_fsm.vhd] and
    [src/src/tx_arbitrator/]), without parity errors and aborts.  The first three are proved of the
    RX buffer in [RxSystem]; there [protocol] is what the CAN core must do: the assertions of the
    VHDL sources and three things they leave out ([relied_on]).  The last two are proved of the TXT buffers and
    the arbitrator in [TxRefine]; there [cycle_ok] is what the protocol control and the bus must do (a
    buffer is locked only in the cycle after it was offered, a failure of all buffers lasts three
    cycles, a cycle without access follows a command), and [accesses_ok] and [cmds_ok] what the software
    must do, which [TxOnRtl] proves of the driver.

    ** Fuel

    Loops that C bounds by a counter or by a length have that bound as fuel
    (101 polls of the reset, 16 payload words, 10000 iterations of the
    interrupt handler, the NAPI quota, the settings of the bit timing search); the loops of [ctucan_tx_interrupt] have one more than
    the number of buffers in use, the loops over the cores of a board the
    number of cores, the parser and the directory search the
    size of their input.  As [wp] excludes running out of fuel, the
    specifications show that these are enough.  The monitoring loop of the userspace tool does not end,
    and prints frames as long as some arrive: [monitor] and [drain] are its first iterations, and their
    result says whether there are more.

    ** Not modelled

    The layout of the output on the terminal beyond formats and arguments (and the output of
    the register test and the logger) and tables of device identifiers.  Of the VHDL: everything
    beyond the RX buffer, the TXT buffers, the TX arbitrator and the interrupt manager with the registers next to them.  The protocol
    control, bit stream processing and the bit time logic are the environment of these designs, constrained only by
    the conditions named above; the parity bits and test ports of the memories are left out (a parity error of a
    TXT buffer is an input that is defined and never active in the theorems, as are the backup mode
    and the abort command, which no driver here uses).  Kernel and library functions are calls whose
    results are arbitrary; their effects on the other side are not modelled. *)

From Stdlib Require Import ZArith Lia.
From stdpp Require Import base numbers list strings.

#[local] Open Scope Z_scope.

(** ** C integer types *)

(** Conversion to the unsigned C types of 8, 16, 32 and 64 bits. *)
Definition u8 (x : Z) : Z := x mod 2 ^ 8.

Definition u16 (x : Z) : Z := x mod 2 ^ 16.

Definition u32 (x : Z) : Z := x mod 2 ^ 32.

Definition u64 (x : Z) : Z := x mod 2 ^ 64.

(** Conversion to [int] (two's complement, 32 bits). *)
Definition s32 (x : Z) : Z :=
  let y := u32 x in if y <? 2 ^ 31 then y else y - 2 ^ 32.

(** A value of type [u32]. *)
Definition is_u32 (x : Z) : Prop := 0 <= x < 2 ^ 32.

(** The truth value of a C integer. *)
Definition nz (x : Z) : bool := negb (x =? 0).

(** ** Bit masks: [BIT], [GENMASK], [FIELD_GET] and [FIELD_PREP] *)

Definition BIT (n : Z) : Z := Z.shiftl 1 n.

Definition GENMASK (h l : Z) : Z := Z.shiftl (Z.ones (h - l + 1)) l.

(** [__bf_shf]: the index of the lowest set bit of a mask. *)
Fixpoint pos_ctz (p : positive) : Z :=
  match p with
  | xO q => 1 + pos_ctz q
  | _ => 0
  end.

Definition bf_shf (mask : Z) : Z :=
  match mask with
  | Zpos p => pos_ctz p
  | _ => 0
  end.

Definition FIELD_GET (mask reg : Z) : Z := Z.shiftr (Z.land reg mask) (bf_shf mask).

Definition FIELD_PREP (mask val : Z) : Z := Z.land (Z.shiftl val (bf_shf mask)) mask.

(** ** Lemmas on machine integers *)

Lemma u32_range x : is_u32 (u32 x).
Proof. unfold is_u32, u32. apply Z.mod_pos_bound. lia. Qed.

Lemma u32_small x : is_u32 x → u32 x = x.
Proof. unfold is_u32, u32. apply Z.mod_small. Qed.

Lemma u32_idemp x : u32 (u32 x) = u32 x.
Proof. apply u32_small, u32_range. Qed.

Lemma nz_true x : nz x = true ↔ x ≠ 0.
Proof. unfold nz. destruct (Z.eqb_spec x 0); naive_solver. Qed.

Lemma nz_false x : nz x = false ↔ x = 0.
Proof. unfold nz. destruct (Z.eqb_spec x 0); naive_solver. Qed.

(** A boolean test on the integers below a bound, decided by computation. *)
Lemma Z_range_forallb (n : nat) (P : Z → bool) :
  forallb (λ k, P (Z.of_nat k)) (seq 0 n) = true →
  ∀ z, 0 <= z < Z.of_nat n → P z = true.
Proof.
  intros H z Hz. rewrite forallb_forall in H. specialize (H (Z.to_nat z)).
  rewrite Z2Nat.id in H by lia. apply H, in_seq. lia.
Qed.

(** ** Lemmas on bits *)

Lemma testbit_u32 x i : 0 <= i → Z.testbit (u32 x) i = Z.testbit x i && (i <? 32).
Proof.
  intros Hi. unfold u32. destruct (Z.ltb_spec i 32).
  - by rewrite Z.mod_pow2_bits_low, andb_true_r.
  - rewrite Z.mod_pow2_bits_high by lia. by rewrite andb_false_r.
Qed.

Lemma testbit_above n x i : 0 <= x < 2 ^ n → 0 <= n <= i → Z.testbit x i = false.
Proof.
  intros Hx Hi. rewrite <- (Z.mod_small x (2 ^ n)) by done.
  apply Z.mod_pow2_bits_high. lia.
Qed.

Lemma bits_eq n x y :
  0 <= n → 0 <= x < 2 ^ n → 0 <= y < 2 ^ n →
  (∀ i, 0 <= i < n → Z.testbit x i = Z.testbit y i) → x = y.
Proof.
  intros Hn Hx Hy H. apply Z.bits_inj'. intros i Hi.
  destruct (Z.lt_ge_cases i n); [by apply H|].
  by rewrite !(testbit_above n).
Qed.

(** A word composed of a high and a low part. *)
Lemma lor_shiftl_add a b k : 0 <= k → 0 <= b < 2 ^ k → Z.lor (Z.shiftl a k) b = a * 2 ^ k + b.
Proof.
  intros Hk Hb. assert (Hd : Z.land (Z.shiftl a k) b = 0).
  { apply Z.bits_inj'. intros i Hi. rewrite Z.land_spec, Z.shiftl_spec, Z.bits_0 by done.
    destruct (Z.lt_ge_cases i k); [by rewrite Z.testbit_neg_r by lia|].
    rewrite (testbit_above k b) by lia. apply andb_false_r. }
  rewrite <- Z.lxor_lor, <- Z.add_nocarry_lxor, Z.shiftl_mul_pow2 by done. done.
Qed.

Lemma land_u32_r x m : is_u32 m → is_u32 (Z.land x m).
Proof.
  unfold is_u32. intros Hm. split; [apply Z.land_nonneg; lia|].
  destruct (Z.eq_dec (Z.land x m) 0) as [->|]; [lia|].
  apply Z.log2_lt_pow2; [assert (0 <= Z.land x m) by (apply Z.land_nonneg; lia); lia|].
  apply Z.nle_gt. intros Hl.
  assert (Hb : Z.testbit (Z.land x m) (Z.log2 (Z.land x m)) = true).
  { apply Z.bit_log2. assert (0 <= Z.land x m) by (apply Z.land_nonneg; lia). lia. }
  rewrite Z.land_spec, (testbit_above 32 m) in Hb by lia.
  by rewrite andb_false_r in Hb.
Qed.

Lemma lor_u32 x y : is_u32 x → is_u32 y → is_u32 (Z.lor x y).
Proof.
  unfold is_u32. intros Hx Hy. split; [apply Z.lor_nonneg; lia|].
  destruct (Z.eq_dec (Z.lor x y) 0) as [->|]; [lia|].
  assert (0 <= Z.lor x y) by (apply Z.lor_nonneg; lia).
  apply Z.log2_lt_pow2; [lia|]. apply Z.nle_gt. intros Hl.
  assert (Hb : Z.testbit (Z.lor x y) (Z.log2 (Z.lor x y)) = true) by (apply Z.bit_log2; lia).
  by rewrite Z.lor_spec, !(testbit_above 32) in Hb by lia.
Qed.

Lemma testbit_BIT n i : 0 <= n → 0 <= i → Z.testbit (BIT n) i = (i =? n).
Proof.
  intros Hn Hi. unfold BIT. rewrite Z.shiftl_1_l, Z.pow2_bits_eqb by done.
  destruct (Z.eqb_spec n i), (Z.eqb_spec i n); lia.
Qed.

Lemma testbit_ones w i : 0 <= w → 0 <= i → Z.testbit (Z.ones w) i = (i <? w).
Proof.
  intros Hw Hi. destruct (Z.ltb_spec i w).
  - by rewrite Z.ones_spec_low.
  - by rewrite Z.ones_spec_high.
Qed.

Lemma testbit_GENMASK h l i :
  0 <= l <= h → 0 <= i → Z.testbit (GENMASK h l) i = (l <=? i) && (i <=? h).
Proof.
  intros Hl Hi. unfold GENMASK. rewrite Z.shiftl_spec by done.
  destruct (Z.leb_spec l i); simpl.
  - rewrite testbit_ones by lia. destruct (Z.ltb_spec (i - l) (h - l + 1)), (Z.leb_spec i h); lia.
  - apply Z.testbit_neg_r. lia.
Qed.

Lemma pos_ctz_nonneg p : 0 <= pos_ctz p.
Proof. induction p; simpl; lia. Qed.

Lemma bf_shf_nonneg m : 0 <= bf_shf m.
Proof. destruct m; simpl; try lia. apply pos_ctz_nonneg. Qed.

Lemma testbit_pos_ctz_low p i : 0 <= i < pos_ctz p → Z.testbit (Zpos p) i = false.
Proof.
  revert i. induction p as [p IH|p IH|]; intros i; simpl; [lia| |lia].
  intros Hi. rewrite Pos2Z.inj_xO.
  destruct (Z.eq_dec i 0) as [->|]; [apply Z.testbit_even_0|].
  replace i with (Z.succ (i - 1)) by lia. rewrite Z.testbit_even_succ by lia.
  apply IH. lia.
Qed.

Lemma testbit_bf_shf_low m i : 0 <= m → 0 <= i < bf_shf m → Z.testbit m i = false.
Proof. destruct m; simpl; try lia. intros _. apply testbit_pos_ctz_low. Qed.

Lemma bf_shf_GENMASK h l : 0 <= l <= h → bf_shf (GENMASK h l) = l.
Proof.
  intros Hl. assert (Hm : 0 < GENMASK h l).
  { unfold GENMASK. rewrite Z.ones_equiv, Z.shiftl_mul_pow2 by lia.
    apply Z.mul_pos_pos; [|lia].
    assert (2 ^ 1 <= 2 ^ (h - l + 1)) by (apply Z.pow_le_mono_r; lia). lia. }
  destruct (GENMASK h l) as [|p|p] eqn:E; [lia| |lia]. simpl.
  assert (Hlow : ∀ p, Z.testbit (Zpos p) (pos_ctz p) = true).
  { clear. induction p as [p IH|p IH|]; simpl; [done| |done].
    rewrite Pos2Z.inj_xO. replace (1 + pos_ctz p) with (Z.succ (pos_ctz p)) by lia.
    rewrite Z.testbit_even_succ by apply pos_ctz_nonneg. done. }
  specialize (Hlow p). rewrite <- E, testbit_GENMASK in Hlow by (try lia; apply pos_ctz_nonneg).
  destruct (Z.lt_ge_cases l (pos_ctz p)); [|lia].
  assert (Hf : Z.testbit (Zpos p) l = false) by (apply testbit_pos_ctz_low; lia).
  rewrite <- E, testbit_GENMASK in Hf by lia. lia.
Qed.

(** ** The laws of [FIELD_GET] and [FIELD_PREP] *)

Lemma testbit_FIELD_GET m x i :
  0 <= i → Z.testbit (FIELD_GET m x) i = Z.testbit x (i + bf_shf m) && Z.testbit m (i + bf_shf m).
Proof.
  intros Hi. unfold FIELD_GET. rewrite Z.shiftr_spec by done. apply Z.land_spec.
Qed.

Lemma testbit_FIELD_PREP m v i :
  0 <= i → Z.testbit (FIELD_PREP m v) i = Z.testbit v (i - bf_shf m) && Z.testbit m i.
Proof.
  intros Hi. unfold FIELD_PREP. rewrite Z.land_spec, Z.shiftl_spec by done. done.
Qed.

Lemma BIT_GENMASK n : BIT n = GENMASK n n.
Proof. unfold BIT, GENMASK. by replace (n - n + 1) with 1 by lia. Qed.

Lemma FIELD_GET_GENMASK h l x :
  0 <= l <= h → FIELD_GET (GENMASK h l) x = Z.shiftr x l mod 2 ^ (h - l + 1).
Proof.
  intros Hl. apply Z.bits_inj'. intros i Hi.
  pose proof (bf_shf_nonneg (GENMASK h l)).
  rewrite testbit_FIELD_GET, bf_shf_GENMASK, testbit_GENMASK by lia.
  destruct (Z.lt_ge_cases i (h - l + 1)).
  - rewrite Z.mod_pow2_bits_low, Z.shiftr_spec by lia.
    replace ((l <=? i + l) && (i + l <=? h)) with true by lia. by rewrite andb_true_r.
  - rewrite Z.mod_pow2_bits_high by lia.
    replace ((l <=? i + l) && (i + l <=? h)) with false by lia. by rewrite andb_false_r.
Qed.

Lemma FIELD_GET_range h l x :
  0 <= l <= h → 0 <= FIELD_GET (GENMASK h l) x < 2 ^ (h - l + 1).
Proof.
  intros Hl. rewrite FIELD_GET_GENMASK by done. apply Z.mod_pos_bound.
  apply Z.pow_pos_nonneg; lia.
Qed.

Lemma FIELD_GET_nonneg m x : 0 <= m → 0 <= FIELD_GET m x.
Proof. intros. unfold FIELD_GET. apply Z.shiftr_nonneg, Z.land_nonneg. by right. Qed.

Lemma FIELD_GET_BIT n x : 0 <= n → FIELD_GET (BIT n) x = Z.b2z (Z.testbit x n).
Proof.
  intros Hn. rewrite BIT_GENMASK, FIELD_GET_GENMASK by lia.
  replace (n - n + 1) with 1 by lia. rewrite Z.testbit_spec' by done.
  by rewrite Z.shiftr_div_pow2.
Qed.

Lemma nz_FIELD_GET_BIT n x : 0 <= n → nz (FIELD_GET (BIT n) x) = Z.testbit x n.
Proof. intros Hn. rewrite FIELD_GET_BIT by done. by destruct (Z.testbit x n). Qed.

Lemma FIELD_GET_lor m x y :
  FIELD_GET m (Z.lor x y) = Z.lor (FIELD_GET m x) (FIELD_GET m y).
Proof. unfold FIELD_GET. by rewrite Z.land_lor_distr_l, Z.shiftr_lor. Qed.

(** A field reads back the value that was prepared for it. *)
Lemma FIELD_GET_PREP h l v :
  0 <= l <= h → FIELD_GET (GENMASK h l) (FIELD_PREP (GENMASK h l) v) = v mod 2 ^ (h - l + 1).
Proof.
  intros Hl. apply Z.bits_inj'. intros i Hi.
  rewrite testbit_FIELD_GET, testbit_FIELD_PREP, bf_shf_GENMASK, testbit_GENMASK by
    (rewrite ?bf_shf_GENMASK; lia).
  replace (i + l - l) with i by lia.
  destruct (Z.lt_ge_cases i (h - l + 1)).
  - rewrite Z.mod_pow2_bits_low by lia.
    replace ((l <=? i + l) && (i + l <=? h)) with true by lia. by rewrite !andb_true_r.
  - rewrite Z.mod_pow2_bits_high by lia.
    replace ((l <=? i + l) && (i + l <=? h)) with false by lia. by rewrite !andb_false_r.
Qed.

(** Operations on one field leave a disjoint field alone. *)
Lemma FIELD_GET_disjoint m m' x :
  Z.land m m' = 0 → FIELD_GET m (Z.land x m') = 0.
Proof.
  intros H. unfold FIELD_GET. rewrite <- Z.land_assoc, (Z.land_comm m' m), H.
  by rewrite Z.land_0_r, Z.shiftr_0_l.
Qed.

Lemma FIELD_GET_PREP_ne m m' v : Z.land m m' = 0 → FIELD_GET m (FIELD_PREP m' v) = 0.
Proof. apply FIELD_GET_disjoint. Qed.

Lemma FIELD_GET_mask_ne m m' : Z.land m m' = 0 → FIELD_GET m m' = 0.
Proof.
  intros H. rewrite <- (Z.land_diag m'). by apply FIELD_GET_disjoint.
Qed.

Lemma FIELD_GET_set_ne m m' x :
  Z.land m m' = 0 → FIELD_GET m (Z.lor x m') = FIELD_GET m x.
Proof. intros H. by rewrite FIELD_GET_lor, (FIELD_GET_mask_ne m m'), Z.lor_0_r. Qed.

Lemma FIELD_GET_clear_ne m m' x :
  Z.land m m' = 0 → FIELD_GET m (Z.land x (Z.lnot m')) = FIELD_GET m x.
Proof.
  intros H. unfold FIELD_GET. f_equal. apply Z.bits_inj'. intros i Hi.
  rewrite !Z.land_spec, Z.lnot_spec by done.
  assert (Hb : Z.testbit m i && Z.testbit m' i = false) by (by rewrite <- Z.land_spec, H, Z.bits_0).
  destruct (Z.testbit x i), (Z.testbit m i), (Z.testbit m' i); done.
Qed.

Lemma FIELD_GET_clear_eq m x : FIELD_GET m (Z.land x (Z.lnot m)) = 0.
Proof.
  unfold FIELD_GET. rewrite <- Z.land_assoc, (Z.land_comm (Z.lnot m)), Z.land_lnot_diag.
  by rewrite Z.land_0_r, Z.shiftr_0_l.
Qed.

Lemma testbit_set x n i : 0 <= n → 0 <= i → Z.testbit (Z.lor x (BIT n)) i = Z.testbit x i || (i =? n).
Proof. intros. by rewrite Z.lor_spec, testbit_BIT. Qed.

Lemma testbit_clear x n i :
  0 <= n → 0 <= i → Z.testbit (Z.land x (Z.lnot (BIT n))) i = Z.testbit x i && negb (i =? n).
Proof. intros. by rewrite Z.land_spec, Z.lnot_spec, testbit_BIT. Qed.

Lemma land_BIT_nz x n : 0 <= n → nz (Z.land x (BIT n)) = Z.testbit x n.
Proof.
  intros Hn. destruct (Z.testbit x n) eqn:E.
  - apply nz_true. intros H0.
    assert (Hb : Z.testbit (Z.land x (BIT n)) n = true)
      by (rewrite Z.land_spec, E, testbit_BIT, Z.eqb_refl; lia).
    by rewrite H0, Z.bits_0 in Hb.
  - apply nz_false, Z.bits_inj'. intros i Hi.
    rewrite Z.bits_0, Z.land_spec, testbit_BIT by lia.
    destruct (Z.eqb_spec i n) as [->|]; [by rewrite E|apply andb_false_r].
Qed.

(** *** Contiguous masks, checked by computation *)

Definition mask_width (m : Z) : Z := Z.log2 (Z.shiftr m (bf_shf m)) + 1.

Definition mask_ok (m : Z) : bool := m =? GENMASK (bf_shf m + mask_width m - 1) (bf_shf m).

Lemma mask_width_pos m : 0 < mask_width m.
Proof. unfold mask_width. pose proof (Z.log2_nonneg (Z.shiftr m (bf_shf m))). lia. Qed.

Lemma mask_ok_GENMASK m :
  mask_ok m = true → ∃ h l, 0 <= l <= h ∧ h - l + 1 = mask_width m ∧ m = GENMASK h l.
Proof.
  unfold mask_ok. rewrite Z.eqb_eq. intros Hm.
  pose proof (bf_shf_nonneg m). pose proof (mask_width_pos m).
  eexists _, _. split_and!; [| | |exact Hm]; lia.
Qed.

Lemma FIELD_GET_PREP_eq m v :
  mask_ok m = true → 0 <= v < 2 ^ mask_width m → FIELD_GET m (FIELD_PREP m v) = v.
Proof.
  intros (h & l & Hl & Hw & Hm)%mask_ok_GENMASK Hv. rewrite <- Hw in Hv. rewrite Hm.
  rewrite FIELD_GET_PREP by done. by apply Z.mod_small.
Qed.

Lemma FIELD_GET_mask_range m x :
  mask_ok m = true → 0 <= FIELD_GET m x < 2 ^ mask_width m.
Proof.
  intros (h & l & Hl & Hw & Hm)%mask_ok_GENMASK. rewrite <- Hw, Hm.
  by apply FIELD_GET_range.
Qed.

Lemma FIELD_PREP_u32 m v : is_u32 m → is_u32 (FIELD_PREP m v).
Proof. apply land_u32_r. Qed.

(** ** Tactics *)

Ltac by_compute := vm_compute; first [reflexivity | split; [discriminate | reflexivity]].

(** Bounds of the form [0 <= v < 2 ^ mask_width m] for a mask constant [m]. *)
Ltac mask_bound :=
  repeat match goal with
  | |- context [2 ^ mask_width ?m] =>
      let w := eval vm_compute in (2 ^ mask_width m) in change (2 ^ mask_width m) with w
  end; lia.

(** Read the fields of a word assembled with [FIELD_PREP]. *)
Ltac field_simpl :=
  rewrite ?FIELD_GET_lor;
  repeat match goal with
  | |- context [FIELD_GET ?m (FIELD_PREP ?m' ?v)] =>
      first
        [ rewrite (FIELD_GET_PREP_eq m v) by first [by_compute | mask_bound]
        | rewrite (FIELD_GET_PREP_ne m m' v) by by_compute ]
  end;
  rewrite ?Z.lor_0_r, ?Z.lor_0_l.

(** ** Hints

    [auto with u32] shows that a word assembled from fields and masks fits in 32 bits. *)
Create HintDb u32 discriminated.

#[export] Hint Resolve u32_range lor_u32 land_u32_r FIELD_PREP_u32 : u32.

#[export] Hint Extern 1 (is_u32 (GENMASK _ _)) => by_compute : u32.
#[export] Hint Extern 1 (is_u32 (BIT _)) => by_compute : u32.
#[export] Hint Extern 2 (is_u32 ?c) => is_const c; by_compute : u32.
#[export] Hint Extern 2 (is_u32 (Zpos _)) => by_compute : u32.
#[export] Hint Extern 2 (is_u32 0) => by_compute : u32.
