(* ===== verification/Bitfield.v ===== *)
(** * Register unions: C bit-fields overlaid on a [uint32_t]

    [ctucanfd_regs.h] and [ctucanfd_frame.h] describe every register as a union
    of a word [u32] and a structure [s] of bit-fields, declared once for
    little-endian and once, in reverse order, for big-endian bit-field
    allocation.  This file gives such unions a meaning (the positions of their
    fields, reading [reg.s.f] and assigning [reg.s.f = v]) and proves the laws
    of the two operations once for every well-formed union. *)

From Stdlib Require Import ZArith Lia.
From stdpp Require Import base numbers list strings.
From S2P Require Import Prelude.

#[local] Open Scope Z_scope.

(** The fields of a register, with their widths, in the order of the
    [__LITTLE_ENDIAN_BITFIELD] branch and in the order of the other branch. *)
Record bitfield_union := {
  bu_le : list (string * Z);
  bu_be : list (string * Z);
}.

(** Little-endian allocation: the first field takes the least significant bits. *)
Fixpoint locate_le (fs : list (string * Z)) (off : Z) (f : string) : option (Z * Z) :=
  match fs with
  | [] => None
  | (g, w) :: fs' => if String.eqb f g then Some (off, w) else locate_le fs' (off + w) f
  end.

(** Big-endian allocation: the first field takes the most significant bits
    below [top]. *)
Fixpoint locate_be (fs : list (string * Z)) (top : Z) (f : string) : option (Z * Z) :=
  match fs with
  | [] => None
  | (g, w) :: fs' => if String.eqb f g then Some (top - w, w) else locate_be fs' (top - w) f
  end.

Definition total_width (fs : list (string * Z)) : Z := foldr (λ p n, snd p + n) 0 fs.

Definition locate (u : bitfield_union) (f : string) : option (Z * Z) := locate_le (bu_le u) 0 f.

Definition field_mask (lo w : Z) : Z := GENMASK (lo + w - 1) lo.

(** [reg.s.f] *)
Definition bf_get (u : bitfield_union) (f : string) (x : Z) : Z :=
  match locate u f with
  | Some (lo, w) => FIELD_GET (field_mask lo w) x
  | None => 0
  end.

(** [reg.s.f = v]: the value is truncated to the width of the field. *)
Definition bf_set (u : bitfield_union) (f : string) (v x : Z) : Z :=
  match locate u f with
  | Some (lo, w) =>
      Z.lor (Z.land x (Z.lnot (field_mask lo w))) (FIELD_PREP (field_mask lo w) v)
  | None => x
  end.

(** A union is well formed when its fields have positive widths that fill the
    32 bits, distinct names, and the big-endian branch lists them in reverse. *)
Definition bu_wf (u : bitfield_union) : Prop :=
  Forall (λ p, 0 < snd p) (bu_le u) ∧ total_width (bu_le u) = 32 ∧
  NoDup (fst <$> bu_le u) ∧ bu_be u = reverse (bu_le u).

#[export] Instance bu_wf_dec u : Decision (bu_wf u).
Proof. unfold bu_wf. apply _. Defined.

(** ** Where the fields are *)

Lemma locate_le_in fs off f lo w :
  locate_le fs off f = Some (lo, w) → (f, w) ∈ fs.
Proof.
  revert off. induction fs as [|[g v] fs IH]; intros off; simpl; [done|].
  destruct (String.eqb_spec f g) as [->|]; [intros [= <- <-]; left|].
  intros H. right. by eapply IH.
Qed.

Lemma locate_le_range fs off f lo w :
  Forall (λ p, 0 < snd p) fs → locate_le fs off f = Some (lo, w) →
  off <= lo ∧ 0 < w ∧ lo + w <= off + total_width fs.
Proof.
  revert off. induction fs as [|[g v] fs IH]; intros off; simpl; [done|].
  rewrite Forall_cons. intros [Hv Hfs]. simpl in Hv.
  assert (0 <= total_width fs).
  { clear IH. induction Hfs as [|? ? ? _ IH]; simpl; lia. }
  destruct (String.eqb_spec f g); [intros [= <- <-]; unfold total_width in *; lia|].
  intros H'. destruct (IH (off + v) Hfs H'). unfold total_width in *. lia.
Qed.

Lemma locate_range u f lo w :
  bu_wf u → locate u f = Some (lo, w) → 0 <= lo ∧ 0 < w ∧ lo + w <= 32.
Proof.
  intros (Hw & Ht & _) H. apply locate_le_range in H; [|done]. rewrite Ht in H. lia.
Qed.

Lemma locate_le_disjoint fs off f g lo w lo' w' :
  Forall (λ p, 0 < snd p) fs → f ≠ g →
  locate_le fs off f = Some (lo, w) → locate_le fs off g = Some (lo', w') →
  lo + w <= lo' ∨ lo' + w' <= lo.
Proof.
  revert off. induction fs as [|[h v] fs IH]; intros off; simpl; [done|].
  rewrite Forall_cons. intros [Hv Hfs] Hne.
  destruct (String.eqb_spec f h) as [->|], (String.eqb_spec g h) as [->|]; [done|..].
  - intros [= <- <-] H. apply locate_le_range in H; [|done]. lia.
  - intros H [= <- <-]. apply locate_le_range in H; [|done]. lia.
  - by apply IH.
Qed.

Lemma locate_le_not_in fs off f : f ∉ (fst <$> fs) → locate_le fs off f = None.
Proof.
  revert off. induction fs as [|[g v] fs IH]; intros off; simpl; [done|].
  rewrite not_elem_of_cons. intros [Hne Hin].
  destruct (String.eqb_spec f g); [done|]. by apply IH.
Qed.

Lemma locate_be_app fs gs top f :
  locate_be (fs ++ gs) top f =
    match locate_be fs top f with
    | Some r => Some r
    | None => locate_be gs (top - total_width fs) f
    end.
Proof.
  revert top. induction fs as [|[g v] fs IH]; intros top; simpl; [by rewrite Z.sub_0_r|].
  destruct (String.eqb f g); [done|]. rewrite IH.
  by replace (top - v - total_width fs) with (top - (v + total_width fs)) by lia.
Qed.

Lemma total_width_app fs gs : total_width (fs ++ gs) = total_width fs + total_width gs.
Proof. induction fs as [|[g v] fs IH]; simpl; [done|]. rewrite IH. unfold total_width. lia. Qed.

Lemma total_width_reverse fs : total_width (reverse fs) = total_width fs.
Proof.
  induction fs as [|[g v] fs IH]; [done|].
  rewrite reverse_cons, total_width_app, IH. simpl. lia.
Qed.

Lemma locate_be_reverse fs off f :
  NoDup (fst <$> fs) →
  locate_be (reverse fs) (off + total_width fs) f = locate_le fs off f.
Proof.
  revert off. induction fs as [|[g v] fs IH]; intros off; [done|]. simpl.
  rewrite NoDup_cons. intros [Hg Hnd].
  rewrite reverse_cons, locate_be_app, total_width_reverse.
  replace (off + (v + total_width fs)) with ((off + v) + total_width fs) by lia.
  rewrite IH by done. simpl.
  destruct (String.eqb_spec f g) as [->|].
  - rewrite locate_le_not_in by done. do 2 f_equal. lia.
  - by destruct (locate_le fs (off + v) f).
Qed.

(** The two branches of a well-formed union put every field at the same bits. *)
Lemma locate_endian u f : bu_wf u → locate_be (bu_be u) 32 f = locate u f.
Proof.
  intros (_ & Ht & Hnd & ->). unfold locate.
  rewrite <- (locate_be_reverse _ 0) by done. by rewrite Ht.
Qed.

(** ** The laws of field access *)

Lemma field_mask_disjoint lo w lo' w' :
  0 <= lo → 0 < w → 0 <= lo' → 0 < w' → lo + w <= lo' ∨ lo' + w' <= lo →
  Z.land (field_mask lo w) (field_mask lo' w') = 0.
Proof.
  intros ? ? ? ? Hd. apply Z.bits_inj'. intros i Hi. unfold field_mask.
  rewrite Z.land_spec, !testbit_GENMASK, Z.bits_0 by lia. lia.
Qed.

Lemma bf_get_set_eq u f lo w v x :
  bu_wf u → locate u f = Some (lo, w) → bf_get u f (bf_set u f v x) = v mod 2 ^ w.
Proof.
  intros Hwf Hf. destruct (locate_range _ _ _ _ Hwf Hf) as (? & ? & ?).
  unfold bf_get, bf_set. rewrite Hf, FIELD_GET_lor, FIELD_GET_clear_eq, Z.lor_0_l.
  unfold field_mask. rewrite FIELD_GET_PREP by lia. do 2 f_equal. lia.
Qed.

Lemma bf_get_set_ne u f g v x :
  bu_wf u → f ≠ g → bf_get u g (bf_set u f v x) = bf_get u g x.
Proof.
  intros Hwf Hne. unfold bf_get, bf_set.
  destruct (locate u f) as [[lo w]|] eqn:Hf; [|done].
  destruct (locate u g) as [[lo' w']|] eqn:Hg; [|done].
  destruct (locate_range _ _ _ _ Hwf Hf) as (? & ? & ?).
  destruct (locate_range _ _ _ _ Hwf Hg) as (? & ? & ?).
  assert (Hd : Z.land (field_mask lo' w') (field_mask lo w) = 0).
  { apply field_mask_disjoint; try lia. destruct Hwf as (Hw & _).
    eapply (locate_le_disjoint _ 0 g f); eauto. }
  by rewrite FIELD_GET_lor, FIELD_GET_clear_ne, FIELD_GET_PREP_ne, Z.lor_0_r.
Qed.

Lemma bf_get_range u f x lo w :
  bu_wf u → locate u f = Some (lo, w) → 0 <= bf_get u f x < 2 ^ w.
Proof.
  intros Hwf Hf. destruct (locate_range _ _ _ _ Hwf Hf) as (? & ? & ?).
  unfold bf_get, field_mask. rewrite Hf.
  pose proof (FIELD_GET_range (lo + w - 1) lo x ltac:(lia)) as Hr.
  by replace (lo + w - 1 - lo + 1) with w in Hr by lia.
Qed.

(** The bits of a word after an assignment. *)
Lemma testbit_bf_set u f lo w v x i :
  bu_wf u → locate u f = Some (lo, w) → 0 <= i →
  Z.testbit (bf_set u f v x) i =
    if (lo <=? i) && (i <? lo + w) then Z.testbit v (i - lo) else Z.testbit x i.
Proof.
  intros Hwf Hf Hi. destruct (locate_range _ _ _ _ Hwf Hf) as (? & ? & ?).
  unfold bf_set, field_mask. rewrite Hf, Z.lor_spec, Z.land_spec, Z.lnot_spec, testbit_FIELD_PREP by done.
  rewrite bf_shf_GENMASK, testbit_GENMASK by lia.
  replace (i <=? lo + w - 1) with (i <? lo + w) by lia.
  destruct ((lo <=? i) && (i <? lo + w)); simpl;
    by rewrite ?andb_false_r, ?andb_true_r, ?orb_false_r.
Qed.

(** Assignment to a field that is still zero. *)
Lemma bf_set_fresh u f lo w v x :
  locate u f = Some (lo, w) → Z.land x (field_mask lo w) = 0 →
  bf_set u f v x = Z.lor x (FIELD_PREP (field_mask lo w) v).
Proof.
  intros Hf Hx. unfold bf_set. rewrite Hf. f_equal. apply Z.bits_inj'. intros i Hi.
  assert (Hb : Z.testbit (Z.land x (field_mask lo w)) i = false) by by rewrite Hx, Z.bits_0.
  rewrite Z.land_spec in Hb. rewrite Z.land_spec, Z.lnot_spec by done.
  by destruct (Z.testbit x i), (Z.testbit (field_mask lo w) i).
Qed.

Lemma bf_get_0 u f : bf_get u f 0 = 0.
Proof.
  unfold bf_get. destruct (locate u f) as [[lo w]|]; [|done].
  unfold FIELD_GET. by rewrite Z.land_0_l, Z.shiftr_0_l.
Qed.

Lemma bf_set_u32 u f v x : bu_wf u → is_u32 x → is_u32 (bf_set u f v x).
Proof.
  intros Hwf Hx. unfold bf_set. destruct (locate u f) as [[lo w]|] eqn:Hf; [|done].
  destruct (locate_range _ _ _ _ Hwf Hf) as (? & ? & ?).
  apply lor_u32; [rewrite Z.land_comm; by apply land_u32_r|]. apply land_u32_r.
  unfold field_mask, is_u32, GENMASK. replace (lo + w - 1 - lo + 1) with w by lia.
  rewrite Z.shiftl_mul_pow2, Z.ones_equiv by lia.
  assert (Hp : 2 ^ (w + lo) <= 2 ^ 32) by (apply Z.pow_le_mono_r; lia).
  rewrite Z.pow_add_r in Hp by lia.
  assert (0 < 2 ^ lo) by (apply Z.pow_pos_nonneg; lia).
  assert (0 < 2 ^ w) by (apply Z.pow_pos_nonneg; lia). nia.
Qed.

(** Rewriting with the laws: the side conditions are decided by computation. *)
Ltac bu_decide :=
  match goal with
  | |- bu_wf _ => apply (bool_decide_eq_true_1 _); vm_compute; reflexivity
  | |- locate _ _ = Some _ => reflexivity
  | |- _ ≠ _ => discriminate
  end.

Ltac bf_simpl :=
  repeat first
    [ rewrite bf_get_set_ne by bu_decide
    | erewrite bf_get_set_eq by bu_decide
    | rewrite bf_get_0 ].
