(* ===== verification/Kregs.v ===== *)
(** * Register map and bit masks of the kernel driver

    The constants of [ctucanfd_kregs.h] (register offsets and register bits) and
    of [ctucanfd_kframe.h] (words of a frame and their bits), under the names
    the headers give them. *)

From Stdlib Require Import ZArith.
From stdpp Require Import base list.
From S2P Require Import Prelude.

#[local] Open Scope Z_scope.

(** ** Registers ([enum ctu_can_fd_can_registers]) *)

Definition CTUCANFD_DEVICE_ID : Z := 0x0.
Definition CTUCANFD_VERSION : Z := 0x2.
Definition CTUCANFD_MODE : Z := 0x4.
Definition CTUCANFD_SETTINGS : Z := 0x6.
Definition CTUCANFD_STATUS : Z := 0x8.
Definition CTUCANFD_COMMAND : Z := 0xc.
Definition CTUCANFD_INT_STAT : Z := 0x10.
Definition CTUCANFD_INT_ENA_SET : Z := 0x14.
Definition CTUCANFD_INT_ENA_CLR : Z := 0x18.
Definition CTUCANFD_INT_MASK_SET : Z := 0x1c.
Definition CTUCANFD_INT_MASK_CLR : Z := 0x20.
Definition CTUCANFD_BTR : Z := 0x24.
Definition CTUCANFD_BTR_FD : Z := 0x28.
Definition CTUCANFD_EWL : Z := 0x2c.
Definition CTUCANFD_ERP : Z := 0x2d.
Definition CTUCANFD_FAULT_STATE : Z := 0x2e.
Definition CTUCANFD_REC : Z := 0x30.
Definition CTUCANFD_TEC : Z := 0x32.
Definition CTUCANFD_ERR_NORM : Z := 0x34.
Definition CTUCANFD_ERR_FD : Z := 0x36.
Definition CTUCANFD_CTR_PRES : Z := 0x38.
Definition CTUCANFD_FILTER_A_MASK : Z := 0x3c.
Definition CTUCANFD_FILTER_A_VAL : Z := 0x40.
Definition CTUCANFD_FILTER_B_MASK : Z := 0x44.
Definition CTUCANFD_FILTER_B_VAL : Z := 0x48.
Definition CTUCANFD_FILTER_C_MASK : Z := 0x4c.
Definition CTUCANFD_FILTER_C_VAL : Z := 0x50.
Definition CTUCANFD_FILTER_RAN_LOW : Z := 0x54.
Definition CTUCANFD_FILTER_RAN_HIGH : Z := 0x58.
Definition CTUCANFD_FILTER_CONTROL : Z := 0x5c.
Definition CTUCANFD_FILTER_STATUS : Z := 0x5e.
Definition CTUCANFD_RX_MEM_INFO : Z := 0x60.
Definition CTUCANFD_RX_POINTERS : Z := 0x64.
Definition CTUCANFD_RX_STATUS : Z := 0x68.
Definition CTUCANFD_RX_SETTINGS : Z := 0x6a.
Definition CTUCANFD_RX_DATA : Z := 0x6c.
Definition CTUCANFD_TX_STATUS : Z := 0x70.
Definition CTUCANFD_TX_COMMAND : Z := 0x74.
Definition CTUCANFD_TXTB_INFO : Z := 0x76.
Definition CTUCANFD_TX_PRIORITY : Z := 0x78.
Definition CTUCANFD_ERR_CAPT : Z := 0x7c.
Definition CTUCANFD_RETR_CTR : Z := 0x7d.
Definition CTUCANFD_ALC : Z := 0x7e.
Definition CTUCANFD_TS_INFO : Z := 0x7f.
Definition CTUCANFD_TRV_DELAY : Z := 0x80.
Definition CTUCANFD_SSP_CFG : Z := 0x82.
Definition CTUCANFD_RX_FR_CTR : Z := 0x84.
Definition CTUCANFD_TX_FR_CTR : Z := 0x88.
Definition CTUCANFD_DEBUG_REGISTER : Z := 0x8c.
Definition CTUCANFD_YOLO_REG : Z := 0x90.
Definition CTUCANFD_TIMESTAMP_LOW : Z := 0x94.
Definition CTUCANFD_TIMESTAMP_HIGH : Z := 0x98.
Definition CTUCANFD_TST_CONTROL : Z := 0x900.
Definition CTUCANFD_TST_DEST : Z := 0x904.
Definition CTUCANFD_TST_WDATA : Z := 0x908.
Definition CTUCANFD_TST_RDATA : Z := 0x90c.

(** The words of each TXT buffer ([CTUCANFD_TXTBi_DATA_1 .. 21]). *)
Definition CTUCANFD_TXTB1_DATA : list Z :=
  [0x100; 0x104; 0x108; 0x10c; 0x110; 0x114; 0x118;
   0x11c; 0x120; 0x124; 0x128; 0x12c; 0x130; 0x134;
   0x138; 0x13c; 0x140; 0x144; 0x148; 0x14c; 0x150].
Definition CTUCANFD_TXTB2_DATA : list Z :=
  [0x200; 0x204; 0x208; 0x20c; 0x210; 0x214; 0x218;
   0x21c; 0x220; 0x224; 0x228; 0x22c; 0x230; 0x234;
   0x238; 0x23c; 0x240; 0x244; 0x248; 0x24c; 0x250].
Definition CTUCANFD_TXTB3_DATA : list Z :=
  [0x300; 0x304; 0x308; 0x30c; 0x310; 0x314; 0x318;
   0x31c; 0x320; 0x324; 0x328; 0x32c; 0x330; 0x334;
   0x338; 0x33c; 0x340; 0x344; 0x348; 0x34c; 0x350].
Definition CTUCANFD_TXTB4_DATA : list Z :=
  [0x400; 0x404; 0x408; 0x40c; 0x410; 0x414; 0x418;
   0x41c; 0x420; 0x424; 0x428; 0x42c; 0x430; 0x434;
   0x438; 0x43c; 0x440; 0x444; 0x448; 0x44c; 0x450].
Definition CTUCANFD_TXTB5_DATA : list Z :=
  [0x500; 0x504; 0x508; 0x50c; 0x510; 0x514; 0x518;
   0x51c; 0x520; 0x524; 0x528; 0x52c; 0x530; 0x534;
   0x538; 0x53c; 0x540; 0x544; 0x548; 0x54c; 0x550].
Definition CTUCANFD_TXTB6_DATA : list Z :=
  [0x600; 0x604; 0x608; 0x60c; 0x610; 0x614; 0x618;
   0x61c; 0x620; 0x624; 0x628; 0x62c; 0x630; 0x634;
   0x638; 0x63c; 0x640; 0x644; 0x648; 0x64c; 0x650].
Definition CTUCANFD_TXTB7_DATA : list Z :=
  [0x700; 0x704; 0x708; 0x70c; 0x710; 0x714; 0x718;
   0x71c; 0x720; 0x724; 0x728; 0x72c; 0x730; 0x734;
   0x738; 0x73c; 0x740; 0x744; 0x748; 0x74c; 0x750].
Definition CTUCANFD_TXTB8_DATA : list Z :=
  [0x800; 0x804; 0x808; 0x80c; 0x810; 0x814; 0x818;
   0x81c; 0x820; 0x824; 0x828; 0x82c; 0x830; 0x834;
   0x838; 0x83c; 0x840; 0x844; 0x848; 0x84c; 0x850].

Definition CTUCANFD_TXTB_DATA : list (list Z) :=
  [CTUCANFD_TXTB1_DATA; CTUCANFD_TXTB2_DATA; CTUCANFD_TXTB3_DATA; CTUCANFD_TXTB4_DATA;
   CTUCANFD_TXTB5_DATA; CTUCANFD_TXTB6_DATA; CTUCANFD_TXTB7_DATA; CTUCANFD_TXTB8_DATA].

(** ** Register bits *)

(** DEVICE_ID VERSION *)
Definition REG_DEVICE_ID_DEVICE_ID : Z := GENMASK 15 0.
Definition REG_DEVICE_ID_VER_MINOR : Z := GENMASK 23 16.
Definition REG_DEVICE_ID_VER_MAJOR : Z := GENMASK 31 24.

(** MODE SETTINGS *)
Definition REG_MODE_RST : Z := BIT 0.
Definition REG_MODE_BMM : Z := BIT 1.
Definition REG_MODE_STM : Z := BIT 2.
Definition REG_MODE_AFM : Z := BIT 3.
Definition REG_MODE_FDE : Z := BIT 4.
Definition REG_MODE_TTTM : Z := BIT 5.
Definition REG_MODE_ROM : Z := BIT 6.
Definition REG_MODE_ACF : Z := BIT 7.
Definition REG_MODE_TSTM : Z := BIT 8.
Definition REG_MODE_RXBAM : Z := BIT 9.
Definition REG_MODE_TXBBM : Z := BIT 10.
Definition REG_MODE_SAM : Z := BIT 11.
Definition REG_MODE_ERFM : Z := BIT 12.
Definition REG_MODE_RTRLE : Z := BIT 16.
Definition REG_MODE_RTRTH : Z := GENMASK 20 17.
Definition REG_MODE_ILBP : Z := BIT 21.
Definition REG_MODE_ENA : Z := BIT 22.
Definition REG_MODE_NISOFD : Z := BIT 23.
Definition REG_MODE_PEX : Z := BIT 24.
Definition REG_MODE_TBFBO : Z := BIT 25.
Definition REG_MODE_FDRF : Z := BIT 26.
Definition REG_MODE_PCHKE : Z := BIT 27.

(** STATUS *)
Definition REG_STATUS_RXNE : Z := BIT 0.
Definition REG_STATUS_DOR : Z := BIT 1.
Definition REG_STATUS_TXNF : Z := BIT 2.
Definition REG_STATUS_EFT : Z := BIT 3.
Definition REG_STATUS_RXS : Z := BIT 4.
Definition REG_STATUS_TXS : Z := BIT 5.
Definition REG_STATUS_EWL : Z := BIT 6.
Definition REG_STATUS_IDLE : Z := BIT 7.
Definition REG_STATUS_PEXS : Z := BIT 8.
Definition REG_STATUS_RXPE : Z := BIT 9.
Definition REG_STATUS_TXPE : Z := BIT 10.
Definition REG_STATUS_TXDPE : Z := BIT 11.
Definition REG_STATUS_STCNT : Z := BIT 16.
Definition REG_STATUS_STRGS : Z := BIT 17.
Definition REG_STATUS_SPRT : Z := BIT 18.

(** COMMAND *)
Definition REG_COMMAND_RXRPMV : Z := BIT 1.
Definition REG_COMMAND_RRB : Z := BIT 2.
Definition REG_COMMAND_CDO : Z := BIT 3.
Definition REG_COMMAND_ERCRST : Z := BIT 4.
Definition REG_COMMAND_RXFCRST : Z := BIT 5.
Definition REG_COMMAND_TXFCRST : Z := BIT 6.
Definition REG_COMMAND_CPEXS : Z := BIT 7.
Definition REG_COMMAND_CRXPE : Z := BIT 8.
Definition REG_COMMAND_CTXPE : Z := BIT 9.
Definition REG_COMMAND_CTXDPE : Z := BIT 10.

(** INT_STAT *)
Definition REG_INT_STAT_RXI : Z := BIT 0.
Definition REG_INT_STAT_TXI : Z := BIT 1.
Definition REG_INT_STAT_EWLI : Z := BIT 2.
Definition REG_INT_STAT_DOI : Z := BIT 3.
Definition REG_INT_STAT_FCSI : Z := BIT 4.
Definition REG_INT_STAT_ALI : Z := BIT 5.
Definition REG_INT_STAT_BEI : Z := BIT 6.
Definition REG_INT_STAT_OFI : Z := BIT 7.
Definition REG_INT_STAT_RXFI : Z := BIT 8.
Definition REG_INT_STAT_BSI : Z := BIT 9.
Definition REG_INT_STAT_RBNEI : Z := BIT 10.
Definition REG_INT_STAT_TXBHCI : Z := BIT 11.

(** INT_ENA_SET *)
Definition REG_INT_ENA_SET_INT_ENA_SET : Z := GENMASK 11 0.

(** INT_ENA_CLR *)
Definition REG_INT_ENA_CLR_INT_ENA_CLR : Z := GENMASK 11 0.

(** INT_MASK_SET *)
Definition REG_INT_MASK_SET_INT_MASK_SET : Z := GENMASK 11 0.

(** INT_MASK_CLR *)
Definition REG_INT_MASK_CLR_INT_MASK_CLR : Z := GENMASK 11 0.

(** BTR *)
Definition REG_BTR_PROP : Z := GENMASK 6 0.
Definition REG_BTR_PH1 : Z := GENMASK 12 7.
Definition REG_BTR_PH2 : Z := GENMASK 18 13.
Definition REG_BTR_BRP : Z := GENMASK 26 19.
Definition REG_BTR_SJW : Z := GENMASK 31 27.

(** BTR_FD *)
Definition REG_BTR_FD_PROP_FD : Z := GENMASK 5 0.
Definition REG_BTR_FD_PH1_FD : Z := GENMASK 11 7.
Definition REG_BTR_FD_PH2_FD : Z := GENMASK 17 13.
Definition REG_BTR_FD_BRP_FD : Z := GENMASK 26 19.
Definition REG_BTR_FD_SJW_FD : Z := GENMASK 31 27.

(** EWL ERP FAULT_STATE *)
Definition REG_EWL_EW_LIMIT : Z := GENMASK 7 0.
Definition REG_EWL_ERP_LIMIT : Z := GENMASK 15 8.
Definition REG_EWL_ERA : Z := BIT 16.
Definition REG_EWL_ERP : Z := BIT 17.
Definition REG_EWL_BOF : Z := BIT 18.

(** REC TEC *)
Definition REG_REC_REC_VAL : Z := GENMASK 8 0.
Definition REG_REC_TEC_VAL : Z := GENMASK 24 16.

(** ERR_NORM ERR_FD *)
Definition REG_ERR_NORM_ERR_NORM_VAL : Z := GENMASK 15 0.
Definition REG_ERR_NORM_ERR_FD_VAL : Z := GENMASK 31 16.

(** CTR_PRES *)
Definition REG_CTR_PRES_CTPV : Z := GENMASK 8 0.
Definition REG_CTR_PRES_PTX : Z := BIT 9.
Definition REG_CTR_PRES_PRX : Z := BIT 10.
Definition REG_CTR_PRES_ENORM : Z := BIT 11.
Definition REG_CTR_PRES_EFD : Z := BIT 12.

(** FILTER_A_MASK *)
Definition REG_FILTER_A_MASK_BIT_MASK_A_VAL : Z := GENMASK 28 0.

(** FILTER_A_VAL *)
Definition REG_FILTER_A_VAL_BIT_VAL_A_VAL : Z := GENMASK 28 0.

(** FILTER_B_MASK *)
Definition REG_FILTER_B_MASK_BIT_MASK_B_VAL : Z := GENMASK 28 0.

(** FILTER_B_VAL *)
Definition REG_FILTER_B_VAL_BIT_VAL_B_VAL : Z := GENMASK 28 0.

(** FILTER_C_MASK *)
Definition REG_FILTER_C_MASK_BIT_MASK_C_VAL : Z := GENMASK 28 0.

(** FILTER_C_VAL *)
Definition REG_FILTER_C_VAL_BIT_VAL_C_VAL : Z := GENMASK 28 0.

(** FILTER_RAN_LOW *)
Definition REG_FILTER_RAN_LOW_BIT_RAN_LOW_VAL : Z := GENMASK 28 0.

(** FILTER_RAN_HIGH *)
Definition REG_FILTER_RAN_HIGH_BIT_RAN_HIGH_VAL : Z := GENMASK 28 0.

(** FILTER_CONTROL FILTER_STATUS *)
Definition REG_FILTER_CONTROL_FANB : Z := BIT 0.
Definition REG_FILTER_CONTROL_FANE : Z := BIT 1.
Definition REG_FILTER_CONTROL_FAFB : Z := BIT 2.
Definition REG_FILTER_CONTROL_FAFE : Z := BIT 3.
Definition REG_FILTER_CONTROL_FBNB : Z := BIT 4.
Definition REG_FILTER_CONTROL_FBNE : Z := BIT 5.
Definition REG_FILTER_CONTROL_FBFB : Z := BIT 6.
Definition REG_FILTER_CONTROL_FBFE : Z := BIT 7.
Definition REG_FILTER_CONTROL_FCNB : Z := BIT 8.
Definition REG_FILTER_CONTROL_FCNE : Z := BIT 9.
Definition REG_FILTER_CONTROL_FCFB : Z := BIT 10.
Definition REG_FILTER_CONTROL_FCFE : Z := BIT 11.
Definition REG_FILTER_CONTROL_FRNB : Z := BIT 12.
Definition REG_FILTER_CONTROL_FRNE : Z := BIT 13.
Definition REG_FILTER_CONTROL_FRFB : Z := BIT 14.
Definition REG_FILTER_CONTROL_FRFE : Z := BIT 15.
Definition REG_FILTER_CONTROL_SFA : Z := BIT 16.
Definition REG_FILTER_CONTROL_SFB : Z := BIT 17.
Definition REG_FILTER_CONTROL_SFC : Z := BIT 18.
Definition REG_FILTER_CONTROL_SFR : Z := BIT 19.

(** RX_MEM_INFO *)
Definition REG_RX_MEM_INFO_RX_BUFF_SIZE : Z := GENMASK 12 0.
Definition REG_RX_MEM_INFO_RX_MEM_FREE : Z := GENMASK 28 16.

(** RX_POINTERS *)
Definition REG_RX_POINTERS_RX_WPP : Z := GENMASK 11 0.
Definition REG_RX_POINTERS_RX_RPP : Z := GENMASK 27 16.

(** RX_STATUS RX_SETTINGS *)
Definition REG_RX_STATUS_RXE : Z := BIT 0.
Definition REG_RX_STATUS_RXF : Z := BIT 1.
Definition REG_RX_STATUS_RXMOF : Z := BIT 2.
Definition REG_RX_STATUS_RXFRC : Z := GENMASK 14 4.
Definition REG_RX_STATUS_RTSOP : Z := BIT 16.

(** RX_DATA *)
Definition REG_RX_DATA_RX_DATA : Z := GENMASK 31 0.

(** TX_STATUS *)
Definition REG_TX_STATUS_TX1S : Z := GENMASK 3 0.
Definition REG_TX_STATUS_TX2S : Z := GENMASK 7 4.
Definition REG_TX_STATUS_TX3S : Z := GENMASK 11 8.
Definition REG_TX_STATUS_TX4S : Z := GENMASK 15 12.
Definition REG_TX_STATUS_TX5S : Z := GENMASK 19 16.
Definition REG_TX_STATUS_TX6S : Z := GENMASK 23 20.
Definition REG_TX_STATUS_TX7S : Z := GENMASK 27 24.
Definition REG_TX_STATUS_TX8S : Z := GENMASK 31 28.

(** TX_COMMAND TXTB_INFO *)
Definition REG_TX_COMMAND_TXCE : Z := BIT 0.
Definition REG_TX_COMMAND_TXCR : Z := BIT 1.
Definition REG_TX_COMMAND_TXCA : Z := BIT 2.
Definition REG_TX_COMMAND_TXB1 : Z := BIT 8.
Definition REG_TX_COMMAND_TXB2 : Z := BIT 9.
Definition REG_TX_COMMAND_TXB3 : Z := BIT 10.
Definition REG_TX_COMMAND_TXB4 : Z := BIT 11.
Definition REG_TX_COMMAND_TXB5 : Z := BIT 12.
Definition REG_TX_COMMAND_TXB6 : Z := BIT 13.
Definition REG_TX_COMMAND_TXB7 : Z := BIT 14.
Definition REG_TX_COMMAND_TXB8 : Z := BIT 15.
Definition REG_TX_COMMAND_TXT_BUFFER_COUNT : Z := GENMASK 19 16.

(** TX_PRIORITY *)
Definition REG_TX_PRIORITY_TXT1P : Z := GENMASK 2 0.
Definition REG_TX_PRIORITY_TXT2P : Z := GENMASK 6 4.
Definition REG_TX_PRIORITY_TXT3P : Z := GENMASK 10 8.
Definition REG_TX_PRIORITY_TXT4P : Z := GENMASK 14 12.
Definition REG_TX_PRIORITY_TXT5P : Z := GENMASK 18 16.
Definition REG_TX_PRIORITY_TXT6P : Z := GENMASK 22 20.
Definition REG_TX_PRIORITY_TXT7P : Z := GENMASK 26 24.
Definition REG_TX_PRIORITY_TXT8P : Z := GENMASK 30 28.

(** ERR_CAPT RETR_CTR ALC TS_INFO *)
Definition REG_ERR_CAPT_ERR_POS : Z := GENMASK 3 0.
Definition REG_ERR_CAPT_ERR_ERP : Z := BIT 4.
Definition REG_ERR_CAPT_ERR_TYPE : Z := GENMASK 7 5.
Definition REG_ERR_CAPT_RETR_CTR_VAL : Z := GENMASK 11 8.
Definition REG_ERR_CAPT_ALC_BIT : Z := GENMASK 20 16.
Definition REG_ERR_CAPT_ALC_ID_FIELD : Z := GENMASK 23 21.
Definition REG_ERR_CAPT_TS_BITS : Z := GENMASK 29 24.

(** TRV_DELAY SSP_CFG *)
Definition REG_TRV_DELAY_TRV_DELAY_VALUE : Z := GENMASK 6 0.
Definition REG_TRV_DELAY_SSP_OFFSET : Z := GENMASK 23 16.
Definition REG_TRV_DELAY_SSP_SRC : Z := GENMASK 25 24.

(** RX_FR_CTR *)
Definition REG_RX_FR_CTR_RX_FR_CTR_VAL : Z := GENMASK 31 0.

(** TX_FR_CTR *)
Definition REG_TX_FR_CTR_TX_FR_CTR_VAL : Z := GENMASK 31 0.

(** DEBUG_REGISTER *)
Definition REG_DEBUG_REGISTER_STUFF_COUNT : Z := GENMASK 2 0.
Definition REG_DEBUG_REGISTER_DESTUFF_COUNT : Z := GENMASK 5 3.
Definition REG_DEBUG_REGISTER_PC_ARB : Z := BIT 6.
Definition REG_DEBUG_REGISTER_PC_CON : Z := BIT 7.
Definition REG_DEBUG_REGISTER_PC_DAT : Z := BIT 8.
Definition REG_DEBUG_REGISTER_PC_STC : Z := BIT 9.
Definition REG_DEBUG_REGISTER_PC_CRC : Z := BIT 10.
Definition REG_DEBUG_REGISTER_PC_CRCD : Z := BIT 11.
Definition REG_DEBUG_REGISTER_PC_ACK : Z := BIT 12.
Definition REG_DEBUG_REGISTER_PC_ACKD : Z := BIT 13.
Definition REG_DEBUG_REGISTER_PC_EOF : Z := BIT 14.
Definition REG_DEBUG_REGISTER_PC_INT : Z := BIT 15.
Definition REG_DEBUG_REGISTER_PC_SUSP : Z := BIT 16.
Definition REG_DEBUG_REGISTER_PC_OVR : Z := BIT 17.
Definition REG_DEBUG_REGISTER_PC_SOF : Z := BIT 18.

(** YOLO_REG *)
Definition REG_YOLO_REG_YOLO_VAL : Z := GENMASK 31 0.

(** TIMESTAMP_LOW *)
Definition REG_TIMESTAMP_LOW_TIMESTAMP_LOW : Z := GENMASK 31 0.

(** TIMESTAMP_HIGH *)
Definition REG_TIMESTAMP_HIGH_TIMESTAMP_HIGH : Z := GENMASK 31 0.

(** ** Words of a frame ([enum ctu_can_fd_can_frame_format]) *)

Definition CTUCANFD_FRAME_FORMAT_W : Z := 0x0.
Definition CTUCANFD_IDENTIFIER_W : Z := 0x4.
Definition CTUCANFD_TIMESTAMP_L_W : Z := 0x8.
Definition CTUCANFD_TIMESTAMP_U_W : Z := 0xc.
Definition CTUCANFD_DATA_1_4_W : Z := 0x10.
Definition CTUCANFD_DATA_5_8_W : Z := 0x14.
Definition CTUCANFD_DATA_9_12_W : Z := 0x18.
Definition CTUCANFD_DATA_13_16_W : Z := 0x1c.
Definition CTUCANFD_DATA_17_20_W : Z := 0x20.
Definition CTUCANFD_DATA_21_24_W : Z := 0x24.
Definition CTUCANFD_DATA_25_28_W : Z := 0x28.
Definition CTUCANFD_DATA_29_32_W : Z := 0x2c.
Definition CTUCANFD_DATA_33_36_W : Z := 0x30.
Definition CTUCANFD_DATA_37_40_W : Z := 0x34.
Definition CTUCANFD_DATA_41_44_W : Z := 0x38.
Definition CTUCANFD_DATA_45_48_W : Z := 0x3c.
Definition CTUCANFD_DATA_49_52_W : Z := 0x40.
Definition CTUCANFD_DATA_53_56_W : Z := 0x44.
Definition CTUCANFD_DATA_57_60_W : Z := 0x48.
Definition CTUCANFD_DATA_61_64_W : Z := 0x4c.
Definition CTUCANFD_FRAME_TEST_W : Z := 0x50.

(** ** Bits of the words of a frame *)

(** FRAME_FORMAT_W *)
Definition REG_FRAME_FORMAT_W_DLC : Z := GENMASK 3 0.
Definition REG_FRAME_FORMAT_W_ERF : Z := BIT 4.
Definition REG_FRAME_FORMAT_W_RTR : Z := BIT 5.
Definition REG_FRAME_FORMAT_W_IDE : Z := BIT 6.
Definition REG_FRAME_FORMAT_W_FDF : Z := BIT 7.
Definition REG_FRAME_FORMAT_W_LBPF : Z := BIT 8.
Definition REG_FRAME_FORMAT_W_BRS : Z := BIT 9.
Definition REG_FRAME_FORMAT_W_ESI_RSV : Z := BIT 10.
Definition REG_FRAME_FORMAT_W_RWCNT : Z := GENMASK 15 11.
Definition REG_FRAME_FORMAT_W_ERF_POS : Z := GENMASK 19 16.
Definition REG_FRAME_FORMAT_W_ERF_ERP : Z := BIT 20.
Definition REG_FRAME_FORMAT_W_ERF_TYPE : Z := GENMASK 23 21.
Definition REG_FRAME_FORMAT_W_IVLD : Z := BIT 24.
Definition REG_FRAME_FORMAT_W_LBTBI : Z := GENMASK 27 25.

(** IDENTIFIER_W *)
Definition REG_IDENTIFIER_W_IDENTIFIER_EXT : Z := GENMASK 17 0.
Definition REG_IDENTIFIER_W_IDENTIFIER_BASE : Z := GENMASK 28 18.

(** TIMESTAMP_L_W *)
Definition REG_TIMESTAMP_L_W_TIME_STAMP_L_W : Z := GENMASK 31 0.

(** TIMESTAMP_U_W *)
Definition REG_TIMESTAMP_U_W_TIMESTAMP_U_W : Z := GENMASK 31 0.

(** DATA_1_4_W *)
Definition REG_DATA_1_4_W_DATA_1 : Z := GENMASK 7 0.
Definition REG_DATA_1_4_W_DATA_2 : Z := GENMASK 15 8.
Definition REG_DATA_1_4_W_DATA_3 : Z := GENMASK 23 16.
Definition REG_DATA_1_4_W_DATA_4 : Z := GENMASK 31 24.

(** DATA_5_8_W *)
Definition REG_DATA_5_8_W_DATA_5 : Z := GENMASK 7 0.
Definition REG_DATA_5_8_W_DATA_6 : Z := GENMASK 15 8.
Definition REG_DATA_5_8_W_DATA_7 : Z := GENMASK 23 16.
Definition REG_DATA_5_8_W_DATA_8 : Z := GENMASK 31 24.

(** DATA_9_12_W *)
Definition REG_DATA_9_12_W_DATA_9 : Z := GENMASK 7 0.
Definition REG_DATA_9_12_W_DATA_10 : Z := GENMASK 15 8.
Definition REG_DATA_9_12_W_DATA_11 : Z := GENMASK 23 16.
Definition REG_DATA_9_12_W_DATA_12 : Z := GENMASK 31 24.

(** DATA_13_16_W *)
Definition REG_DATA_13_16_W_DATA_13 : Z := GENMASK 7 0.
Definition REG_DATA_13_16_W_DATA_14 : Z := GENMASK 15 8.
Definition REG_DATA_13_16_W_DATA_15 : Z := GENMASK 23 16.
Definition REG_DATA_13_16_W_DATA_16 : Z := GENMASK 31 24.

(** DATA_17_20_W *)
Definition REG_DATA_17_20_W_DATA_17 : Z := GENMASK 7 0.
Definition REG_DATA_17_20_W_DATA_18 : Z := GENMASK 15 8.
Definition REG_DATA_17_20_W_DATA_19 : Z := GENMASK 23 16.
Definition REG_DATA_17_20_W_DATA_20 : Z := GENMASK 31 24.

(** DATA_21_24_W *)
Definition REG_DATA_21_24_W_DATA_21 : Z := GENMASK 7 0.
Definition REG_DATA_21_24_W_DATA_22 : Z := GENMASK 15 8.
Definition REG_DATA_21_24_W_DATA_23 : Z := GENMASK 23 16.
Definition REG_DATA_21_24_W_DATA_24 : Z := GENMASK 31 24.

(** DATA_25_28_W *)
Definition REG_DATA_25_28_W_DATA_25 : Z := GENMASK 7 0.
Definition REG_DATA_25_28_W_DATA_26 : Z := GENMASK 15 8.
Definition REG_DATA_25_28_W_DATA_27 : Z := GENMASK 23 16.
Definition REG_DATA_25_28_W_DATA_28 : Z := GENMASK 31 24.

(** DATA_29_32_W *)
Definition REG_DATA_29_32_W_DATA_29 : Z := GENMASK 7 0.
Definition REG_DATA_29_32_W_DATA_30 : Z := GENMASK 15 8.
Definition REG_DATA_29_32_W_DATA_31 : Z := GENMASK 23 16.
Definition REG_DATA_29_32_W_DATA_32 : Z := GENMASK 31 24.

(** DATA_33_36_W *)
Definition REG_DATA_33_36_W_DATA_33 : Z := GENMASK 7 0.
Definition REG_DATA_33_36_W_DATA_34 : Z := GENMASK 15 8.
Definition REG_DATA_33_36_W_DATA_35 : Z := GENMASK 23 16.
Definition REG_DATA_33_36_W_DATA_36 : Z := GENMASK 31 24.

(** DATA_37_40_W *)
Definition REG_DATA_37_40_W_DATA_37 : Z := GENMASK 7 0.
Definition REG_DATA_37_40_W_DATA_38 : Z := GENMASK 15 8.
Definition REG_DATA_37_40_W_DATA_39 : Z := GENMASK 23 16.
Definition REG_DATA_37_40_W_DATA_40 : Z := GENMASK 31 24.

(** DATA_41_44_W *)
Definition REG_DATA_41_44_W_DATA_41 : Z := GENMASK 7 0.
Definition REG_DATA_41_44_W_DATA_42 : Z := GENMASK 15 8.
Definition REG_DATA_41_44_W_DATA_43 : Z := GENMASK 23 16.
Definition REG_DATA_41_44_W_DATA_44 : Z := GENMASK 31 24.

(** DATA_45_48_W *)
Definition REG_DATA_45_48_W_DATA_45 : Z := GENMASK 7 0.
Definition REG_DATA_45_48_W_DATA_46 : Z := GENMASK 15 8.
Definition REG_DATA_45_48_W_DATA_47 : Z := GENMASK 23 16.
Definition REG_DATA_45_48_W_DATA_48 : Z := GENMASK 31 24.

(** DATA_49_52_W *)
Definition REG_DATA_49_52_W_DATA_49 : Z := GENMASK 7 0.
Definition REG_DATA_49_52_W_DATA_50 : Z := GENMASK 15 8.
Definition REG_DATA_49_52_W_DATA_51 : Z := GENMASK 23 16.
Definition REG_DATA_49_52_W_DATA_52 : Z := GENMASK 31 24.

(** DATA_53_56_W *)
Definition REG_DATA_53_56_W_DATA_53 : Z := GENMASK 7 0.
Definition REG_DATA_53_56_W_DATA_56 : Z := GENMASK 15 8.
Definition REG_DATA_53_56_W_DATA_55 : Z := GENMASK 23 16.
Definition REG_DATA_53_56_W_DATA_54 : Z := GENMASK 31 24.

(** DATA_57_60_W *)
Definition REG_DATA_57_60_W_DATA_57 : Z := GENMASK 7 0.
Definition REG_DATA_57_60_W_DATA_58 : Z := GENMASK 15 8.
Definition REG_DATA_57_60_W_DATA_59 : Z := GENMASK 23 16.
Definition REG_DATA_57_60_W_DATA_60 : Z := GENMASK 31 24.

(** DATA_61_64_W *)
Definition REG_DATA_61_64_W_DATA_61 : Z := GENMASK 7 0.
Definition REG_DATA_61_64_W_DATA_62 : Z := GENMASK 15 8.
Definition REG_DATA_61_64_W_DATA_63 : Z := GENMASK 23 16.
Definition REG_DATA_61_64_W_DATA_64 : Z := GENMASK 31 24.

(** FRAME_TEST_W *)
Definition REG_FRAME_TEST_W_FSTC : Z := BIT 0.
Definition REG_FRAME_TEST_W_FCRC : Z := BIT 1.
Definition REG_FRAME_TEST_W_SDLC : Z := BIT 2.
Definition REG_FRAME_TEST_W_TPRM : Z := GENMASK 12 8.
