(* ===== verification/Regs.v ===== *)
(** * Register map and register unions of the userspace layer

    The constants and unions of [ctucanfd_regs.h] and [ctucanfd_frame.h]: the
    register offsets, the enumerations of field values, and every register
    union as a [bitfield_union] (its little-endian and its big-endian
    declaration). *)

From Stdlib Require Import ZArith.
From stdpp Require Import base list strings.
From S2P Require Import Prelude Bitfield.

#[local] Open Scope Z_scope.
#[local] Open Scope string_scope.


(** ** [ctucanfd_regs.h] *)

(** [enum ctu_can_fd_can_registers] *)
Definition CTU_CAN_FD_DEVICE_ID : Z := 0x0.
Definition CTU_CAN_FD_VERSION : Z := 0x2.
Definition CTU_CAN_FD_MODE : Z := 0x4.
Definition CTU_CAN_FD_SETTINGS : Z := 0x6.
Definition CTU_CAN_FD_STATUS : Z := 0x8.
Definition CTU_CAN_FD_COMMAND : Z := 0xc.
Definition CTU_CAN_FD_INT_STAT : Z := 0x10.
Definition CTU_CAN_FD_INT_ENA_SET : Z := 0x14.
Definition CTU_CAN_FD_INT_ENA_CLR : Z := 0x18.
Definition CTU_CAN_FD_INT_MASK_SET : Z := 0x1c.
Definition CTU_CAN_FD_INT_MASK_CLR : Z := 0x20.
Definition CTU_CAN_FD_BTR : Z := 0x24.
Definition CTU_CAN_FD_BTR_FD : Z := 0x28.
Definition CTU_CAN_FD_EWL : Z := 0x2c.
Definition CTU_CAN_FD_ERP : Z := 0x2d.
Definition CTU_CAN_FD_FAULT_STATE : Z := 0x2e.
Definition CTU_CAN_FD_REC : Z := 0x30.
Definition CTU_CAN_FD_TEC : Z := 0x32.
Definition CTU_CAN_FD_ERR_NORM : Z := 0x34.
Definition CTU_CAN_FD_ERR_FD : Z := 0x36.
Definition CTU_CAN_FD_CTR_PRES : Z := 0x38.
Definition CTU_CAN_FD_FILTER_A_MASK : Z := 0x3c.
Definition CTU_CAN_FD_FILTER_A_VAL : Z := 0x40.
Definition CTU_CAN_FD_FILTER_B_MASK : Z := 0x44.
Definition CTU_CAN_FD_FILTER_B_VAL : Z := 0x48.
Definition CTU_CAN_FD_FILTER_C_MASK : Z := 0x4c.
Definition CTU_CAN_FD_FILTER_C_VAL : Z := 0x50.
Definition CTU_CAN_FD_FILTER_RAN_LOW : Z := 0x54.
Definition CTU_CAN_FD_FILTER_RAN_HIGH : Z := 0x58.
Definition CTU_CAN_FD_FILTER_CONTROL : Z := 0x5c.
Definition CTU_CAN_FD_FILTER_STATUS : Z := 0x5e.
Definition CTU_CAN_FD_RX_MEM_INFO : Z := 0x60.
Definition CTU_CAN_FD_RX_POINTERS : Z := 0x64.
Definition CTU_CAN_FD_RX_STATUS : Z := 0x68.
Definition CTU_CAN_FD_RX_SETTINGS : Z := 0x6a.
Definition CTU_CAN_FD_RX_DATA : Z := 0x6c.
Definition CTU_CAN_FD_TX_STATUS : Z := 0x70.
Definition CTU_CAN_FD_TX_COMMAND : Z := 0x74.
Definition CTU_CAN_FD_TXTB_INFO : Z := 0x76.
Definition CTU_CAN_FD_TX_PRIORITY : Z := 0x78.
Definition CTU_CAN_FD_ERR_CAPT : Z := 0x7c.
Definition CTU_CAN_FD_RETR_CTR : Z := 0x7d.
Definition CTU_CAN_FD_ALC : Z := 0x7e.
Definition CTU_CAN_FD_TS_INFO : Z := 0x7f.
Definition CTU_CAN_FD_TRV_DELAY : Z := 0x80.
Definition CTU_CAN_FD_SSP_CFG : Z := 0x82.
Definition CTU_CAN_FD_RX_FR_CTR : Z := 0x84.
Definition CTU_CAN_FD_TX_FR_CTR : Z := 0x88.
Definition CTU_CAN_FD_DEBUG_REGISTER : Z := 0x8c.
Definition CTU_CAN_FD_YOLO_REG : Z := 0x90.
Definition CTU_CAN_FD_TIMESTAMP_LOW : Z := 0x94.
Definition CTU_CAN_FD_TIMESTAMP_HIGH : Z := 0x98.
Definition CTU_CAN_FD_TST_CONTROL : Z := 0x900.
Definition CTU_CAN_FD_TST_DEST : Z := 0x904.
Definition CTU_CAN_FD_TST_WDATA : Z := 0x908.
Definition CTU_CAN_FD_TST_RDATA : Z := 0x90c.
Definition CTU_CAN_FD_TXTB1_DATA : list Z :=
  [0x100; 0x104; 0x108; 0x10c; 0x110; 0x114; 0x118;
   0x11c; 0x120; 0x124; 0x128; 0x12c; 0x130; 0x134;
   0x138; 0x13c; 0x140; 0x144; 0x148; 0x14c; 0x150].
Definition CTU_CAN_FD_TXTB2_DATA : list Z :=
  [0x200; 0x204; 0x208; 0x20c; 0x210; 0x214; 0x218;
   0x21c; 0x220; 0x224; 0x228; 0x22c; 0x230; 0x234;
   0x238; 0x23c; 0x240; 0x244; 0x248; 0x24c; 0x250].
Definition CTU_CAN_FD_TXTB3_DATA : list Z :=
  [0x300; 0x304; 0x308; 0x30c; 0x310; 0x314; 0x318;
   0x31c; 0x320; 0x324; 0x328; 0x32c; 0x330; 0x334;
   0x338; 0x33c; 0x340; 0x344; 0x348; 0x34c; 0x350].
Definition CTU_CAN_FD_TXTB4_DATA : list Z :=
  [0x400; 0x404; 0x408; 0x40c; 0x410; 0x414; 0x418;
   0x41c; 0x420; 0x424; 0x428; 0x42c; 0x430; 0x434;
   0x438; 0x43c; 0x440; 0x444; 0x448; 0x44c; 0x450].
Definition CTU_CAN_FD_TXTB5_DATA : list Z :=
  [0x500; 0x504; 0x508; 0x50c; 0x510; 0x514; 0x518;
   0x51c; 0x520; 0x524; 0x528; 0x52c; 0x530; 0x534;
   0x538; 0x53c; 0x540; 0x544; 0x548; 0x54c; 0x550].
Definition CTU_CAN_FD_TXTB6_DATA : list Z :=
  [0x600; 0x604; 0x608; 0x60c; 0x610; 0x614; 0x618;
   0x61c; 0x620; 0x624; 0x628; 0x62c; 0x630; 0x634;
   0x638; 0x63c; 0x640; 0x644; 0x648; 0x64c; 0x650].
Definition CTU_CAN_FD_TXTB7_DATA : list Z :=
  [0x700; 0x704; 0x708; 0x70c; 0x710; 0x714; 0x718;
   0x71c; 0x720; 0x724; 0x728; 0x72c; 0x730; 0x734;
   0x738; 0x73c; 0x740; 0x744; 0x748; 0x74c; 0x750].
Definition CTU_CAN_FD_TXTB8_DATA : list Z :=
  [0x800; 0x804; 0x808; 0x80c; 0x810; 0x814; 0x818;
   0x81c; 0x820; 0x824; 0x828; 0x82c; 0x830; 0x834;
   0x838; 0x83c; 0x840; 0x844; 0x848; 0x84c; 0x850].

Definition ctu_can_fd_device_id_version : bitfield_union := {|
  bu_le :=
    [("device_id", 16); ("ver_minor", 8); ("ver_major", 8)];
  bu_be :=
    [("ver_major", 8); ("ver_minor", 8); ("device_id", 16)];
|}.

(** [enum ctu_can_fd_device_id_device_id] *)
Definition CTU_CAN_FD_ID : Z := 0xcafd.

Definition ctu_can_fd_mode_settings : bitfield_union := {|
  bu_le :=
    [("rst", 1); ("bmm", 1); ("stm", 1); ("afm", 1); ("fde", 1); ("tttm", 1); ("rom", 1);
     ("acf", 1); ("tstm", 1); ("rxbam", 1); ("txbbm", 1); ("sam", 1); ("erfm", 1);
     ("reserved_15_13", 3); ("rtrle", 1); ("rtrth", 4); ("ilbp", 1); ("ena", 1);
     ("nisofd", 1); ("pex", 1); ("tbfbo", 1); ("fdrf", 1); ("pchke", 1);
     ("reserved_31_28", 4)];
  bu_be :=
    [("reserved_31_28", 4); ("pchke", 1); ("fdrf", 1); ("tbfbo", 1); ("pex", 1);
     ("nisofd", 1); ("ena", 1); ("ilbp", 1); ("rtrth", 4); ("rtrle", 1);
     ("reserved_15_13", 3); ("erfm", 1); ("sam", 1); ("txbbm", 1); ("rxbam", 1);
     ("tstm", 1); ("acf", 1); ("rom", 1); ("tttm", 1); ("fde", 1); ("afm", 1); ("stm", 1);
     ("bmm", 1); ("rst", 1)];
|}.

(** [enum ctu_can_fd_mode_bmm] *)
Definition BMM_DISABLED : Z := 0x0.
Definition BMM_ENABLED : Z := 0x1.

(** [enum ctu_can_fd_mode_stm] *)
Definition STM_DISABLED : Z := 0x0.
Definition STM_ENABLED : Z := 0x1.

(** [enum ctu_can_fd_mode_afm] *)
Definition AFM_DISABLED : Z := 0x0.
Definition AFM_ENABLED : Z := 0x1.

(** [enum ctu_can_fd_mode_fde] *)
Definition FDE_DISABLE : Z := 0x0.
Definition FDE_ENABLE : Z := 0x1.

(** [enum ctu_can_fd_mode_tttm] *)
Definition TTTM_DISABLED : Z := 0x0.
Definition TTTM_ENABLED : Z := 0x1.

(** [enum ctu_can_fd_mode_rom] *)
Definition ROM_DISABLED : Z := 0x0.
Definition ROM_ENABLED : Z := 0x1.

(** [enum ctu_can_fd_mode_acf] *)
Definition ACF_DISABLED : Z := 0x0.
Definition ACF_ENABLED : Z := 0x1.

(** [enum ctu_can_fd_mode_rxbam] *)
Definition RXBAM_DISABLED : Z := 0x0.
Definition RXBAM_ENABLED : Z := 0x1.

(** [enum ctu_can_fd_mode_txbbm] *)
Definition TXBBM_DISABLED : Z := 0x0.
Definition TXBBM_ENABLED : Z := 0x1.

(** [enum ctu_can_fd_mode_sam] *)
Definition SAM_DISABLE : Z := 0x0.
Definition SAM_ENABLE : Z := 0x1.

(** [enum ctu_can_fd_mode_erfm] *)
Definition ERFM_DISABLED : Z := 0x0.
Definition ERFM_ENABLED : Z := 0x1.

(** [enum ctu_can_fd_settings_rtrle] *)
Definition RTRLE_DISABLED : Z := 0x0.
Definition RTRLE_ENABLED : Z := 0x1.

(** [enum ctu_can_fd_settings_ilbp] *)
Definition INT_LOOP_DISABLED : Z := 0x0.
Definition INT_LOOP_ENABLED : Z := 0x1.

(** [enum ctu_can_fd_settings_ena] *)
Definition CTU_CAN_DISABLED : Z := 0x0.
Definition CTU_CAN_ENABLED : Z := 0x1.

(** [enum ctu_can_fd_settings_nisofd] *)
Definition ISO_FD : Z := 0x0.
Definition NON_ISO_FD : Z := 0x1.

(** [enum ctu_can_fd_settings_pex] *)
Definition PROTOCOL_EXCEPTION_DISABLED : Z := 0x0.
Definition PROTOCOL_EXCEPTION_ENABLED : Z := 0x1.

(** [enum ctu_can_fd_settings_tbfbo] *)
Definition TXTBUF_FAILED_BUS_OFF_DISABLED : Z := 0x0.
Definition TXTBUF_FAILED_BUS_OFF_ENABLED : Z := 0x1.

(** [enum ctu_can_fd_settings_fdrf] *)
Definition DROP_RF_DISABLED : Z := 0x0.
Definition DROP_RF_ENABLED : Z := 0x1.

Definition ctu_can_fd_status : bitfield_union := {|
  bu_le :=
    [("rxne", 1); ("dor", 1); ("txnf", 1); ("eft", 1); ("rxs", 1); ("txs", 1); ("ewl", 1);
     ("idle", 1); ("pexs", 1); ("rxpe", 1); ("txpe", 1); ("txdpe", 1);
     ("reserved_15_12", 4); ("stcnt", 1); ("strgs", 1); ("sprt", 1); ("reserved_31_19", 13)];
  bu_be :=
    [("reserved_31_19", 13); ("sprt", 1); ("strgs", 1); ("stcnt", 1); ("reserved_15_12", 4);
     ("txdpe", 1); ("txpe", 1); ("rxpe", 1); ("pexs", 1); ("idle", 1); ("ewl", 1);
     ("txs", 1); ("rxs", 1); ("eft", 1); ("txnf", 1); ("dor", 1); ("rxne", 1)];
|}.

Definition ctu_can_fd_command : bitfield_union := {|
  bu_le :=
    [("reserved_0", 1); ("rxrpmv", 1); ("rrb", 1); ("cdo", 1); ("ercrst", 1);
     ("rxfcrst", 1); ("txfcrst", 1); ("cpexs", 1); ("crxpe", 1); ("ctxpe", 1);
     ("ctxdpe", 1); ("reserved_31_11", 21)];
  bu_be :=
    [("reserved_31_11", 21); ("ctxdpe", 1); ("ctxpe", 1); ("crxpe", 1); ("cpexs", 1);
     ("txfcrst", 1); ("rxfcrst", 1); ("ercrst", 1); ("cdo", 1); ("rrb", 1); ("rxrpmv", 1);
     ("reserved_0", 1)];
|}.

Definition ctu_can_fd_int_stat : bitfield_union := {|
  bu_le :=
    [("rxi", 1); ("txi", 1); ("ewli", 1); ("doi", 1); ("fcsi", 1); ("ali", 1); ("bei", 1);
     ("ofi", 1); ("rxfi", 1); ("bsi", 1); ("rbnei", 1); ("txbhci", 1);
     ("reserved_31_12", 20)];
  bu_be :=
    [("reserved_31_12", 20); ("txbhci", 1); ("rbnei", 1); ("bsi", 1); ("rxfi", 1);
     ("ofi", 1); ("bei", 1); ("ali", 1); ("fcsi", 1); ("doi", 1); ("ewli", 1); ("txi", 1);
     ("rxi", 1)];
|}.

Definition ctu_can_fd_int_ena_set : bitfield_union := {|
  bu_le :=
    [("int_ena_set", 12); ("reserved_31_12", 20)];
  bu_be :=
    [("reserved_31_12", 20); ("int_ena_set", 12)];
|}.

Definition ctu_can_fd_int_ena_clr : bitfield_union := {|
  bu_le :=
    [("int_ena_clr", 12); ("reserved_31_12", 20)];
  bu_be :=
    [("reserved_31_12", 20); ("int_ena_clr", 12)];
|}.

Definition ctu_can_fd_int_mask_set : bitfield_union := {|
  bu_le :=
    [("int_mask_set", 12); ("reserved_31_12", 20)];
  bu_be :=
    [("reserved_31_12", 20); ("int_mask_set", 12)];
|}.

Definition ctu_can_fd_int_mask_clr : bitfield_union := {|
  bu_le :=
    [("int_mask_clr", 12); ("reserved_31_12", 20)];
  bu_be :=
    [("reserved_31_12", 20); ("int_mask_clr", 12)];
|}.

Definition ctu_can_fd_btr : bitfield_union := {|
  bu_le :=
    [("prop", 7); ("ph1", 6); ("ph2", 6); ("brp", 8); ("sjw", 5)];
  bu_be :=
    [("sjw", 5); ("brp", 8); ("ph2", 6); ("ph1", 6); ("prop", 7)];
|}.

Definition ctu_can_fd_btr_fd : bitfield_union := {|
  bu_le :=
    [("prop_fd", 6); ("reserved_6", 1); ("ph1_fd", 5); ("reserved_12", 1); ("ph2_fd", 5);
     ("reserved_18", 1); ("brp_fd", 8); ("sjw_fd", 5)];
  bu_be :=
    [("sjw_fd", 5); ("brp_fd", 8); ("reserved_18", 1); ("ph2_fd", 5); ("reserved_12", 1);
     ("ph1_fd", 5); ("reserved_6", 1); ("prop_fd", 6)];
|}.

Definition ctu_can_fd_ewl_erp_fault_state : bitfield_union := {|
  bu_le :=
    [("ew_limit", 8); ("erp_limit", 8); ("era", 1); ("erp", 1); ("bof", 1);
     ("reserved_31_19", 13)];
  bu_be :=
    [("reserved_31_19", 13); ("bof", 1); ("erp", 1); ("era", 1); ("erp_limit", 8);
     ("ew_limit", 8)];
|}.

Definition ctu_can_fd_rec_tec : bitfield_union := {|
  bu_le :=
    [("rec_val", 9); ("reserved_15_9", 7); ("tec_val", 9); ("reserved_31_25", 7)];
  bu_be :=
    [("reserved_31_25", 7); ("tec_val", 9); ("reserved_15_9", 7); ("rec_val", 9)];
|}.

Definition ctu_can_fd_err_norm_err_fd : bitfield_union := {|
  bu_le :=
    [("err_norm_val", 16); ("err_fd_val", 16)];
  bu_be :=
    [("err_fd_val", 16); ("err_norm_val", 16)];
|}.

Definition ctu_can_fd_ctr_pres : bitfield_union := {|
  bu_le :=
    [("ctpv", 9); ("ptx", 1); ("prx", 1); ("enorm", 1); ("efd", 1); ("reserved_31_13", 19)];
  bu_be :=
    [("reserved_31_13", 19); ("efd", 1); ("enorm", 1); ("prx", 1); ("ptx", 1); ("ctpv", 9)];
|}.

Definition ctu_can_fd_filter_a_mask : bitfield_union := {|
  bu_le :=
    [("bit_mask_a_val", 29); ("reserved_31_29", 3)];
  bu_be :=
    [("reserved_31_29", 3); ("bit_mask_a_val", 29)];
|}.

Definition ctu_can_fd_filter_a_val : bitfield_union := {|
  bu_le :=
    [("bit_val_a_val", 29); ("reserved_31_29", 3)];
  bu_be :=
    [("reserved_31_29", 3); ("bit_val_a_val", 29)];
|}.

Definition ctu_can_fd_filter_b_mask : bitfield_union := {|
  bu_le :=
    [("bit_mask_b_val", 29); ("reserved_31_29", 3)];
  bu_be :=
    [("reserved_31_29", 3); ("bit_mask_b_val", 29)];
|}.

Definition ctu_can_fd_filter_b_val : bitfield_union := {|
  bu_le :=
    [("bit_val_b_val", 29); ("reserved_31_29", 3)];
  bu_be :=
    [("reserved_31_29", 3); ("bit_val_b_val", 29)];
|}.

Definition ctu_can_fd_filter_c_mask : bitfield_union := {|
  bu_le :=
    [("bit_mask_c_val", 29); ("reserved_31_29", 3)];
  bu_be :=
    [("reserved_31_29", 3); ("bit_mask_c_val", 29)];
|}.

Definition ctu_can_fd_filter_c_val : bitfield_union := {|
  bu_le :=
    [("bit_val_c_val", 29); ("reserved_31_29", 3)];
  bu_be :=
    [("reserved_31_29", 3); ("bit_val_c_val", 29)];
|}.

Definition ctu_can_fd_filter_ran_low : bitfield_union := {|
  bu_le :=
    [("bit_ran_low_val", 29); ("reserved_31_29", 3)];
  bu_be :=
    [("reserved_31_29", 3); ("bit_ran_low_val", 29)];
|}.

Definition ctu_can_fd_filter_ran_high : bitfield_union := {|
  bu_le :=
    [("bit_ran_high_val", 29); ("reserved_31_29", 3)];
  bu_be :=
    [("reserved_31_29", 3); ("bit_ran_high_val", 29)];
|}.

Definition ctu_can_fd_filter_control_filter_status : bitfield_union := {|
  bu_le :=
    [("fanb", 1); ("fane", 1); ("fafb", 1); ("fafe", 1); ("fbnb", 1); ("fbne", 1);
     ("fbfb", 1); ("fbfe", 1); ("fcnb", 1); ("fcne", 1); ("fcfb", 1); ("fcfe", 1);
     ("frnb", 1); ("frne", 1); ("frfb", 1); ("frfe", 1); ("sfa", 1); ("sfb", 1); ("sfc", 1);
     ("sfr", 1); ("reserved_31_20", 12)];
  bu_be :=
    [("reserved_31_20", 12); ("sfr", 1); ("sfc", 1); ("sfb", 1); ("sfa", 1); ("frfe", 1);
     ("frfb", 1); ("frne", 1); ("frnb", 1); ("fcfe", 1); ("fcfb", 1); ("fcne", 1);
     ("fcnb", 1); ("fbfe", 1); ("fbfb", 1); ("fbne", 1); ("fbnb", 1); ("fafe", 1);
     ("fafb", 1); ("fane", 1); ("fanb", 1)];
|}.

Definition ctu_can_fd_rx_mem_info : bitfield_union := {|
  bu_le :=
    [("rx_buff_size", 13); ("reserved_15_13", 3); ("rx_mem_free", 13);
     ("reserved_31_29", 3)];
  bu_be :=
    [("reserved_31_29", 3); ("rx_mem_free", 13); ("reserved_15_13", 3);
     ("rx_buff_size", 13)];
|}.

Definition ctu_can_fd_rx_pointers : bitfield_union := {|
  bu_le :=
    [("rx_wpp", 12); ("reserved_15_12", 4); ("rx_rpp", 12); ("reserved_31_28", 4)];
  bu_be :=
    [("reserved_31_28", 4); ("rx_rpp", 12); ("reserved_15_12", 4); ("rx_wpp", 12)];
|}.

Definition ctu_can_fd_rx_status_rx_settings : bitfield_union := {|
  bu_le :=
    [("rxe", 1); ("rxf", 1); ("rxmof", 1); ("reserved_3", 1); ("rxfrc", 11);
     ("reserved_15", 1); ("rtsop", 1); ("reserved_31_17", 15)];
  bu_be :=
    [("reserved_31_17", 15); ("rtsop", 1); ("reserved_15", 1); ("rxfrc", 11);
     ("reserved_3", 1); ("rxmof", 1); ("rxf", 1); ("rxe", 1)];
|}.

(** [enum ctu_can_fd_rx_settings_rtsop] *)
Definition RTS_END : Z := 0x0.
Definition RTS_BEG : Z := 0x1.

Definition ctu_can_fd_rx_data : bitfield_union := {|
  bu_le :=
    [("rx_data", 32)];
  bu_be :=
    [("rx_data", 32)];
|}.

Definition ctu_can_fd_tx_status : bitfield_union := {|
  bu_le :=
    [("tx1s", 4); ("tx2s", 4); ("tx3s", 4); ("tx4s", 4); ("tx5s", 4); ("tx6s", 4);
     ("tx7s", 4); ("tx8s", 4)];
  bu_be :=
    [("tx8s", 4); ("tx7s", 4); ("tx6s", 4); ("tx5s", 4); ("tx4s", 4); ("tx3s", 4);
     ("tx2s", 4); ("tx1s", 4)];
|}.

(** [enum ctu_can_fd_tx_status_tx1s] *)
Definition TXT_NOT_EXIST : Z := 0x0.
Definition TXT_RDY : Z := 0x1.
Definition TXT_TRAN : Z := 0x2.
Definition TXT_ABTP : Z := 0x3.
Definition TXT_TOK : Z := 0x4.
Definition TXT_ERR : Z := 0x6.
Definition TXT_ABT : Z := 0x7.
Definition TXT_ETY : Z := 0x8.
Definition TXT_PER : Z := 0x9.

Definition ctu_can_fd_tx_command_txtb_info : bitfield_union := {|
  bu_le :=
    [("txce", 1); ("txcr", 1); ("txca", 1); ("reserved_7_3", 5); ("txb1", 1); ("txb2", 1);
     ("txb3", 1); ("txb4", 1); ("txb5", 1); ("txb6", 1); ("txb7", 1); ("txb8", 1);
     ("txt_buffer_count", 4); ("reserved_31_20", 12)];
  bu_be :=
    [("reserved_31_20", 12); ("txt_buffer_count", 4); ("txb8", 1); ("txb7", 1); ("txb6", 1);
     ("txb5", 1); ("txb4", 1); ("txb3", 1); ("txb2", 1); ("txb1", 1); ("reserved_7_3", 5);
     ("txca", 1); ("txcr", 1); ("txce", 1)];
|}.

Definition ctu_can_fd_tx_priority : bitfield_union := {|
  bu_le :=
    [("txt1p", 3); ("reserved_3", 1); ("txt2p", 3); ("reserved_7", 1); ("txt3p", 3);
     ("reserved_11", 1); ("txt4p", 3); ("reserved_15", 1); ("txt5p", 3); ("reserved_19", 1);
     ("txt6p", 3); ("reserved_23", 1); ("txt7p", 3); ("reserved_27", 1); ("txt8p", 3);
     ("reserved_31", 1)];
  bu_be :=
    [("reserved_31", 1); ("txt8p", 3); ("reserved_27", 1); ("txt7p", 3); ("reserved_23", 1);
     ("txt6p", 3); ("reserved_19", 1); ("txt5p", 3); ("reserved_15", 1); ("txt4p", 3);
     ("reserved_11", 1); ("txt3p", 3); ("reserved_7", 1); ("txt2p", 3); ("reserved_3", 1);
     ("txt1p", 3)];
|}.

Definition ctu_can_fd_err_capt_retr_ctr_alc_ts_info : bitfield_union := {|
  bu_le :=
    [("err_pos", 4); ("err_erp", 1); ("err_type", 3); ("retr_ctr_val", 4);
     ("reserved_15_12", 4); ("alc_bit", 5); ("alc_id_field", 3); ("ts_bits", 6);
     ("reserved_31_30", 2)];
  bu_be :=
    [("reserved_31_30", 2); ("ts_bits", 6); ("alc_id_field", 3); ("alc_bit", 5);
     ("reserved_15_12", 4); ("retr_ctr_val", 4); ("err_type", 3); ("err_erp", 1);
     ("err_pos", 4)];
|}.

(** [enum ctu_can_fd_err_capt_err_pos] *)
Definition ERC_POS_SOF : Z := 0x0.
Definition ERC_POS_ARB : Z := 0x1.
Definition ERC_POS_CTRL : Z := 0x2.
Definition ERC_POS_DATA : Z := 0x3.
Definition ERC_POS_CRC : Z := 0x4.
Definition ERC_POS_ACK : Z := 0x5.
Definition ERC_POS_EOF : Z := 0x6.
Definition ERC_POS_ERR : Z := 0x7.
Definition ERC_POS_OVRL : Z := 0x8.
Definition ERC_POS_OTHER : Z := 0xf.

(** [enum ctu_can_fd_err_capt_err_erp] *)
Definition ERR_ERP_ACTIVE : Z := 0x0.
Definition ERR_ERP_PASSIVE : Z := 0x1.

(** [enum ctu_can_fd_err_capt_err_type] *)
Definition ERC_BIT_ERR : Z := 0x0.
Definition ERC_CRC_ERR : Z := 0x1.
Definition ERC_FRM_ERR : Z := 0x2.
Definition ERC_ACK_ERR : Z := 0x3.
Definition ERC_STUF_ERR : Z := 0x4.
Definition ERC_PRT_ERR : Z := 0x5.

(** [enum ctu_can_fd_alc_alc_id_field] *)
Definition ALC_RSVD : Z := 0x0.
Definition ALC_BASE_ID : Z := 0x1.
Definition ALC_SRR_RTR : Z := 0x2.
Definition ALC_IDE : Z := 0x3.
Definition ALC_EXTENSION : Z := 0x4.
Definition ALC_RTR : Z := 0x5.

Definition ctu_can_fd_trv_delay_ssp_cfg : bitfield_union := {|
  bu_le :=
    [("trv_delay_value", 7); ("reserved_15_7", 9); ("ssp_offset", 8); ("ssp_src", 2);
     ("reserved_31_26", 6)];
  bu_be :=
    [("reserved_31_26", 6); ("ssp_src", 2); ("ssp_offset", 8); ("reserved_15_7", 9);
     ("trv_delay_value", 7)];
|}.

(** [enum ctu_can_fd_ssp_cfg_ssp_src] *)
Definition SSP_SRC_MEAS_N_OFFSET : Z := 0x0.
Definition SSP_SRC_NO_SSP : Z := 0x1.
Definition SSP_SRC_OFFSET : Z := 0x2.

Definition ctu_can_fd_rx_fr_ctr : bitfield_union := {|
  bu_le :=
    [("rx_fr_ctr_val", 32)];
  bu_be :=
    [("rx_fr_ctr_val", 32)];
|}.

Definition ctu_can_fd_tx_fr_ctr : bitfield_union := {|
  bu_le :=
    [("tx_fr_ctr_val", 32)];
  bu_be :=
    [("tx_fr_ctr_val", 32)];
|}.

Definition ctu_can_fd_debug_register : bitfield_union := {|
  bu_le :=
    [("stuff_count", 3); ("destuff_count", 3); ("pc_arb", 1); ("pc_con", 1); ("pc_dat", 1);
     ("pc_stc", 1); ("pc_crc", 1); ("pc_crcd", 1); ("pc_ack", 1); ("pc_ackd", 1);
     ("pc_eof", 1); ("pc_int", 1); ("pc_susp", 1); ("pc_ovr", 1); ("pc_sof", 1);
     ("reserved_31_19", 13)];
  bu_be :=
    [("reserved_31_19", 13); ("pc_sof", 1); ("pc_ovr", 1); ("pc_susp", 1); ("pc_int", 1);
     ("pc_eof", 1); ("pc_ackd", 1); ("pc_ack", 1); ("pc_crcd", 1); ("pc_crc", 1);
     ("pc_stc", 1); ("pc_dat", 1); ("pc_con", 1); ("pc_arb", 1); ("destuff_count", 3);
     ("stuff_count", 3)];
|}.

Definition ctu_can_fd_yolo_reg : bitfield_union := {|
  bu_le :=
    [("yolo_val", 32)];
  bu_be :=
    [("yolo_val", 32)];
|}.

Definition ctu_can_fd_timestamp_low : bitfield_union := {|
  bu_le :=
    [("timestamp_low", 32)];
  bu_be :=
    [("timestamp_low", 32)];
|}.

Definition ctu_can_fd_timestamp_high : bitfield_union := {|
  bu_le :=
    [("timestamp_high", 32)];
  bu_be :=
    [("timestamp_high", 32)];
|}.

Definition ctu_can_fd_tst_control : bitfield_union := {|
  bu_le :=
    [("tmaena", 1); ("twrstb", 1); ("reserved_31_2", 30)];
  bu_be :=
    [("reserved_31_2", 30); ("twrstb", 1); ("tmaena", 1)];
|}.

Definition ctu_can_fd_tst_dest : bitfield_union := {|
  bu_le :=
    [("tst_addr", 16); ("tst_mtgt", 4); ("reserved_31_20", 12)];
  bu_be :=
    [("reserved_31_20", 12); ("tst_mtgt", 4); ("tst_addr", 16)];
|}.

(** [enum ctu_can_fd_tst_dest_tst_mtgt] *)
Definition TMTGT_NONE : Z := 0x0.
Definition TMTGT_RXBUF : Z := 0x1.
Definition TMTGT_TXTBUF1 : Z := 0x2.
Definition TMTGT_TXTBUF2 : Z := 0x3.
Definition TMTGT_TXTBUF3 : Z := 0x4.
Definition TMTGT_TXTBUF4 : Z := 0x5.
Definition TMTGT_TXTBUF5 : Z := 0x6.
Definition TMTGT_TXTBUF6 : Z := 0x7.
Definition TMTGT_TXTBUF7 : Z := 0x8.
Definition TMTGT_TXTBUF8 : Z := 0x9.

Definition ctu_can_fd_tst_wdata : bitfield_union := {|
  bu_le :=
    [("tst_wdata", 32)];
  bu_be :=
    [("tst_wdata", 32)];
|}.

Definition ctu_can_fd_tst_rdata : bitfield_union := {|
  bu_le :=
    [("tst_rdata", 32)];
  bu_be :=
    [("tst_rdata", 32)];
|}.

(** ** [ctucanfd_frame.h] *)

(** [enum ctu_can_fd_can_frame_format] *)
Definition CTU_CAN_FD_FRAME_FORMAT_W : Z := 0x0.
Definition CTU_CAN_FD_IDENTIFIER_W : Z := 0x4.
Definition CTU_CAN_FD_TIMESTAMP_L_W : Z := 0x8.
Definition CTU_CAN_FD_TIMESTAMP_U_W : Z := 0xc.
Definition CTU_CAN_FD_DATA_1_4_W : Z := 0x10.
Definition CTU_CAN_FD_DATA_5_8_W : Z := 0x14.
Definition CTU_CAN_FD_DATA_9_12_W : Z := 0x18.
Definition CTU_CAN_FD_DATA_13_16_W : Z := 0x1c.
Definition CTU_CAN_FD_DATA_17_20_W : Z := 0x20.
Definition CTU_CAN_FD_DATA_21_24_W : Z := 0x24.
Definition CTU_CAN_FD_DATA_25_28_W : Z := 0x28.
Definition CTU_CAN_FD_DATA_29_32_W : Z := 0x2c.
Definition CTU_CAN_FD_DATA_33_36_W : Z := 0x30.
Definition CTU_CAN_FD_DATA_37_40_W : Z := 0x34.
Definition CTU_CAN_FD_DATA_41_44_W : Z := 0x38.
Definition CTU_CAN_FD_DATA_45_48_W : Z := 0x3c.
Definition CTU_CAN_FD_DATA_49_52_W : Z := 0x40.
Definition CTU_CAN_FD_DATA_53_56_W : Z := 0x44.
Definition CTU_CAN_FD_DATA_57_60_W : Z := 0x48.
Definition CTU_CAN_FD_DATA_61_64_W : Z := 0x4c.
Definition CTU_CAN_FD_FRAME_TEST_W : Z := 0x50.

Definition ctu_can_fd_frame_format_w : bitfield_union := {|
  bu_le :=
    [("dlc", 4); ("erf", 1); ("rtr", 1); ("ide", 1); ("fdf", 1); ("lbpf", 1); ("brs", 1);
     ("esi_rsv", 1); ("rwcnt", 5); ("erf_pos", 4); ("erf_erp", 1); ("erf_type", 3);
     ("ivld", 1); ("lbtbi", 3); ("reserved_31_28", 4)];
  bu_be :=
    [("reserved_31_28", 4); ("lbtbi", 3); ("ivld", 1); ("erf_type", 3); ("erf_erp", 1);
     ("erf_pos", 4); ("rwcnt", 5); ("esi_rsv", 1); ("brs", 1); ("lbpf", 1); ("fdf", 1);
     ("ide", 1); ("rtr", 1); ("erf", 1); ("dlc", 4)];
|}.

(** [enum ctu_can_fd_frame_format_w_erf] *)
Definition ERF_CAN_FRAME : Z := 0x0.
Definition ERF_ERR_FRAME : Z := 0x1.

(** [enum ctu_can_fd_frame_format_w_rtr] *)
Definition NO_RTR_FRAME : Z := 0x0.
Definition RTR_FRAME : Z := 0x1.

(** [enum ctu_can_fd_frame_format_w_ide] *)
Definition BASE : Z := 0x0.
Definition EXTENDED : Z := 0x1.

(** [enum ctu_can_fd_frame_format_w_fdf] *)
Definition NORMAL_CAN : Z := 0x0.
Definition FD_CAN : Z := 0x1.

(** [enum ctu_can_fd_frame_format_w_lbpf] *)
Definition LBPF_FOREIGN : Z := 0x0.
Definition LBPF_LOOPBACK : Z := 0x1.

(** [enum ctu_can_fd_frame_format_w_brs] *)
Definition BR_NO_SHIFT : Z := 0x0.
Definition BR_SHIFT : Z := 0x1.

(** [enum ctu_can_fd_frame_format_w_esi_rsv] *)
Definition ESI_ERR_ACTIVE : Z := 0x0.
Definition ESI_ERR_PASIVE : Z := 0x1.

(** [enum ctu_can_fd_frame_format_w_ivld] *)
Definition IVLD_INALID : Z := 0x0.
Definition IVLD_VALID : Z := 0x1.

(** [enum ctu_can_fd_frame_format_w_lbtbi] *)
Definition TXT_BUF_1 : Z := 0x0.
Definition TXT_BUF_2 : Z := 0x1.
Definition TXT_BUF_3 : Z := 0x2.
Definition TXT_BUF_4 : Z := 0x3.
Definition TXT_BUF_5 : Z := 0x4.
Definition TXT_BUF_6 : Z := 0x5.
Definition TXT_BUF_7 : Z := 0x6.
Definition TXT_BUF_8 : Z := 0x7.

Definition ctu_can_fd_identifier_w : bitfield_union := {|
  bu_le :=
    [("identifier_ext", 18); ("identifier_base", 11); ("reserved_31_29", 3)];
  bu_be :=
    [("reserved_31_29", 3); ("identifier_base", 11); ("identifier_ext", 18)];
|}.

Definition ctu_can_fd_timestamp_l_w : bitfield_union := {|
  bu_le :=
    [("time_stamp_l_w", 32)];
  bu_be :=
    [("time_stamp_l_w", 32)];
|}.

Definition ctu_can_fd_timestamp_u_w : bitfield_union := {|
  bu_le :=
    [("timestamp_u_w", 32)];
  bu_be :=
    [("timestamp_u_w", 32)];
|}.

Definition ctu_can_fd_data_1_4_w : bitfield_union := {|
  bu_le :=
    [("data_1", 8); ("data_2", 8); ("data_3", 8); ("data_4", 8)];
  bu_be :=
    [("data_4", 8); ("data_3", 8); ("data_2", 8); ("data_1", 8)];
|}.

Definition ctu_can_fd_data_5_8_w : bitfield_union := {|
  bu_le :=
    [("data_5", 8); ("data_6", 8); ("data_7", 8); ("data_8", 8)];
  bu_be :=
    [("data_8", 8); ("data_7", 8); ("data_6", 8); ("data_5", 8)];
|}.

Definition ctu_can_fd_data_9_12_w : bitfield_union := {|
  bu_le :=
    [("data_9", 8); ("data_10", 8); ("data_11", 8); ("data_12", 8)];
  bu_be :=
    [("data_12", 8); ("data_11", 8); ("data_10", 8); ("data_9", 8)];
|}.

Definition ctu_can_fd_data_13_16_w : bitfield_union := {|
  bu_le :=
    [("data_13", 8); ("data_14", 8); ("data_15", 8); ("data_16", 8)];
  bu_be :=
    [("data_16", 8); ("data_15", 8); ("data_14", 8); ("data_13", 8)];
|}.

Definition ctu_can_fd_data_17_20_w : bitfield_union := {|
  bu_le :=
    [("data_17", 8); ("data_18", 8); ("data_19", 8); ("data_20", 8)];
  bu_be :=
    [("data_20", 8); ("data_19", 8); ("data_18", 8); ("data_17", 8)];
|}.

Definition ctu_can_fd_data_21_24_w : bitfield_union := {|
  bu_le :=
    [("data_21", 8); ("data_22", 8); ("data_23", 8); ("data_24", 8)];
  bu_be :=
    [("data_24", 8); ("data_23", 8); ("data_22", 8); ("data_21", 8)];
|}.

Definition ctu_can_fd_data_25_28_w : bitfield_union := {|
  bu_le :=
    [("data_25", 8); ("data_26", 8); ("data_27", 8); ("data_28", 8)];
  bu_be :=
    [("data_28", 8); ("data_27", 8); ("data_26", 8); ("data_25", 8)];
|}.

Definition ctu_can_fd_data_29_32_w : bitfield_union := {|
  bu_le :=
    [("data_29", 8); ("data_30", 8); ("data_31", 8); ("data_32", 8)];
  bu_be :=
    [("data_32", 8); ("data_31", 8); ("data_30", 8); ("data_29", 8)];
|}.

Definition ctu_can_fd_data_33_36_w : bitfield_union := {|
  bu_le :=
    [("data_33", 8); ("data_34", 8); ("data_35", 8); ("data_36", 8)];
  bu_be :=
    [("data_36", 8); ("data_35", 8); ("data_34", 8); ("data_33", 8)];
|}.

Definition ctu_can_fd_data_37_40_w : bitfield_union := {|
  bu_le :=
    [("data_37", 8); ("data_38", 8); ("data_39", 8); ("data_40", 8)];
  bu_be :=
    [("data_40", 8); ("data_39", 8); ("data_38", 8); ("data_37", 8)];
|}.

Definition ctu_can_fd_data_41_44_w : bitfield_union := {|
  bu_le :=
    [("data_41", 8); ("data_42", 8); ("data_43", 8); ("data_44", 8)];
  bu_be :=
    [("data_44", 8); ("data_43", 8); ("data_42", 8); ("data_41", 8)];
|}.

Definition ctu_can_fd_data_45_48_w : bitfield_union := {|
  bu_le :=
    [("data_45", 8); ("data_46", 8); ("data_47", 8); ("data_48", 8)];
  bu_be :=
    [("data_48", 8); ("data_47", 8); ("data_46", 8); ("data_45", 8)];
|}.

Definition ctu_can_fd_data_49_52_w : bitfield_union := {|
  bu_le :=
    [("data_49", 8); ("data_50", 8); ("data_51", 8); ("data_52", 8)];
  bu_be :=
    [("data_52", 8); ("data_51", 8); ("data_50", 8); ("data_49", 8)];
|}.

Definition ctu_can_fd_data_53_56_w : bitfield_union := {|
  bu_le :=
    [("data_53", 8); ("data_56", 8); ("data_55", 8); ("data_54", 8)];
  bu_be :=
    [("data_54", 8); ("data_55", 8); ("data_56", 8); ("data_53", 8)];
|}.

Definition ctu_can_fd_data_57_60_w : bitfield_union := {|
  bu_le :=
    [("data_57", 8); ("data_58", 8); ("data_59", 8); ("data_60", 8)];
  bu_be :=
    [("data_60", 8); ("data_59", 8); ("data_58", 8); ("data_57", 8)];
|}.

Definition ctu_can_fd_data_61_64_w : bitfield_union := {|
  bu_le :=
    [("data_61", 8); ("data_62", 8); ("data_63", 8); ("data_64", 8)];
  bu_be :=
    [("data_64", 8); ("data_63", 8); ("data_62", 8); ("data_61", 8)];
|}.

Definition ctu_can_fd_frame_test_w : bitfield_union := {|
  bu_le :=
    [("fstc", 1); ("fcrc", 1); ("sdlc", 1); ("reserved_7_3", 5); ("tprm", 5);
     ("reserved_31_13", 19)];
  bu_be :=
    [("reserved_31_13", 19); ("tprm", 5); ("reserved_7_3", 5); ("sdlc", 1); ("fcrc", 1);
     ("fstc", 1)];
|}.

(** All register unions of the two headers. *)
Definition all_unions : list bitfield_union :=
  [ctu_can_fd_device_id_version; ctu_can_fd_mode_settings; ctu_can_fd_status;
   ctu_can_fd_command; ctu_can_fd_int_stat; ctu_can_fd_int_ena_set; ctu_can_fd_int_ena_clr;
   ctu_can_fd_int_mask_set; ctu_can_fd_int_mask_clr; ctu_can_fd_btr; ctu_can_fd_btr_fd;
   ctu_can_fd_ewl_erp_fault_state; ctu_can_fd_rec_tec; ctu_can_fd_err_norm_err_fd;
   ctu_can_fd_ctr_pres; ctu_can_fd_filter_a_mask; ctu_can_fd_filter_a_val;
   ctu_can_fd_filter_b_mask; ctu_can_fd_filter_b_val; ctu_can_fd_filter_c_mask;
   ctu_can_fd_filter_c_val; ctu_can_fd_filter_ran_low; ctu_can_fd_filter_ran_high;
   ctu_can_fd_filter_control_filter_status; ctu_can_fd_rx_mem_info; ctu_can_fd_rx_pointers;
   ctu_can_fd_rx_status_rx_settings; ctu_can_fd_rx_data; ctu_can_fd_tx_status;
   ctu_can_fd_tx_command_txtb_info; ctu_can_fd_tx_priority;
   ctu_can_fd_err_capt_retr_ctr_alc_ts_info; ctu_can_fd_trv_delay_ssp_cfg;
   ctu_can_fd_rx_fr_ctr; ctu_can_fd_tx_fr_ctr; ctu_can_fd_debug_register;
   ctu_can_fd_yolo_reg; ctu_can_fd_timestamp_low; ctu_can_fd_timestamp_high;
   ctu_can_fd_tst_control; ctu_can_fd_tst_dest; ctu_can_fd_tst_wdata; ctu_can_fd_tst_rdata;
   ctu_can_fd_frame_format_w; ctu_can_fd_identifier_w; ctu_can_fd_timestamp_l_w;
   ctu_can_fd_timestamp_u_w; ctu_can_fd_data_1_4_w; ctu_can_fd_data_5_8_w;
   ctu_can_fd_data_9_12_w; ctu_can_fd_data_13_16_w; ctu_can_fd_data_17_20_w;
   ctu_can_fd_data_21_24_w; ctu_can_fd_data_25_28_w; ctu_can_fd_data_29_32_w;
   ctu_can_fd_data_33_36_w; ctu_can_fd_data_37_40_w; ctu_can_fd_data_41_44_w;
   ctu_can_fd_data_45_48_w; ctu_can_fd_data_49_52_w; ctu_can_fd_data_53_56_w;
   ctu_can_fd_data_57_60_w; ctu_can_fd_data_61_64_w; ctu_can_fd_frame_test_w].
