(* ===== verification/LinuxDefs.v ===== *)
(** * Linux declarations used by both drivers

    The types, constants and helpers of [ctucanfd_linux_defs.h] and the
    DLC/length conversion of [ctucanfd_linux_defs.c], which "replaces common
    kernel headers" outside of the kernel, with the [errno] values and the error
    classes of [linux/can/error.h] that the kernel driver uses (stable numbers of
    the Linux user-space ABI). *)

From Stdlib Require Import ZArith Lia.
From stdpp Require Import base numbers list strings.
From S2P Require Import Prelude.

#[local] Open Scope Z_scope.

(** ** Error numbers *)

Definition EPERM : Z := 1.
Definition EIO : Z := 5.
Definition EAGAIN : Z := 11.
Definition ENOMEM : Z := 12.
Definition ENODEV : Z := 19.
Definition EINVAL : Z := 22.
Definition EDOM : Z := 33.
Definition ERANGE : Z := 34.
Definition EOPNOTSUPP : Z := 95.
Definition ETIMEDOUT : Z := 110.

(** ** Controller modes *)

Definition CAN_CTRLMODE_LOOPBACK : Z := 0x01.
Definition CAN_CTRLMODE_LISTENONLY : Z := 0x02.
Definition CAN_CTRLMODE_3_SAMPLES : Z := 0x04.
Definition CAN_CTRLMODE_ONE_SHOT : Z := 0x08.
Definition CAN_CTRLMODE_BERR_REPORTING : Z := 0x10.
Definition CAN_CTRLMODE_FD : Z := 0x20.
Definition CAN_CTRLMODE_PRESUME_ACK : Z := 0x40.
Definition CAN_CTRLMODE_FD_NON_ISO : Z := 0x80.

Record can_ctrlmode := { mode_mask : Z; mode_flags : Z }.

(** ** Identifiers and frames *)

Definition CAN_EFF_FLAG : Z := 0x80000000.
Definition CAN_RTR_FLAG : Z := 0x40000000.
Definition CAN_ERR_FLAG : Z := 0x20000000.
Definition CAN_SFF_MASK : Z := 0x000007FF.
Definition CAN_EFF_MASK : Z := 0x1FFFFFFF.

Definition CAN_MAX_DLEN : Z := 8.
Definition CANFD_MAX_DLEN : Z := 64.

Definition CANFD_BRS : Z := 0x01.
Definition CANFD_ESI : Z := 0x02.

(** [struct canfd_frame].  The payload is the list of the bytes of [data]; a
    [struct can_frame], which the drivers access through the same pointer type,
    is a frame whose [data] has 8 bytes instead of 64 ([len] is its [can_dlc]
    and [flags] its padding byte). *)
Record canfd_frame := {
  can_id : Z;
  len : Z;
  flags : Z;
  data : list Z;
}.

Definition set_can_id (v : Z) (cf : canfd_frame) : canfd_frame :=
  {| can_id := v; len := len cf; flags := flags cf; data := data cf |}.

Definition set_len (v : Z) (cf : canfd_frame) : canfd_frame :=
  {| can_id := can_id cf; len := v; flags := flags cf; data := data cf |}.

Definition set_flags (v : Z) (cf : canfd_frame) : canfd_frame :=
  {| can_id := can_id cf; len := len cf; flags := v; data := data cf |}.

Definition set_data (v : list Z) (cf : canfd_frame) : canfd_frame :=
  {| can_id := can_id cf; len := len cf; flags := flags cf; data := v |}.

Record can_filter := { filter_id : Z; filter_mask : Z }.

(** ** Bit timing *)

Record can_bittiming := {
  bitrate : Z;
  sample_point : Z;
  tq : Z;
  prop_seg : Z;
  phase_seg1 : Z;
  phase_seg2 : Z;
  sjw : Z;
  brp : Z;
}.

(** [bt->prop_seg = p; bt->phase_seg1 = q;] *)
Definition set_segs (p q : Z) (bt : can_bittiming) : can_bittiming :=
  {| bitrate := bitrate bt; sample_point := sample_point bt; tq := tq bt;
     prop_seg := p; phase_seg1 := q; phase_seg2 := phase_seg2 bt;
     sjw := sjw bt; brp := brp bt |}.

Record can_bittiming_const := {
  tseg1_min : Z;
  tseg1_max : Z;
  tseg2_min : Z;
  tseg2_max : Z;
  sjw_max : Z;
  brp_min : Z;
  brp_max : Z;
  brp_inc : Z;
}.

(** ** States and counters *)

Inductive can_state :=
  | CAN_STATE_ERROR_ACTIVE
  | CAN_STATE_ERROR_WARNING
  | CAN_STATE_ERROR_PASSIVE
  | CAN_STATE_BUS_OFF
  | CAN_STATE_STOPPED
  | CAN_STATE_SLEEPING.

#[export] Instance can_state_eq_dec : EqDecision can_state.
Proof. solve_decision. Defined.

Record can_berr_counter := { txerr : Z; rxerr : Z }.

Record can_device_stats := {
  bus_error : Z;
  error_warning : Z;
  error_passive : Z;
  bus_off : Z;
  arbitration_lost : Z;
  restarts : Z;
}.

(** ** Error classes ([linux/can/error.h]) *)

Definition CAN_ERR_LOSTARB : Z := 0x02.
Definition CAN_ERR_CRTL : Z := 0x04.
Definition CAN_ERR_PROT : Z := 0x08.
Definition CAN_ERR_BUSOFF : Z := 0x40.
Definition CAN_ERR_BUSERROR : Z := 0x80.
Definition CAN_ERR_CNT : Z := 0x200.

Definition CAN_ERR_LOSTARB_UNSPEC : Z := 0x00.
Definition CAN_ERR_CRTL_RX_OVERFLOW : Z := 0x01.
Definition CAN_ERR_CRTL_RX_WARNING : Z := 0x04.
Definition CAN_ERR_CRTL_TX_WARNING : Z := 0x08.
Definition CAN_ERR_CRTL_RX_PASSIVE : Z := 0x10.
Definition CAN_ERR_CRTL_TX_PASSIVE : Z := 0x20.
Definition CAN_ERR_CRTL_ACTIVE : Z := 0x40.
Definition CAN_ERR_PROT_UNSPEC : Z := 0x00.
Definition CAN_ERR_PROT_LOC_UNSPEC : Z := 0x00.

(** ** DLC and payload length *)

Definition dlc2len : list Z :=
  [0; 1; 2; 3; 4; 5; 6; 7; 8; 12; 16; 20; 24; 32; 48; 64].

Definition can_dlc2len (can_dlc : Z) : Z := nth (Z.to_nat (Z.land can_dlc 0x0F)) dlc2len 0.

Definition len2dlc : list Z :=
  [0; 1; 2; 3; 4; 5; 6; 7; 8;
   9; 9; 9; 9;
   10; 10; 10; 10;
   11; 11; 11; 11;
   12; 12; 12; 12;
   13; 13; 13; 13; 13; 13; 13; 13;
   14; 14; 14; 14; 14; 14; 14; 14;
   14; 14; 14; 14; 14; 14; 14; 14;
   15; 15; 15; 15; 15; 15; 15; 15;
   15; 15; 15; 15; 15; 15; 15; 15].

Definition can_len2dlc (len : Z) : Z :=
  if 64 <? len then 0xF else nth (Z.to_nat len) len2dlc 0.

(** ** Byte order *)

(** The bytes of a 32-bit word in little-endian order, and back. *)
Definition le32_bytes (x : Z) : list Z :=
  [Z.land x 0xFF; Z.land (Z.shiftr x 8) 0xFF; Z.land (Z.shiftr x 16) 0xFF;
   Z.land (Z.shiftr x 24) 0xFF].

Definition bytes_le32 (b0 b1 b2 b3 : Z) : Z :=
  Z.lor b0 (Z.lor (Z.shiftl b1 8) (Z.lor (Z.shiftl b2 16) (Z.shiftl b3 24))).

(** [be32_to_cpu] and [cpu_to_be32] on a little-endian host. *)
Definition swab32 (x : Z) : Z :=
  bytes_le32 (Z.land (Z.shiftr x 24) 0xFF) (Z.land (Z.shiftr x 16) 0xFF)
    (Z.land (Z.shiftr x 8) 0xFF) (Z.land x 0xFF).

(** [le32_to_cpu( *(__le32 * )(data + i))]: [None] outside of the array. *)
Definition load_le32 (d : list Z) (i : Z) : option Z :=
  let j := Z.to_nat i in
  match d !! j, d !! S j, d !! S (S j), d !! S (S (S j)) with
  | Some b0, Some b1, Some b2, Some b3 => Some (bytes_le32 b0 b1 b2 b3)
  | _, _, _, _ => None
  end.

(** [*(__le32 * )(data + i) = cpu_to_le32(x)]: [None] outside of the array. *)
Definition store_le32 (d : list Z) (i x : Z) : option (list Z) :=
  if i + 4 <=? Z.of_nat (length d) then Some (list_inserts (Z.to_nat i) (le32_bytes x) d)
  else None.

Definition is_byte (x : Z) : Prop := 0 <= x < 256.

(** ** Laws *)

Lemma len2dlc_dlc2len n : 0 <= n <= 64 → n <= can_dlc2len (can_len2dlc n).
Proof.
  intros Hn. apply Z.leb_le.
  apply (Z_range_forallb 65 (λ k, k <=? can_dlc2len (can_len2dlc k))); [done|lia].
Qed.

Lemma can_len2dlc_range n : 0 <= n → 0 <= can_len2dlc n <= 15.
Proof.
  intros Hn. destruct (Z.lt_ge_cases 64 n).
  - unfold can_len2dlc. destruct (Z.ltb_spec 64 n); lia.
  - enough ((0 <=? can_len2dlc n) && (can_len2dlc n <=? 15) = true) by lia.
    apply (Z_range_forallb 65 (λ k, (0 <=? can_len2dlc k) && (can_len2dlc k <=? 15))); [done|lia].
Qed.

Lemma len2dlc_small n : 0 <= n <= 8 → can_len2dlc n = n.
Proof.
  intros Hn. apply Z.eqb_eq.
  apply (Z_range_forallb 9 (λ k, can_len2dlc k =? k)); [done|lia].
Qed.

(** The number of 32-bit words that hold [l] bytes. *)
Definition nwords (l : Z) : Z := (l + 3) / 4.

Lemma nwords_bounds l : l <= 4 * nwords l < l + 4.
Proof.
  unfold nwords. pose proof (Z.div_mod (l + 3) 4). pose proof (Z.mod_pos_bound (l + 3) 4). lia.
Qed.

Lemma bytes_le32_u32 b0 b1 b2 b3 :
  is_byte b0 → is_byte b1 → is_byte b2 → is_byte b3 → is_u32 (bytes_le32 b0 b1 b2 b3).
Proof.
  unfold is_byte, bytes_le32. intros. rewrite !Z.shiftl_mul_pow2 by lia.
  repeat apply lor_u32; unfold is_u32; lia.
Qed.

Lemma load_le32_ok d j :
  Forall is_byte d → 0 <= j → 4 * j + 4 <= Z.of_nat (length d) →
  ∃ w, load_le32 d (4 * j) = Some w ∧ is_u32 w.
Proof.
  intros Hb Hj Hl. unfold load_le32.
  assert (Hk : ∀ k, (k < length d)%nat → ∃ b, d !! k = Some b ∧ is_byte b).
  { intros k Hk. destruct (lookup_lt_is_Some_2 d k Hk) as [b Eb]. exists b.
    split; [done|]. by eapply Forall_lookup_1. }
  destruct (Hk (Z.to_nat (4 * j))) as (b0 & -> & ?); [lia|].
  destruct (Hk (S (Z.to_nat (4 * j)))) as (b1 & -> & ?); [lia|].
  destruct (Hk (S (S (Z.to_nat (4 * j))))) as (b2 & -> & ?); [lia|].
  destruct (Hk (S (S (S (Z.to_nat (4 * j)))))) as (b3 & -> & ?); [lia|].
  eexists. split; [done|]. by apply bytes_le32_u32.
Qed.

Lemma le32_bytes_length x : length (le32_bytes x) = 4%nat.
Proof. done. Qed.

Lemma testbit_byte_field x k i :
  0 <= k → 0 <= i → Z.testbit (Z.land (Z.shiftr x k) 0xFF) i = Z.testbit x (i + k) && (i <? 8).
Proof.
  intros. change 0xFF with (Z.ones 8). by rewrite Z.land_spec, Z.shiftr_spec, testbit_ones by lia.
Qed.

(** Splitting a word in bytes and assembling it again, in both directions. *)
Lemma bytes_le32_of_word x : is_u32 x →
  bytes_le32 (Z.land x 0xFF) (Z.land (Z.shiftr x 8) 0xFF) (Z.land (Z.shiftr x 16) 0xFF)
    (Z.land (Z.shiftr x 24) 0xFF) = x.
Proof.
  unfold is_u32. intros Hx. apply Z.bits_inj'. intros i Hi. unfold bytes_le32.
  rewrite <- (Z.shiftr_0_r x) at 1.
  assert (Hb : ∀ k j, 0 <= k → Z.testbit (Z.land (Z.shiftr x k) 0xFF) j =
    (0 <=? j) && (j <? 8) && Z.testbit x (j + k)).
  { intros k j Hk. destruct (Z.lt_ge_cases j 0).
    { rewrite Z.testbit_neg_r by lia. by replace (0 <=? j) with false by lia. }
    rewrite testbit_byte_field by lia. destruct (Z.testbit x (j + k)); lia. }
  rewrite !Z.lor_spec, !Z.shiftl_spec, !Hb by lia.
  rewrite Z.add_0_r, !Z.sub_add.
  destruct (Z.lt_ge_cases i 32); [|by rewrite (testbit_above 32 x), !andb_false_r by lia].
  destruct (Z.testbit x i); rewrite ?andb_true_r, ?andb_false_r; [|done]. lia.
Qed.

Lemma le32_bytes_of_bytes b0 b1 b2 b3 :
  is_byte b0 → is_byte b1 → is_byte b2 → is_byte b3 →
  le32_bytes (bytes_le32 b0 b1 b2 b3) = [b0; b1; b2; b3].
Proof.
  unfold is_byte. intros H0 H1 H2 H3.
  assert (Hx : ∀ j, 0 <= j → Z.testbit (bytes_le32 b0 b1 b2 b3) j =
    if j <? 8 then Z.testbit b0 j else if j <? 16 then Z.testbit b1 (j - 8)
    else if j <? 24 then Z.testbit b2 (j - 16) else Z.testbit b3 (j - 24)).
  { intros j Hj. unfold bytes_le32. rewrite !Z.lor_spec, !Z.shiftl_spec by done.
    assert (Hn : ∀ b k, 0 <= b < 256 → j < k ∨ k + 8 <= j → Z.testbit b (j - k) = false).
    { intros b k Hb [?|?]; [apply Z.testbit_neg_r; lia|].
      destruct (Z.lt_ge_cases (j - k) 0); [lia|]. apply (testbit_above 8); lia. }
    replace (Z.testbit b0 j) with (Z.testbit b0 (j - 0)) by (f_equal; lia).
    repeat case_match; rewrite ?(Hn b0 0), ?(Hn b1 8), ?(Hn b2 16), ?(Hn b3 24) by lia;
      simpl; by rewrite ?orb_false_r. }
  assert (Hk : ∀ k b, 0 <= b < 256 → 0 <= k → (∀ i, 0 <= i < 8 →
      Z.testbit (bytes_le32 b0 b1 b2 b3) (i + k) = Z.testbit b i) →
    Z.land (Z.shiftr (bytes_le32 b0 b1 b2 b3) k) 0xFF = b).
  { intros k b Hb Hk Hi. apply Z.bits_inj'. intros i ?. rewrite testbit_byte_field by lia.
    destruct (Z.ltb_spec i 8); [by rewrite Hi, andb_true_r by lia|].
    by rewrite (testbit_above 8 b), andb_false_r by lia. }
  unfold le32_bytes. rewrite <- (Z.shiftr_0_r (bytes_le32 _ _ _ _)) at 1.
  rewrite (Hk 0 b0), (Hk 8 b1), (Hk 16 b2), (Hk 24 b3); try done;
    intros i Hi; rewrite Hx by lia; repeat case_match; try lia; f_equal; lia.
Qed.
