(* ===== verification/World.v ===== *)
(** * The world of the drivers, and the monad the drivers are written in

    A driver only acts through 32-bit loads and stores of the memory-mapped
    registers and through calls of kernel functions.  [World] is the interface
    of everything on the other side (the CAN core, the bus and the kernel): how
    it answers each load, call and allocation, as a state machine that the
    theorems leave arbitrary unless they say otherwise.

    [M D W A] is the monad of a driver with private state [D] in the world [W]:
    it threads the state, records the events (loads, stores, calls) in order in
    a trace, and distinguishes a normal result, undefined behaviour of the C
    program and exhausted fuel of a loop. *)

From Stdlib Require Import ZArith Lia.
From stdpp Require Import base numbers list strings.
From S2P Require Import Prelude LinuxDefs.

#[local] Open Scope Z_scope.

(** ** Calls of kernel functions *)

(** A socket buffer handed to [ndo_start_xmit]: its frame, and whether
    [can_is_canfd_skb] holds of it. *)
Record sk_buff := { skb_cf : canfd_frame; skb_canfd : bool }.

(** The library functions that the userspace programs call (libc and Kvaser's canlib), with the
    arguments that matter; a pipe is named by its end, and [clock_gettime] gives two numbers. *)
Inductive pipe_end := pipe_read | pipe_write.

Inductive ucall :=
  | u_rand
  | u_srand
  | u_siginterrupt
  | u_pipe
  | u_fork
  | u_execv (path : string)
  | u_close (fd : pipe_end)
  | u_dup2_stdin (fd : pipe_end)
  | u_kill_term (pid : Z)
  | u_waitpid (pid : Z)
  | u_system (cmd : string)
  | u_write (fd : pipe_end) (cmd : string)
  | u_usleep (us : Z)
  | u_fopen (path mode : string)
  | u_fprintf (file : Z) (text : string)
  | u_fclose (file : Z)
  | u_printf (format : string) (args : list Z)
  | u_clock_sec
  | u_clock_nsec
  | u_open_mem
  | u_pagesize
  | u_mmap (length offset : Z)
  | u_iowrite8 (val addr : Z)
  | u_iowrite16 (val addr : Z)
  | canInitializeLibrary
  | canUnloadLibrary
  | canOpenChannel (channel flags : Z)
  | canClose (hnd : Z)
  | canSetBusParams (hnd freq : Z)
  | canSetBusParamsFd (hnd freq : Z)
  | canBusOn (hnd : Z)
  | canBusOff (hnd : Z)
  | canGetErrorText (stat : Z)
  | canWrite (hnd id : Z) (msg : list Z) (dlc flag : Z)
  | canWriteSync (hnd timeout : Z)
  | canReadWait (hnd timeout : Z).

(** The kernel functions the drivers call, with the arguments that matter.
    Each one answers with an integer ([0] for [void] functions). *)
Inductive kcall :=
  (* time, logging, memory *)
  | usleep_range (lo hi : Z)
  | net_ratelimit
  | netdev_msg (msg : string)
  | kfree_skb (skb : sk_buff)
  (* network device *)
  | netif_start_queue
  | netif_stop_queue
  | netif_wake_queue
  | netif_running
  | netif_device_attach
  | netif_device_detach
  | netif_receive_skb (cf : canfd_frame)
  | netif_rx (cf : canfd_frame)
  | napi_schedule
  | napi_complete_done (work_done : Z)
  | napi_enable
  | napi_disable
  (* CAN device *)
  | can_dev_dropped_skb (skb : sk_buff)
  | can_put_echo_skb (skb : sk_buff) (idx : Z)
  | can_get_echo_skb (idx : Z)
  | can_free_echo_skb (idx : Z)
  | can_bus_off
  | open_candev
  | close_candev
  (* locking, interrupts, power management *)
  | spin_lock_irqsave
  | spin_unlock_irqrestore
  | request_irq (flags : Z)
  | free_irq
  | pm_runtime_get_sync
  | pm_runtime_put
  | pm_runtime_put_noidle
  | pm_runtime_enable
  | pm_runtime_disable
  (* registration; [ndev] stands for the pointer to a network device *)
  | alloc_candev (ntxbufs : Z)
  | devm_clk_get
  | clk_get_rate
  | netif_napi_add (ndev : Z)
  | netif_napi_del (ndev : Z)
  | register_candev (ndev : Z)
  | unregister_candev (ndev : Z)
  | free_candev (ndev : Z)
  (* platform bus *)
  | devm_platform_ioremap_resource (index : Z)
  | platform_get_irq (index : Z)
  (* PCI bus *)
  | pci_enable_device
  | pci_disable_device
  | pci_request_regions
  | pci_release_regions
  | pci_enable_msi
  | pci_disable_msi
  | pci_set_master
  | pci_clear_master
  | pci_iomap (bar : Z)
  | pci_iounmap (addr : Z)
  | kzalloc
  | kfree
  (* libraries of the userspace programs *)
  | user (f : ucall).

(** The socket buffers the drivers allocate. *)
Inductive alloc_kind := alloc_can_skb | alloc_canfd_skb | alloc_can_err_skb.

(** The interface of the world. *)
Class World (W : Type) := {
  w_load32 : Z → W → Z * W;
  w_store32 : Z → Z → W → W;
  w_call : kcall → W → Z * W;
  (** the frame of the new buffer as the kernel initialised it, or [None] *)
  w_alloc : alloc_kind → W → option canfd_frame * W;
}.

(** The kernel allocates a [struct canfd_frame] (64 data bytes) for
    [alloc_canfd_skb] and a [struct can_frame] (8 data bytes) otherwise. *)
Definition skb_capacity (k : alloc_kind) : nat :=
  match k with alloc_canfd_skb => 64 | _ => 8 end.

Class AllocOk (W : Type) `{World W} :=
  alloc_capacity : ∀ k w cf w', w_alloc k w = (Some cf, w') → length (data cf) = skb_capacity k.

(** ** Events *)

Inductive event :=
  | EvLoad (addr val : Z)
  | EvStore (addr val : Z)
  | EvCall (c : kcall) (ret : Z)
  | EvAlloc (k : alloc_kind) (ok : bool).

(** ** The monad *)

(** Undefined behaviour of the C program. *)
Inductive ub :=
  NullDeref | OutOfBounds | DivByZero | BadShift | SignedOverflow | UseAfterFree | WrongType | Indeterminate.

Inductive res (A : Type) :=
  | Ok (a : A)
  | Ub (u : ub)
  | NoFuel.
Arguments Ok {A} a.
Arguments Ub {A} u.
Arguments NoFuel {A}.

Record st (D W : Type) := mkst {
  drv : D;
  world : W;
  trace : list event;
}.
Arguments mkst {D W}.
Arguments drv {D W}.
Arguments world {D W}.
Arguments trace {D W}.

Definition M (D W A : Type) : Type := st D W → res A * st D W.

#[export] Instance M_ret D W : MRet (M D W) := λ A a s, (Ok a, s).

#[export] Instance M_bind D W : MBind (M D W) := λ A B k m s,
  match m s with
  | (Ok a, s') => k a s'
  | (Ub u, s') => (Ub u, s')
  | (NoFuel, s') => (NoFuel, s')
  end.

Section Primitives.
Context {D W : Type} `{World W}.

Definition undefined {A} (u : ub) : M D W A := λ s, (Ub u, s).

Definition no_fuel {A} : M D W A := λ s, (NoFuel, s).

(** Reading and writing the private state. *)
Definition gets {A} (f : D → A) : M D W A := λ s, (Ok (f (drv s)), s).

Definition modify (f : D → D) : M D W unit := λ s,
  (Ok tt, mkst (f (drv s)) (world s) (trace s)).

(** A C expression that is undefined when it is [None]. *)
Definition some_or {A} (u : ub) (o : option A) : M D W A :=
  match o with Some a => mret a | None => undefined u end.

(** [x >> k] on 32-bit operands: undefined for a shift count outside of 0..31. *)
Definition shr32 (x k : Z) : M D W Z :=
  if (0 <=? k) && (k <? 32) then mret (Z.shiftr x k) else undefined BadShift.

(** [1 << k] as a 32-bit word. *)
Definition bit32 (k : Z) : M D W Z :=
  if (0 <=? k) && (k <? 32) then mret (Z.shiftl 1 k) else undefined BadShift.

(** [x % y] on unsigned operands. *)
Definition umod (x y : Z) : M D W Z :=
  if y =? 0 then undefined DivByZero else mret (x mod y).

(** [x / y] on unsigned operands. *)
Definition udiv (x y : Z) : M D W Z :=
  if y =? 0 then undefined DivByZero else mret (x / y).

(** [ioread32] and [iowrite32]: volatile accesses of a 32-bit word. *)
Definition ioread32 (addr : Z) : M D W Z := λ s,
  let '(v, w') := w_load32 addr (world s) in
  (Ok (u32 v), mkst (drv s) w' (trace s ++ [EvLoad addr (u32 v)])).

Definition iowrite32 (val addr : Z) : M D W unit := λ s,
  (Ok tt, mkst (drv s) (w_store32 addr (u32 val) (world s))
            (trace s ++ [EvStore addr (u32 val)])).

(** [ioread32be] and [iowrite32be] on a little-endian host. *)
Definition ioread32be (addr : Z) : M D W Z :=
  x ← ioread32 addr; mret (swab32 x).

Definition iowrite32be (val addr : Z) : M D W unit := iowrite32 (swab32 val) addr.

Definition call (c : kcall) : M D W Z := λ s,
  let '(r, w') := w_call c (world s) in
  (Ok r, mkst (drv s) w' (trace s ++ [EvCall c r])).

(** A call whose result is not used. *)
Definition call_ (c : kcall) : M D W unit := _ ← call c; mret tt.

Definition alloc (k : alloc_kind) : M D W (option canfd_frame) := λ s,
  let '(o, w') := w_alloc k (world s) in
  (Ok o, mkst (drv s) w' (trace s ++ [EvAlloc k (bool_decide (is_Some o))])).

(** [if (b) m;] *)
Definition when (b : bool) (m : M D W unit) : M D W unit := if b then m else mret tt.

End Primitives.

(** ** Total correctness

    [wp m s Q]: run from [s], [m] terminates without undefined behaviour and its
    result and final state satisfy [Q]. *)

Section WP.
Context {D W : Type} `{World W}.
Implicit Types (s : st D W).

Definition wp {A} (m : M D W A) (s : st D W) (Q : A → st D W → Prop) : Prop :=
  match m s with
  | (Ok a, s') => Q a s'
  | _ => False
  end.

Lemma wp_iff {A} (m : M D W A) s Q :
  wp m s Q ↔ ∃ a s', m s = (Ok a, s') ∧ Q a s'.
Proof.
  unfold wp. split.
  - destruct (m s) as [[a|u|] s']; try done. eauto.
  - by intros (a & s' & -> & HQ).
Qed.

Lemma wp_mono {A} (m : M D W A) s (P Q : A → st D W → Prop) :
  wp m s P → (∀ a s', P a s' → Q a s') → wp m s Q.
Proof. unfold wp. destruct (m s) as [[a|u|] s']; naive_solver. Qed.

Lemma wp_and {A} (m : M D W A) s (P Q : A → st D W → Prop) :
  wp m s P → wp m s Q → wp m s (λ a s', P a s' ∧ Q a s').
Proof. unfold wp. by destruct (m s) as [[a|u|] s']. Qed.

Lemma wp_ret {A} (a : A) s Q : Q a s → wp (mret a) s Q.
Proof. done. Qed.

Lemma wp_bind {A B} (m : M D W A) (k : A → M D W B) s Q :
  wp m s (λ a s', wp (k a) s' Q) → wp (m ≫= k) s Q.
Proof. unfold wp, mbind, M_bind. destruct (m s) as [[a|u|] s']; naive_solver. Qed.

Lemma wp_unbind {A B} (m : M D W A) (k : A → M D W B) s Q :
  wp (m ≫= k) s Q → wp m s (λ a s', wp (k a) s' Q).
Proof. unfold wp, mbind, M_bind. by destruct (m s) as [[a|u|] s']. Qed.

Lemma wp_bind_assoc {A B C} (m : M D W A) (k : A → M D W B) (l : B → M D W C) s Q :
  wp ((m ≫= k) ≫= l) s Q → wp (m ≫= λ a, k a ≫= l) s Q.
Proof. unfold wp, mbind, M_bind. by destruct (m s) as [[a|u|] s']. Qed.

(** Sequencing with what is already known of the first computation. *)
Lemma wp_bind_known {A B} (m : M D W A) (k : A → M D W B) s (P : A → st D W → Prop) Q :
  wp m s P → (∀ a s', P a s' → wp (k a) s' Q) → wp (m ≫= k) s Q.
Proof. intros Hm Hk. apply wp_bind. by eapply wp_mono. Qed.

Lemma wp_gets {A} (f : D → A) s Q : Q (f (drv s)) s → wp (gets f) s Q.
Proof. done. Qed.

Lemma wp_modify f s Q :
  Q tt (mkst (f (drv s)) (world s) (trace s)) → wp (modify f) s Q.
Proof. done. Qed.

Lemma wp_some_or {A} u (o : option A) s Q a : o = Some a → Q a s → wp (some_or u o) s Q.
Proof. by intros ->. Qed.

Lemma wp_shr32 x k s Q : 0 <= k < 32 → Q (Z.shiftr x k) s → wp (shr32 x k) s Q.
Proof. intros Hk HQ. unfold shr32. by replace ((0 <=? k) && (k <? 32)) with true by lia. Qed.

Lemma wp_bit32 k s Q : 0 <= k < 32 → Q (BIT k) s → wp (bit32 k) s Q.
Proof. intros Hk HQ. unfold bit32. by replace ((0 <=? k) && (k <? 32)) with true by lia. Qed.

Lemma wp_umod x y s Q : y ≠ 0 → Q (x mod y) s → wp (umod x y) s Q.
Proof. intros Hy HQ. unfold umod. by destruct (Z.eqb_spec y 0). Qed.

Lemma wp_udiv x y s Q : y ≠ 0 → Q (x / y) s → wp (udiv x y) s Q.
Proof. intros Hy HQ. unfold udiv. by destruct (Z.eqb_spec y 0). Qed.

Lemma wp_ioread32 addr s Q :
  (∀ v w', w_load32 addr (world s) = (v, w') →
    Q (u32 v) (mkst (drv s) w' (trace s ++ [EvLoad addr (u32 v)]))) →
  wp (ioread32 addr) s Q.
Proof. unfold wp, ioread32. destruct (w_load32 addr (world s)) as [v w']. auto. Qed.

Lemma wp_iowrite32 val addr s Q :
  Q tt (mkst (drv s) (w_store32 addr (u32 val) (world s)) (trace s ++ [EvStore addr (u32 val)])) →
  wp (iowrite32 val addr) s Q.
Proof. done. Qed.

Lemma wp_call c s Q :
  (∀ r w', w_call c (world s) = (r, w') →
    Q r (mkst (drv s) w' (trace s ++ [EvCall c r]))) →
  wp (call c) s Q.
Proof. unfold wp, call. destruct (w_call c (world s)) as [r w']. auto. Qed.

Lemma wp_call_ c s Q :
  (∀ r w', w_call c (world s) = (r, w') →
    Q tt (mkst (drv s) w' (trace s ++ [EvCall c r]))) →
  wp (call_ c) s Q.
Proof. unfold call_. intros HQ. apply wp_bind, wp_call. intros. by apply HQ. Qed.

Lemma wp_alloc k s Q :
  (∀ o w', w_alloc k (world s) = (o, w') →
    Q o (mkst (drv s) w' (trace s ++ [EvAlloc k (bool_decide (is_Some o))]))) →
  wp (alloc k) s Q.
Proof. unfold wp, alloc. destruct (w_alloc k (world s)) as [o w']. auto. Qed.

Lemma wp_when (b : bool) m s Q :
  (b = true → wp m s Q) → (b = false → Q tt s) → wp (when b m) s Q.
Proof. destruct b; intros H1 H2; [by apply H1|by apply wp_ret, H2]. Qed.

Lemma wp_if {A} (b : bool) (m1 m2 : M D W A) s Q :
  (b = true → wp m1 s Q) → (b = false → wp m2 s Q) → wp (if b then m1 else m2) s Q.
Proof. destruct b; auto. Qed.

(** A weaker judgement that admits one kind of undefined behaviour: the access
    through a null pointer, in a state where [N] holds. *)
Definition outcome {A} (m : M D W A) (s : st D W) (Q : A → st D W → Prop) (N : st D W → Prop) : Prop :=
  match m s with
  | (Ok a, s') => Q a s'
  | (Ub NullDeref, s') => N s'
  | _ => False
  end.

Lemma outcome_wp {A} (m : M D W A) s Q N : wp m s Q → outcome m s Q N.
Proof. unfold wp, outcome. by destruct (m s) as [[]]. Qed.

Lemma outcome_bind {A B} (m : M D W A) (k : A → M D W B) s Q N :
  outcome m s (λ a s', outcome (k a) s' Q N) N → outcome (m ≫= k) s Q N.
Proof. unfold outcome, mbind, M_bind. by destruct (m s) as [[|[]|] ]. Qed.

Lemma outcome_mono {A} (m : M D W A) s (P Q : A → st D W → Prop) (N N' : st D W → Prop) :
  outcome m s P N → (∀ a s', P a s' → Q a s') → (∀ s', N s' → N' s') → outcome m s Q N'.
Proof. unfold outcome. destruct (m s) as [[|[]|] ]; naive_solver. Qed.

Lemma outcome_null {A} s (Q : A → st D W → Prop) (N : st D W → Prop) :
  N s → outcome (undefined NullDeref) s Q N.
Proof. done. Qed.

(** The same rules when only the events matter, not how the world answers. *)

Lemma wp_ioread32_any addr s Q :
  (∀ v w', Q (u32 v) (mkst (drv s) w' (trace s ++ [EvLoad addr (u32 v)]))) →
  wp (ioread32 addr) s Q.
Proof. intros HQ. apply wp_ioread32. intros. apply HQ. Qed.

Lemma wp_iowrite32_any val addr s Q :
  (∀ w', Q tt (mkst (drv s) w' (trace s ++ [EvStore addr (u32 val)]))) →
  wp (iowrite32 val addr) s Q.
Proof. intros HQ. apply wp_iowrite32, HQ. Qed.

Lemma wp_call_any c s Q :
  (∀ r w', Q r (mkst (drv s) w' (trace s ++ [EvCall c r]))) → wp (call c) s Q.
Proof. intros HQ. apply wp_call. intros. apply HQ. Qed.

Lemma wp_call__any c s Q :
  (∀ r w', Q tt (mkst (drv s) w' (trace s ++ [EvCall c r]))) → wp (call_ c) s Q.
Proof. intros HQ. apply wp_call_. intros. apply HQ. Qed.

End WP.

(** One step of symbolic execution: the rule for the head of the computation. *)
Ltac wp_step :=
  lazymatch goal with
  | |- wp (mbind _ _) _ _ => apply wp_bind
  | |- wp (mret _) _ _ => apply wp_ret
  | |- wp (gets _) _ _ => apply wp_gets
  | |- wp (modify _) _ _ => apply wp_modify
  | |- wp (ioread32 _) _ _ => apply wp_ioread32_any; intros ? ?
  | |- wp (iowrite32 _ _) _ _ => apply wp_iowrite32_any; intros ?
  | |- wp (call_ _) _ _ => apply wp_call__any; intros ? ?
  | |- wp (call _) _ _ => apply wp_call_any; intros ? ?
  | |- wp (alloc _) _ _ => apply wp_alloc; intros ? ? ?
  end; cbn beta iota; cbn [drv trace].

(** Appending events one by one is appending the list of them. *)
Lemma app_snoc {A} (l k : list A) (x : A) : (l ++ k) ++ [x] = l ++ (k ++ [x]).
Proof. symmetry. apply app_assoc. Qed.

(** ** Projections of traces *)

Fixpoint stores (tr : list event) : list (Z * Z) :=
  match tr with
  | [] => []
  | EvStore a v :: tr' => (a, v) :: stores tr'
  | _ :: tr' => stores tr'
  end.

Fixpoint loads (tr : list event) : list (Z * Z) :=
  match tr with
  | [] => []
  | EvLoad a v :: tr' => (a, v) :: loads tr'
  | _ :: tr' => loads tr'
  end.

Fixpoint calls (tr : list event) : list kcall :=
  match tr with
  | [] => []
  | EvCall c _ :: tr' => c :: calls tr'
  | _ :: tr' => calls tr'
  end.

Lemma stores_app t1 t2 : stores (t1 ++ t2) = stores t1 ++ stores t2.
Proof. induction t1 as [|[] t1 IH]; simpl; congruence. Qed.

Lemma loads_app t1 t2 : loads (t1 ++ t2) = loads t1 ++ loads t2.
Proof. induction t1 as [|[] t1 IH]; simpl; congruence. Qed.

Lemma calls_app t1 t2 : calls (t1 ++ t2) = calls t1 ++ calls t2.
Proof. induction t1 as [|[] t1 IH]; simpl; congruence. Qed.

(** Bring a final trace into the form [trace s ++ events]. *)
Ltac tr_norm := cbn [trace drv world]; rewrite <- ?app_assoc; cbn [app].
