(* ===== verification/Base.v ===== *)
(** * State of the kernel driver

    The structures of [ctucanfd.h] and the parts of [struct can_priv] and
    [struct net_device] that [ctucanfd_base.c] uses, the assignments to their
    fields, and the register accessors at the top of [ctucanfd_base.c]. *)

From Stdlib Require Import ZArith Lia.
From stdpp Require Import base numbers list strings.
From S2P Require Import Prelude LinuxDefs World Kregs.

#[local] Open Scope Z_scope.

(** ** The structures *)

(** The two pairs of register accessors the function pointers [read_reg] and
    [write_reg] are set to. *)
Inductive accessor := acc_le | acc_be.

(** The fields of [struct can_priv] the driver reads or writes. *)
Record can_priv := {
  state : can_state;
  can_stats : can_device_stats;
  bittiming : can_bittiming;
  data_bittiming : can_bittiming;
  bittiming_const : can_bittiming_const;
  data_bittiming_const : can_bittiming_const;
  ctrlmode : Z;
  ctrlmode_supported : Z;
  clock_freq : Z;
}.

(** [struct ctucan_priv]. *)
Record ctucan_priv := {
  can : can_priv;
  mem_base : Z;
  read_reg : accessor;
  write_reg : accessor;
  txb_head : Z;
  txb_tail : Z;
  txb_prio : Z;
  ntxbufs : Z;
  irq_flags : Z;
  drv_flags : Z;
  rxfrm_first_word : Z;
}.

(** [struct net_device_stats]: the counters the driver updates. *)
Record net_device_stats := {
  rx_packets : Z;
  tx_packets : Z;
  rx_bytes : Z;
  tx_bytes : Z;
  rx_errors : Z;
  tx_dropped : Z;
  rx_over_errors : Z;
}.

(** [struct net_device] with its private part ([netdev_priv]). *)
Record net_device := {
  priv : ctucan_priv;
  stats : net_device_stats;
}.

(** ** Assignments *)

Definition set_bus_error (v : Z) (r : can_device_stats) : can_device_stats :=
  {| bus_error := v; error_warning := error_warning r; error_passive := error_passive r;
     bus_off := bus_off r; arbitration_lost := arbitration_lost r; restarts := restarts r |}.

Definition set_error_warning (v : Z) (r : can_device_stats) : can_device_stats :=
  {| bus_error := bus_error r; error_warning := v; error_passive := error_passive r;
     bus_off := bus_off r; arbitration_lost := arbitration_lost r; restarts := restarts r |}.

Definition set_error_passive (v : Z) (r : can_device_stats) : can_device_stats :=
  {| bus_error := bus_error r; error_warning := error_warning r; error_passive := v;
     bus_off := bus_off r; arbitration_lost := arbitration_lost r; restarts := restarts r |}.

Definition set_bus_off (v : Z) (r : can_device_stats) : can_device_stats :=
  {| bus_error := bus_error r; error_warning := error_warning r;
     error_passive := error_passive r; bus_off := v; arbitration_lost := arbitration_lost r;
     restarts := restarts r |}.

Definition set_arbitration_lost (v : Z) (r : can_device_stats) : can_device_stats :=
  {| bus_error := bus_error r; error_warning := error_warning r;
     error_passive := error_passive r; bus_off := bus_off r; arbitration_lost := v;
     restarts := restarts r |}.

Definition set_state (v : can_state) (r : can_priv) : can_priv :=
  {| state := v; can_stats := can_stats r; bittiming := bittiming r;
     data_bittiming := data_bittiming r; bittiming_const := bittiming_const r;
     data_bittiming_const := data_bittiming_const r; ctrlmode := ctrlmode r;
     ctrlmode_supported := ctrlmode_supported r; clock_freq := clock_freq r |}.

Definition set_can_stats (v : can_device_stats) (r : can_priv) : can_priv :=
  {| state := state r; can_stats := v; bittiming := bittiming r;
     data_bittiming := data_bittiming r; bittiming_const := bittiming_const r;
     data_bittiming_const := data_bittiming_const r; ctrlmode := ctrlmode r;
     ctrlmode_supported := ctrlmode_supported r; clock_freq := clock_freq r |}.

Definition set_bittiming (v : can_bittiming) (r : can_priv) : can_priv :=
  {| state := state r; can_stats := can_stats r; bittiming := v;
     data_bittiming := data_bittiming r; bittiming_const := bittiming_const r;
     data_bittiming_const := data_bittiming_const r; ctrlmode := ctrlmode r;
     ctrlmode_supported := ctrlmode_supported r; clock_freq := clock_freq r |}.

Definition set_data_bittiming (v : can_bittiming) (r : can_priv) : can_priv :=
  {| state := state r; can_stats := can_stats r; bittiming := bittiming r; data_bittiming := v;
     bittiming_const := bittiming_const r; data_bittiming_const := data_bittiming_const r;
     ctrlmode := ctrlmode r; ctrlmode_supported := ctrlmode_supported r;
     clock_freq := clock_freq r |}.

Definition set_bittiming_const (v : can_bittiming_const) (r : can_priv) : can_priv :=
  {| state := state r; can_stats := can_stats r; bittiming := bittiming r;
     data_bittiming := data_bittiming r; bittiming_const := v;
     data_bittiming_const := data_bittiming_const r; ctrlmode := ctrlmode r;
     ctrlmode_supported := ctrlmode_supported r; clock_freq := clock_freq r |}.

Definition set_data_bittiming_const (v : can_bittiming_const) (r : can_priv) : can_priv :=
  {| state := state r; can_stats := can_stats r; bittiming := bittiming r;
     data_bittiming := data_bittiming r; bittiming_const := bittiming_const r;
     data_bittiming_const := v; ctrlmode := ctrlmode r;
     ctrlmode_supported := ctrlmode_supported r; clock_freq := clock_freq r |}.

Definition set_ctrlmode_supported (v : Z) (r : can_priv) : can_priv :=
  {| state := state r; can_stats := can_stats r; bittiming := bittiming r;
     data_bittiming := data_bittiming r; bittiming_const := bittiming_const r;
     data_bittiming_const := data_bittiming_const r; ctrlmode := ctrlmode r;
     ctrlmode_supported := v; clock_freq := clock_freq r |}.

Definition set_clock_freq (v : Z) (r : can_priv) : can_priv :=
  {| state := state r; can_stats := can_stats r; bittiming := bittiming r;
     data_bittiming := data_bittiming r; bittiming_const := bittiming_const r;
     data_bittiming_const := data_bittiming_const r; ctrlmode := ctrlmode r;
     ctrlmode_supported := ctrlmode_supported r; clock_freq := v |}.

Definition set_can (v : can_priv) (r : ctucan_priv) : ctucan_priv :=
  {| can := v; mem_base := mem_base r; read_reg := read_reg r; write_reg := write_reg r;
     txb_head := txb_head r; txb_tail := txb_tail r; txb_prio := txb_prio r;
     ntxbufs := ntxbufs r; irq_flags := irq_flags r; drv_flags := drv_flags r;
     rxfrm_first_word := rxfrm_first_word r |}.

Definition set_mem_base (v : Z) (r : ctucan_priv) : ctucan_priv :=
  {| can := can r; mem_base := v; read_reg := read_reg r; write_reg := write_reg r;
     txb_head := txb_head r; txb_tail := txb_tail r; txb_prio := txb_prio r;
     ntxbufs := ntxbufs r; irq_flags := irq_flags r; drv_flags := drv_flags r;
     rxfrm_first_word := rxfrm_first_word r |}.

Definition set_read_reg (v : accessor) (r : ctucan_priv) : ctucan_priv :=
  {| can := can r; mem_base := mem_base r; read_reg := v; write_reg := write_reg r;
     txb_head := txb_head r; txb_tail := txb_tail r; txb_prio := txb_prio r;
     ntxbufs := ntxbufs r; irq_flags := irq_flags r; drv_flags := drv_flags r;
     rxfrm_first_word := rxfrm_first_word r |}.

Definition set_write_reg (v : accessor) (r : ctucan_priv) : ctucan_priv :=
  {| can := can r; mem_base := mem_base r; read_reg := read_reg r; write_reg := v;
     txb_head := txb_head r; txb_tail := txb_tail r; txb_prio := txb_prio r;
     ntxbufs := ntxbufs r; irq_flags := irq_flags r; drv_flags := drv_flags r;
     rxfrm_first_word := rxfrm_first_word r |}.

Definition set_txb_head (v : Z) (r : ctucan_priv) : ctucan_priv :=
  {| can := can r; mem_base := mem_base r; read_reg := read_reg r; write_reg := write_reg r;
     txb_head := v; txb_tail := txb_tail r; txb_prio := txb_prio r; ntxbufs := ntxbufs r;
     irq_flags := irq_flags r; drv_flags := drv_flags r;
     rxfrm_first_word := rxfrm_first_word r |}.

Definition set_txb_tail (v : Z) (r : ctucan_priv) : ctucan_priv :=
  {| can := can r; mem_base := mem_base r; read_reg := read_reg r; write_reg := write_reg r;
     txb_head := txb_head r; txb_tail := v; txb_prio := txb_prio r; ntxbufs := ntxbufs r;
     irq_flags := irq_flags r; drv_flags := drv_flags r;
     rxfrm_first_word := rxfrm_first_word r |}.

Definition set_txb_prio (v : Z) (r : ctucan_priv) : ctucan_priv :=
  {| can := can r; mem_base := mem_base r; read_reg := read_reg r; write_reg := write_reg r;
     txb_head := txb_head r; txb_tail := txb_tail r; txb_prio := v; ntxbufs := ntxbufs r;
     irq_flags := irq_flags r; drv_flags := drv_flags r;
     rxfrm_first_word := rxfrm_first_word r |}.

Definition set_ntxbufs (v : Z) (r : ctucan_priv) : ctucan_priv :=
  {| can := can r; mem_base := mem_base r; read_reg := read_reg r; write_reg := write_reg r;
     txb_head := txb_head r; txb_tail := txb_tail r; txb_prio := txb_prio r; ntxbufs := v;
     irq_flags := irq_flags r; drv_flags := drv_flags r;
     rxfrm_first_word := rxfrm_first_word r |}.

Definition set_irq_flags (v : Z) (r : ctucan_priv) : ctucan_priv :=
  {| can := can r; mem_base := mem_base r; read_reg := read_reg r; write_reg := write_reg r;
     txb_head := txb_head r; txb_tail := txb_tail r; txb_prio := txb_prio r;
     ntxbufs := ntxbufs r; irq_flags := v; drv_flags := drv_flags r;
     rxfrm_first_word := rxfrm_first_word r |}.

Definition set_drv_flags (v : Z) (r : ctucan_priv) : ctucan_priv :=
  {| can := can r; mem_base := mem_base r; read_reg := read_reg r; write_reg := write_reg r;
     txb_head := txb_head r; txb_tail := txb_tail r; txb_prio := txb_prio r;
     ntxbufs := ntxbufs r; irq_flags := irq_flags r; drv_flags := v;
     rxfrm_first_word := rxfrm_first_word r |}.

Definition set_rxfrm_first_word (v : Z) (r : ctucan_priv) : ctucan_priv :=
  {| can := can r; mem_base := mem_base r; read_reg := read_reg r; write_reg := write_reg r;
     txb_head := txb_head r; txb_tail := txb_tail r; txb_prio := txb_prio r;
     ntxbufs := ntxbufs r; irq_flags := irq_flags r; drv_flags := drv_flags r;
     rxfrm_first_word := v |}.

Definition set_rx_packets (v : Z) (r : net_device_stats) : net_device_stats :=
  {| rx_packets := v; tx_packets := tx_packets r; rx_bytes := rx_bytes r;
     tx_bytes := tx_bytes r; rx_errors := rx_errors r; tx_dropped := tx_dropped r;
     rx_over_errors := rx_over_errors r |}.

Definition set_tx_packets (v : Z) (r : net_device_stats) : net_device_stats :=
  {| rx_packets := rx_packets r; tx_packets := v; rx_bytes := rx_bytes r;
     tx_bytes := tx_bytes r; rx_errors := rx_errors r; tx_dropped := tx_dropped r;
     rx_over_errors := rx_over_errors r |}.

Definition set_rx_bytes (v : Z) (r : net_device_stats) : net_device_stats :=
  {| rx_packets := rx_packets r; tx_packets := tx_packets r; rx_bytes := v;
     tx_bytes := tx_bytes r; rx_errors := rx_errors r; tx_dropped := tx_dropped r;
     rx_over_errors := rx_over_errors r |}.

Definition set_tx_bytes (v : Z) (r : net_device_stats) : net_device_stats :=
  {| rx_packets := rx_packets r; tx_packets := tx_packets r; rx_bytes := rx_bytes r;
     tx_bytes := v; rx_errors := rx_errors r; tx_dropped := tx_dropped r;
     rx_over_errors := rx_over_errors r |}.

Definition set_rx_errors (v : Z) (r : net_device_stats) : net_device_stats :=
  {| rx_packets := rx_packets r; tx_packets := tx_packets r; rx_bytes := rx_bytes r;
     tx_bytes := tx_bytes r; rx_errors := v; tx_dropped := tx_dropped r;
     rx_over_errors := rx_over_errors r |}.

Definition set_tx_dropped (v : Z) (r : net_device_stats) : net_device_stats :=
  {| rx_packets := rx_packets r; tx_packets := tx_packets r; rx_bytes := rx_bytes r;
     tx_bytes := tx_bytes r; rx_errors := rx_errors r; tx_dropped := v;
     rx_over_errors := rx_over_errors r |}.

Definition set_rx_over_errors (v : Z) (r : net_device_stats) : net_device_stats :=
  {| rx_packets := rx_packets r; tx_packets := tx_packets r; rx_bytes := rx_bytes r;
     tx_bytes := tx_bytes r; rx_errors := rx_errors r; tx_dropped := tx_dropped r;
     rx_over_errors := v |}.

Definition upd_priv (f : ctucan_priv → ctucan_priv) (n : net_device) : net_device :=
  {| priv := f (priv n); stats := stats n |}.

Definition upd_can (f : can_priv → can_priv) : net_device → net_device :=
  upd_priv (λ p, set_can (f (can p)) p).

Definition upd_can_stats (f : can_device_stats → can_device_stats) : net_device → net_device :=
  upd_can (λ c, set_can_stats (f (can_stats c)) c).

Definition upd_stats (f : net_device_stats → net_device_stats) (n : net_device) : net_device :=
  {| priv := priv n; stats := f (stats n) |}.

(** [counter++] on the [unsigned long] and [u32] counters. *)
Definition incr64 (x : Z) : Z := u64 (x + 1).

Definition incr32 (x : Z) : Z := u32 (x + 1).

(** ** Flag word *)

Definition CTUCANFD_FLAG_RX_FFW_BUFFERED : Z := 1.

(** [test_bit], [set_bit] and [clear_bit] of the kernel. *)
Definition test_bit (n x : Z) : bool := Z.testbit x n.

Definition set_bit (n x : Z) : Z := Z.lor x (BIT n).

Definition clear_bit (n x : Z) : Z := Z.land x (Z.lnot (BIT n)).

#[global] Arguments test_bit : simpl never.
#[global] Arguments set_bit : simpl never.
#[global] Arguments clear_bit : simpl never.

(** ** Register access *)

(** A device with both accessors set to one byte order. *)
Definition with_acc (acc : accessor) (n : net_device) : net_device :=
  upd_priv (set_read_reg acc) (upd_priv (set_write_reg acc) n).

Section Access.
Context {W : Type} `{World W}.
Abbreviation MB := (M net_device W).

Definition ctucan_write32_le (reg val : Z) : MB unit :=
  base ← gets (λ n, mem_base (priv n)); iowrite32 val (base + reg).

Definition ctucan_write32_be (reg val : Z) : MB unit :=
  base ← gets (λ n, mem_base (priv n)); iowrite32be val (base + reg).

Definition ctucan_read32_le (reg : Z) : MB Z :=
  base ← gets (λ n, mem_base (priv n)); ioread32 (base + reg).

Definition ctucan_read32_be (reg : Z) : MB Z :=
  base ← gets (λ n, mem_base (priv n)); ioread32be (base + reg).

Definition ctucan_write32 (reg val : Z) : MB unit :=
  acc ← gets (λ n, write_reg (priv n));
  match acc with
  | acc_le => ctucan_write32_le reg val
  | acc_be => ctucan_write32_be reg val
  end.

Definition ctucan_read32 (reg : Z) : MB Z :=
  acc ← gets (λ n, read_reg (priv n));
  match acc with
  | acc_le => ctucan_read32_le reg
  | acc_be => ctucan_read32_be reg
  end.

Definition ctucan_write_txt_buf (buf_base offset val : Z) : MB unit :=
  ctucan_write32 (buf_base + offset) val.

(** [CTU_CAN_FD_TXTNF(priv)] *)
Definition CTU_CAN_FD_TXTNF : MB bool :=
  v ← ctucan_read32 CTUCANFD_STATUS; mret (nz (FIELD_GET REG_STATUS_TXNF v)).

(** [CTU_CAN_FD_ENABLED(priv)] *)
Definition CTU_CAN_FD_ENABLED : MB bool :=
  v ← ctucan_read32 CTUCANFD_MODE; mret (nz (FIELD_GET REG_MODE_ENA v)).

(** *** Rules for register access

    [le_dev n]: the device uses the little-endian accessors, so that a register
    access is one access of the word at [mem_base + reg]. *)

Definition le_dev (n : net_device) : Prop :=
  read_reg (priv n) = acc_le ∧ write_reg (priv n) = acc_le.

Definition reg_at (n : net_device) (reg : Z) : Z := mem_base (priv n) + reg.

Lemma wp_read32 reg s Q :
  le_dev (drv s) →
  (∀ v w', w_load32 (reg_at (drv s) reg) (world s) = (v, w') →
    Q (u32 v) (mkst (drv s) w' (trace s ++ [EvLoad (reg_at (drv s) reg) (u32 v)]))) →
  wp (ctucan_read32 reg) s Q.
Proof.
  intros [Hr _] HQ. unfold ctucan_read32. wp_step. wp_step. rewrite Hr.
  unfold ctucan_read32_le. wp_step. wp_step. by apply wp_ioread32.
Qed.

Lemma wp_write32 reg val s Q :
  le_dev (drv s) →
  Q tt (mkst (drv s) (w_store32 (reg_at (drv s) reg) (u32 val) (world s))
          (trace s ++ [EvStore (reg_at (drv s) reg) (u32 val)])) →
  wp (ctucan_write32 reg val) s Q.
Proof.
  intros [_ Hw] HQ. unfold ctucan_write32. wp_step. wp_step. rewrite Hw.
  unfold ctucan_write32_le. wp_step. wp_step. by apply wp_iowrite32.
Qed.

Lemma wp_read32_any reg s Q :
  le_dev (drv s) →
  (∀ v w', Q (u32 v) (mkst (drv s) w' (trace s ++ [EvLoad (reg_at (drv s) reg) (u32 v)]))) →
  wp (ctucan_read32 reg) s Q.
Proof. intros Hle HQ. apply wp_read32; [done|]. intros. apply HQ. Qed.

Lemma wp_write32_any reg val s Q :
  le_dev (drv s) →
  (∀ w', Q tt (mkst (drv s) w' (trace s ++ [EvStore (reg_at (drv s) reg) (u32 val)]))) →
  wp (ctucan_write32 reg val) s Q.
Proof. intros Hle HQ. apply wp_write32; [done|]. apply HQ. Qed.

End Access.

(** Symbolic execution with the register rules. *)
Ltac by_le := match goal with H : le_dev _ |- le_dev _ => exact H end.

Ltac bstep :=
  lazymatch goal with
  | |- wp (ctucan_read32 _) _ _ => apply wp_read32_any; [by_le|intros ? ?]; cbn beta iota; cbn [drv trace]
  | |- wp (ctucan_write32 _ _) _ _ => apply wp_write32_any; [by_le|intros ?]; cbn beta iota; cbn [drv trace]
  | |- wp CTU_CAN_FD_ENABLED _ _ => unfold CTU_CAN_FD_ENABLED
  | |- wp CTU_CAN_FD_TXTNF _ _ => unfold CTU_CAN_FD_TXTNF
  | |- wp (when _ _) _ _ => apply wp_when; intros ?
  | |- _ => wp_step
  end.

Ltac bsteps := repeat bstep.
