(* ===== verification/Sim.v ===== *)
(** * A scripted world

    An instance of [World] that answers loads, calls and allocations from finite
    scripts (and with 0, 0 and failure when a script is used up), and a sample
    device.  The concrete runs of the development are run in it. *)

From Stdlib Require Import ZArith Lia.
From stdpp Require Import base numbers list strings.
From S2P Require Import Prelude LinuxDefs World Base.

#[local] Open Scope Z_scope.

Record script := mkscript {
  sc_loads : list Z;
  sc_calls : list Z;
  sc_allocs : list bool;
}.

(** A zeroed frame, as the kernel's allocators return it. *)
Definition new_frame (k : alloc_kind) : canfd_frame :=
  {| can_id := match k with alloc_can_err_skb => CAN_ERR_FLAG | _ => 0 end;
     len := match k with alloc_can_err_skb => 8 | _ => 0 end;
     flags := 0; data := replicate (skb_capacity k) 0 |}.

#[export] Instance script_world : World script := {
  w_load32 _ w :=
    match sc_loads w with
    | [] => (0, w)
    | v :: vs => (v, mkscript vs (sc_calls w) (sc_allocs w))
    end;
  w_store32 _ _ w := w;
  w_call _ w :=
    match sc_calls w with
    | [] => (0, w)
    | v :: vs => (v, mkscript (sc_loads w) vs (sc_allocs w))
    end;
  w_alloc k w :=
    match sc_allocs w with
    | [] => (None, w)
    | b :: bs =>
        (if b then Some (new_frame k) else None, mkscript (sc_loads w) (sc_calls w) bs)
    end;
}.

#[export] Instance script_alloc_ok : AllocOk script.
Proof.
  intros k [ls cs [|[] bs]] cf w' [= <- _]. by destruct k.
Qed.

(** ** A sample device *)

Definition sample_bt : can_bittiming := {|
  bitrate := 500000; sample_point := 800; tq := 10; prop_seg := 79; phase_seg1 := 80;
  phase_seg2 := 40; sjw := 1; brp := 1 |}.

Definition sample_dbt : can_bittiming := {|
  bitrate := 4000000; sample_point := 760; tq := 10; prop_seg := 9; phase_seg1 := 9;
  phase_seg2 := 6; sjw := 1; brp := 1 |}.

Definition sample_btc : can_bittiming_const := {|
  tseg1_min := 2; tseg1_max := 190; tseg2_min := 1; tseg2_max := 63; sjw_max := 31;
  brp_min := 1; brp_max := 8; brp_inc := 1 |}.

Definition sample_can : can_priv := {|
  state := CAN_STATE_STOPPED;
  can_stats := {| bus_error := 0; error_warning := 0; error_passive := 0; bus_off := 0;
                  arbitration_lost := 0; restarts := 0 |};
  bittiming := sample_bt; data_bittiming := sample_dbt; bittiming_const := sample_btc;
  data_bittiming_const := sample_btc;
  ctrlmode := Z.lor CAN_CTRLMODE_FD CAN_CTRLMODE_BERR_REPORTING;
  ctrlmode_supported := 0xFF; clock_freq := 100000000 |}.

Definition sample_priv : ctucan_priv := {|
  can := sample_can; mem_base := 0x43C30000; read_reg := acc_le; write_reg := acc_le;
  txb_head := 0; txb_tail := 0; txb_prio := 0x01234567; ntxbufs := 4; irq_flags := 0;
  drv_flags := 0; rxfrm_first_word := 0 |}.

Definition sample_stats : net_device_stats := {|
  rx_packets := 0; tx_packets := 0; rx_bytes := 0; tx_bytes := 0; rx_errors := 0;
  tx_dropped := 0; rx_over_errors := 0 |}.

Definition sample_dev : net_device := {| priv := sample_priv; stats := sample_stats |}.

(** The sample device in the world that answers with the given loads. *)
Definition sample_st (ls : list Z) : st net_device script :=
  mkst sample_dev (mkscript ls [] []) [].

(** A CAN FD frame of 12 bytes with an extended identifier. *)
Definition sample_cf : canfd_frame := {|
  can_id := Z.lor CAN_EFF_FLAG 0x12345678; len := 12; flags := CANFD_BRS;
  data := [1; 2; 3; 4; 5; 6; 7; 8; 9; 10; 11; 12] ++ replicate 52 0 |}.

Definition sample_skb : sk_buff := {| skb_cf := sample_cf; skb_canfd := true |}.

(** The sample device with [k] frames in the ring. *)
Definition busy_dev (k : Z) : net_device := upd_priv (set_txb_head k) sample_dev.

Definition busy_st (k : Z) (ls : list Z) : st net_device script :=
  mkst (busy_dev k) (mkscript ls [] []) [].
