(* ===== verification/BaseCfg.v ===== *)
(** * Configuration of the core by the kernel driver

    [ctucan_reset] .. [ctucan_do_set_mode] of [ctucanfd_base.c]: software reset,
    bit timing, secondary sample point, modes and chip start. *)

From Stdlib Require Import ZArith Lia.
From stdpp Require Import base numbers list strings.
From S2P Require Import Prelude LinuxDefs World Kregs Base Sim.

#[local] Open Scope Z_scope.

(** ** Constants *)

Definition CTUCANFD_ID : Z := 0xCAFD.

Definition ctu_can_fd_bit_timing_max : can_bittiming_const := {|
  tseg1_min := 2; tseg1_max := 190; tseg2_min := 1; tseg2_max := 63; sjw_max := 31;
  brp_min := 1; brp_max := 8; brp_inc := 1;
|}.

Definition ctu_can_fd_bit_timing_data_max : can_bittiming_const := {|
  tseg1_min := 2; tseg1_max := 94; tseg2_min := 1; tseg2_max := 31; sjw_max := 31;
  brp_min := 1; brp_max := 2; brp_inc := 1;
|}.

(** [enum can_mode] *)
Inductive can_mode := CAN_MODE_STOP | CAN_MODE_START | CAN_MODE_SLEEP.

(** ** The functions *)

(** Part of [ctucan_set_btr]: quanta of [phase_seg1] above [max_ph1_len] are
    moved to [prop_seg], in 32-bit arithmetic. *)
Definition btr_redistribute (max_ph1_len : Z) (bt : can_bittiming) : can_bittiming :=
  if max_ph1_len <? phase_seg1 bt then
    set_segs (u32 (prop_seg bt + u32 (phase_seg1 bt - max_ph1_len))) max_ph1_len bt
  else bt.

(** Part of [ctucan_set_btr]: the word for BTR. *)
Definition btr_word (bt : can_bittiming) : Z :=
  let btr := FIELD_PREP REG_BTR_PROP (prop_seg bt) in
  let btr := Z.lor btr (FIELD_PREP REG_BTR_PH1 (phase_seg1 bt)) in
  let btr := Z.lor btr (FIELD_PREP REG_BTR_PH2 (phase_seg2 bt)) in
  let btr := Z.lor btr (FIELD_PREP REG_BTR_BRP (brp bt)) in
  Z.lor btr (FIELD_PREP REG_BTR_SJW (sjw bt)).

(** Part of [ctucan_set_btr]: the word for BTR_FD. *)
Definition btr_fd_word (bt : can_bittiming) : Z :=
  let btr := FIELD_PREP REG_BTR_FD_PROP_FD (prop_seg bt) in
  let btr := Z.lor btr (FIELD_PREP REG_BTR_FD_PH1_FD (phase_seg1 bt)) in
  let btr := Z.lor btr (FIELD_PREP REG_BTR_FD_PH2_FD (phase_seg2 bt)) in
  let btr := Z.lor btr (FIELD_PREP REG_BTR_FD_BRP_FD (brp bt)) in
  Z.lor btr (FIELD_PREP REG_BTR_FD_SJW_FD (sjw bt)).

Section Config.
Context {W : Type} `{World W}.
Abbreviation MB := (M net_device W).

(** The [do .. while (1)] loop of [ctucan_reset], entered with the counter [i]. *)
Fixpoint ctucan_reset_loop (fuel : nat) (i : Z) : MB Z :=
  match fuel with
  | O => no_fuel
  | S fuel' =>
      v ← ctucan_read32 CTUCANFD_DEVICE_ID;
      let device_id := FIELD_GET REG_DEVICE_ID_DEVICE_ID v in
      if device_id =? 0xCAFD then mret 0
      else if i =? 0 then
        call_ (netdev_msg "device did not leave reset\n");;
        mret (- ETIMEDOUT)
      else
        call_ (usleep_range 100 200);;
        ctucan_reset_loop fuel' (i - 1)
  end.

Definition ctucan_reset : MB Z :=
  ctucan_write32 CTUCANFD_MODE REG_MODE_RST;;
  modify (upd_priv (λ p, set_drv_flags (clear_bit CTUCANFD_FLAG_RX_FFW_BUFFERED (drv_flags p)) p));;
  ctucan_reset_loop 101 100.

(** Returns the result and the bit timing structure as it may have been modified. *)
Definition ctucan_set_btr (bt : can_bittiming) (nominal : bool) : MB (Z * can_bittiming) :=
  ena ← CTU_CAN_FD_ENABLED;
  if (ena : bool) then
    call_ (netdev_msg "BUG! Cannot set bittiming - CAN is enabled\n");;
    mret (- EPERM, bt)
  else
    let max_ph1_len := if nominal then 63 else 31 in
    let bt' := btr_redistribute max_ph1_len bt in
    if nominal then
      ctucan_write32 CTUCANFD_BTR (btr_word bt');;
      mret (0, bt')
    else
      ctucan_write32 CTUCANFD_BTR_FD (btr_fd_word bt');;
      mret (0, bt').

Definition ctucan_set_bittiming : MB Z :=
  bt ← gets (λ n, bittiming (can (priv n)));
  rb ← ctucan_set_btr bt true;
  modify (upd_can (set_bittiming (snd rb)));;
  mret (fst rb).

Definition ctucan_set_data_bittiming : MB Z :=
  dbt ← gets (λ n, data_bittiming (can (priv n)));
  rb ← ctucan_set_btr dbt false;
  modify (upd_can (set_data_bittiming (snd rb)));;
  mret (fst rb).

Definition ctucan_set_secondary_sample_point : MB Z :=
  dbt ← gets (λ n, data_bittiming (can (priv n)));
  freq ← gets (λ n, clock_freq (can (priv n)));
  ena ← CTU_CAN_FD_ENABLED;
  if (ena : bool) then
    call_ (netdev_msg "BUG! Cannot set SSP - CAN is enabled\n");;
    mret (- EPERM)
  else
    ssp_cfg ←
      (if 1000000 <? bitrate dbt then
         let ssp_offset := freq / bitrate dbt / 2 in
         ssp_offset ←
           (if 127 <? ssp_offset then
              call_ (netdev_msg "SSP offset saturated to 127\n");;
              mret 127
            else mret ssp_offset);
         mret (Z.lor (FIELD_PREP REG_TRV_DELAY_SSP_OFFSET ssp_offset)
                 (FIELD_PREP REG_TRV_DELAY_SSP_SRC 0x0))
       else mret 0x01000000);
    ctucan_write32 CTUCANFD_TRV_DELAY ssp_cfg;;
    mret 0.

(** [(mode->flags & flag) ? (mode_reg | bit) : (mode_reg & ~bit)] *)
Definition mode_bit (fl flag bit mode_reg : Z) : Z :=
  if nz (Z.land fl flag) then Z.lor mode_reg bit else Z.land mode_reg (Z.lnot bit).

Definition ctucan_mode_word (fl mode_reg : Z) : Z :=
  let mode_reg := mode_bit fl CAN_CTRLMODE_LOOPBACK REG_MODE_ILBP mode_reg in
  let mode_reg := mode_bit fl CAN_CTRLMODE_LISTENONLY REG_MODE_BMM mode_reg in
  let mode_reg := mode_bit fl CAN_CTRLMODE_FD REG_MODE_FDE mode_reg in
  let mode_reg := mode_bit fl CAN_CTRLMODE_PRESUME_ACK REG_MODE_ACF mode_reg in
  let mode_reg := mode_bit fl CAN_CTRLMODE_FD_NON_ISO REG_MODE_NISOFD mode_reg in
  let mode_reg := Z.land mode_reg (Z.lnot (FIELD_PREP REG_MODE_RTRTH 0xF)) in
  let mode_reg := mode_bit fl CAN_CTRLMODE_ONE_SHOT REG_MODE_RTRLE mode_reg in
  Z.land mode_reg (Z.lnot REG_MODE_TSTM).

Definition ctucan_set_mode (mode : can_ctrlmode) : MB unit :=
  mode_reg ← ctucan_read32 CTUCANFD_MODE;
  ctucan_write32 CTUCANFD_MODE (ctucan_mode_word (mode_flags mode) mode_reg).

(** The interrupts enabled at start for the control modes [cm]. *)
Definition chip_int_ena (cm : Z) : Z :=
  let int_ena := Z.lor (Z.lor (Z.lor REG_INT_STAT_RBNEI REG_INT_STAT_TXBHCI) REG_INT_STAT_EWLI)
                   REG_INT_STAT_FCSI in
  if nz (Z.land cm CAN_CTRLMODE_BERR_REPORTING)
  then Z.lor int_ena (Z.lor REG_INT_STAT_ALI REG_INT_STAT_BEI) else int_ena.

Definition ctucan_chip_start : MB Z :=
  modify (upd_priv (set_txb_prio 0x01234567));;
  modify (upd_priv (set_txb_head 0));;
  modify (upd_priv (set_txb_tail 0));;
  prio ← gets (λ n, txb_prio (priv n));
  ctucan_write32 CTUCANFD_TX_PRIORITY prio;;
  err ← ctucan_set_bittiming;
  if err <? 0 then mret err else
  err ← ctucan_set_data_bittiming;
  if err <? 0 then mret err else
  err ← ctucan_set_secondary_sample_point;
  if err <? 0 then mret err else
  cm ← gets (λ n, ctrlmode (can (priv n)));
  ctucan_set_mode {| mode_flags := cm; mode_mask := 0xFFFFFFFF |};;
  let int_ena := chip_int_ena cm in
  let int_msk := u32 (Z.lnot int_ena) in
  ctucan_write32 CTUCANFD_INT_MASK_SET int_msk;;
  ctucan_write32 CTUCANFD_INT_ENA_SET int_ena;;
  modify (upd_can (set_state CAN_STATE_STOPPED));;
  mode_reg ← ctucan_read32 CTUCANFD_MODE;
  ctucan_write32 CTUCANFD_MODE (Z.lor mode_reg REG_MODE_ENA);;
  mret 0.

Definition ctucan_do_set_mode (mode : can_mode) : MB Z :=
  match mode with
  | CAN_MODE_START =>
      ret ← ctucan_reset;
      if ret <? 0 then mret ret else
      ret ← ctucan_chip_start;
      if ret <? 0 then
        call_ (netdev_msg "ctucan_chip_start failed!\n");;
        mret ret
      else
        call_ netif_wake_queue;;
        mret ret
  | _ => mret (- EOPNOTSUPP)
  end.

End Config.

(** ** Properties *)

Section ConfigProofs.
Context {W : Type} `{World W}.
Implicit Types (s : st net_device W).

(** The device identifier in a word read from [DEVICE_ID]. *)
Definition id_ok (v : Z) : Prop := FIELD_GET REG_DEVICE_ID_DEVICE_ID v = CTUCANFD_ID.

(** What one run of the polling loop may do: it reads identifiers until one
    matches or the counter is used up. *)
Definition reset_poll (i : Z) (r : Z) (ids : list Z) : Prop :=
  (r = 0 ∧ ∃ pre v, ids = pre ++ [v] ∧ id_ok v ∧ Forall (λ x, ¬ id_ok x) pre ∧
     Z.of_nat (length pre) <= i) ∨
  (r = - ETIMEDOUT ∧ Forall (λ x, ¬ id_ok x) ids ∧ Z.of_nat (length ids) = i + 1).

Lemma reset_loop_spec fuel i s :
  le_dev (drv s) → 0 <= i < Z.of_nat fuel →
  wp (ctucan_reset_loop fuel i) s (λ r s', ∃ tr,
    trace s' = trace s ++ tr ∧ drv s' = drv s ∧ stores tr = [] ∧
    reset_poll i r (snd <$> loads tr) ∧
    Forall (λ l, fst l = reg_at (drv s) CTUCANFD_DEVICE_ID) (loads tr)).
Proof.
  revert i s. induction fuel as [|fuel IH]; intros i s Hle Hi; [lia|].
  cbn [ctucan_reset_loop]. bstep. bstep. case_match eqn:Eid; [|case_match eqn:Ei].
  - bstep. eexists. split_and!; [done..| |by repeat constructor].
    left. split; [done|]. exists [], (u32 v). split_and!; [done| |done|simpl; lia].
    by apply Z.eqb_eq.
  - bsteps. tr_norm. eexists. split_and!; [done..| |by repeat constructor].
    right. simpl. split_and!; [done| |lia].
    constructor; [|done]. by apply Z.eqb_neq.
  - bstep. bstep. eapply wp_mono; [apply IH; [done|lia]|].
    intros r' s' (tr & Htr & Hd & Hst & Hp & Hf). simpl in *. eexists.
    rewrite Htr. tr_norm. split_and!; [reflexivity|done|done| |].
    + csimpl. destruct Hp as [(-> & pre & x & Hids & Hx & Hpre & Hlen)|(-> & Hids & Hlen)].
      * left. split; [done|]. exists (u32 v :: pre), x. rewrite Hids. split_and!; [done..| |simpl; lia].
        constructor; [by apply Z.eqb_neq|done].
      * right. split_and!; [done| |simpl; lia]. constructor; [by apply Z.eqb_neq|done].
    + by constructor.
Qed.

(** C39: [ctucan_reset] terminates in every world.  It writes nothing but the
    reset request; it then polls the identification register: it returns 0 as
    soon as the identifier reads 0xCAFD, and -ETIMEDOUT exactly when 101 reads
    in a row did not show it; the buffered RX word is forgotten. *)
Theorem ctucan_reset_spec s :
  le_dev (drv s) →
  wp ctucan_reset s (λ r s', ∃ tr,
    trace s' = trace s ++ tr ∧
    stores tr = [(reg_at (drv s) CTUCANFD_MODE, REG_MODE_RST)] ∧
    Forall (λ l, fst l = reg_at (drv s) CTUCANFD_DEVICE_ID) (loads tr) ∧
    reset_poll 100 r (snd <$> loads tr) ∧
    drv s' = upd_priv (λ p, set_drv_flags
      (clear_bit CTUCANFD_FLAG_RX_FFW_BUFFERED (drv_flags p)) p) (drv s)).
Proof.
  intros Hle. unfold ctucan_reset. bsteps.
  eapply wp_mono; [apply reset_loop_spec; [by_le|lia]|].
  intros r s' (tr & Htr & Hd & Hst & Hp & Hf). simpl in *.
  rewrite Htr. tr_norm. eexists. split_and!; [reflexivity|..|done].
  - simpl. by rewrite Hst.
  - done.
  - done.
Qed.

(** *** Bit timing *)

(** A bit timing within the limits of a controller. *)
Definition bt_fits (c : can_bittiming_const) (bt : can_bittiming) : Prop :=
  0 <= prop_seg bt ∧ 0 <= phase_seg1 bt ∧
  tseg1_min c <= prop_seg bt + phase_seg1 bt <= tseg1_max c ∧
  tseg2_min c <= phase_seg2 bt <= tseg2_max c ∧
  0 <= sjw bt <= sjw_max c ∧ brp_min c <= brp bt <= brp_max c.

(** The fields of the BTR (or BTR_FD) word [btr] are the values of [bt]. *)
Definition btr_holds (nominal : bool) (btr : Z) (bt : can_bittiming) : Prop :=
  if nominal then
    FIELD_GET REG_BTR_PROP btr = prop_seg bt ∧ FIELD_GET REG_BTR_PH1 btr = phase_seg1 bt ∧
    FIELD_GET REG_BTR_PH2 btr = phase_seg2 bt ∧ FIELD_GET REG_BTR_BRP btr = brp bt ∧
    FIELD_GET REG_BTR_SJW btr = sjw bt
  else
    FIELD_GET REG_BTR_FD_PROP_FD btr = prop_seg bt ∧
    FIELD_GET REG_BTR_FD_PH1_FD btr = phase_seg1 bt ∧
    FIELD_GET REG_BTR_FD_PH2_FD btr = phase_seg2 bt ∧
    FIELD_GET REG_BTR_FD_BRP_FD btr = brp bt ∧ FIELD_GET REG_BTR_FD_SJW_FD btr = sjw bt.

(** Re-distribution of the first time segment keeps its length. *)
Definition same_timing (bt bt' : can_bittiming) : Prop :=
  prop_seg bt' + phase_seg1 bt' = prop_seg bt + phase_seg1 bt ∧
  phase_seg2 bt' = phase_seg2 bt ∧ sjw bt' = sjw bt ∧ brp bt' = brp bt ∧
  bitrate bt' = bitrate bt ∧ sample_point bt' = sample_point bt ∧ tq bt' = tq bt.

(** The limits the driver registers for each of the two bit timings. *)
Definition btr_limits (nominal : bool) : can_bittiming_const :=
  if nominal then ctu_can_fd_bit_timing_max else ctu_can_fd_bit_timing_data_max.

Definition btr_reg (nominal : bool) : Z := if nominal then CTUCANFD_BTR else CTUCANFD_BTR_FD.

(** The width of PROP: 7 bits in BTR, 6 bits in BTR_FD. *)
Definition prop_limit (nominal : bool) : Z := if nominal then 128 else 64.

Lemma redistribute_spec nominal bt :
  bt_fits (btr_limits nominal) bt → prop_seg bt < prop_limit nominal →
  let bt' := btr_redistribute (if nominal then 63 else 31) bt in
  same_timing bt bt' ∧ 0 <= prop_seg bt' < prop_limit nominal ∧
  0 <= phase_seg1 bt' < (if nominal then 64 else 32).
Proof.
  intros (? & ? & Ht1 & _) Hpl. unfold btr_redistribute, same_timing.
  destruct nominal; simpl in *; (case_match; simpl; [|split_and!; (done || lia)]).
  all: rewrite (u32_small (_ - _)) by (unfold is_u32; lia).
  all: rewrite u32_small by (unfold is_u32; lia).
  all: split_and!; (done || lia).
Qed.

Lemma btr_word_u32 bt : is_u32 (btr_word bt).
Proof. unfold btr_word. repeat apply lor_u32; apply FIELD_PREP_u32; by_compute. Qed.

Lemma btr_fd_word_u32 bt : is_u32 (btr_fd_word bt).
Proof. unfold btr_fd_word. repeat apply lor_u32; apply FIELD_PREP_u32; by_compute. Qed.

Lemma btr_word_holds bt :
  0 <= prop_seg bt < 128 → 0 <= phase_seg1 bt < 64 → 0 <= phase_seg2 bt < 64 →
  0 <= brp bt < 256 → 0 <= sjw bt < 32 → btr_holds true (btr_word bt) bt.
Proof. intros. unfold btr_holds, btr_word. split_and!; by field_simpl. Qed.

Lemma btr_fd_word_holds bt :
  0 <= prop_seg bt < 64 → 0 <= phase_seg1 bt < 32 → 0 <= phase_seg2 bt < 32 →
  0 <= brp bt < 256 → 0 <= sjw bt < 32 → btr_holds false (btr_fd_word bt) bt.
Proof. intros. unfold btr_holds, btr_fd_word. split_and!; by field_simpl. Qed.

(** C29: [ctucan_set_btr] refuses (-EPERM, no register written, the structure
    untouched) when the controller is enabled.  Otherwise, for a bit timing
    within the driver's limits whose [prop_seg] fits the PROP field (it does
    when the segment was split in half), it writes one word, to BTR or BTR_FD, whose
    fields hold exactly the bit timing it leaves in the structure, which
    differs from the requested one only by moving quanta of the first time
    segment between its two parts: no field is truncated. *)
Theorem ctucan_set_btr_spec bt nominal s :
  le_dev (drv s) → bt_fits (btr_limits nominal) bt → prop_seg bt < prop_limit nominal →
  wp (ctucan_set_btr bt nominal) s (λ rb s',
    drv s' = drv s ∧ ∃ m tr,
      trace s' = trace s ++ EvLoad (reg_at (drv s) CTUCANFD_MODE) m :: tr ∧
      ((Z.testbit m 22 = true ∧ rb = (- EPERM, bt) ∧ stores tr = [] ∧ loads tr = []) ∨
       (Z.testbit m 22 = false ∧ fst rb = 0 ∧ same_timing bt (snd rb) ∧
        ∃ btr, btr_holds nominal btr (snd rb) ∧
          tr = [EvStore (reg_at (drv s) (btr_reg nominal)) btr]))).
Proof.
  intros Hle Hfit Hpl. unfold ctucan_set_btr. bsteps.
  unfold REG_MODE_ENA. rewrite nz_FIELD_GET_BIT by done. case_match eqn:Eena.
  { bsteps. split; [done|]. tr_norm. eexists _, _. split; [done|]. by left. }
  destruct (redistribute_spec nominal bt Hfit Hpl) as (Hsame & Hp & Hq).
  destruct Hfit as (_ & _ & _ & Ht2 & Hsjw & Hbrp). pose proof Hsame as (_ & E2 & Es & Eb & _).
  destruct nominal; simpl in *; bsteps; (split; [done|]); tr_norm; eexists _, _;
    (split; [done|]); right; (split; [done|]); (split; [done|]); (split; [done|]).
  - exists (btr_word (btr_redistribute 63 bt)). rewrite u32_small by apply btr_word_u32.
    split; [|done]. apply btr_word_holds; simpl; rewrite ?E2, ?Es, ?Eb; lia.
  - exists (btr_fd_word (btr_redistribute 31 bt)). rewrite u32_small by apply btr_fd_word_u32.
    split; [|done]. apply btr_fd_word_holds; simpl; rewrite ?E2, ?Es, ?Eb; lia.
Qed.

(** *** Modes *)

Lemma testbit_mode_bit fl k b m i :
  0 <= k → 0 <= b → 0 <= i →
  Z.testbit (mode_bit fl (BIT k) (BIT b) m) i = if i =? b then Z.testbit fl k else Z.testbit m i.
Proof.
  intros. unfold mode_bit. rewrite land_BIT_nz by done.
  destruct (Z.testbit fl k); [rewrite testbit_set by done|rewrite testbit_clear by done];
    destruct (i =? b), (Z.testbit m i); done.
Qed.

(** The value of each bit of the MODE word for the control modes [fl]: six bits
    follow a control mode, the retransmit threshold (17..20) and test mode (8)
    are cleared, every other bit keeps its value. *)
Definition mode_word_bit (fl m i : Z) : bool :=
  if i =? 21 then Z.testbit fl 0        (* ILBP: loopback *)
  else if i =? 1 then Z.testbit fl 1    (* BMM: listen only *)
  else if i =? 4 then Z.testbit fl 5    (* FDE: CAN FD *)
  else if i =? 7 then Z.testbit fl 6    (* ACF: presume ack *)
  else if i =? 23 then Z.testbit fl 7   (* NISOFD: non-ISO FD *)
  else if i =? 16 then Z.testbit fl 3   (* RTRLE: one shot *)
  else if (17 <=? i) && (i <=? 20) then false
  else if i =? 8 then false
  else Z.testbit m i.

Lemma testbit_mode_word fl m i :
  0 <= i → Z.testbit (ctucan_mode_word fl m) i = mode_word_bit fl m i.
Proof.
  intros Hi. unfold ctucan_mode_word, mode_word_bit.
  change CAN_CTRLMODE_LOOPBACK with (BIT 0). change CAN_CTRLMODE_LISTENONLY with (BIT 1).
  change CAN_CTRLMODE_FD with (BIT 5). change CAN_CTRLMODE_PRESUME_ACK with (BIT 6).
  change CAN_CTRLMODE_FD_NON_ISO with (BIT 7). change CAN_CTRLMODE_ONE_SHOT with (BIT 3).
  change (FIELD_PREP REG_MODE_RTRTH 0xF) with (GENMASK 20 17).
  unfold REG_MODE_TSTM, REG_MODE_RTRLE. rewrite testbit_clear, testbit_mode_bit by done.
  rewrite Z.land_spec, Z.lnot_spec, testbit_GENMASK by done.
  unfold REG_MODE_ILBP, REG_MODE_BMM, REG_MODE_FDE, REG_MODE_ACF, REG_MODE_NISOFD.
  rewrite !testbit_mode_bit by done.
  destruct ((17 <=? i) && (i <=? 20)) eqn:E; simpl; rewrite ?andb_true_r, ?andb_false_r;
    repeat match goal with |- context [i =? ?k] => destruct (Z.eqb_spec i k) end;
    simpl; rewrite ?andb_true_r, ?andb_false_r; (done || lia).
Qed.

Lemma mode_word_u32 fl m : is_u32 m → is_u32 (ctucan_mode_word fl m).
Proof.
  intros Hm. unfold ctucan_mode_word.
  rewrite Z.land_comm. apply land_u32_r.
  assert (Hb : ∀ flag b x, is_u32 b → is_u32 x → is_u32 (mode_bit fl flag b x)).
  { intros flag b x Hb Hx. unfold mode_bit. case_match; [by apply lor_u32|].
    rewrite Z.land_comm. by apply land_u32_r. }
  apply Hb; [by_compute|]. rewrite Z.land_comm. apply land_u32_r.
  repeat (apply Hb; [by_compute|]). done.
Qed.

(** [ctucan_set_mode] reads MODE once and writes it back once, and each bit
    of the word written is the one [mode_word_bit] gives: every supported control
    mode drives exactly its own bit and all unrelated bits are preserved. *)
Theorem ctucan_set_mode_spec mode s :
  le_dev (drv s) →
  wp (ctucan_set_mode mode) s (λ _ s', drv s' = drv s ∧ ∃ m w,
    trace s' = trace s ++ [EvLoad (reg_at (drv s) CTUCANFD_MODE) m;
                           EvStore (reg_at (drv s) CTUCANFD_MODE) w] ∧
    ∀ i, 0 <= i → Z.testbit w i = mode_word_bit (mode_flags mode) m i).
Proof.
  intros Hle. unfold ctucan_set_mode. bsteps. split; [done|]. tr_norm.
  eexists _, _. split; [done|]. intros i Hi.
  rewrite u32_small by apply mode_word_u32, u32_range. by apply testbit_mode_word.
Qed.

(** *** Chip start *)

(** The TRV_DELAY word [ctucan_set_secondary_sample_point] computes. *)
Definition ssp_word (freq rate : Z) : Z :=
  if 1000000 <? rate then
    Z.lor (FIELD_PREP REG_TRV_DELAY_SSP_OFFSET (Z.min 127 (freq / rate / 2)))
      (FIELD_PREP REG_TRV_DELAY_SSP_SRC 0x0)
  else 0x01000000.

Lemma ssp_word_u32 freq rate : is_u32 (ssp_word freq rate).
Proof.
  unfold ssp_word. case_match; [|by_compute].
  apply lor_u32; apply FIELD_PREP_u32; by_compute.
Qed.

(** The device state after the fields of the TX ring are initialised. *)
Definition ring_reset (n : net_device) : net_device :=
  upd_priv (set_txb_tail 0) (upd_priv (set_txb_head 0) (upd_priv (set_txb_prio 0x01234567) n)).

Lemma set_bt_wp nominal bt s :
  le_dev (drv s) →
  wp (ctucan_set_btr bt nominal) s (λ rb s', drv s' = drv s ∧ ∃ tr, trace s' = trace s ++ tr ∧
    ((rb = (- EPERM, bt) ∧ stores tr = []) ∨
     (let bt' := btr_redistribute (if nominal then 63 else 31) bt in rb = (0, bt') ∧
      stores tr = [(reg_at (drv s) (btr_reg nominal),
                    if nominal then btr_word bt' else btr_fd_word bt')]))).
Proof.
  intros Hle. unfold ctucan_set_btr. bsteps. case_match.
  { bsteps. split; [done|]. tr_norm. eexists. split; [done|]. by left. }
  destruct nominal; bsteps; (split; [done|]); tr_norm; eexists; (split; [done|]); right; simpl;
    rewrite u32_small by (apply btr_word_u32 || apply btr_fd_word_u32); done.
Qed.

Lemma set_ssp_wp s :
  le_dev (drv s) →
  wp ctucan_set_secondary_sample_point s (λ r s', drv s' = drv s ∧ ∃ tr, trace s' = trace s ++ tr ∧
    ((r = - EPERM ∧ stores tr = []) ∨
     (r = 0 ∧ stores tr = [(reg_at (drv s) CTUCANFD_TRV_DELAY,
        ssp_word (clock_freq (can (priv (drv s))))
          (bitrate (data_bittiming (can (priv (drv s))))))]))).
Proof.
  intros Hle. unfold ctucan_set_secondary_sample_point. bsteps. case_match.
  { bsteps. split; [done|]. tr_norm. eexists. split; [done|]. by left. }
  set (freq := clock_freq _). set (rate := bitrate _). unfold ssp_word.
  assert (Hw : ∀ o, is_u32 (Z.lor (FIELD_PREP REG_TRV_DELAY_SSP_OFFSET o)
                              (FIELD_PREP REG_TRV_DELAY_SSP_SRC 0x0)))
    by (intros o; apply lor_u32; apply FIELD_PREP_u32; by_compute).
  case_match; bsteps; [case_match eqn:E; bsteps|].
  all: split; [done|]; tr_norm; eexists; split; [done|]; right; cbn [stores].
  - rewrite u32_small by apply Hw. by rewrite Z.min_l by lia.
  - rewrite u32_small by apply Hw. by rewrite Z.min_r by lia.
  - done.
Qed.

Lemma set_bittiming_wp s :
  le_dev (drv s) →
  wp ctucan_set_bittiming s (λ r s', ∃ tr, trace s' = trace s ++ tr ∧
    ((r = - EPERM ∧ drv s' = drv s ∧ stores tr = []) ∨
     (let bt' := btr_redistribute 63 (bittiming (can (priv (drv s)))) in
      r = 0 ∧ drv s' = upd_can (set_bittiming bt') (drv s) ∧
      stores tr = [(reg_at (drv s) CTUCANFD_BTR, btr_word bt')]))).
Proof.
  intros Hle. unfold ctucan_set_bittiming. bsteps.
  eapply wp_mono; [by apply (set_bt_wp true)|]. intros [r b] s1 (Hd & tr & Ht & Hc). bsteps.
  exists tr. split; [done|]. simpl. rewrite Hd.
  destruct Hc as [[[= -> ->] ?]|[[= -> ->] ?]]; [left|by right].
  split_and!; [done| |done]. by destruct (drv s) as [[[]] ?].
Qed.

Lemma set_data_bittiming_wp s :
  le_dev (drv s) →
  wp ctucan_set_data_bittiming s (λ r s', ∃ tr, trace s' = trace s ++ tr ∧
    ((r = - EPERM ∧ drv s' = drv s ∧ stores tr = []) ∨
     (let bt' := btr_redistribute 31 (data_bittiming (can (priv (drv s)))) in
      r = 0 ∧ drv s' = upd_can (set_data_bittiming bt') (drv s) ∧
      stores tr = [(reg_at (drv s) CTUCANFD_BTR_FD, btr_fd_word bt')]))).
Proof.
  intros Hle. unfold ctucan_set_data_bittiming. bsteps.
  eapply wp_mono; [by apply (set_bt_wp false)|]. intros [r b] s1 (Hd & tr & Ht & Hc). bsteps.
  exists tr. split; [done|]. simpl. rewrite Hd.
  destruct Hc as [[[= -> ->] ?]|[[= -> ->] ?]]; [left|by right].
  split_and!; [done| |done]. by destruct (drv s) as [[[]] ?].
Qed.

(** The writes of a successful start, in order: [m] is the MODE value that
    [ctucan_set_mode] read and [m'] the one read before the core is enabled. *)
Definition start_stores (n : net_device) (m m' : Z) : list (Z * Z) :=
  let c := can (priv n) in
  let ena := chip_int_ena (ctrlmode c) in
  [ (reg_at n CTUCANFD_TX_PRIORITY, 0x01234567);
    (reg_at n CTUCANFD_BTR, btr_word (btr_redistribute 63 (bittiming c)));
    (reg_at n CTUCANFD_BTR_FD, btr_fd_word (btr_redistribute 31 (data_bittiming c)));
    (reg_at n CTUCANFD_TRV_DELAY, ssp_word (clock_freq c) (bitrate (data_bittiming c)));
    (reg_at n CTUCANFD_MODE, ctucan_mode_word (ctrlmode c) m);
    (reg_at n CTUCANFD_INT_MASK_SET, 2 ^ 32 - 1 - ena);
    (reg_at n CTUCANFD_INT_ENA_SET, ena);
    (reg_at n CTUCANFD_MODE, Z.lor m' REG_MODE_ENA) ].

Lemma chip_int_ena_u32 cm : is_u32 (chip_int_ena cm).
Proof. unfold chip_int_ena. case_match; by_compute. Qed.

Lemma u32_lnot x : is_u32 x → u32 (Z.lnot x) = 2 ^ 32 - 1 - x.
Proof.
  unfold is_u32, u32. intros Hx. unfold Z.lnot.
  symmetry. apply (Z.mod_unique_pos _ _ (-1)); lia.
Qed.

Lemma redistribute_bitrate k bt : bitrate (btr_redistribute k bt) = bitrate bt.
Proof. unfold btr_redistribute. by case_match. Qed.

Lemma reg_ne n n' r r' :
  mem_base (priv n) = mem_base (priv n') → r ≠ r' → reg_at n r ≠ reg_at n' r'.
Proof. unfold reg_at. lia. Qed.

(** C28: [ctucan_chip_start] empties the TX ring and, in every world, either
    fails with -EPERM, which leaves MODE unwritten, or succeeds with exactly the
    writes of [start_stores] in that order: priorities, both bit timings, the
    secondary sample point, the modes, the interrupt mask (the complement of
    the enabled interrupts) and enables, and only as the last write the enable
    bit; the state becomes STOPPED. *)
Theorem ctucan_chip_start_spec s :
  le_dev (drv s) →
  wp ctucan_chip_start s (λ r s', ∃ tr, trace s' = trace s ++ tr ∧
    let p' := priv (drv s') in
    txb_head p' = 0 ∧ txb_tail p' = 0 ∧ txb_prio p' = 0x01234567 ∧
    ((r = - EPERM ∧ state (can p') = state (can (priv (drv s))) ∧
      Forall (λ x, fst x ≠ reg_at (drv s) CTUCANFD_MODE) (stores tr)) ∨
     (r = 0 ∧ state (can p') = CAN_STATE_STOPPED ∧
      ∃ m m', stores tr = start_stores (drv s) m m'))).
Proof.
  intros Hle. unfold ctucan_chip_start. bsteps.
  eapply wp_mono; [apply set_bittiming_wp; by_le|].
  intros r1 s1 (tr1 & Ht1 & [(-> & Hd1 & Hs1)|(-> & Hd1 & Hs1)]); cbn [drv trace] in *.
  { simpl. bsteps. rewrite Ht1. tr_norm. eexists. split; [done|]. rewrite Hd1. simpl.
    split_and!; [done..|]. left. split_and!; [done..|].
    rewrite Hs1; repeat constructor; by apply reg_ne. }
  simpl. apply wp_bind. eapply wp_mono; [apply set_data_bittiming_wp; rewrite Hd1; by_le|].
  intros r2 s2 (tr2 & Ht2 & [(-> & Hd2 & Hs2)|(-> & Hd2 & Hs2)]).
  { simpl. bsteps. rewrite Ht2, Ht1. tr_norm. eexists. split; [done|]. rewrite Hd2, Hd1. simpl.
    split_and!; [done..|]. left. split_and!; [done..|].
    rewrite stores_app, Hs1, Hs2; repeat constructor; by apply reg_ne. }
  simpl. apply wp_bind. eapply wp_mono; [apply set_ssp_wp; rewrite Hd2, Hd1; by_le|].
  intros r3 s3 (Hd3 & tr3 & Ht3 & [(-> & Hs3)|(-> & Hs3)]).
  { simpl. bsteps. rewrite Ht3, Ht2, Ht1. tr_norm. eexists. split; [done|]. rewrite Hd3, Hd2, Hd1. simpl.
    split_and!; [done..|]. left. split_and!; [done..|].
    rewrite !stores_app, Hs1, Hs2, Hs3, Hd1; repeat constructor; by apply reg_ne. }
  simpl. unfold ctucan_set_mode.
  assert (Hle3 : le_dev (drv s3)) by (rewrite Hd3, Hd2, Hd1; by_le). bsteps.
  rewrite Ht3, Ht2, Ht1. tr_norm. eexists. split; [done|]. rewrite Hd3, Hd2, Hd1. simpl.
  split_and!; [done..|]. right. split_and!; [done..|]. eexists _, _. cbn [stores].
  rewrite !stores_app, Hs1, Hs2, Hs3, Hd2, Hd1. simpl.
  rewrite redistribute_bitrate, (u32_idemp (Z.lnot _)), u32_lnot by apply chip_int_ena_u32.
  rewrite !(u32_small (chip_int_ena _)) by apply chip_int_ena_u32.
  rewrite !(u32_small (ctucan_mode_word _ _)) by apply mode_word_u32, u32_range.
  rewrite (u32_small (Z.lor _ _)) by (apply lor_u32; [apply u32_range|by_compute]). done.
Qed.

End ConfigProofs.

(** ** Concrete runs *)

Lemma sample_le ls : le_dev (drv (sample_st ls)).
Proof. done. Qed.

(** A core that leaves reset at the third poll: the run, and the theorem on it. *)
Example reset_run :
  wp ctucan_reset (sample_st [0; 0; 0xCAFD]) (λ r s', r = 0 ∧
    calls (trace s') = [usleep_range 100 200; usleep_range 100 200]).
Proof. by vm_compute. Qed.

Lemma ctucan_reset_witness :
  wp ctucan_reset (sample_st [0; 0; 0xCAFD]) (λ r s',
    stores (trace s') = [(0x43C30004, REG_MODE_RST)] ∧
    reset_poll 100 r (snd <$> loads (trace s'))).
Proof.
  eapply wp_mono; [exact (ctucan_reset_spec (sample_st [0; 0; 0xCAFD]) (sample_le _))|].
  by intros r s' (tr & -> & Hst & _ & Hp & _).
Defined.

(** The sample bit timing has [phase_seg1] above 63: 17 quanta are moved. *)
Lemma ctucan_set_btr_witness :
  bt_fits (btr_limits true) sample_bt ∧
  wp (ctucan_set_btr sample_bt true) (sample_st [0]) (λ rb _,
    same_timing sample_bt (snd rb) ∧ prop_seg (snd rb) + phase_seg1 (snd rb) = 159).
Proof.
  assert (Hf : bt_fits (btr_limits true) sample_bt) by (unfold bt_fits; simpl; lia).
  split; [exact Hf|].
  eapply wp_mono;
    [exact (ctucan_set_btr_spec sample_bt true (sample_st [0]) (sample_le _) Hf ltac:(done))|].
  intros rb s' (_ & m & tr & _ & [(_ & -> & _)|(_ & _ & Hs & _)]); [done|].
  split; [done|]. by destruct Hs as (-> & _).
Defined.

Lemma ctucan_set_mode_witness :
  wp (ctucan_set_mode {| mode_flags := CAN_CTRLMODE_FD; mode_mask := 0xFFFFFFFF |})
    (sample_st [0]) (λ _ s', ∃ m w, stores (trace s') = [(0x43C30004, w)] ∧
      Z.testbit w 4 = true ∧ Z.testbit w 1 = false ∧ Z.testbit w 22 = Z.testbit m 22).
Proof.
  eapply wp_mono; [exact (ctucan_set_mode_spec {| mode_flags := CAN_CTRLMODE_FD;
    mode_mask := 0xFFFFFFFF |} (sample_st [0]) (sample_le _))|].
  intros [] s' (_ & m & w & -> & Hw). exists m, w. by rewrite !Hw.
Defined.

Lemma ctucan_chip_start_witness :
  wp ctucan_chip_start (sample_st []) (λ r s', (r = - EPERM ∨ r = 0) ∧
    txb_prio (priv (drv s')) = 0x01234567).
Proof.
  eapply wp_mono; [exact (ctucan_chip_start_spec (sample_st []) (sample_le _))|].
  intros r s' (tr & _ & _ & _ & Hp & Hr). split; [tauto|done].
Defined.

(** The successful start of the sample device. *)
Example chip_start_run :
  wp ctucan_chip_start (sample_st []) (λ r s', r = 0 ∧
    stores (trace s') = start_stores sample_dev 0 0).
Proof. by vm_compute. Qed.
