(* ===== verification/BaseTx.v ===== *)
(** * Transmission in the kernel driver

    [ctucan_get_tx_status] .. [ctucan_start_xmit] and [ctucan_rotate_txb_prio],
    [ctucan_tx_interrupt] of [ctucanfd_base.c]: the TXT buffers are used as a ring
    from [txb_tail] to [txb_head], and the priorities are rotated so that the
    oldest frame always has the highest one. *)

From Stdlib Require Import ZArith Lia.
From stdpp Require Import base numbers list strings sets.
From S2P Require Import Prelude LinuxDefs World Kregs Base Sim.

#[local] Open Scope Z_scope.

(** ** Constants *)

Definition TXT_NOT_EXIST : Z := 0x0.
Definition TXT_RDY : Z := 0x1.
Definition TXT_TRAN : Z := 0x2.
Definition TXT_ABTP : Z := 0x3.
Definition TXT_TOK : Z := 0x4.
Definition TXT_ERR : Z := 0x6.
Definition TXT_ABT : Z := 0x7.
Definition TXT_ETY : Z := 0x8.

Definition TXT_CMD_SET_EMPTY : Z := 0x01.
Definition TXT_CMD_SET_READY : Z := 0x02.
Definition TXT_CMD_SET_ABORT : Z := 0x04.

(** The two results of [ndo_start_xmit]. *)
Inductive netdev_tx := NETDEV_TX_OK | NETDEV_TX_BUSY.

(** ** The functions *)

(** The frame format and identifier words of [ctucan_insert_frame]. *)
Definition frame_ffw (cf : canfd_frame) (isfdf : bool) : Z :=
  let ffw := 0 in
  let ffw := if nz (Z.land (can_id cf) CAN_RTR_FLAG)
             then Z.lor ffw REG_FRAME_FORMAT_W_RTR else ffw in
  let ffw := if nz (Z.land (can_id cf) CAN_EFF_FLAG)
             then Z.lor ffw REG_FRAME_FORMAT_W_IDE else ffw in
  let ffw := if isfdf then
               let ffw := Z.lor ffw REG_FRAME_FORMAT_W_FDF in
               if nz (Z.land (flags cf) CANFD_BRS)
               then Z.lor ffw REG_FRAME_FORMAT_W_BRS else ffw
             else ffw in
  Z.lor ffw (FIELD_PREP REG_FRAME_FORMAT_W_DLC (can_len2dlc (len cf))).

Definition frame_idw (cf : canfd_frame) : Z :=
  if nz (Z.land (can_id cf) CAN_EFF_FLAG) then Z.land (can_id cf) CAN_EFF_MASK
  else FIELD_PREP REG_IDENTIFIER_W_IDENTIFIER_BASE (Z.land (can_id cf) CAN_SFF_MASK).

(** The new value of [txb_prio] in [ctucan_rotate_txb_prio], for a shift count in range. *)
Definition rotate_prio (ntxb prio : Z) : Z :=
  u32 (Z.lor (Z.shiftl prio 4) (Z.land (Z.shiftr prio ((ntxb - 1) * 4)) 0xF)).

Section Tx.
Context {W : Type} `{World W}.
Abbreviation MB := (M net_device W).

Definition ctucan_get_tx_status (buf : Z) : MB Z :=
  tx_status ← ctucan_read32 CTUCANFD_TX_STATUS;
  x ← shr32 tx_status (buf * 4);
  mret (Z.land x 0x7).

Definition ctucan_is_txt_buf_writable (buf : Z) : MB bool :=
  buf_status ← ctucan_get_tx_status buf;
  mret (negb ((buf_status =? TXT_RDY) || (buf_status =? TXT_TRAN) || (buf_status =? TXT_ABTP))).

(** The payload loop, from byte [i]; [fuel] iterations are allowed. *)
Fixpoint insert_data (fuel : nat) (cf : canfd_frame) (buf_base i : Z) : MB unit :=
  if i <? len cf then
    match fuel with
    | O => no_fuel
    | S fuel' =>
        d ← some_or OutOfBounds (load_le32 (data cf) i);
        ctucan_write_txt_buf buf_base (CTUCANFD_DATA_1_4_W + i) d;;
        insert_data fuel' cf buf_base (i + 4)
    end
  else mret tt.

Definition ctucan_insert_frame (cf : canfd_frame) (buf : Z) (isfdf : bool) : MB bool :=
  n ← gets (λ n, ntxbufs (priv n));
  if n <=? buf then mret false else
  wr ← ctucan_is_txt_buf_writable buf;
  if negb wr then mret false else
  if CANFD_MAX_DLEN <? len cf then mret false else
  let ffw := frame_ffw cf isfdf in
  let idw := frame_idw cf in
  let buf_base := (buf + 1) * 0x100 in
  ctucan_write_txt_buf buf_base CTUCANFD_FRAME_FORMAT_W ffw;;
  ctucan_write_txt_buf buf_base CTUCANFD_IDENTIFIER_W idw;;
  when (negb (nz (Z.land (can_id cf) CAN_RTR_FLAG))) (insert_data 16 cf buf_base 0);;
  mret true.

Definition ctucan_give_txtb_cmd (cmd buf : Z) : MB unit :=
  b ← bit32 (buf + 8);
  ctucan_write32 CTUCANFD_TX_COMMAND (Z.lor cmd b).

Definition ctucan_start_xmit (skb : sk_buff) : MB netdev_tx :=
  let cf := skb_cf skb in
  dropped ← call (can_dev_dropped_skb skb);
  if nz dropped then mret NETDEV_TX_OK else
  txtnf ← CTU_CAN_FD_TXTNF;
  if negb txtnf then
    call_ netif_stop_queue;;
    call_ (netdev_msg "BUG!, no TXB free when queue awake!\n");;
    mret NETDEV_TX_BUSY
  else
  head ← gets (λ n, txb_head (priv n));
  n ← gets (λ n, ntxbufs (priv n));
  txtb_id ← umod head n;
  ok ← ctucan_insert_frame cf (u8 txtb_id) (skb_canfd skb);
  if negb ok then
    call_ (netdev_msg "BUG! TXNF set but cannot insert frame into TXTB! HW Bug?");;
    call_ (kfree_skb skb);;
    modify (upd_stats (λ r, set_tx_dropped (incr64 (tx_dropped r)) r));;
    mret NETDEV_TX_OK
  else
  call_ (can_put_echo_skb skb txtb_id);;
  call_ spin_lock_irqsave;;
  ctucan_give_txtb_cmd TXT_CMD_SET_READY (u8 txtb_id);;
  modify (upd_priv (λ p, set_txb_head (u32 (txb_head p + 1)) p));;
  txtnf ← CTU_CAN_FD_TXTNF;
  when (negb txtnf) (call_ netif_stop_queue);;
  call_ spin_unlock_irqrestore;;
  mret NETDEV_TX_OK.

Definition ctucan_rotate_txb_prio : MB unit :=
  prio ← gets (λ n, txb_prio (priv n));
  n ← gets (λ n, ntxbufs (priv n));
  x ← shr32 prio (u32 (u32 (n - 1) * 4));
  let prio := u32 (Z.lor (Z.shiftl prio 4) (Z.land x 0xF)) in
  modify (upd_priv (set_txb_prio prio));;
  ctucan_write32 CTUCANFD_TX_PRIORITY prio.

(** The [switch (txtb_status)] of [ctucan_tx_interrupt]: [true] for a finished
    buffer ([break]), [false] for the [default] case. *)
Definition tx_switch (txtb_id txtb_status : Z) : MB bool :=
  if txtb_status =? TXT_TOK then
    l ← call (can_get_echo_skb txtb_id);
    modify (upd_stats (λ r, set_tx_bytes (u64 (tx_bytes r + u32 l)) r));;
    modify (upd_stats (λ r, set_tx_packets (incr64 (tx_packets r)) r));;
    mret true
  else if txtb_status =? TXT_ERR then
    call_ (netdev_msg "TXB in Error state\n");;
    call_ (can_free_echo_skb txtb_id);;
    modify (upd_stats (λ r, set_tx_dropped (incr64 (tx_dropped r)) r));;
    mret true
  else if txtb_status =? TXT_ABT then
    call_ (netdev_msg "TXB in Aborted state\n");;
    call_ (can_free_echo_skb txtb_id);;
    modify (upd_stats (λ r, set_tx_dropped (incr64 (tx_dropped r)) r));;
    mret true
  else mret false.

(** The end of an iteration of [ctucan_tx_interrupt], after the [switch]. *)
Definition tx_release (txtb_id : Z) : MB unit :=
  modify (upd_priv (λ p, set_txb_tail (u32 (txb_tail p + 1)) p));;
  ctucan_rotate_txb_prio;;
  ctucan_give_txtb_cmd TXT_CMD_SET_EMPTY (u8 txtb_id).

(** The [while] loop of [ctucan_tx_interrupt].  [None] is the early [return];
    [Some (first, some_buffers_processed)] is reaching the label [clear]. *)
Fixpoint tx_while (fuel : nat) (first some_buffers_processed : bool) : MB (option (bool * bool)) :=
  head ← gets (λ n, txb_head (priv n));
  tail ← gets (λ n, txb_tail (priv n));
  if 0 <? s32 (head - tail) then
    match fuel with
    | O => no_fuel
    | S fuel' =>
        n ← gets (λ n, ntxbufs (priv n));
        txtb_id ← umod tail n;
        txtb_status ← ctucan_get_tx_status (u8 txtb_id);
        finished ← tx_switch txtb_id txtb_status;
        if (finished : bool) then
          tx_release txtb_id;;
          tx_while fuel' false true
        else if first then
          call_ (netdev_msg "BUG: TXB not in a finished state!\n");;
          call_ spin_unlock_irqrestore;;
          mret None
        else mret (Some (first, some_buffers_processed))
    end
  else mret (Some (first, some_buffers_processed)).

(** The [do .. while (some_buffers_processed)] loop; [false] is the early [return]. *)
Fixpoint tx_do_while (fuel : nat) (first : bool) : MB bool :=
  match fuel with
  | O => no_fuel
  | S fuel' =>
      call_ spin_lock_irqsave;;
      r ← tx_while fuel first false;
      match r with
      | None => mret false
      | Some (first, some_buffers_processed) =>
          call_ spin_unlock_irqrestore;;
          if (some_buffers_processed : bool) then
            ctucan_write32 CTUCANFD_INT_STAT REG_INT_STAT_TXBHCI;;
            tx_do_while fuel' first
          else mret true
      end
  end.

(** Enough fuel for both loops: every iteration that continues finishes one of
    the [txb_head - txb_tail] buffers in use. *)
Definition tx_fuel (n : net_device) : nat :=
  S (Z.to_nat (s32 (txb_head (priv n) - txb_tail (priv n)))).

Definition ctucan_tx_interrupt : MB unit :=
  fuel ← gets tx_fuel;
  cont ← tx_do_while fuel true;
  if negb cont then mret tt else
  call_ spin_lock_irqsave;;
  txtnf ← CTU_CAN_FD_TXTNF;
  when txtnf (call_ netif_wake_queue);;
  call_ spin_unlock_irqrestore.

End Tx.

(** ** Insertion of a frame *)

(** The status of buffer [buf] in a word read from TX_STATUS, as the driver reads it. *)
Definition txtb_status (v buf : Z) : Z := Z.land (Z.shiftr v (buf * 4)) 0x7.

Definition txtb_writable (v buf : Z) : bool :=
  negb ((txtb_status v buf =? TXT_RDY) || (txtb_status v buf =? TXT_TRAN) ||
        (txtb_status v buf =? TXT_ABTP)).

(** The [j]-th payload word of a frame. *)
Definition data_word (cf : canfd_frame) (j : Z) : Z := default 0 (load_le32 (data cf) (4 * j)).

(** What the network layer promises of a frame it hands over: the fields have
    their C types and the payload words of an admissible length are in the buffer
    (a classical frame has 8 bytes of data and a CAN FD frame 64). *)
Record frame_wf (cf : canfd_frame) : Prop := {
  fw_id : is_u32 (can_id cf);
  fw_len : 0 <= len cf < 256;
  fw_flags : is_byte (flags cf);
  fw_bytes : Forall is_byte (data cf);
  fw_fits : len cf <= CANFD_MAX_DLEN → 4 * nwords (len cf) <= Z.of_nat (length (data cf));
}.

(** The address of the word at offset [off] of TXT buffer [buf]. *)
Definition txtb_at (n : net_device) (buf off : Z) : Z := reg_at n ((buf + 1) * 0x100 + off).

(** The writes that put a frame in buffer [buf]. *)
Definition frame_image (n : net_device) (cf : canfd_frame) (buf : Z) (isfdf : bool) : list event :=
  EvStore (txtb_at n buf CTUCANFD_FRAME_FORMAT_W) (frame_ffw cf isfdf) ::
  EvStore (txtb_at n buf CTUCANFD_IDENTIFIER_W) (frame_idw cf) ::
  (if nz (Z.land (can_id cf) CAN_RTR_FLAG) then [] else
   (λ j, EvStore (txtb_at n buf (CTUCANFD_DATA_1_4_W + 4 * j)) (data_word cf j)) <$>
     seqZ 0 (nwords (len cf))).

Lemma frame_ffw_u32 cf isfdf : is_u32 (frame_ffw cf isfdf).
Proof.
  unfold frame_ffw. apply lor_u32; [|apply FIELD_PREP_u32; by_compute].
  repeat case_match; by_compute.
Qed.

Lemma frame_idw_u32 cf : is_u32 (frame_idw cf).
Proof.
  unfold frame_idw. case_match; [apply land_u32_r|apply FIELD_PREP_u32]; by_compute.
Qed.

(** ** Completion of transmissions: the abstract step *)

(** The number of buffers in use, as the driver computes it. *)
Definition ring_used (n : net_device) : Z := s32 (txb_head (priv n) - txb_tail (priv n)).

(** The buffer of the oldest frame, and the buffer of the next frame. *)
Definition tail_buf (n : net_device) : Z := txb_tail (priv n) mod ntxbufs (priv n).

Definition head_buf (n : net_device) : Z := txb_head (priv n) mod ntxbufs (priv n).

(** Bounds that hold of every probed device. *)
Record ring_wf (n : net_device) : Prop := {
  rw_n : 1 <= ntxbufs (priv n) <= 8;
  rw_head : is_u32 (txb_head (priv n));
  rw_tail : is_u32 (txb_tail (priv n));
  rw_prio : is_u32 (txb_prio (priv n));
}.

(** The oldest buffer is released: the tail moves on and the priorities rotate. *)
Definition advance (n : net_device) : net_device :=
  upd_priv (λ p, set_txb_prio (rotate_prio (ntxbufs p) (txb_prio p))
                   (set_txb_tail (u32 (txb_tail p + 1)) p)) n.

Definition count_ok (l : Z) (n : net_device) : net_device :=
  upd_stats (λ r, set_tx_packets (incr64 (tx_packets r))
                    (set_tx_bytes (u64 (tx_bytes r + u32 l)) r)) n.

Definition count_drop (n : net_device) : net_device :=
  upd_stats (λ r, set_tx_dropped (incr64 (tx_dropped r)) r) n.

(** The writes that release it: priorities first, then "set empty". *)
Definition release (n : net_device) : list event :=
  [EvStore (reg_at n CTUCANFD_TX_PRIORITY) (rotate_prio (ntxbufs (priv n)) (txb_prio (priv n)));
   EvStore (reg_at n CTUCANFD_TX_COMMAND) (Z.lor TXT_CMD_SET_EMPTY (BIT (tail_buf n + 8)))].

(** Completion of the oldest buffer, by the status that was read. *)
Inductive tx_finish (n : net_device) : list event → net_device → Prop :=
  | fin_ok v l :
      txtb_status v (tail_buf n) = TXT_TOK →
      tx_finish n (EvLoad (reg_at n CTUCANFD_TX_STATUS) v ::
                   EvCall (can_get_echo_skb (tail_buf n)) l :: release n)
        (advance (count_ok l n))
  | fin_drop v msg r1 r2 :
      txtb_status v (tail_buf n) = TXT_ERR ∨ txtb_status v (tail_buf n) = TXT_ABT →
      tx_finish n (EvLoad (reg_at n CTUCANFD_TX_STATUS) v :: EvCall (netdev_msg msg) r1 ::
                   EvCall (can_free_echo_skb (tail_buf n)) r2 :: release n)
        (advance (count_drop n)).

(** The other events of the handler: they concern no buffer. *)
Definition tx_silent (n : net_device) (e : event) : Prop :=
  match e with
  | EvLoad a _ => a = reg_at n CTUCANFD_TX_STATUS ∨ a = reg_at n CTUCANFD_STATUS
  | EvStore a v => a = reg_at n CTUCANFD_INT_STAT ∧ v = REG_INT_STAT_TXBHCI
  | EvCall (spin_lock_irqsave | spin_unlock_irqrestore | netif_wake_queue | netdev_msg _) _ => True
  | _ => False
  end.

(** [tx_run k n tr n']: the events [tr] complete the [k] oldest buffers, one after the other. *)
Inductive tx_run : nat → net_device → list event → net_device → Prop :=
  | run_nil n : tx_run 0 n [] n
  | run_silent k n e tr n' :
      tx_silent n e → tx_run k n tr n' → tx_run k n (e :: tr) n'
  | run_finish k n evs n1 tr n' :
      0 < ring_used n → tx_finish n evs n1 → tx_run k n1 tr n' → tx_run (S k) n (evs ++ tr) n'.

(** The spin lock along a trace: [None] when it is taken twice or released
    without being held, or when a command or the priorities are written without it. *)
Fixpoint lock_disc (n : net_device) (held : bool) (tr : list event) : option bool :=
  match tr with
  | [] => Some held
  | EvCall spin_lock_irqsave _ :: tr' => if held then None else lock_disc n true tr'
  | EvCall spin_unlock_irqrestore _ :: tr' => if held then lock_disc n false tr' else None
  | EvStore a _ :: tr' =>
      if ((a =? reg_at n CTUCANFD_TX_COMMAND) || (a =? reg_at n CTUCANFD_TX_PRIORITY)) && negb held
      then None else lock_disc n held tr'
  | _ :: tr' => lock_disc n held tr'
  end.

Lemma lock_disc_app n h t1 t2 :
  lock_disc n h (t1 ++ t2) = lock_disc n h t1 ≫= λ h', lock_disc n h' t2.
Proof.
  revert h. induction t1 as [|e t1 IH]; intros h; [done|]. simpl.
  destruct e as [| |[]|]; try apply IH; case_match; try done; apply IH.
Qed.

Lemma tail_buf_range n : ring_wf n → 0 <= tail_buf n < ntxbufs (priv n).
Proof. intros []. apply Z.mod_pos_bound. lia. Qed.

Lemma u8_small x : 0 <= x < 256 → u8 x = x.
Proof. intros. by apply Z.mod_small. Qed.

Lemma rotate_prio_u32 k p : is_u32 (rotate_prio k p).
Proof. apply u32_range. Qed.

Lemma advance_wf n : ring_wf n → ring_wf (advance n).
Proof. intros []. constructor; simpl; [done..|apply u32_range|apply rotate_prio_u32]. Qed.

Lemma ring_used_range n : - 2 ^ 31 <= ring_used n < 2 ^ 31.
Proof.
  unfold ring_used, s32. pose proof (u32_range (txb_head (priv n) - txb_tail (priv n))) as [? ?].
  destruct (Z.ltb_spec (u32 (txb_head (priv n) - txb_tail (priv n))) (2 ^ 31)); lia.
Qed.

Lemma ring_used_advance n : 0 < ring_used n → ring_used (advance n) = ring_used n - 1.
Proof.
  unfold ring_used, s32. simpl. set (h := txb_head (priv n)). set (t := txb_tail (priv n)).
  intros Hu. assert (E : u32 (h - u32 (t + 1)) = u32 (u32 (h - t) - 1)).
  { unfold u32. by rewrite Zminus_mod_idemp_r, Zminus_mod_idemp_l, Z.sub_add_distr. }
  rewrite E. pose proof (u32_range (h - t)) as [? ?].
  destruct (Z.ltb_spec (u32 (h - t)) (2 ^ 31)); [|lia].
  rewrite u32_small by (unfold is_u32; lia).
  by destruct (Z.ltb_spec (u32 (h - t) - 1) (2 ^ 31)); [|lia].
Qed.

(** What a completion keeps. *)
Lemma tx_finish_priv n evs n' : tx_finish n evs n' → priv n' = priv (advance n).
Proof. by intros []. Qed.

Lemma tx_finish_wf n evs n' : tx_finish n evs n' → ring_wf n → ring_wf n'.
Proof.
  intros Hf Hwf. destruct (advance_wf n Hwf), Hwf. apply tx_finish_priv in Hf.
  by constructor; rewrite Hf.
Qed.

Lemma tx_finish_le n evs n' : tx_finish n evs n' → le_dev n → le_dev n'.
Proof. intros Hf. unfold le_dev. by rewrite (tx_finish_priv _ _ _ Hf). Qed.

Lemma tx_finish_used n evs n' : tx_finish n evs n' → 0 < ring_used n → ring_used n' = ring_used n - 1.
Proof.
  intros Hf Hu. rewrite <- ring_used_advance by done. unfold ring_used.
  by rewrite (tx_finish_priv _ _ _ Hf).
Qed.

Lemma tx_finish_lock n evs n' : tx_finish n evs n' → lock_disc n true evs = Some true.
Proof. intros []; simpl; by rewrite !andb_false_r. Qed.

Lemma lock_disc_base n n' h tr :
  mem_base (priv n) = mem_base (priv n') → lock_disc n h tr = lock_disc n' h tr.
Proof.
  intros Hb. revert h. induction tr as [|e tr IH]; intros h; [done|]. simpl.
  unfold reg_at. rewrite Hb. by destruct e as [| |[]|]; rewrite ?IH.
Qed.

Lemma tx_run_app k1 k2 n t1 n1 t2 n2 :
  tx_run k1 n t1 n1 → tx_run k2 n1 t2 n2 → tx_run (k1 + k2) n (t1 ++ t2) n2.
Proof.
  induction 1 as [|k n e tr n' He Hr IH|k n evs n1 tr n' Hu Hf Hr IH]; intros H2; simpl; [done|..].
  - constructor; auto.
  - rewrite <- app_assoc. econstructor; eauto.
Qed.

(** The ring never gets shorter than empty. *)
Lemma tx_run_used k n tr n' :
  tx_run k n tr n' → ring_used n' = ring_used n - Z.of_nat k ∧
    (k = 0%nat ∨ 0 <= ring_used n').
Proof.
  induction 1 as [|k n e tr n' He Hr IH|k n evs n1 tr n' Hu Hf Hr IH]; [lia|done|].
  pose proof (tx_finish_used _ _ _ Hf Hu). lia.
Qed.

Lemma tx_run_silent n tr : Forall (tx_silent n) tr → tx_run 0 n tr n.
Proof. induction 1; constructor; auto. Qed.

(** ** Priorities *)

(** The priority of buffer [b] in a TX_PRIORITY word. *)
Definition nibble (p b : Z) : Z := Z.land (Z.shiftr p (4 * b)) 0xF.

(** The [k]-th oldest buffer of the ring has priority [7 - k]. *)
Definition prio_inv (n : net_device) : Prop :=
  ∀ k, 0 <= k < ntxbufs (priv n) →
    nibble (txb_prio (priv n)) ((txb_tail (priv n) + k) mod ntxbufs (priv n)) = 7 - k.

(** The ring size divides the range of the 32-bit head and tail counters. *)
Definition ring_pow2 (n : net_device) : Prop := (ntxbufs (priv n) | 2 ^ 32).

Lemma testbit_nibble p b i :
  0 <= b → 0 <= i → Z.testbit (nibble p b) i = Z.testbit p (4 * b + i) && (i <? 4).
Proof.
  intros. unfold nibble. change 0xF with (Z.ones 4).
  rewrite Z.land_spec, Z.shiftr_spec, testbit_ones by lia. by rewrite Z.add_comm.
Qed.

Lemma nibble_rotate N p b :
  1 <= N <= 8 → 0 <= b < N →
  nibble (rotate_prio N p) b = nibble p (if b =? 0 then N - 1 else b - 1).
Proof.
  intros HN Hb. apply Z.bits_inj'. intros i Hi.
  rewrite !testbit_nibble by (repeat case_match; lia).
  destruct (Z.ltb_spec i 4) as [H4|]; [|by rewrite !andb_false_r]. rewrite !andb_true_r.
  unfold rotate_prio. change 0xF with (Z.ones 4).
  rewrite testbit_u32, Z.lor_spec, Z.land_spec, Z.shiftl_spec, Z.shiftr_spec, testbit_ones by lia.
  replace (4 * b + i <? 32) with true by lia. rewrite andb_true_r.
  destruct (Z.eqb_spec b 0) as [->|].
  - rewrite Z.testbit_neg_r by lia. replace (4 * 0 + i <? 4) with true by lia.
    rewrite andb_true_r. simpl. f_equal. lia.
  - replace (4 * b + i <? 4) with false by lia. rewrite andb_false_r, orb_false_r. f_equal. lia.
Qed.

Lemma mod_pred x N : 0 < N → x mod N = if (x + 1) mod N =? 0 then N - 1 else (x + 1) mod N - 1.
Proof.
  intros HN. pose proof (Z.mod_pos_bound x N HN). rewrite <- (Z.add_mod_idemp_l x 1) by lia.
  destruct (Z.eq_dec (x mod N) (N - 1)) as [E|].
  - rewrite E. replace (N - 1 + 1) with N by lia. by rewrite Z.mod_same by lia.
  - rewrite (Z.mod_small (x mod N + 1)) by lia. destruct (Z.eqb_spec (x mod N + 1) 0); lia.
Qed.

Lemma u32_mod_divide N x : (N | 2 ^ 32) → u32 x mod N = x mod N.
Proof. apply Z.mod_mod_divide. Qed.

Lemma prio_inv_advance n : ring_wf n → ring_pow2 n → prio_inv n → prio_inv (advance n).
Proof.
  unfold prio_inv. intros [HN _ _ _] Hp Hinv k. simpl. set (N := ntxbufs (priv n)) in *.
  set (t := txb_tail (priv n)) in *. intros Hk.
  rewrite <- Z.add_mod_idemp_l, u32_mod_divide, Z.add_mod_idemp_l by (done || lia).
  rewrite nibble_rotate by (done || apply Z.mod_pos_bound; lia).
  replace (t + 1 + k) with (t + k + 1) by lia. rewrite <- mod_pred by lia. by apply Hinv.
Qed.

Lemma prio_inv_run k n tr n' :
  tx_run k n tr n' → ring_wf n → ring_pow2 n → prio_inv n → prio_inv n' ∧ ring_pow2 n' ∧ ring_wf n'.
Proof.
  induction 1 as [|k n e tr n' He Hr IH|k n evs n1 tr n' Hu Hf Hr IH]; intros Hwf Hp Hinv;
    [done|by apply IH|].
  pose proof (prio_inv_advance _ Hwf Hp Hinv) as Ha. pose proof (tx_finish_priv _ _ _ Hf) as Hf1.
  apply IH; [by eapply tx_finish_wf|unfold ring_pow2; by rewrite Hf1|].
  unfold prio_inv. by rewrite Hf1.
Qed.

Lemma tx_run_ring k n tr n' :
  tx_run k n tr n' → ring_wf n → txb_head (priv n') = txb_head (priv n) ∧
    txb_tail (priv n') = u32 (txb_tail (priv n) + Z.of_nat k).
Proof.
  induction 1 as [|k n e tr n' He Hr IH|k n evs n1 tr n' Hu Hf Hr IH]; intros Hwf; [|by apply IH|].
  - rewrite Z.add_0_r, u32_small by apply Hwf. done.
  - destruct IH as [-> ->]; [by eapply tx_finish_wf|]. rewrite (tx_finish_priv _ _ _ Hf). simpl.
    split; [done|]. unfold u32. rewrite Z.add_mod_idemp_l by done. f_equal. lia.
Qed.

(** ** Accounting *)

Definition tx_done (n : net_device) : Z := tx_packets (stats n) + tx_dropped (stats n).

Lemma tx_run_account k n tr n' :
  tx_run k n tr n' → u64 (tx_done n') = u64 (tx_done n + Z.of_nat k).
Proof.
  induction 1 as [|k n e tr n' He Hr IH|k n evs n1 tr n' Hu Hf Hr IH];
    [by rewrite Z.add_0_r|done|].
  assert (E : u64 (tx_done n1) = u64 (tx_done n + 1)).
  { destruct Hf; unfold tx_done, advance, count_ok, count_drop, upd_stats; simpl; unfold incr64, u64.
    - rewrite Z.add_mod_idemp_l by done. f_equal. lia.
    - rewrite Z.add_mod_idemp_r by done. f_equal. lia. }
  rewrite IH. unfold u64 in *. rewrite Z.add_mod, E, <- Z.add_mod by done. f_equal. lia.
Qed.

(** ** Start of a transmission: the abstract step *)

Definition txnf (v : Z) : bool := nz (FIELD_GET REG_STATUS_TXNF v).

(** The head moves on. *)
Definition enqueue (n : net_device) : net_device :=
  upd_priv (λ p, set_txb_head (u32 (txb_head p + 1)) p) n.

(** The four outcomes of [ctucan_start_xmit], with their events. *)
Inductive xmit (n : net_device) (skb : sk_buff) : list event → net_device → netdev_tx → Prop :=
  | xmit_dropped d :
      d ≠ 0 → xmit n skb [EvCall (can_dev_dropped_skb skb) d] n NETDEV_TX_OK
  | xmit_busy v msg r1 r2 :
      txnf v = false →
      xmit n skb [EvCall (can_dev_dropped_skb skb) 0; EvLoad (reg_at n CTUCANFD_STATUS) v;
                  EvCall netif_stop_queue r1; EvCall (netdev_msg msg) r2] n NETDEV_TX_BUSY
  | xmit_refused v w msg r1 r2 :
      txnf v = true → txtb_writable w (head_buf n) && (len (skb_cf skb) <=? 64) = false →
      xmit n skb [EvCall (can_dev_dropped_skb skb) 0; EvLoad (reg_at n CTUCANFD_STATUS) v;
                  EvLoad (reg_at n CTUCANFD_TX_STATUS) w;
                  EvCall (netdev_msg msg) r1; EvCall (kfree_skb skb) r2]
        (count_drop n) NETDEV_TX_OK
  | xmit_sent v w v' r1 r2 stop r3 :
      txnf v = true → txtb_writable w (head_buf n) = true → len (skb_cf skb) <= 64 →
      stop = [] ∧ txnf v' = true ∨ (∃ r, stop = [EvCall netif_stop_queue r]) ∧ txnf v' = false →
      xmit n skb ([EvCall (can_dev_dropped_skb skb) 0; EvLoad (reg_at n CTUCANFD_STATUS) v;
                   EvLoad (reg_at n CTUCANFD_TX_STATUS) w] ++
                  frame_image n (skb_cf skb) (head_buf n) (skb_canfd skb) ++
                  [EvCall (can_put_echo_skb skb (head_buf n)) r1; EvCall spin_lock_irqsave r2;
                   EvStore (reg_at n CTUCANFD_TX_COMMAND)
                     (Z.lor TXT_CMD_SET_READY (BIT (head_buf n + 8)));
                   EvLoad (reg_at n CTUCANFD_STATUS) v'] ++ stop ++
                  [EvCall spin_unlock_irqrestore r3])
        (enqueue n) NETDEV_TX_OK.

Lemma head_buf_range n : ring_wf n → 0 <= head_buf n < ntxbufs (priv n).
Proof. intros []. apply Z.mod_pos_bound. lia. Qed.

Lemma xmit_wf n skb tr n' r : xmit n skb tr n' r → ring_wf n → ring_wf n'.
Proof. intros [] []; constructor; simpl; try done. apply u32_range. Qed.

Lemma lock_disc_silent n h tr :
  (∀ e, e ∈ tr → match e with
     | EvStore a _ => a ≠ reg_at n CTUCANFD_TX_COMMAND ∧ a ≠ reg_at n CTUCANFD_TX_PRIORITY
     | EvCall (spin_lock_irqsave | spin_unlock_irqrestore) _ => False
     | _ => True end) →
  lock_disc n h tr = Some h.
Proof.
  induction tr as [|e tr IH]; intros He; [done|]. simpl.
  assert (Htr : lock_disc n h tr = Some h) by (apply IH; intros; apply He; set_solver).
  specialize (He e ltac:(set_solver)). destruct e as [|a v|[]|]; try done.
  by replace ((a =? _) || (a =? _)) with false by lia.
Qed.

Lemma frame_image_lock n cf buf isfdf h :
  0 <= buf → lock_disc n h (frame_image n cf buf isfdf) = Some h.
Proof.
  intros Hb. apply lock_disc_silent. intros e He.
  assert (Hs : ∃ off v, e = EvStore (txtb_at n buf off) v ∧ 0 <= off).
  { unfold frame_image in He. rewrite !elem_of_cons in He. destruct He as [->|[->|He]].
    1, 2: eexists _, _; split; [done|]; done.
    case_match; [by apply elem_of_nil in He|].
    apply list_elem_of_fmap in He as (j & -> & Hj). apply elem_of_seqZ in Hj.
    eexists _, _. split; [done|]. unfold CTUCANFD_DATA_1_4_W. lia. }
  destruct Hs as (off & v & -> & ?). unfold txtb_at.
  split; unfold reg_at, CTUCANFD_TX_COMMAND, CTUCANFD_TX_PRIORITY; lia.
Qed.

Lemma xmit_lock n skb tr n' ret :
  ring_wf n → xmit n skb tr n' ret → lock_disc n false tr = Some false.
Proof.
  intros Hwf. pose proof (head_buf_range _ Hwf).
  intros [| | |v w v' r1 r2 stop r3 ? ? ? Hstop]; try done.
  cbn [app lock_disc]. rewrite lock_disc_app, frame_image_lock by lia.
  cbn [mbind option_bind app lock_disc]. rewrite andb_false_r.
  by destruct Hstop as [[-> _]|[[? ->] _]].
Qed.

Section TxProofs.
Context {W : Type} `{World W}.
Implicit Types (s : st net_device W).

Lemma get_tx_status_wp buf s :
  le_dev (drv s) → 0 <= buf < 8 →
  wp (ctucan_get_tx_status buf) s (λ r s', drv s' = drv s ∧ ∃ v, r = txtb_status v buf ∧ is_u32 v ∧
    trace s' = trace s ++ [EvLoad (reg_at (drv s) CTUCANFD_TX_STATUS) v]).
Proof.
  intros Hle Hb. unfold ctucan_get_tx_status. bsteps. apply wp_shr32; [lia|]. bsteps.
  split; [done|]. eexists. split_and!; [done|apply u32_range|done].
Qed.

Lemma insert_data_wp fuel cf buf k s :
  le_dev (drv s) → frame_wf cf → len cf <= CANFD_MAX_DLEN →
  0 <= k → nwords (len cf) <= k + Z.of_nat fuel →
  wp (insert_data fuel cf ((buf + 1) * 0x100) (4 * k)) s (λ _ s', drv s' = drv s ∧
    trace s' = trace s ++
      ((λ j, EvStore (txtb_at (drv s) buf (CTUCANFD_DATA_1_4_W + 4 * j)) (data_word cf j)) <$>
         seqZ k (nwords (len cf) - k))).
Proof.
  intros Hle Hwf Hl. pose proof (nwords_bounds (len cf)) as Hnw.
  revert k s Hle. induction fuel as [|fuel IH]; intros k s Hle Hk Hf; cbn [insert_data];
    (destruct (Z.ltb_spec (4 * k) (len cf)) as [Hlt|Hge]; [|
      bsteps; split; [done|]; rewrite seqZ_nil by lia;
      csimpl; by rewrite app_nil_r]).
  { lia. }
  destruct (load_le32_ok (data cf) k) as (w & Ew & Hw); [apply Hwf|done| |].
  { pose proof (fw_fits cf Hwf Hl). lia. }
  bstep. eapply wp_some_or; [exact Ew|]. unfold ctucan_write_txt_buf. bsteps.
  replace (4 * k + 4) with (4 * (k + 1)) by lia.
  eapply wp_mono; [apply IH; [by_le|lia|lia]|].
  intros [] s' [Hd Ht]. split; [done|]. cbn [drv trace] in *.
  rewrite Ht, <- app_assoc, (seqZ_cons k) by lia. csimpl.
  unfold data_word at 2. rewrite Ew. csimpl. rewrite u32_small by done.
  unfold txtb_at. replace (nwords (len cf) - Z.succ k) with (Z.pred (nwords (len cf) - k)) by lia.
  replace (nwords (len cf) - (k + 1)) with (Z.pred (nwords (len cf) - k)) by lia.
  by rewrite Z.add_1_r.
Qed.

(** The outcomes of an insertion. *)
Definition insert_post cf buf isfdf s (ok : bool) (s' : st net_device W) : Prop :=
  drv s' = drv s ∧
  ∃ tr, trace s' = trace s ++ tr ∧
  ((ntxbufs (priv (drv s)) <= buf ∧ ok = false ∧ tr = []) ∨
   (buf < ntxbufs (priv (drv s)) ∧ ∃ v, is_u32 v ∧
      ok = txtb_writable v buf && (len cf <=? 64) ∧
      tr = EvLoad (reg_at (drv s) CTUCANFD_TX_STATUS) v ::
             (if ok then frame_image (drv s) cf buf isfdf else []))).

Lemma insert_frame_wp cf buf isfdf s :
  le_dev (drv s) → 0 <= buf → ntxbufs (priv (drv s)) <= 8 → frame_wf cf →
  wp (ctucan_insert_frame cf buf isfdf) s (insert_post cf buf isfdf s).
Proof.
  intros Hle Hb Hn Hwf. unfold ctucan_insert_frame, insert_post. bsteps.
  destruct (Z.leb_spec (ntxbufs (priv (drv s))) buf).
  { bsteps. split; [done|]. exists []. rewrite app_nil_r. split; [done|]. by left. }
  unfold ctucan_is_txt_buf_writable. bsteps.
  eapply wp_mono; [apply get_tx_status_wp; [by_le|lia]|].
  intros st s1 (Hd & v & -> & Hv & Ht). bsteps.
  change (negb ((txtb_status v buf =? TXT_RDY) || _ || _)) with (txtb_writable v buf).
  destruct (txtb_writable v buf) eqn:Ew; simpl.
  2: { bsteps. split; [done|]. eexists. split; [exact Ht|]. right. split; [done|]. exists v. by rewrite Ew. }
  destruct (Z.ltb_spec CANFD_MAX_DLEN (len cf)) as [Hl|Hl]; unfold CANFD_MAX_DLEN in Hl.
  { bsteps. split; [done|]. eexists. split; [exact Ht|]. right. split; [done|]. exists v.
    rewrite Ew. by replace (len cf <=? 64) with false by lia. }
  unfold ctucan_write_txt_buf. assert (Hle1 : le_dev (drv s1)) by by rewrite Hd.
  replace (len cf <=? 64) with true by lia. pose proof (nwords_bounds (len cf)).
  pose proof (frame_ffw_u32 cf isfdf). pose proof (frame_idw_u32 cf).
  bsteps; unfold frame_image.
  - eapply wp_mono; [apply (insert_data_wp 16 cf buf 0); [by_le|done|done|lia|lia]|].
    intros [] s2 [Hd2 Ht2]. bsteps. cbn [drv trace] in *. rewrite Hd2, Hd, Ht2, Ht. tr_norm.
    split; [done|]. eexists. split; [done|]. right. split; [done|]. exists v. rewrite Ew.
    split_and!; [done..|]. rewrite Hd, !u32_small, Z.sub_0_r by done.
    by destruct (nz _).
  - rewrite Hd, Ht. tr_norm. split; [done|]. eexists. split; [done|]. right. split; [done|].
    exists v. rewrite Ew. split_and!; [done..|]. rewrite !u32_small by done. by destruct (nz _).
Qed.

(** C18: [ctucan_insert_frame], in every world and without undefined behaviour.
    An index outside of the implemented buffers is refused without any access; otherwise
    TX_STATUS is read once, the frame is refused with nothing written when the
    buffer is ready, in transmission or being aborted or when the length exceeds 64,
    and else exactly the words of [frame_image] are written, in order, inside of
    the memory of the buffer. *)
Theorem ctucan_insert_frame_spec cf buf isfdf s :
  le_dev (drv s) → 0 <= buf → ntxbufs (priv (drv s)) <= 8 → frame_wf cf →
  wp (ctucan_insert_frame cf buf isfdf) s (insert_post cf buf isfdf s).
Proof. apply insert_frame_wp. Qed.


(** *** Completion *)

Lemma give_cmd_wp cmd buf s :
  le_dev (drv s) → 0 <= buf < 24 → is_u32 cmd →
  wp (ctucan_give_txtb_cmd cmd buf) s (λ _ s', drv s' = drv s ∧
    trace s' = trace s ++ [EvStore (reg_at (drv s) CTUCANFD_TX_COMMAND) (Z.lor cmd (BIT (buf + 8)))]).
Proof.
  intros Hle Hb Hc. unfold ctucan_give_txtb_cmd. bsteps. apply wp_bit32; [lia|]. bsteps.
  split; [done|]. rewrite u32_small; [done|]. apply lor_u32; [done|].
  unfold is_u32, BIT. rewrite Z.shiftl_1_l. split; [lia|]. by apply Z.pow_lt_mono_r; lia.
Qed.

Lemma rotate_wp s :
  le_dev (drv s) → ring_wf (drv s) →
  let prio := rotate_prio (ntxbufs (priv (drv s))) (txb_prio (priv (drv s))) in
  wp ctucan_rotate_txb_prio s (λ _ s',
    drv s' = upd_priv (set_txb_prio prio) (drv s) ∧
    trace s' = trace s ++ [EvStore (reg_at (drv s) CTUCANFD_TX_PRIORITY) prio]).
Proof.
  intros Hle [Hn _ _ _]. simpl. unfold ctucan_rotate_txb_prio. bsteps.
  set (n := ntxbufs _) in *. rewrite (u32_small (n - 1)), (u32_small ((n - 1) * 4)) by
    (unfold is_u32; lia).
  apply wp_shr32; [lia|]. bsteps. rewrite u32_idemp. done.
Qed.

(** The statuses of a finished buffer. *)
Definition tx_finished (st : Z) : bool := (st =? TXT_TOK) || (st =? TXT_ERR) || (st =? TXT_ABT).

Lemma tx_switch_wp v s :
  let b := tail_buf (drv s) in
  let st := txtb_status v b in
  wp (tx_switch b st) s (λ fin s', fin = tx_finished st ∧ priv (drv s') = priv (drv s) ∧
    if fin then ∃ evs, trace s' = trace s ++ evs ∧
      tx_finish (drv s) (EvLoad (reg_at (drv s) CTUCANFD_TX_STATUS) v :: evs ++ release (drv s))
        (advance (drv s'))
    else s' = s).
Proof.
  intros b st. unfold tx_finished, tx_switch, st.
  destruct (Z.eqb_spec (txtb_status v b) TXT_TOK); [|destruct (Z.eqb_spec (txtb_status v b) TXT_ERR);
    [|destruct (Z.eqb_spec (txtb_status v b) TXT_ABT)]]; bsteps; (split; [done|]); (split; [done|]).
  4: done.
  all: tr_norm; eexists; (split; [reflexivity|]).
  - by apply fin_ok.
  - apply fin_drop. by left.
  - apply fin_drop. by right.
Qed.

Lemma tx_release_wp n s :
  le_dev (drv s) → ring_wf (drv s) → priv (drv s) = priv n →
  wp (tx_release (tail_buf n)) s (λ _ s', drv s' = advance (drv s) ∧ trace s' = trace s ++ release n).
Proof.
  intros Hle Hwf Hp. unfold tx_release. bsteps.
  assert (Hb : tail_buf (drv s) = tail_buf n) by (unfold tail_buf; by rewrite Hp).
  pose proof (tail_buf_range _ Hwf). pose proof (rw_n _ Hwf).
  eapply wp_mono; [apply rotate_wp; [by_le|]|].
  { destruct Hwf. constructor; simpl; [done..|apply u32_range|done]. }
  intros [] s2 [Hd2 Ht2]. cbn [drv trace] in *. rewrite u8_small by lia.
  eapply wp_mono; [apply give_cmd_wp; [by rewrite Hd2|lia|by_compute]|].
  intros [] s3 [Hd3 Ht3]. rewrite Hd3, Hd2, Ht3, Ht2, Hd2. split; [done|].
  rewrite <- app_assoc. unfold release, reg_at. simpl. by rewrite Hp.
Qed.

(** How the [while] loop leaves: [k] buffers were completed and the loop
    stopped at an unfinished buffer or at the end of the ring. *)
Definition while_post (first some : bool) s (r : option (bool * bool)) s' : Prop :=
  ∃ k tr1 tr2, tx_run k (drv s) tr1 (drv s') ∧ trace s' = trace s ++ tr1 ++ tr2 ∧
    ring_wf (drv s') ∧ le_dev (drv s') ∧ Forall (tx_silent (drv s')) tr2 ∧
    lock_disc (drv s) true tr1 = Some true ∧ mem_base (priv (drv s')) = mem_base (priv (drv s)) ∧
    ring_used (drv s') = ring_used (drv s) - Z.of_nat k ∧
    match r with
    | Some (f, p) => f = first && (k =? 0)%nat ∧ p = some || negb (k =? 0)%nat ∧
        lock_disc (drv s) true tr2 = Some true ∧
        (ring_used (drv s') <= 0 ∨
         ∃ v, tr2 = [EvLoad (reg_at (drv s') CTUCANFD_TX_STATUS) v] ∧
           tx_finished (txtb_status v (tail_buf (drv s'))) = false)
    | None => k = 0%nat ∧ first = true ∧ lock_disc (drv s) true tr2 = Some false ∧
        ∃ v tr3, tr2 = EvLoad (reg_at (drv s') CTUCANFD_TX_STATUS) v :: tr3 ∧
           tx_finished (txtb_status v (tail_buf (drv s'))) = false
    end.

Lemma while_post_cons first some s s1 evs r s' :
  0 < ring_used (drv s) → tx_finish (drv s) evs (drv s1) → trace s1 = trace s ++ evs →
  while_post false true s1 r s' → while_post first some s r s'.
Proof.
  intros Hu Hfin Ht1 (k & tr1 & tr2 & Hrun & Ht & Hwf' & Hle' & Hsil & Hl1 & Hb' & Hu' & Hr).
  exists (S k), (evs ++ tr1), tr2.
  assert (Hmb : mem_base (priv (drv s1)) = mem_base (priv (drv s)))
    by by rewrite (tx_finish_priv _ _ _ Hfin).
  split_and!; try done.
  - by apply (run_finish k _ _ (drv s1)).
  - rewrite Ht, Ht1. by rewrite <- !app_assoc.
  - rewrite lock_disc_app, (tx_finish_lock _ _ _ Hfin). simpl.
    by rewrite <- Hl1; apply lock_disc_base.
  - congruence.
  - rewrite Hu', (tx_finish_used _ _ _ Hfin) by done. lia.
  - rewrite (lock_disc_base (drv s) (drv s1)) by done.
    destruct r as [[f p]|]; [|by destruct Hr as (_ & ? & _)].
    destruct Hr as (-> & -> & Hr). by rewrite andb_false_r, orb_true_r.
Qed.

Lemma tx_while_wp fuel first some s :
  le_dev (drv s) → ring_wf (drv s) → ring_used (drv s) < Z.of_nat fuel ∨ ring_used (drv s) <= 0 →
  wp (tx_while fuel first some) s (while_post first some s).
Proof.
  revert first some s. induction fuel as [|fuel IH]; intros first some s Hle Hwf Hf;
    cbn [tx_while]; bsteps; fold (ring_used (drv s));
    destruct (Z.ltb_spec 0 (ring_used (drv s))) as [Hu|Hu].
  1: lia.
  1, 3: bsteps; exists 0%nat, [], []; rewrite app_nil_r, Z.sub_0_r, andb_true_r, orb_false_r;
    split_and!; try done; [apply run_nil|by left].
  pose proof (tail_buf_range _ Hwf) as Hb. pose proof (rw_n _ Hwf) as Hn.
  bsteps. apply wp_umod; [lia|]. fold (tail_buf (drv s)).
  rewrite u8_small by lia. bsteps. eapply wp_mono; [apply get_tx_status_wp; [done|lia]|].
  intros st s1 (Hd1 & v & -> & Hv & Ht1). rewrite <- Hd1. bsteps.
  eapply wp_mono; [apply tx_switch_wp|]. intros fin s2 (-> & Hp2 & Hc). rewrite Hd1 in *.
  destruct (tx_finished (txtb_status v (tail_buf (drv s)))) eqn:Efin.
  - destruct Hc as (evs & Ht2 & Hfin). bsteps.
    assert (Hle2 : le_dev (drv s2)) by (unfold le_dev; by rewrite Hp2).
    assert (Hwf2 : ring_wf (drv s2)) by (destruct Hwf; constructor; by rewrite Hp2).
    eapply wp_mono; [by apply tx_release_wp|].
    intros [] s3 [Hd3 Ht3]. rewrite <- Hd3 in Hfin.
    eapply wp_mono; [apply IH|].
    { by eapply tx_finish_le. }
    { by eapply tx_finish_wf. }
    { erewrite tx_finish_used by done. lia. }
    intros r s'. eapply while_post_cons; [done|exact Hfin|].
    rewrite Ht3, Ht2, Ht1. by tr_norm.
  - subst s2. destruct first; bsteps.
    + exists 0%nat, [], [EvLoad (reg_at (drv s) CTUCANFD_TX_STATUS) v;
        EvCall (netdev_msg "BUG: TXB not in a finished state!\n") r; EvCall spin_unlock_irqrestore r0].
      rewrite Ht1, Hd1, Z.sub_0_r. split_and!; try done; [apply run_nil|by rewrite <- !app_assoc| |].
      * repeat constructor.
      * by eexists _, _.
    + exists 0%nat, [], [EvLoad (reg_at (drv s) CTUCANFD_TX_STATUS) v].
      rewrite Ht1, Hd1, Z.sub_0_r, orb_false_r. split_and!; try done; [apply run_nil| |].
      * by repeat constructor; left.
      * right. by exists v.
Qed.

(** The oldest buffer was seen unfinished. *)
Definition tail_seen_busy (n : net_device) (tr : list event) : Prop :=
  ∃ v, EvLoad (reg_at n CTUCANFD_TX_STATUS) v ∈ tr ∧
    tx_finished (txtb_status v (tail_buf n)) = false.

(** What a sequence of rounds does: [cont] is [false] for the early return. *)
Definition rounds_post s (cont : bool) s' : Prop :=
  ∃ k tr, trace s' = trace s ++ tr ∧ tx_run k (drv s) tr (drv s') ∧
    lock_disc (drv s) false tr = Some false ∧
    ring_used (drv s') = ring_used (drv s) - Z.of_nat k ∧
    ring_wf (drv s') ∧ le_dev (drv s') ∧ mem_base (priv (drv s')) = mem_base (priv (drv s)) ∧
    (ring_used (drv s') <= 0 ∨ tail_seen_busy (drv s') tr) ∧
    (cont = false → tail_seen_busy (drv s') tr).

(** A round that completed [k] buffers, followed by further rounds. *)
Lemma rounds_post_cons k tr1 s s1 cont s' :
  tx_run k (drv s) tr1 (drv s1) → trace s1 = trace s ++ tr1 →
  lock_disc (drv s) false tr1 = Some false → mem_base (priv (drv s1)) = mem_base (priv (drv s)) →
  ring_used (drv s1) = ring_used (drv s) - Z.of_nat k →
  rounds_post s1 cont s' → rounds_post s cont s'.
Proof.
  intros Hrun1 Ht1 Hl1 Hb1 Hu1 (k' & tr & Ht & Hrun & Hl & Hu & Hwf & Hle & Hb & Hstop & Hc).
  assert (Hin : tail_seen_busy (drv s') tr → tail_seen_busy (drv s') (tr1 ++ tr)).
  { intros (v & Hv & ?). exists v. split; [|done]. by apply elem_of_app; right. }
  exists (k + k')%nat, (tr1 ++ tr). split_and!; try done.
  - by rewrite Ht, Ht1, app_assoc.
  - by eapply tx_run_app.
  - rewrite lock_disc_app, Hl1. simpl. by rewrite (lock_disc_base (drv s) (drv s1)).
  - lia.
  - congruence.
  - naive_solver.
  - auto.
Qed.

Lemma reg_eqb n r r' : (reg_at n r =? reg_at n r') = (r =? r').
Proof. unfold reg_at. lia. Qed.

Lemma tx_do_while_wp fuel first s :
  le_dev (drv s) → ring_wf (drv s) → ring_used (drv s) < Z.of_nat fuel → (0 < fuel)%nat →
  wp (tx_do_while fuel first) s (rounds_post s).
Proof.
  revert first s. induction fuel as [|fuel IH]; intros first s Hle Hwf Hf Hpos; [lia|].
  cbn [tx_do_while]. bstep. bstep. bstep.
  eapply wp_mono; [apply tx_while_wp; [by_le|done|by left]|].
  intros r1 s1 (k & tr1 & tr2 & Hrun & Ht & Hwf1 & Hle1 & Hsil & Hl1 & Hb & Hu & Hr).
  cbn [drv trace] in *.
  assert (Hrun' : ∀ r e, Forall (tx_silent (drv s1)) e →
    tx_run k (drv s) (EvCall spin_lock_irqsave r :: tr1 ++ tr2 ++ e) (drv s1)).
  { intros r' e He. apply run_silent; [done|]. rewrite <- (Nat.add_0_r k).
    eapply tx_run_app; [done|]. by apply tx_run_silent, Forall_app. }
  destruct r1 as [[f p]|].
  - destruct Hr as (Hf1 & Hp1 & Hl2 & Hstop). bsteps. rewrite Hp1. simpl.
    destruct (Nat.eqb_spec k 0) as [->|Hk]; simpl; bsteps.
    + eexists 0%nat, _. rewrite Ht. tr_norm. split; [done|].
      split_and!; try done.
      * apply Hrun'. by repeat constructor.
      * simpl. rewrite lock_disc_app, Hl1. simpl. by rewrite lock_disc_app, Hl2.
      * destruct Hstop as [?|(v & -> & ?)]; [by left|right]. exists v. split; [|done]. set_solver.
    + eapply wp_mono; [apply IH; [by_le|done|cbn [drv]; lia|]|].
      { destruct (tx_run_used _ _ _ _ Hrun). lia. }
      intros cont s'. eapply (rounds_post_cons k _ s); cbn [drv trace].
      * apply (Hrun' r [EvCall spin_unlock_irqrestore r0;
          EvStore (reg_at (drv s1) CTUCANFD_INT_STAT) (u32 REG_INT_STAT_TXBHCI)]).
        by repeat constructor.
      * rewrite Ht. by tr_norm.
      * simpl. rewrite lock_disc_app, Hl1. simpl. rewrite lock_disc_app, Hl2. simpl.
        replace (reg_at (drv s1) CTUCANFD_INT_STAT) with (reg_at (drv s) CTUCANFD_INT_STAT)
          by (unfold reg_at; congruence).
        by rewrite !reg_eqb.
      * done.
      * done.
  - destruct Hr as (-> & _ & Hl2 & v & tr3 & -> & Hv). bsteps. exists 0%nat.
    eexists. rewrite Ht. tr_norm. split; [done|].
    assert (Hbusy : tail_seen_busy (drv s1) (EvCall spin_lock_irqsave r ::
      tr1 ++ EvLoad (reg_at (drv s1) CTUCANFD_TX_STATUS) v :: tr3)) by (exists v; set_solver).
    split_and!; try done.
    + rewrite <- (app_nil_r tr3). by apply (Hrun' r []).
    + simpl. by rewrite lock_disc_app, Hl1.
    + by right.
Qed.

(** Events that concern no buffer may follow. *)
Lemma rounds_post_snoc tr2 cont s s1 s' :
  rounds_post s cont s1 → drv s' = drv s1 → trace s' = trace s1 ++ tr2 →
  Forall (tx_silent (drv s1)) tr2 → lock_disc (drv s) false tr2 = Some false →
  rounds_post s true s'.
Proof.
  intros (k & tr & Ht & Hrun & Hl & Hu & Hwf & Hle & Hb & Hstop & Hc) Hd Ht' Hsil Hl'.
  exists k, (tr ++ tr2). rewrite Hd. split_and!; try done.
  - by rewrite Ht', Ht, app_assoc.
  - rewrite <- (Nat.add_0_r k). eapply tx_run_app; [done|]. by apply tx_run_silent.
  - by rewrite lock_disc_app, Hl.
  - destruct Hstop as [?|(v & Hv & ?)]; [by left|right]. exists v. split; [|done]. set_solver.
Qed.

Lemma tx_interrupt_wp s :
  le_dev (drv s) → ring_wf (drv s) → wp ctucan_tx_interrupt s (λ _, rounds_post s true).
Proof.
  intros Hle Hwf. unfold ctucan_tx_interrupt. bsteps.
  eapply wp_mono; [apply tx_do_while_wp; [done|done| |]|].
  { unfold tx_fuel, ring_used. lia. }
  { unfold tx_fuel. lia. }
  intros cont s1 Hp. assert (Hle1 : le_dev (drv s1)) by by destruct Hp as (? & ? & Hp); apply Hp.
  destruct cont; simpl; bsteps.
  3: { eapply (rounds_post_snoc []); [done|done|by rewrite app_nil_r|done|done]. }
  all: eapply rounds_post_snoc; [exact Hp|done|cbn [trace]; rewrite <- !app_assoc; reflexivity| |done].
  all: repeat (apply Forall_cons_2; [simpl; by auto|]); by apply Forall_nil_2.
Qed.

(** C13: [ctucan_tx_interrupt] terminates in every world without undefined
    behaviour.  Its events complete the oldest buffers of the ring one after
    the other as [tx_run] describes (the echo is delivered or freed by the
    status read, the priorities are rotated before the buffer is set empty),
    never more than are in use; the lock is taken and released alternately, is held
    for every write of the priorities and commands and is free at the end;
    and the handler stops only when the ring is empty or the oldest buffer
    was read as unfinished. *)
Theorem ctucan_tx_interrupt_spec s :
  le_dev (drv s) → ring_wf (drv s) →
  wp ctucan_tx_interrupt s (λ _ s', ∃ k tr, trace s' = trace s ++ tr ∧
    tx_run k (drv s) tr (drv s') ∧ Z.of_nat k <= Z.max 0 (ring_used (drv s)) ∧
    lock_disc (drv s) false tr = Some false ∧
    (ring_used (drv s') <= 0 ∨ tail_seen_busy (drv s') tr)).
Proof.
  intros Hle Hwf. eapply wp_mono; [by apply tx_interrupt_wp|].
  intros [] s' (k & tr & Ht & Hrun & Hl & Hu & Hwf1 & Hle1 & Hb & Hstop & Hc).
  exists k, tr. split_and!; try done. destruct (tx_run_used _ _ _ _ Hrun). lia.
Qed.

Lemma start_xmit_wp skb s :
  le_dev (drv s) → ring_wf (drv s) → frame_wf (skb_cf skb) →
  wp (ctucan_start_xmit skb) s (λ r s', ∃ tr, trace s' = trace s ++ tr ∧
    xmit (drv s) skb tr (drv s') r).
Proof.
  intros Hle Hwf Hcf. unfold ctucan_start_xmit. bsteps.
  destruct (nz r) eqn:Er.
  { bsteps. eexists. split; [done|]. by apply xmit_dropped, nz_true. }
  apply nz_false in Er as ->. bsteps. destruct (negb _) eqn:Ev.
  { bsteps. rewrite <- !app_assoc. eexists. split; [done|]. apply xmit_busy. by apply negb_true_iff. }
  pose proof (head_buf_range _ Hwf) as Hb. pose proof (rw_n _ Hwf). apply negb_false_iff in Ev.
  bsteps. apply wp_umod; [lia|]. fold (head_buf (drv s)). rewrite u8_small by lia. bsteps.
  eapply wp_mono; [apply insert_frame_wp; [by_le|lia|simpl; lia|done]|].
  intros ok s1 (Hd1 & tr & Ht1 & [[? _]|(_ & w & Hw & -> & ->)]); cbn [drv trace] in *; [lia|].
  rewrite <- !app_assoc in Ht1. cbn [app] in Ht1.
  destruct (txtb_writable w (head_buf (drv s)) && (len (skb_cf skb) <=? 64)) eqn:Eok; simpl.
  2: { bsteps. rewrite Ht1, Hd1. tr_norm. eexists. split; [done|]. by apply xmit_refused. }
  apply andb_true_iff in Eok as [Ew El].
  assert (Hle1 : le_dev (drv s1)) by by rewrite Hd1. bsteps.
  eapply wp_mono; [apply give_cmd_wp; [by_le|lia|by_compute]|].
  intros [] s2 [Hd2 Ht2]. cbn [drv trace] in *. assert (Hle2 : le_dev (drv s2)) by by rewrite Hd2.
  apply Z.leb_le in El.
  bsteps; rewrite Ht2, Ht1, Hd2, Hd1; tr_norm.
  - eexists. split; [done|].
    refine (xmit_sent (drv s) skb (u32 v) w (u32 v0) r r0 [EvCall netif_stop_queue r1] r2 _ _ _ _);
      [done..|]. right. split; [by eexists|]. by apply negb_true_iff.
  - eexists. split; [done|].
    refine (xmit_sent (drv s) skb (u32 v) w (u32 v0) r r0 [] r1 _ _ _ _);
      [done..|]. left. split; [done|]. by apply negb_false_iff.
Qed.

(** C17: [ctucan_start_xmit], in every world and without undefined behaviour,
    has one of the four outcomes of [xmit]: the network layer dropped the frame; no
    buffer is free (the queue is stopped and BUSY returned); the insertion
    was refused (the frame is freed and counted as dropped); or the frame is
    written to buffer [head mod ntxbufs], its echo is stored for the same index,
    the buffer is then set ready, the head moves by one and the queue is
    stopped exactly if no buffer is free any more.  The lock is released on every path and
    held for the command, and the bounds of the ring are kept. *)
Theorem ctucan_start_xmit_spec skb s :
  le_dev (drv s) → ring_wf (drv s) → frame_wf (skb_cf skb) →
  wp (ctucan_start_xmit skb) s (λ r s', ring_wf (drv s') ∧ ∃ tr, trace s' = trace s ++ tr ∧
    xmit (drv s) skb tr (drv s') r ∧ lock_disc (drv s) false tr = Some false).
Proof.
  intros Hle Hwf Hcf. eapply wp_mono; [by apply start_xmit_wp|].
  intros r s' (tr & Ht & Hx). split; [by eapply xmit_wf|]. exists tr. split_and!; [done|done|].
  by eapply xmit_lock.
Qed.

(** C16: [ctucan_tx_interrupt] keeps the order of priorities: when the [k]-th
    oldest buffer has priority [7 - k] before, it has so after, whatever number of
    buffers was completed.  Every completed buffer is counted exactly once, as
    sent or as dropped, and the head is not moved. *)
Theorem ctucan_tx_interrupt_order s :
  le_dev (drv s) → ring_wf (drv s) → ring_pow2 (drv s) → prio_inv (drv s) →
  wp ctucan_tx_interrupt s (λ _ s', prio_inv (drv s') ∧
    txb_head (priv (drv s')) = txb_head (priv (drv s)) ∧
    ∃ k, 0 <= k <= Z.max 0 (ring_used (drv s)) ∧
      txb_tail (priv (drv s')) = u32 (txb_tail (priv (drv s)) + k) ∧
      u64 (tx_done (drv s')) = u64 (tx_done (drv s) + k)).
Proof.
  intros Hle Hwf Hp Hi. eapply wp_mono; [by apply tx_interrupt_wp|].
  intros [] s' (k & tr & _ & Hrun & _ & Hu & _).
  destruct (prio_inv_run _ _ _ _ Hrun Hwf Hp Hi) as (? & _ & _).
  destruct (tx_run_ring _ _ _ _ Hrun Hwf) as [Hh Ht]. destruct (tx_run_used _ _ _ _ Hrun).
  split_and!; [done|done|]. exists (Z.of_nat k). split_and!; [lia|lia|done|].
  by apply (tx_run_account _ _ tr).
Qed.

End TxProofs.

(** ** Concrete runs *)

Lemma sample_frame_wf : frame_wf sample_cf.
Proof.
  constructor; try (by_compute || done).
  - unfold sample_cf. simpl. repeat (apply Forall_cons_2; [done|]). by apply Forall_nil_2.
Qed.

Lemma busy_ring_wf k : is_u32 k → ring_wf (busy_dev k).
Proof. intros Hk. by constructor. Qed.

Lemma busy_pow2 k : ring_pow2 (busy_dev k).
Proof. by exists (2 ^ 30). Qed.

Lemma busy_prio k : prio_inv (busy_dev k).
Proof.
  intros j Hj. change (0 <= j < 4) in Hj.
  assert (Hc : j = 0 ∨ j = 1 ∨ j = 2 ∨ j = 3) by lia.
  by destruct Hc as [->|[->|[->| ->]]].
Qed.

(** The sample frame goes to buffer 1 as five words. *)
Lemma ctucan_insert_frame_witness :
  wp (ctucan_insert_frame sample_cf 1 true) (sample_st [0x80]) (insert_post sample_cf 1 true (sample_st [0x80])) ∧
  stores (frame_image sample_dev sample_cf 1 true) =
    [(0x43C30200, 0x2C9); (0x43C30204, 0x12345678); (0x43C30210, 0x04030201);
     (0x43C30214, 0x08070605); (0x43C30218, 0x0C0B0A09)].
Proof.
  split; [|by vm_compute].
  apply (ctucan_insert_frame_spec sample_cf 1 true (sample_st [0x80])); [done|done|done|].
  exact sample_frame_wf.
Defined.

Lemma ctucan_start_xmit_witness :
  wp (ctucan_start_xmit sample_skb) (sample_st [0x4; 0x8888; 0x4]) (λ r s', ring_wf (drv s')).
Proof.
  eapply wp_mono.
  - exact (ctucan_start_xmit_spec sample_skb (sample_st [0x4; 0x8888; 0x4]) (conj eq_refl eq_refl)
      (busy_ring_wf 0 ltac:(done)) sample_frame_wf).
  - by intros r s' [? _].
Defined.

(** Buffer 0 was sent, buffer 1 reached the retransmit limit, buffer 2 is in transmission. *)
Lemma ctucan_tx_interrupt_witness :
  wp ctucan_tx_interrupt (busy_st 3 [0x8264; 0x8268; 0x8288]) (λ _ s',
    ∃ k, tx_run k (busy_dev 3) (trace s') (drv s') ∧ (k <= 3)%nat).
Proof.
  eapply wp_mono; [exact (ctucan_tx_interrupt_spec (busy_st 3 [0x8264; 0x8268; 0x8288])
    (conj eq_refl eq_refl) (busy_ring_wf 3 ltac:(done)))|].
  intros [] s' (k & tr & -> & Hrun & Hk & _). exists k. split; [done|].
  change (ring_used _) with 3 in Hk. lia.
Defined.

Example tx_interrupt_run :
  wp ctucan_tx_interrupt (busy_st 3 [0x8264; 0x8268; 0x8288]) (λ _ s',
    txb_tail (priv (drv s')) = 2 ∧ tx_packets (stats (drv s')) = 1 ∧
    tx_dropped (stats (drv s')) = 1 ∧ txb_prio (priv (drv s')) = 0x23456745).
Proof. by vm_compute. Qed.

Lemma ctucan_tx_interrupt_order_witness :
  wp ctucan_tx_interrupt (busy_st 3 [0x8264; 0x8268; 0x8288]) (λ _ s', prio_inv (drv s')).
Proof.
  eapply wp_mono; [exact (ctucan_tx_interrupt_order (busy_st 3 [0x8264; 0x8268; 0x8288])
    (conj eq_refl eq_refl) (busy_ring_wf 3 ltac:(done)) (busy_pow2 3) (busy_prio 3))|].
  by intros [] s' [? _].
Defined.
