(* ===== verification/RxFifo.v ===== *)
(** * The RX FIFO of the core, as the drivers see it

    The words of received frames as the core stores them (the word count of
    [src/src/rx_buffer/rx_buffer.vhd]), and the interface [RxDevice] between the core
    and a driver: reading RX_DATA takes the oldest word (0 when there is
    none), the frame count of RX_STATUS is 0 exactly when there is no word, and at
    any moment the core may append whole frames.  The reception
    theorems are proved against the interface; [fifo_world] implements it. *)

From Stdlib Require Import ZArith Lia.
From stdpp Require Import base numbers list strings.
From S2P Require Import Prelude LinuxDefs World Kregs Base Sim.

#[local] Open Scope Z_scope.

(** ** Frames in the FIFO *)

Definition ffw_dlc (ffw : Z) : Z := FIELD_GET REG_FRAME_FORMAT_W_DLC ffw.

Definition ffw_rwcnt (ffw : Z) : Z := FIELD_GET REG_FRAME_FORMAT_W_RWCNT ffw.

Definition ffw_fdf (ffw : Z) : bool := nz (FIELD_GET REG_FRAME_FORMAT_W_FDF ffw).

Definition ffw_rtr (ffw : Z) : bool := nz (FIELD_GET REG_FRAME_FORMAT_W_RTR ffw).

(** The payload length the core received: remote frames have none, classical
    frames at most 8 bytes. *)
Definition hw_payload (ffw : Z) : Z :=
  if ffw_rtr ffw then 0
  else if ffw_fdf ffw then can_dlc2len (ffw_dlc ffw)
  else Z.min 8 (ffw_dlc ffw).

(** A frame format word as the core forms it: the word count is the identifier,
    two timestamp words and the payload, and a CAN FD frame is no remote frame. *)
Definition hw_ffw (ffw : Z) : Prop :=
  is_u32 ffw ∧ ffw_rwcnt ffw = 3 + nwords (hw_payload ffw) ∧ (ffw_fdf ffw = true → ffw_rtr ffw = false).

(** A frame in the FIFO. *)
Definition hw_frame (ws : list Z) : Prop :=
  match ws with
  | [] => False
  | ffw :: rest => hw_ffw ffw ∧ Z.of_nat (length rest) = ffw_rwcnt ffw ∧ Forall is_u32 rest
  end.

(** ** The interface *)

(** Whole frames were appended. *)
Definition grows (l l' : list Z) : Prop := ∃ new, Forall hw_frame new ∧ l' = l ++ concat new.

Class RxDevice (W : Type) `{World W} (base : Z) (fifo : W → list Z) := {
  rxd_pop w v w' :
    w_load32 (base + CTUCANFD_RX_DATA) w = (v, w') →
    v = default 0 (head (fifo w)) ∧ grows (tail (fifo w)) (fifo w');
  rxd_load a w v w' :
    a ≠ base + CTUCANFD_RX_DATA → w_load32 a w = (v, w') → grows (fifo w) (fifo w');
  rxd_count w v w' :
    w_load32 (base + CTUCANFD_RX_STATUS) w = (v, w') →
    is_u32 v ∧ (FIELD_GET REG_RX_STATUS_RXFRC v = 0 ↔ fifo w = []);
  rxd_store a v w :
    a ≠ base + CTUCANFD_MODE → a ≠ base + CTUCANFD_COMMAND ∨ v = REG_COMMAND_CDO →
    grows (fifo w) (fifo (w_store32 a v w));
  rxd_call c w r w' : w_call c w = (r, w') → grows (fifo w) (fifo w');
  rxd_alloc k w o w' : w_alloc k w = (o, w') → grows (fifo w) (fifo w');
}.

Lemma grows_refl l : grows l l.
Proof. exists []. split; [done|]. simpl. by rewrite app_nil_r. Qed.

Lemma grows_trans l1 l2 l3 : grows l1 l2 → grows l2 l3 → grows l1 l3.
Proof.
  intros (n1 & H1 & ->) (n2 & H2 & ->). exists (n1 ++ n2).
  rewrite concat_app, app_assoc. split; [by apply Forall_app|done].
Qed.

Lemma grows_app l l' k : grows l l' → grows (k ++ l) (k ++ l').
Proof. intros (n & ? & ->). exists n. by rewrite app_assoc. Qed.

(** The words before [l] are not affected. *)
Lemma grows_cons_inv x l l' : grows (x :: l) l' → ∃ l'', l' = x :: l'' ∧ grows l l''.
Proof. intros (n & ? & ->). eexists. split; [done|]. by exists n. Qed.

(** The words of a well-formed FIFO are 32-bit words. *)
Lemma hw_frame_u32 ws : hw_frame ws → Forall is_u32 ws.
Proof. destruct ws as [|ffw rest]; [done|]. intros ([? _] & _ & ?). by constructor. Qed.

Lemma ffw_dlc_range ffw : 0 <= ffw_dlc ffw < 16.
Proof. apply (FIELD_GET_mask_range REG_FRAME_FORMAT_W_DLC). by_compute. Qed.

Lemma ffw_rwcnt_range ffw : 0 <= ffw_rwcnt ffw < 32.
Proof. apply (FIELD_GET_mask_range REG_FRAME_FORMAT_W_RWCNT). by_compute. Qed.

(** ** A world with a FIFO *)

Record fifo_world := { q_fifo : list Z; q_script : script }.

Definition sample_base : Z := 0x43C30000.

#[export] Instance fifo_world_world : World fifo_world := {
  w_load32 a w :=
    if a =? sample_base + CTUCANFD_RX_DATA then
      (default 0 (head (q_fifo w)), {| q_fifo := tail (q_fifo w); q_script := q_script w |})
    else if a =? sample_base + CTUCANFD_RX_STATUS then
      (match q_fifo w with [] => 0 | _ => FIELD_PREP REG_RX_STATUS_RXFRC 1 end, w)
    else let '(v, sc) := w_load32 a (q_script w) in (v, {| q_fifo := q_fifo w; q_script := sc |});
  w_store32 _ _ w := w;
  w_call c w :=
    let '(r, sc) := w_call c (q_script w) in (r, {| q_fifo := q_fifo w; q_script := sc |});
  w_alloc k w :=
    let '(o, sc) := w_alloc k (q_script w) in (o, {| q_fifo := q_fifo w; q_script := sc |});
}.

#[export] Instance fifo_world_alloc_ok : AllocOk fifo_world.
Proof.
  intros k [q sc] cf w'. unfold w_alloc, fifo_world_world; cbn [q_fifo q_script].
  destruct (w_alloc k sc) as [o sc'] eqn:E. intros [= -> _]. by eapply script_alloc_ok.
Qed.

#[export] Instance fifo_world_rx : RxDevice fifo_world sample_base q_fifo.
Proof.
  split.
  - intros [q sc] v w'. unfold w_load32, fifo_world_world; cbn [q_fifo q_script].
    rewrite Z.eqb_refl. intros [= <- <-]. split; [done|]. apply grows_refl.
  - intros a [q sc] v w' Ha. unfold w_load32, fifo_world_world; cbn [q_fifo q_script].
    destruct (Z.eqb_spec a (sample_base + CTUCANFD_RX_DATA)); [done|].
    destruct (Z.eqb_spec a (sample_base + CTUCANFD_RX_STATUS)).
    { intros [= _ <-]. apply grows_refl. }
    destruct (script_world.(w_load32) a sc). intros [= _ <-]. apply grows_refl.
  - intros [[|x q] sc] v w' [= <- <-]; by_compute || (split; [by_compute|]); by split.
  - intros. apply grows_refl.
  - intros c [q sc] r w'. unfold w_call, fifo_world_world; cbn [q_fifo q_script].
    destruct (script_world.(w_call) c sc). intros [= _ <-]. apply grows_refl.
  - intros k [q sc] o w'. unfold w_alloc, fifo_world_world; cbn [q_fifo q_script].
    destruct (script_world.(w_alloc) k sc). intros [= _ <-]. apply grows_refl.
Qed.
