(* ===== verification/RxRtl.v ===== *)
(** * The RX buffer of the core, cycle by cycle

    [src/src/rx_buffer/]: the state machine of [rx_buffer_fsm.vhd], the pointers and free-word
    counters of [rx_buffer_pointers.vhd], the memory of [rx_buffer_ram.vhd] with the synchronous read
    of [inf_ram_wrapper.vhd], and the rest of [rx_buffer.vhd].  A record holds the
    registers; every signal that is assigned concurrently is a definition over the registers and the input
    ports; [tick] is one rising edge of [clk_sys].

    Vectors are integers below a power of 2, [std_logic] is [bool].  Not modelled: parity (it only drives a
    flag), the memory test port (it needs the test mode), scan mode, and the
    power-on reset [res_n] as an input: [rtl_init] is the state after it. *)

From Stdlib Require Import ZArith Lia.
From stdpp Require Import base numbers list.
From S2P Require Import Prelude.

#[local] Open Scope Z_scope.

(** ** Ports *)

(** The metadata of a received frame. *)
Record metadata := {
  rec_ident : Z; rec_dlc : Z; rec_ident_type : bool; rec_frame_type : bool; rec_lbpf : bool;
  rec_is_rtr : bool; rec_brs : bool; rec_esi : bool; rec_ivld : bool }.

(** The inputs from the CAN core, the timestamp and the TX arbitrator. *)
Record can_in := {
  rec_meta : metadata;
  store_metadata_f : bool; store_data_f : bool; rec_valid_f : bool; rec_abort_f : bool;
  store_data_word : Z; sof_pulse : bool;
  err_capt_err_type : Z; err_capt_err_pos : Z; err_capt_err_erp : bool;
  timestamp : Z; curr_txtb_index : Z }.

(** The inputs from the memory registers. *)
Record reg_in := {
  mr_mode_rxbam : bool; mr_command_cdo : bool; mr_command_rrb : bool; mr_command_rxrpmv : bool;
  mr_rx_data_read : bool; mr_rx_settings_rtsop : bool; mr_mode_erfm : bool }.

(** The outputs to the memory registers, without the pointers. *)
Record reg_out := {
  rx_full : bool; rx_empty : bool; rx_frame_count : Z; rx_mem_free : Z;
  rx_data_overrun : bool; rx_mof : bool; rxb_port_b_data_out : Z }.

Inductive t_rx_buf_state :=
  | s_rxb_idle
  | s_rxb_store_frame_format
  | s_rxb_store_identifier
  | s_rxb_skip_ts_low
  | s_rxb_skip_ts_high
  | s_rxb_store_end_ts_low
  | s_rxb_store_end_ts_high
  | s_rxb_store_data
  | s_rxb_store_err_frame_format
  | s_rxb_store_err_identifier
  | s_rxb_store_err_ts_low
  | s_rxb_store_err_ts_high.

#[export] Instance t_rx_buf_state_eq_dec : EqDecision t_rx_buf_state.
Proof. solve_decision. Defined.

(** ** The state machine *)

(** [next_state_proc] *)
Definition next_state (curr_state : t_rx_buf_state) (c : can_in) (m : reg_in) : t_rx_buf_state :=
  match curr_state with
  | s_rxb_idle =>
      if store_metadata_f c then s_rxb_store_frame_format
      else if mr_mode_erfm m && rec_abort_f c then s_rxb_store_err_frame_format
      else curr_state
  | s_rxb_store_frame_format =>
      if rec_abort_f c then
        if mr_mode_erfm m then s_rxb_store_err_frame_format else s_rxb_idle
      else s_rxb_store_identifier
  | s_rxb_store_identifier => s_rxb_skip_ts_low
  | s_rxb_skip_ts_low => s_rxb_skip_ts_high
  | s_rxb_skip_ts_high => s_rxb_store_data
  | s_rxb_store_data =>
      if rec_abort_f c then
        if mr_mode_erfm m then s_rxb_store_err_frame_format else s_rxb_idle
      else if rec_valid_f c then s_rxb_store_end_ts_low
      else curr_state
  | s_rxb_store_end_ts_low => s_rxb_store_end_ts_high
  | s_rxb_store_end_ts_high => s_rxb_idle
  | s_rxb_store_err_frame_format => s_rxb_store_err_identifier
  | s_rxb_store_err_identifier => s_rxb_store_err_ts_low
  | s_rxb_store_err_ts_low => s_rxb_store_err_ts_high
  | s_rxb_store_err_ts_high => s_rxb_idle
  end.

Record fsm_out := {
  write_raw_intent : bool; select_ts_wptr : bool; data_selector : Z; commit_intent : bool;
  store_ts_wr_ptr : bool; inc_ts_wr_ptr : bool; reset_overrun_flag : bool; rec_erf : bool }.

(** [curr_state_proc]: the outputs with their defaults, then by state. *)
Definition fsm_none : fsm_out :=
  {| write_raw_intent := false; select_ts_wptr := false; data_selector := 0; commit_intent := false;
     store_ts_wr_ptr := false; inc_ts_wr_ptr := false; reset_overrun_flag := false; rec_erf := false |}.

Definition fsm_write (intent : bool) (sel : Z) (erf : bool) : fsm_out :=
  {| write_raw_intent := intent; select_ts_wptr := false; data_selector := sel; commit_intent := false;
     store_ts_wr_ptr := false; inc_ts_wr_ptr := false; reset_overrun_flag := false; rec_erf := erf |}.

Definition curr_state_proc (curr_state : t_rx_buf_state) (c : can_in) : fsm_out :=
  match curr_state with
  | s_rxb_idle =>
      {| write_raw_intent := false; select_ts_wptr := false; data_selector := 0; commit_intent := false;
         store_ts_wr_ptr := false; inc_ts_wr_ptr := false; reset_overrun_flag := true; rec_erf := false |}
  | s_rxb_store_frame_format => fsm_write (negb (rec_abort_f c)) 1 false
  | s_rxb_store_identifier => fsm_write true 2 false
  | s_rxb_skip_ts_low =>
      {| write_raw_intent := true; select_ts_wptr := false; data_selector := 0; commit_intent := false;
         store_ts_wr_ptr := true; inc_ts_wr_ptr := false; reset_overrun_flag := false; rec_erf := false |}
  | s_rxb_skip_ts_high => fsm_write true 0 false
  | s_rxb_store_data => fsm_write (store_data_f c) 4 false
  | s_rxb_store_end_ts_low =>
      {| write_raw_intent := false; select_ts_wptr := true; data_selector := 8; commit_intent := false;
         store_ts_wr_ptr := false; inc_ts_wr_ptr := true; reset_overrun_flag := false; rec_erf := false |}
  | s_rxb_store_end_ts_high =>
      {| write_raw_intent := false; select_ts_wptr := true; data_selector := 16; commit_intent := true;
         store_ts_wr_ptr := false; inc_ts_wr_ptr := false; reset_overrun_flag := false; rec_erf := false |}
  | s_rxb_store_err_frame_format => fsm_write true 1 true
  | s_rxb_store_err_identifier => fsm_write true 2 false
  | s_rxb_store_err_ts_low => fsm_write true 8 false
  | s_rxb_store_err_ts_high =>
      {| write_raw_intent := true; select_ts_wptr := false; data_selector := 16; commit_intent := true;
         store_ts_wr_ptr := false; inc_ts_wr_ptr := false; reset_overrun_flag := false; rec_erf := false |}
  end.

(** ** The words of a frame *)

(** [rwcnt_com] *)
Definition rwcnt_com (dlc : Z) : Z :=
  match dlc with
  | 0 => 3
  | 1 | 2 | 3 | 4 => 4
  | 5 | 6 | 7 | 8 => 5
  | 9 => 6
  | 10 => 7
  | 11 => 8
  | 12 => 9
  | 13 => 11
  | 14 => 15
  | _ => 19
  end.

(** [frame_form_w(RWCNT_H downto RWCNT_L)] *)
Definition frame_rwcnt (md : metadata) (erf : bool) : Z :=
  if rec_is_rtr md || erf then 3
  else if negb (rec_frame_type md) && Z.testbit (rec_dlc md) 3 then 5
  else rwcnt_com (rec_dlc md).

(** [frame_form_w], field by field. *)
Definition frame_form_w (c : can_in) (erf : bool) : Z :=
  let md := rec_meta c in
  rec_dlc md + Z.b2z erf * 2 ^ 4 + Z.b2z (rec_is_rtr md) * 2 ^ 5 + Z.b2z (rec_ident_type md) * 2 ^ 6 +
  Z.b2z (rec_frame_type md) * 2 ^ 7 + Z.b2z (rec_lbpf md) * 2 ^ 8 + Z.b2z (rec_brs md) * 2 ^ 9 +
  Z.b2z (rec_esi md) * 2 ^ 10 + frame_rwcnt md erf * 2 ^ 11 +
  (if erf then err_capt_err_pos c else 0) * 2 ^ 16 + (if erf then Z.b2z (err_capt_err_erp c) else 0) * 2 ^ 20 +
  (if erf then err_capt_err_type c else 0) * 2 ^ 21 + Z.b2z (rec_ivld md) * 2 ^ 24 +
  (if rec_lbpf md then curr_txtb_index c else 0) * 2 ^ 25.

(** [rxb_port_a_data_in], selected by the state machine. *)
Definition rxb_port_a_data_in (o : fsm_out) (c : can_in) (timestamp_capture : Z) : Z :=
  match data_selector o with
  | 1 => frame_form_w c (rec_erf o)
  | 2 => rec_ident (rec_meta c)
  | 4 => store_data_word c
  | 8 => timestamp_capture mod 2 ^ 32
  | 16 => timestamp_capture / 2 ^ 32
  | _ => 0
  end.

(** [RTS_END] is 0, [RTS_BEG] is 1. *)
Definition timestamp_capture_ce (c : can_in) (m : reg_in) : bool :=
  (negb (mr_rx_settings_rtsop m) && rec_valid_f c) || (mr_rx_settings_rtsop m && sof_pulse c) ||
  (mr_mode_erfm m && rec_abort_f c).

Definition read_attempt (m : reg_in) : bool :=
  if mr_mode_rxbam m then mr_rx_data_read m else mr_command_rxrpmv m.

(** ** The registers *)

Record rtl := mkrtl {
  (* rx_buffer_pointers.vhd *)
  read_pointer : Z; write_pointer : Z; write_pointer_raw : Z; write_pointer_ts : Z;
  rx_mem_free_i : Z; rx_mem_free_raw : Z;
  (* rx_buffer.vhd; [rx_buf_reset] when [rx_buf_res_n_q_scan] is 0 *)
  read_counter_q : Z; frame_count : Z; commit_rx_frame : bool; commit_overrun_abort : bool;
  data_overrun_flg : bool; data_overrun_i : bool; timestamp_capture : Z; rx_buf_reset : bool;
  (* rx_buffer_fsm.vhd *)
  curr_state : t_rx_buf_state;
  (* inf_ram_wrapper.vhd *)
  ram_memory : list Z; ram_data_out : Z }.

Section Rtl.
(** The generics: the width of the pointers, the size is a power of 2; and the technology ([true] is
    C_TECH_ASIC, with a gated clock of the memory). *)
Context (G_RX_BUFF_PTR_WIDTH : Z) (G_TECH_ASIC : bool).

Definition G_RX_BUFF_SIZE : Z := 2 ^ G_RX_BUFF_PTR_WIDTH.

Definition ptr_u (x : Z) : Z := x mod G_RX_BUFF_SIZE.

Definition free_u (x : Z) : Z := x mod 2 ^ (G_RX_BUFF_PTR_WIDTH + 1).

(** The frame counter is one bit narrower than the pointers ([can_top_level.vhd]). *)
Definition count_u (x : Z) : Z := x mod 2 ^ (G_RX_BUFF_PTR_WIDTH - 1).

(** The registers that [rx_buf_res_n_q_scan] resets, in reset. *)
Definition buf_reset (s : rtl) : rtl :=
  {| read_pointer := 0; write_pointer := 0; write_pointer_raw := 0; write_pointer_ts := 0;
     rx_mem_free_i := G_RX_BUFF_SIZE; rx_mem_free_raw := G_RX_BUFF_SIZE;
     read_counter_q := 0; frame_count := 0; commit_rx_frame := false; commit_overrun_abort := false;
     data_overrun_flg := false; data_overrun_i := data_overrun_i s; timestamp_capture := timestamp_capture s;
     rx_buf_reset := rx_buf_reset s; curr_state := curr_state s;
     ram_memory := ram_memory s; ram_data_out := ram_data_out s |}.

(** After [res_n], with arbitrary contents of the memory. *)
Definition rtl_init (ram : list Z) (out : Z) : rtl :=
  buf_reset {| read_pointer := 0; write_pointer := 0; write_pointer_raw := 0; write_pointer_ts := 0;
     rx_mem_free_i := 0; rx_mem_free_raw := 0;
     read_counter_q := 0; frame_count := 0; commit_rx_frame := false; commit_overrun_abort := false;
     data_overrun_flg := false; data_overrun_i := false; timestamp_capture := 0;
     rx_buf_reset := true; curr_state := s_rxb_idle; ram_memory := ram; ram_data_out := out |}.

(** ** Concurrent signals *)

Section Signals.
Context (c : can_in) (m : reg_in) (s : rtl).

Definition fsm : fsm_out := curr_state_proc (curr_state s) c.

Definition rx_empty_i : bool := frame_count s =? 0.

Definition read_increment : bool := read_attempt m && negb rx_empty_i.

Definition is_free_word : bool :=
  negb ((read_pointer s =? write_pointer_raw s) && (0 <? frame_count s)).

Definition overrun_condition : bool := write_raw_intent fsm && negb is_free_word.

Definition write_raw_OK : bool :=
  write_raw_intent fsm && negb overrun_condition && negb (data_overrun_i s).

Definition rxb_port_a_write : bool :=
  write_raw_OK || (select_ts_wptr fsm && negb (data_overrun_i s) && negb overrun_condition).

Definition rxb_port_a_address : Z :=
  if select_ts_wptr fsm then write_pointer_ts s else write_pointer_raw s.

Definition read_pointer_inc_1 : Z := ptr_u (read_pointer s + 1).

Definition rxb_port_b_address : Z :=
  if read_increment then read_pointer_inc_1 else read_pointer s.

Definition abort_applied : bool := rec_abort_f c || commit_overrun_abort s.

(** The clock of the memory: gated in an ASIC, always running in an FPGA. *)
Definition clk_ram : bool := negb G_TECH_ASIC || rxb_port_a_write || read_attempt m.

(** [rwcnt] of the word at the read port *)
Definition read_counter_d : Z :=
  if 0 <? read_counter_q s then read_counter_q s - 1
  else Z.shiftr (ram_data_out s) 11 mod 2 ^ 5.

(** ** One clock cycle *)

(** [mem_free_proc] *)
Definition mem_free_raw_next : Z :=
  if read_increment then
    if abort_applied then free_u (rx_mem_free_i s + 1)
    else if negb write_raw_OK then free_u (rx_mem_free_raw s + 1)
    else rx_mem_free_raw s
  else
    if abort_applied then rx_mem_free_i s
    else if write_raw_OK then free_u (rx_mem_free_raw s - 1)
    else rx_mem_free_raw s.

Definition mem_free_next : Z :=
  if read_increment then
    if commit_rx_frame s then free_u (rx_mem_free_raw s + 1) else free_u (rx_mem_free_i s + 1)
  else if commit_rx_frame s then rx_mem_free_raw s
  else rx_mem_free_i s.

(** [write_pointer_raw_proc], [timestamp_write_ptr_proc] *)
Definition write_pointer_raw_next : Z :=
  if write_raw_OK || rec_abort_f c || commit_overrun_abort s then
    if write_raw_OK then ptr_u (write_pointer_raw s + 1) else write_pointer s
  else write_pointer_raw s.

Definition write_pointer_ts_next : Z :=
  if store_ts_wr_ptr fsm then write_pointer_raw s
  else if inc_ts_wr_ptr fsm then ptr_u (write_pointer_ts s + 1)
  else write_pointer_ts s.

(** [frame_count_ctr_proc] *)
Definition frame_count_next : Z :=
  if read_increment && (read_counter_q s =? 1) then
    if commit_rx_frame s then frame_count s else count_u (frame_count s - 1)
  else if commit_rx_frame s then count_u (frame_count s + 1)
  else frame_count s.

(** [sw_dor_proc], [internal_dor_proc] *)
Definition data_overrun_flg_next : bool :=
  if mr_command_cdo m then false else if overrun_condition then true else data_overrun_flg s.

Definition data_overrun_i_next : bool :=
  if overrun_condition || mr_command_rrb m then true
  else if reset_overrun_flag fsm then false
  else data_overrun_i s.

(** [ram_write_process], [ram_read_process]: the word read is the one before the write. *)
Definition ram_memory_next : list Z :=
  if clk_ram && rxb_port_a_write then
    <[Z.to_nat rxb_port_a_address := rxb_port_a_data_in fsm c (timestamp_capture s)]> (ram_memory s)
  else ram_memory s.

Definition ram_data_out_next : Z :=
  if clk_ram then default 0 (ram_memory s !! Z.to_nat rxb_port_b_address) else ram_data_out s.

(** The registers after the edge, when the buffer is not in reset. *)
Definition tick_normal : rtl :=
  {| read_pointer := if read_increment then read_pointer_inc_1 else read_pointer s;
     write_pointer := if commit_rx_frame s then write_pointer_raw s else write_pointer s;
     write_pointer_raw := write_pointer_raw_next;
     write_pointer_ts := write_pointer_ts_next;
     rx_mem_free_i := mem_free_next;
     rx_mem_free_raw := mem_free_raw_next;
     read_counter_q := if read_increment then read_counter_d else read_counter_q s;
     frame_count := frame_count_next;
     commit_rx_frame := if commit_intent fsm then commit_rx_frame s || negb (data_overrun_i s) else false;
     commit_overrun_abort := if commit_intent fsm then commit_overrun_abort s || data_overrun_i s else false;
     data_overrun_flg := data_overrun_flg_next;
     data_overrun_i := data_overrun_i_next;
     timestamp_capture := if timestamp_capture_ce c m then timestamp c else timestamp_capture s;
     rx_buf_reset := mr_command_rrb m;
     curr_state := next_state (curr_state s) c m;
     ram_memory := ram_memory_next;
     ram_data_out := ram_data_out_next |}.

(** One rising edge.  [rx_buf_res_n_q_scan] resets its registers asynchronously: while it is active,
    and as soon as RRB makes it active. *)
Definition tick : rtl :=
  if rx_buf_reset s || mr_command_rrb m then buf_reset tick_normal else tick_normal.

(** ** Outputs *)

Definition rtl_out : reg_out :=
  {| rx_full := rx_mem_free_i s =? 0; rx_empty := rx_empty_i; rx_frame_count := frame_count s;
     rx_mem_free := rx_mem_free_i s; rx_data_overrun := data_overrun_flg s;
     rx_mof := negb (read_counter_q s =? 0);
     rxb_port_b_data_out := if rx_empty_i then 0 else ram_data_out s |}.

End Signals.

(** A run: the outputs during every cycle. *)
Fixpoint rtl_run (ins : list (can_in * reg_in)) (s : rtl) : list reg_out :=
  match ins with
  | [] => []
  | (c, m) :: ins => rtl_out s :: rtl_run ins (tick c m s)
  end.

End Rtl.
