(* ===== verification/RxQueue.v ===== *)
(** * What the RX buffer promises

    The RX buffer as a bounded queue of whole frames: the words that software can still read, the words of the
    frame being received, and no pointer, memory or counter.  [protocol] collects
    the assertions of the source ([rx_buffer.vhd], [rx_buffer_fsm.vhd]) on what the CAN core does, and
    what these leave out.  Under the protocol the queue only ever holds
    frames as [RxFifo] defines them, in their full length ([queue_inv]). *)

From Stdlib Require Import ZArith Lia.
From stdpp Require Import base numbers list.
From S2P Require Import Prelude LinuxDefs World Kregs RxFifo RxRtl.

#[local] Open Scope Z_scope.

(** ** The queue *)

Record queue := mkqueue {
  q_cur : list Z;           (* the unread words of the frame that software is reading *)
  q_frames : list (list Z); (* the other frames *)
  q_pend : list Z;          (* the words of the frame in reception *)
  q_commit : bool;          (* this frame is complete and joins the queue *)
  q_abort : bool;           (* this frame is dropped for lack of space *)
  q_reset : bool;
  q_lost : bool;            (* a word of this frame was not stored *)
  q_overrun : bool;         (* the flag for software *)
  q_time : Z;
  q_state : t_rx_buf_state }.

(** The words that reading RX_DATA gives. *)
Definition q_words (q : queue) : list Z := q_cur q ++ concat (q_frames q).

(** The number of frames, the one in reading included. *)
Definition q_count (q : queue) : Z :=
  Z.of_nat (length (q_frames q)) + (if decide (q_cur q = []) then 0 else 1).

(** One word is read. *)
Definition q_read (q : queue) : list Z * list (list Z) :=
  match q_cur q, q_frames q with
  | _ :: cur, fs => (cur, fs)
  | [], f :: fs => (tail f, fs)
  | [], [] => ([], [])
  end.

Definition q_init : queue :=
  {| q_cur := []; q_frames := []; q_pend := []; q_commit := false; q_abort := false; q_reset := true;
     q_lost := false; q_overrun := false; q_time := 0; q_state := s_rxb_idle |}.

Section Queue.
(** The capacity in words. *)
Context (size : Z).

Definition q_size (q : queue) : Z := Z.of_nat (length (q_words q)) + Z.of_nat (length (q_pend q)).

Definition q_fsm (c : can_in) (q : queue) : fsm_out := curr_state_proc (q_state q) c.

(** A word is to be stored, and there is no space. *)
Definition q_over (c : can_in) (q : queue) : bool := write_raw_intent (q_fsm c q) && (size <=? q_size q).

Definition q_data (c : can_in) (q : queue) : Z := rxb_port_a_data_in (q_fsm c q) c (q_time q).

(** The words in reception after this cycle.  The timestamp words of a normal frame, the third and
    the fourth, are filled in at its end. *)
Definition q_pend_next (c : can_in) (q : queue) : list Z :=
  if q_commit q || q_abort q || rec_abort_f c then []
  else if q_lost q || q_over c q then q_pend q
  else if write_raw_intent (q_fsm c q) then q_pend q ++ [q_data c q]
  else match q_state q with
       | s_rxb_store_end_ts_low => <[2%nat := q_data c q]> (q_pend q)
       | s_rxb_store_end_ts_high => <[3%nat := q_data c q]> (q_pend q)
       | _ => q_pend q
       end.

Definition q_normal (c : can_in) (m : reg_in) (q : queue) : queue :=
  let '(cur, frames) := if read_attempt m then q_read q else (q_cur q, q_frames q) in
  {| q_cur := cur;
     q_frames := if q_commit q then frames ++ [q_pend q] else frames;
     q_pend := q_pend_next c q;
     q_commit := commit_intent (q_fsm c q) && negb (q_lost q || q_over c q);
     q_abort := commit_intent (q_fsm c q) && (q_lost q || q_over c q);
     q_reset := mr_command_rrb m;
     q_lost := (q_over c q || mr_command_rrb m) || (negb (reset_overrun_flag (q_fsm c q)) && q_lost q);
     q_overrun := negb (mr_command_cdo m) && (q_over c q || q_overrun q);
     q_time := if timestamp_capture_ce c m then timestamp c else q_time q;
     q_state := next_state (q_state q) c m |}.

(** Everything is dropped. *)
Definition q_clear (q : queue) : queue :=
  {| q_cur := []; q_frames := []; q_pend := []; q_commit := false; q_abort := false;
     q_reset := q_reset q; q_lost := q_lost q; q_overrun := false; q_time := q_time q; q_state := q_state q |}.

Definition q_tick (c : can_in) (m : reg_in) (q : queue) : queue :=
  if q_reset q || mr_command_rrb m then q_clear (q_normal c m q) else q_normal c m q.

Definition q_out (q : queue) : reg_out :=
  let free := size - Z.of_nat (length (q_words q)) in
  {| rx_full := free =? 0; rx_empty := bool_decide (q_words q = []); rx_frame_count := q_count q;
     rx_mem_free := free; rx_data_overrun := q_overrun q; rx_mof := negb (bool_decide (q_cur q = []));
     rxb_port_b_data_out := default 0 (head (q_words q)) |}.

Fixpoint q_run (ins : list (can_in * reg_in)) (q : queue) : list reg_out :=
  match ins with
  | [] => []
  | (c, m) :: ins => q_out q :: q_run ins (q_tick c m q)
  end.

End Queue.

(** ** The protocol of the CAN core *)

(** What the assertions look at: the state machine, the variables of [rwcnt_assert_proc], the metadata
    of the last cycle, and whether it was the last cycle of a frame. *)
Record core_monitor := {
  mon_state : t_rx_buf_state; exp_data_stores : Z; act_data_stores : Z; held_meta : metadata; frame_end : bool }.

Definition mon_tick (c : can_in) (m : reg_in) (a : core_monitor) : core_monitor :=
  let o := curr_state_proc (mon_state a) c in
  let '(exp, act) :=
    if rec_abort_f c then (0, 0)
    else if store_metadata_f c then (frame_rwcnt (rec_meta c) (rec_erf o) - 3, 0)
    else (exp_data_stores a, act_data_stores a) in
  {| mon_state := next_state (mon_state a) c m;
     exp_data_stores := exp; act_data_stores := if store_data_f c then act + 1 else act;
     held_meta := rec_meta c; frame_end := commit_intent o |}.

#[export] Instance metadata_eq_dec : EqDecision metadata.
Proof. solve_decision. Defined.

Definition in_states (l : list t_rx_buf_state) (a : core_monitor) : bool := bool_decide (mon_state a ∈ l).

(** The assertions of [rx_buffer_fsm.vhd] and [rx_buffer.vhd]. *)
Definition asserted (c : can_in) (a : core_monitor) : bool :=
  (* RX Buffer commands should be one-hot encoded! *)
  (Z.b2z (store_metadata_f c) + Z.b2z (store_data_f c) + Z.b2z (rec_valid_f c) + Z.b2z (rec_abort_f c) <=? 1) &&
  (* store_metadata_in_idle_asrt *)
  (negb (store_metadata_f c) || in_states [s_rxb_idle] a) &&
  (* commit_or_store_data_asrt *)
  (negb (rec_valid_f c || store_data_f c) || in_states [s_rxb_store_data] a) &&
  (* rxb_not_storing_err_frm_when_next_occurs_asrt, rx_no_abort_after_metadata_cov *)
  (negb (rec_abort_f c) || in_states [s_rxb_idle; s_rxb_store_frame_format; s_rxb_store_data] a) &&
  (* rwcnt_assert_proc *)
  (negb (rec_valid_f c) || (act_data_stores a =? exp_data_stores a)) &&
  (* sof_pulse_asrt_asrt *)
  (negb (sof_pulse c) || reset_overrun_flag (curr_state_proc (mon_state a) c)).

(** What the source relies on without an assertion: there are never more data words than announced,
    the metadata are still there when the first word is formed, no error comes in the
    cycle after the last word (in which the frame joins the queue), and a CAN FD frame is no remote
    frame (asserted in [protocol_control_fsm.vhd]). *)
Definition relied_on (c : can_in) (a : core_monitor) : bool :=
  (negb (store_data_f c) || (act_data_stores a <? exp_data_stores a)) &&
  (negb (in_states [s_rxb_store_frame_format] a) || bool_decide (rec_meta c = held_meta a)) &&
  (negb (rec_abort_f c) || negb (frame_end a)) &&
  (negb (rec_frame_type (rec_meta c)) || negb (rec_is_rtr (rec_meta c))).

(** The widths of the ports. *)
Definition port_widths (c : can_in) : bool :=
  let inw (x w : Z) := (0 <=? x) && (x <? 2 ^ w) in
  inw (rec_ident (rec_meta c)) 29 && inw (rec_dlc (rec_meta c)) 4 && inw (store_data_word c) 32 &&
  inw (err_capt_err_type c) 3 && inw (err_capt_err_pos c) 4 && inw (timestamp c) 64 && inw (curr_txtb_index c) 3.

(** Error frames are logged only when [erfm] allows it. *)
Definition protocol (erfm : bool) (c : can_in) (m : reg_in) (a : core_monitor) : bool :=
  asserted c a && relied_on c a && port_widths c && (negb (mr_mode_erfm m) || erfm).

(** The CAN core keeps to the protocol during a run. *)
Fixpoint protocol_run (erfm : bool) (ins : list (can_in * reg_in)) (a : core_monitor) : bool :=
  match ins with
  | [] => true
  | (c, m) :: ins => protocol erfm c m a && protocol_run erfm ins (mon_tick c m a)
  end.

(** ** The words as the core forms them *)

Lemma port_widths_elim c : port_widths c = true →
  (0 <= rec_ident (rec_meta c) < 2 ^ 29 ∧ 0 <= rec_dlc (rec_meta c) < 16 ∧ is_u32 (store_data_word c)) ∧
  0 <= err_capt_err_type c < 8 ∧ 0 <= err_capt_err_pos c < 16 ∧ 0 <= timestamp c < 2 ^ 64 ∧
  0 <= curr_txtb_index c < 8.
Proof. cbv [port_widths is_u32]. lia. Qed.

Lemma frame_rwcnt_range md erf : 3 <= frame_rwcnt md erf <= 19.
Proof. unfold frame_rwcnt, rwcnt_com. repeat case_match; lia. Qed.

(** A vector of a field below the others. *)
Lemma low_field k a y i : 0 <= k → 0 <= a < 2 ^ k → k <= i → Z.shiftr (a + y * 2 ^ k) i = Z.shiftr y (i - k).
Proof.
  intros. replace i with (k + (i - k)) at 1 by lia. rewrite <- Z.shiftr_shiftr by lia.
  rewrite (Z.shiftr_div_pow2 _ k), Z.div_add, (Z.div_small a) by lia. done.
Qed.

Lemma low_bit b y i : 1 <= i → Z.shiftr (Z.b2z b + y * 2) i = Z.shiftr y (i - 1).
Proof. intros. apply (low_field 1); destruct b; simpl; lia. Qed.

Lemma low_bit_0 b y : Z.testbit (Z.b2z b + y * 2) 0 = b.
Proof. rewrite Z.add_comm, Z.mul_comm. apply Z.testbit_0_r. Qed.

Lemma bit_shiftr x n : 0 <= n → Z.testbit x n = Z.testbit (Z.shiftr x n) 0.
Proof. intros. by rewrite Z.shiftr_spec. Qed.

Section FrameFormat.
Context (c : can_in) (erf : bool) (Hw : port_widths c = true).

Lemma frame_form_w_split : ∃ hi, 0 <= hi < 2 ^ 12 ∧
  let md := rec_meta c in
  frame_form_w c erf = rec_dlc md + (Z.b2z erf + (Z.b2z (rec_is_rtr md) + (Z.b2z (rec_ident_type md) +
    (Z.b2z (rec_frame_type md) + (Z.b2z (rec_lbpf md) + (Z.b2z (rec_brs md) +
    (Z.b2z (rec_esi md) + (frame_rwcnt md erf + hi * 2 ^ 5) * 2) * 2) * 2) * 2) * 2) * 2) * 2) * 2 ^ 4.
Proof using Hw.
  apply port_widths_elim in Hw as (_ & ? & ? & _ & ?).
  exists ((if erf then err_capt_err_pos c else 0) + (if erf then Z.b2z (err_capt_err_erp c) else 0) * 16 +
    (if erf then err_capt_err_type c else 0) * 32 + Z.b2z (rec_ivld (rec_meta c)) * 256 +
    (if rec_lbpf (rec_meta c) then curr_txtb_index c else 0) * 512).
  split; [|cbv zeta; unfold frame_form_w; lia].
  destruct erf, (err_capt_err_erp c), (rec_ivld _), (rec_lbpf _); simpl Z.b2z; lia.
Qed.

Lemma frame_form_w_u32 : is_u32 (frame_form_w c erf).
Proof using Hw.
  destruct frame_form_w_split as (hi & Hhi & ->). pose proof (frame_rwcnt_range (rec_meta c) erf).
  apply port_widths_elim in Hw as ((_ & ? & _) & _). unfold is_u32.
  destruct erf, (rec_is_rtr _), (rec_ident_type _), (rec_frame_type _), (rec_lbpf _), (rec_brs _), (rec_esi _);
    simpl Z.b2z; lia.
Qed.

Lemma frame_form_w_fields :
  ffw_dlc (frame_form_w c erf) = rec_dlc (rec_meta c) ∧
  ffw_rwcnt (frame_form_w c erf) = frame_rwcnt (rec_meta c) erf ∧
  ffw_fdf (frame_form_w c erf) = rec_frame_type (rec_meta c) ∧
  ffw_rtr (frame_form_w c erf) = rec_is_rtr (rec_meta c).
Proof using Hw.
  destruct frame_form_w_split as (hi & Hhi & ->). pose proof (frame_rwcnt_range (rec_meta c) erf).
  apply port_widths_elim in Hw as ((_ & ? & _) & _).
  unfold ffw_dlc, ffw_rwcnt, ffw_fdf, ffw_rtr, REG_FRAME_FORMAT_W_DLC, REG_FRAME_FORMAT_W_RWCNT,
    REG_FRAME_FORMAT_W_FDF, REG_FRAME_FORMAT_W_RTR.
  rewrite !FIELD_GET_GENMASK, !nz_FIELD_GET_BIT by lia. split_and!.
  - rewrite Z.shiftr_0_r, Z_mod_plus_full. apply Z.mod_small. lia.
  - rewrite low_field, !low_bit by lia. change (11 - 4 - 1 - 1 - 1 - 1 - 1 - 1 - 1) with 0.
    rewrite Z.shiftr_0_r, Z_mod_plus_full. apply Z.mod_small. lia.
  - rewrite bit_shiftr, low_field, !low_bit by lia. apply low_bit_0.
  - rewrite bit_shiftr, low_field, low_bit by lia. apply low_bit_0.
Qed.

(** The frame format word of a frame that is no error frame is the one of [RxFifo]. *)
Lemma frame_form_w_hw :
  erf = false → (rec_frame_type (rec_meta c) = true → rec_is_rtr (rec_meta c) = false) →
  hw_ffw (frame_form_w c erf).
Proof using Hw.
  intros He Hfd. destruct frame_form_w_fields as (Hd & Hr & Hf & Ht). split_and!.
  - apply frame_form_w_u32.
  - unfold hw_payload. rewrite Hd, Hr, Hf, Ht. apply port_widths_elim in Hw as ((_ & ? & _) & _).
    unfold frame_rwcnt. rewrite He, orb_false_r. destruct (rec_is_rtr _); [done|].
    set (d := rec_dlc _) in *. clearbody d. destruct (rec_frame_type _); simpl negb; cbn [andb].
    + apply Z.eqb_eq, (Z_range_forallb 16 (λ d, rwcnt_com d =? 3 + nwords (can_dlc2len d))); [done|lia].
    + apply Z.eqb_eq, (Z_range_forallb 16 (λ d, (if Z.testbit d 3 then 5 else rwcnt_com d) =? 3 + nwords (Z.min 8 d)));
        [done|lia].
  - by rewrite Hf, Ht.
Qed.

End FrameFormat.

(** ** Whole frames *)

(** An error frame, as MODE.ERFM has them logged. *)
Definition logged_error (ws : list Z) : Prop :=
  match ws with
  | [] => False
  | ffw :: rest => is_u32 ffw ∧ ffw_rwcnt ffw = 3 ∧ length rest = 3%nat ∧ Forall is_u32 rest
  end.

Definition whole (erfm : bool) (ws : list Z) : Prop := hw_frame ws ∨ (erfm = true ∧ logged_error ws).

Lemma whole_shape e ws : whole e ws →
  ∃ ffw rest, ws = ffw :: rest ∧ Z.of_nat (length rest) = ffw_rwcnt ffw ∧ 3 <= ffw_rwcnt ffw <= 19 ∧ Forall is_u32 ws.
Proof.
  intros [Hf|[_ Hf]]; (destruct ws as [|ffw rest]; [done|]); exists ffw, rest.
  - pose proof (hw_frame_u32 _ Hf). destruct Hf as ((Hu & Hr & _) & Hl & Hrest). split_and!; try done;
      rewrite Hr; pose proof (nwords_bounds (hw_payload ffw)) as Hn; unfold hw_payload in *;
      pose proof (ffw_dlc_range ffw);
      assert (0 <= can_dlc2len (ffw_dlc ffw) <= 64);
      [|repeat case_match; lia| |repeat case_match; lia].
    all: split; apply Z.leb_le;
      [apply (Z_range_forallb 16 (λ d, 0 <=? can_dlc2len d))|apply (Z_range_forallb 16 (λ d, can_dlc2len d <=? 64))]; done || lia.
  - destruct Hf as (? & -> & -> & ?). by split_and!; [..|constructor].
Qed.

(** ** The invariant *)

(** [n] words of a frame are there, unless one was lost.  The monitor knows its length. *)
Definition part (a : core_monitor) (n : Z) (q : queue) : Prop :=
  q_lost q = true ∨ ∃ ffw ws, q_pend q = ffw :: ws ∧ hw_ffw ffw ∧ Forall is_u32 ws ∧
    Z.of_nat (length ws) + 1 = n ∧ ffw_rwcnt ffw = 3 + exp_data_stores a.

Definition err_part (n : Z) (q : queue) : Prop :=
  q_lost q = true ∨ ∃ ffw ws, q_pend q = ffw :: ws ∧ is_u32 ffw ∧ ffw_rwcnt ffw = 3 ∧ Forall is_u32 ws ∧
    Z.of_nat (length ws) + 1 = n.

(** The words in reception, by the state. *)
Definition held (erfm : bool) (a : core_monitor) (q : queue) : Prop :=
  match q_state q with
  | s_rxb_idle =>
      (q_commit q = true → whole erfm (q_pend q)) ∧ (q_commit q = false → q_abort q = false → q_pend q = [])
  | s_rxb_store_frame_format | s_rxb_store_err_frame_format => q_pend q = []
  | s_rxb_store_identifier => part a 1 q
  | s_rxb_skip_ts_low => part a 2 q
  | s_rxb_skip_ts_high => part a 3 q
  | s_rxb_store_data => part a (4 + act_data_stores a) q
  | s_rxb_store_end_ts_low | s_rxb_store_end_ts_high => part a (4 + exp_data_stores a) q
  | s_rxb_store_err_identifier => err_part 1 q
  | s_rxb_store_err_ts_low => err_part 2 q
  | s_rxb_store_err_ts_high => err_part 3 q
  end.

(** The counts of the monitor, by the state. *)
Definition counts (erfm : bool) (a : core_monitor) (st : t_rx_buf_state) : Prop :=
  match st with
  | s_rxb_store_frame_format =>
      exp_data_stores a = frame_rwcnt (held_meta a) false - 3 ∧ act_data_stores a = 0
  | s_rxb_store_identifier | s_rxb_skip_ts_low | s_rxb_skip_ts_high => act_data_stores a = 0
  | s_rxb_store_err_frame_format | s_rxb_store_err_identifier | s_rxb_store_err_ts_low
  | s_rxb_store_err_ts_high => erfm = true
  | _ => True
  end.

Record queue_inv (size : Z) (erfm : bool) (a : core_monitor) (q : queue) : Prop := {
  qi_mon : mon_state a = q_state q ∧ (q_commit q = true → frame_end a = true);
  qi_size : q_size q <= size;
  qi_cur : Forall is_u32 (q_cur q) ∧ Z.of_nat (length (q_cur q)) <= 19;
  qi_frames : Forall (whole erfm) (q_frames q);
  qi_pend : Z.of_nat (length (q_pend q)) <= 20;
  qi_flags : q_commit q || q_abort q = true → q_state q = s_rxb_idle;
  qi_excl : q_commit q && q_abort q = false;
  qi_time : 0 <= q_time q < 2 ^ 64;
  qi_reset : q_reset q = true →
    q_clear q = q ∧ (q_lost q = true ∨ q_state q = s_rxb_idle);
  qi_counts : 0 <= exp_data_stores a <= 16 ∧ 0 <= act_data_stores a <= exp_data_stores a ∧ counts erfm a (q_state q);
  qi_held : held erfm a q }.

(** What the protocol says of the commands, by the state. *)
Record commands (erfm : bool) (c : can_in) (m : reg_in) (q : queue) (a : core_monitor) : Prop := {
  cm_store : store_metadata_f c = true → q_state q = s_rxb_idle ∧ rec_abort_f c = false;
  cm_data : store_data_f c = true →
    q_state q = s_rxb_store_data ∧ rec_abort_f c = false ∧ rec_valid_f c = false ∧ store_metadata_f c = false ∧
    act_data_stores a < exp_data_stores a;
  cm_valid : rec_valid_f c = true →
    q_state q = s_rxb_store_data ∧ rec_abort_f c = false ∧ act_data_stores a = exp_data_stores a;
  cm_abort : rec_abort_f c = true →
    (q_state q = s_rxb_idle ∨ q_state q = s_rxb_store_frame_format ∨ q_state q = s_rxb_store_data) ∧
    q_commit q = false;
  cm_meta : q_state q = s_rxb_store_frame_format → rec_meta c = held_meta a;
  cm_fd : rec_frame_type (rec_meta c) = true → rec_is_rtr (rec_meta c) = false;
  cm_widths : port_widths c = true;
  cm_erfm : mr_mode_erfm m = true → erfm = true;
  cm_sof : sof_pulse c = true → reset_overrun_flag (q_fsm c q) = true }.

Lemma negb_orb_impl x y : negb x || y = true → x = true → y = true.
Proof. by destruct x. Qed.

Lemma protocol_commands size e c m q a :
  queue_inv size e a q → protocol e c m a = true → commands e c m q a.
Proof.
  intros [[Hst Hend] _ _ _ _ _ _ _ _ _ _].
  assert (frame_end a = false → q_commit q = false) as Hcm by (destruct (q_commit q); [naive_solver congruence|done]).
  clear Hend. unfold protocol, asserted, relied_on, in_states. intros H.
  repeat match goal with H : _ && _ = true |- _ => apply andb_true_iff in H as [H ?] end.
  repeat match goal with H : negb _ || _ = true |- _ => pose proof (negb_orb_impl _ _ H); clear H end.
  rewrite ?bool_decide_eq_true, ?elem_of_cons, ?elem_of_nil, ?negb_true_iff, ?Hst in *.
  assert (∀ x y, Z.b2z x + Z.b2z y <= 1 → x = true → y = false) as Hx by (intros [] []; simpl; done).
  assert (∀ x, 0 <= Z.b2z x <= 1) as Hb by (intros []; simpl; lia).
  pose proof (Hb (store_metadata_f c)). pose proof (Hb (store_data_f c)).
  pose proof (Hb (rec_valid_f c)). pose proof (Hb (rec_abort_f c)).
  assert ((act_data_stores a =? exp_data_stores a) = true → act_data_stores a = exp_data_stores a) by lia.
  split; intros.
  - split; [naive_solver|]. eapply Hx; [|done]. lia.
  - assert (q_state q = s_rxb_store_data) by (destruct (rec_valid_f c), (store_data_f c); naive_solver).
    split_and!; [done|eapply Hx; [|done]; lia..|]. apply Z.ltb_lt. naive_solver.
  - assert (q_state q = s_rxb_store_data) by (destruct (rec_valid_f c), (store_data_f c); naive_solver).
    split_and!; [done|eapply Hx; [|done]; lia|naive_solver].
  - split; [clear Hcm; naive_solver|auto].
  - naive_solver.
  - naive_solver.
  - done.
  - naive_solver.
  - auto.
Qed.

(** ** The invariant is kept *)

(** The complete frame. *)
Lemma part_whole e a q :
  part a (4 + exp_data_stores a) q → q_lost q = false → whole e (q_pend q).
Proof.
  intros [?|(ffw & ws & -> & Hf & Hu & ? & ?)] Hl; [congruence|]. left. split_and!; [done|lia|done].
Qed.

Lemma err_part_whole q : err_part 4 q → q_lost q = false → whole true (q_pend q).
Proof.
  intros [?|(ffw & ws & -> & Hf & Hr & Hu & ?)] Hl; [congruence|]. right.
  split; [done|]. split_and!; [done|done|lia|done].
Qed.

Section Invariant.
Context (size : Z) (erfm : bool).
Context (c : can_in) (m : reg_in) (q : queue) (a : core_monitor).
Context (Hi : queue_inv size erfm a q) (Hc : commands erfm c m q a).

Lemma q_read_words :
  (q_read q).1 ++ concat (q_read q).2 = tail (q_words q) ∧
  (Forall is_u32 (q_read q).1 ∧ Z.of_nat (length (q_read q).1) <= 19) ∧ Forall (whole erfm) (q_read q).2.
Proof using Hi.
  pose proof (qi_cur _ _ _ _ Hi) as [Hu Hl]. pose proof (qi_frames _ _ _ _ Hi) as Hf. unfold q_read, q_words. destruct (q_cur q) as [|x cur].
  - destruct (q_frames q) as [|f fs]; [by split_and!|]. apply Forall_cons in Hf as [Hf Hfs].
    destruct (whole_shape _ _ Hf) as (ffw & rest & -> & Hlen & ? & Hu'). apply Forall_cons in Hu' as [_ ?].
    simpl in *. split_and!; [done..|lia|done].
  - apply Forall_cons in Hu as [_ ?]. simpl in *. split_and!; [done..|lia|done].
Qed.

Lemma q_words_tail : (length (tail (q_words q)) <= length (q_words q))%nat.
Proof. destruct (q_words q); simpl; lia. Qed.

(** A command that is only given in some states is not given in the others. *)
Lemma no_flags : q_state q ≠ s_rxb_idle → q_commit q = false ∧ q_abort q = false.
Proof using Hi. intros Hne. pose proof (qi_flags _ _ _ _ Hi). destruct (q_commit q), (q_abort q); naive_solver. Qed.

Lemma mon_same :
  rec_abort_f c = false → q_state q ≠ s_rxb_idle →
  exp_data_stores (mon_tick c m a) = exp_data_stores a ∧
  act_data_stores (mon_tick c m a) = if store_data_f c then act_data_stores a + 1 else act_data_stores a.
Proof using Hc.
  intros Ha Hs. unfold mon_tick. rewrite Ha. pose proof (cm_store _ _ _ _ _ Hc).
  destruct (store_metadata_f c); [naive_solver|]. by destruct (store_data_f c).
Qed.

Lemma counts_next :
  let a' := mon_tick c m a in
  0 <= exp_data_stores a' <= 16 ∧ 0 <= act_data_stores a' <= exp_data_stores a' ∧
  counts erfm a' (next_state (q_state q) c m).
Proof using Hi Hc.
  destruct (qi_counts _ _ _ _ Hi) as (He & Ha & Hcnt). destruct Hc as [H1 H2 H3 H4 H5 _ _ H6 _].
  destruct (qi_mon _ _ _ _ Hi) as [Hm _].
  pose proof (frame_rwcnt_range (rec_meta c) (rec_erf (curr_state_proc (mon_state a) c))) as Hr.
  unfold mon_tick, counts, next_state in *. rewrite Hm in *. cbn [exp_data_stores act_data_stores held_meta].
  destruct (q_state q) eqn:Hs, (rec_abort_f c) eqn:Hab;
    try (destruct (H4 eq_refl) as [[?|[?|?]] _]; discriminate);
    destruct (store_metadata_f c) eqn:Hsm;
    try (destruct (H1 eq_refl) as [? ?]; discriminate);
    destruct (store_data_f c) eqn:Hsd;
    try (destruct (H2 eq_refl) as (? & ? & ? & ? & ?); discriminate);
    simpl in *; try lia.
  all: try destruct (mr_mode_erfm m); try destruct (rec_valid_f c); simpl; split_and!; auto; lia.
Qed.

(** The fields of [q_normal]. *)
Lemma normal_pend : q_pend (q_normal size c m q) = q_pend_next size c q.
Proof. unfold q_normal. by destruct (if read_attempt m then _ else _). Qed.

Lemma normal_state : q_state (q_normal size c m q) = next_state (q_state q) c m.
Proof. unfold q_normal. by destruct (if read_attempt m then _ else _). Qed.

Lemma normal_commit :
  q_commit (q_normal size c m q) = commit_intent (q_fsm c q) && negb (q_lost q || q_over size c q) ∧
  q_abort (q_normal size c m q) = commit_intent (q_fsm c q) && (q_lost q || q_over size c q).
Proof. unfold q_normal. by destruct (if read_attempt m then _ else _). Qed.

Lemma normal_lost : q_lost (q_normal size c m q) =
  (q_over size c q || mr_command_rrb m) || (negb (reset_overrun_flag (q_fsm c q)) && q_lost q).
Proof. unfold q_normal. by destruct (if read_attempt m then _ else _). Qed.

(** A word is appended, or lost. *)
Lemma part_push n :
  part a n q → q_state q ≠ s_rxb_idle → rec_abort_f c = false → write_raw_intent (q_fsm c q) = true →
  reset_overrun_flag (q_fsm c q) = false → is_u32 (q_data c q) →
  part (mon_tick c m a) (n + 1) (q_normal size c m q).
Proof using Hi Hc.
  intros Hp Hs Hab Hin Hro Hd. destruct (mon_same Hab Hs) as [He _]. destruct (no_flags Hs) as [Hc1 Hc2].
  unfold part. rewrite normal_lost, normal_pend, He, Hro. unfold q_pend_next. rewrite Hc1, Hc2, Hab, Hin.
  destruct (q_lost q) eqn:Hl, (q_over size c q), (mr_command_rrb m); simpl; try by left.
  right. destruct Hp as [?|(ffw & ws & -> & ? & ? & ? & ?)]; [congruence|].
  exists ffw, (ws ++ [q_data c q]). rewrite length_app, Forall_app, Forall_singleton. split_and!; done || simpl; lia.
Qed.

Lemma err_part_push n :
  err_part n q → q_state q ≠ s_rxb_idle → rec_abort_f c = false → write_raw_intent (q_fsm c q) = true →
  reset_overrun_flag (q_fsm c q) = false → is_u32 (q_data c q) →
  err_part (n + 1) (q_normal size c m q).
Proof using Hi.
  intros Hp Hs Hab Hin Hro Hd. destruct (no_flags Hs) as [Hc1 Hc2].
  unfold err_part. rewrite normal_lost, normal_pend, Hro. unfold q_pend_next. rewrite Hc1, Hc2, Hab, Hin.
  destruct (q_lost q) eqn:Hl, (q_over size c q), (mr_command_rrb m); simpl; try by left.
  right. destruct Hp as [?|(ffw & ws & -> & ? & ? & ? & ?)]; [congruence|].
  exists ffw, (ws ++ [q_data c q]). rewrite length_app, Forall_app, Forall_singleton. split_and!; done || simpl; lia.
Qed.

(** No word is appended; a timestamp word may be replaced. *)
Lemma part_keep n :
  part a n q → q_state q ≠ s_rxb_idle → rec_abort_f c = false → write_raw_intent (q_fsm c q) = false →
  reset_overrun_flag (q_fsm c q) = false → is_u32 (q_data c q) →
  part (mon_tick c m a) n (q_normal size c m q).
Proof using Hi Hc.
  intros Hp Hs Hab Hin Hro Hd. destruct (mon_same Hab Hs) as [He _]. destruct (no_flags Hs) as [Hc1 Hc2].
  unfold part. rewrite normal_lost, normal_pend, He, Hro. unfold q_pend_next, q_over. rewrite Hc1, Hc2, Hab, Hin.
  destruct (q_lost q) eqn:Hl, (mr_command_rrb m); simpl; try by left.
  right. destruct Hp as [?|(ffw & ws & Hw & ? & ? & ? & ?)]; [congruence|]. rewrite Hw.
  destruct (q_state q); try (exists ffw, ws; by split_and!);
    [exists ffw, (<[1%nat:=q_data c q]> ws)|exists ffw, (<[2%nat:=q_data c q]> ws)]; rewrite length_insert;
    (split_and!; [done|done|by apply Forall_insert|lia|done]).
Qed.

(** The word that is stored is a 32-bit word. *)
Lemma q_data_u32 : is_u32 (q_data c q).
Proof using Hi Hc.
  pose proof (cm_widths _ _ _ _ _ Hc) as Hw. pose proof (qi_time _ _ _ _ Hi).
  pose proof (port_widths_elim _ Hw) as ((? & _ & ?) & _).
  assert (is_u32 0) by by_compute. assert (is_u32 (rec_ident (rec_meta c))) by (unfold is_u32; lia).
  assert (is_u32 (q_time q mod 2 ^ 32)) by (apply Z.mod_pos_bound; lia).
  assert (is_u32 (q_time q / 2 ^ 32)) by (unfold is_u32; Z.div_mod_to_equations; lia).
  unfold q_data, q_fsm, rxb_port_a_data_in.
  destruct (q_state q); cbn [curr_state_proc fsm_write data_selector rec_erf]; try done; by apply frame_form_w_u32.
Qed.

Lemma normal_pend_nil :
  rec_abort_f c = true ∨ q_state q = s_rxb_idle → q_pend (q_normal size c m q) = [].
Proof using Hi.
  rewrite normal_pend. unfold q_pend_next. intros [->|Hs]; [by rewrite orb_true_r|].
  pose proof (qi_held _ _ _ _ Hi) as Hh. unfold held in Hh. rewrite Hs in Hh. destruct Hh as [_ Hh].
  unfold q_over, q_fsm. rewrite Hs. simpl. rewrite andb_false_r || idtac.
  destruct (q_commit q), (q_abort q), (rec_abort_f c); simpl; try done. destruct (q_lost q); simpl; auto.
Qed.

Lemma part_first :
  q_state q = s_rxb_store_frame_format → rec_abort_f c = false →
  part (mon_tick c m a) 1 (q_normal size c m q).
Proof using Hi Hc.
  intros Hs Hab. destruct (mon_same Hab ltac:(congruence)) as [He _].
  destruct (no_flags ltac:(congruence)) as [Hc1 Hc2].
  pose proof (qi_held _ _ _ _ Hi) as Hh. unfold held in Hh. rewrite Hs in Hh.
  destruct (qi_counts _ _ _ _ Hi) as (_ & _ & Hcnt). rewrite Hs in Hcnt. destruct Hcnt as [Hexp _].
  unfold part. rewrite normal_lost, normal_pend, He. unfold q_pend_next, q_data, q_fsm. rewrite Hc1, Hc2, Hab, Hs, Hh.
  simpl. rewrite Hab. destruct (q_over size c q), (mr_command_rrb m), (q_lost q); simpl; try by left.
  right. eexists _, []. pose proof (cm_widths _ _ _ _ _ Hc). split_and!; [done| |done|done|].
  - apply frame_form_w_hw; [done..|apply (cm_fd _ _ _ _ _ Hc)].
  - change (rxb_port_a_data_in _ c _) with (frame_form_w c false).
    destruct (frame_form_w_fields c false) as (_ & -> & _); [done|].
    rewrite (cm_meta _ _ _ _ _ Hc Hs). simpl in *. lia.
Qed.

Lemma err_part_first :
  q_state q = s_rxb_store_err_frame_format → err_part 1 (q_normal size c m q).
Proof using Hi Hc.
  intros Hs. destruct (no_flags ltac:(congruence)) as [Hc1 Hc2].
  assert (rec_abort_f c = false) as Hab.
  { destruct (rec_abort_f c) eqn:Hab; [|done]. destruct (cm_abort _ _ _ _ _ Hc Hab) as [[|[|]] _]; congruence. }
  pose proof (qi_held _ _ _ _ Hi) as Hh. unfold held in Hh. rewrite Hs in Hh.
  unfold err_part. rewrite normal_lost, normal_pend. unfold q_pend_next, q_data, q_fsm. rewrite Hc1, Hc2, Hab, Hs, Hh.
  simpl. destruct (q_over size c q), (mr_command_rrb m), (q_lost q); simpl; try by left.
  right. eexists _, []. pose proof (cm_widths _ _ _ _ _ Hc). split_and!; [done|by apply frame_form_w_u32| |done|done].
  change (rxb_port_a_data_in _ c _) with (frame_form_w c true).
  destruct (frame_form_w_fields c true) as (_ & -> & _); [done|]. unfold frame_rwcnt. by rewrite orb_true_r.
Qed.

Ltac stage := try done; try congruence; try (unfold q_fsm; match goal with H : q_state q = _ |- _ => rewrite H end; done).

Lemma held_next : mr_command_rrb m = false → held erfm (mon_tick c m a) (q_normal size c m q).
Proof using Hi Hc.
  intros Hrrb. pose proof (qi_held _ _ _ _ Hi) as Hh. destruct (qi_counts _ _ _ _ Hi) as (_ & _ & Hcnt).
  pose proof q_data_u32 as Hd. destruct normal_commit as [Hcm Hba].
  unfold held. rewrite normal_state, Hcm, Hba. clear Hcm Hba.
  assert (q_state q ≠ s_rxb_idle → q_state q ≠ s_rxb_store_frame_format → q_state q ≠ s_rxb_store_data →
    rec_abort_f c = false) as Hna.
  { intros ???. destruct (rec_abort_f c) eqn:Hab; [|done]. by destruct (cm_abort _ _ _ _ _ Hc Hab) as [[|[|]] _]. }
  unfold held in Hh. unfold next_state, q_fsm. destruct (q_state q) eqn:Hs; simpl; try (assert (rec_abort_f c = false) as Hab by (by apply Hna)).
  - pose proof (normal_pend_nil (or_intror Hs)). by destruct (store_metadata_f c), (mr_mode_erfm m && rec_abort_f c).
  - destruct (rec_abort_f c) eqn:Hab; [|by apply part_first].
    pose proof (normal_pend_nil (or_introl Hab)). by destruct (mr_mode_erfm m).
  - by apply (part_push 1); stage.
  - by apply (part_push 2); stage.
  - destruct (mon_same Hab ltac:(congruence)) as [_ ->].
    destruct (store_data_f c) eqn:Hsd.
    { destruct (cm_data _ _ _ _ _ Hc Hsd) as [? _]. congruence. }
    rewrite Hcnt. by apply (part_push 3); stage.
  - destruct (mon_same Hab ltac:(congruence)) as [-> _]. by apply part_keep; stage.
  - split; [|by intros ->%negb_false_iff ?]. intros [Hl Ho]%negb_true_iff%orb_false_iff.
    apply (part_whole _ (mon_tick c m a)).
    + destruct (mon_same Hab ltac:(congruence)) as [-> _]. by apply part_keep; stage.
    + rewrite normal_lost, Ho, Hrrb, Hl. apply andb_false_r.
  - destruct (rec_abort_f c) eqn:Hab; [pose proof (normal_pend_nil (or_introl Hab)); by destruct (mr_mode_erfm m)|].
    destruct (mon_same Hab ltac:(congruence)) as [He Hac]. rewrite He, Hac.
    destruct (rec_valid_f c) eqn:Hv.
    + destruct (cm_valid _ _ _ _ _ Hc Hv) as (_ & _ & <-).
      destruct (store_data_f c) eqn:Hsd; [destruct (cm_data _ _ _ _ _ Hc Hsd) as (_ & _ & ? & _); congruence|].
      by apply part_keep; stage.
    + destruct (store_data_f c) eqn:Hsd; [rewrite Z.add_assoc; by apply part_push; stage|].
      by apply part_keep; stage.
  - by apply err_part_first.
  - by apply (err_part_push 1); stage.
  - by apply (err_part_push 2); stage.
  - split; [|by intros ->%negb_false_iff ?]. intros [Hl Ho]%negb_true_iff%orb_false_iff.
    simpl in Hcnt. rewrite Hcnt. apply err_part_whole.
    + by apply (err_part_push 3); stage.
    + rewrite normal_lost, Ho, Hrrb, Hl. apply andb_false_r.
Qed.

(** What can be read afterwards: a word less if one is read, and the complete frame. *)
Lemma normal_words :
  q_words (q_normal size c m q) =
    (if read_attempt m then tail (q_words q) else q_words q) ++ (if q_commit q then q_pend q else []).
Proof using Hi.
  destruct q_read_words as [Hw _]. unfold q_words at 1, q_normal.
  destruct (read_attempt m); [rewrite <- Hw; destruct (q_read q) as [cur fs]|];
    destruct (q_commit q); cbn [q_cur q_frames fst snd]; rewrite ?concat_app; simpl; by rewrite ?app_nil_r, ?app_assoc.
Qed.

Lemma normal_frames :
  (Forall is_u32 (q_cur (q_normal size c m q)) ∧ Z.of_nat (length (q_cur (q_normal size c m q))) <= 19) ∧
  Forall (whole erfm) (q_frames (q_normal size c m q)).
Proof using Hi.
  destruct q_read_words as (_ & Hr & Hf). pose proof (qi_cur _ _ _ _ Hi). pose proof (qi_frames _ _ _ _ Hi).
  assert (q_commit q = true → whole erfm (q_pend q)) as Hp.
  { intros Hcm. pose proof (qi_held _ _ _ _ Hi) as Hh. unfold held in Hh.
    rewrite (qi_flags _ _ _ _ Hi) in Hh by (by rewrite Hcm). by apply Hh. }
  unfold q_normal. destruct (read_attempt m); [destruct (q_read q) as [cur fs]|]; cbn [q_cur q_frames fst snd] in *;
    (split; [done|]); (destruct (q_commit q); [|done]); apply Forall_app; split; [done|by constructor; auto|done|by constructor; auto].
Qed.

(** A word is only appended to an incomplete frame. *)
Lemma push_bound :
  write_raw_intent (q_fsm c q) = true → q_lost q = false → Z.of_nat (length (q_pend q)) <= 19.
Proof using Hi Hc.
  intros Hin Hl. destruct (qi_counts _ _ _ _ Hi) as (He & Ha & Hcnt).
  pose proof (qi_held _ _ _ _ Hi) as Hh. unfold held in Hh. unfold q_fsm in Hin.
  assert (∀ n, part a n q → n <= 19 → Z.of_nat (length (q_pend q)) <= 19) as Hp.
  { intros n [?|(? & ? & -> & _ & _ & ? & _)] Hn; [congruence|simpl; lia]. }
  assert (∀ n, err_part n q → n <= 19 → Z.of_nat (length (q_pend q)) <= 19) as Hep.
  { intros n [?|(? & ? & -> & _ & _ & _ & ?)] Hn; [congruence|simpl; lia]. }
  destruct (q_state q) eqn:Hs; simpl in Hin; try done; try (by rewrite Hh);
    try (eapply Hp; [exact Hh|lia]); try (eapply Hep; [exact Hh|lia]).
  destruct (cm_data _ _ _ _ _ Hc Hin) as (_ & _ & _ & _ & ?). eapply Hp; [exact Hh|lia].
Qed.

Lemma pend_next_length :
  Z.of_nat (length (q_pend_next size c q)) <= 20 ∧
  (q_commit q = true → q_pend_next size c q = []) ∧
  ((length (q_pend_next size c q) <= length (q_pend q))%nat ∨
   length (q_pend_next size c q) = S (length (q_pend q)) ∧ q_size q < size).
Proof using Hi Hc.
  pose proof (qi_pend _ _ _ _ Hi). unfold q_pend_next. destruct (q_commit q); simpl; [split_and!; [lia|done|lia]|].
  destruct (q_abort q || rec_abort_f c); simpl; [split_and!; [lia|done|lia]|].
  destruct (q_lost q) eqn:Hl, (q_over size c q) eqn:Ho; simpl; try (split_and!; [lia|done|lia]).
  destruct (write_raw_intent _) eqn:Hin.
  - pose proof (push_bound Hin Hl). unfold q_over in Ho. rewrite Hin in Ho. simpl in Ho.
    rewrite length_app; simpl. split_and!; [lia|done|lia].
  - destruct (q_state q); rewrite ?length_insert; split_and!; done || lia.
Qed.

Lemma normal_size : q_size (q_normal size c m q) <= size.
Proof using Hi Hc.
  destruct pend_next_length as (_ & Hcm & Hl). pose proof (qi_size _ _ _ _ Hi).
  unfold q_size in *. rewrite normal_words, normal_pend, length_app. pose proof q_words_tail.
  destruct (read_attempt m), (q_commit q); try rewrite Hcm by done; simpl; lia.
Qed.

Lemma normal_misc :
  (q_commit (q_normal size c m q) || q_abort (q_normal size c m q) = true →
   q_state (q_normal size c m q) = s_rxb_idle) ∧
  0 <= q_time (q_normal size c m q) < 2 ^ 64 ∧ q_reset (q_normal size c m q) = mr_command_rrb m.
Proof using Hi Hc.
  split; [|split].
  - destruct normal_commit as [-> ->]. rewrite normal_state. unfold q_fsm.
    destruct (q_state q), (q_lost q), (q_over size c q); simpl; try done.
  - pose proof (qi_time _ _ _ _ Hi). pose proof (cm_widths _ _ _ _ _ Hc) as Hw%port_widths_elim.
    unfold q_normal. destruct (if read_attempt m then _ else _); simpl. destruct (timestamp_capture_ce c m); tauto.
  - unfold q_normal. by destruct (if read_attempt m then _ else _).
Qed.

(** After a reset nothing is left, and the rest of a frame in reception is not stored. *)
Lemma clear_lost :
  q_reset q || mr_command_rrb m = true →
  let q' := q_normal size c m q in
  q_lost q' = true ∨ q_state q' = s_rxb_idle ∨ q_state q' = s_rxb_store_frame_format ∨
  q_state q' = s_rxb_store_err_frame_format.
Proof using Hi.
  intros Hr. cbv zeta. rewrite normal_lost, normal_state. destruct (mr_command_rrb m); [left; by rewrite orb_true_r|].
  rewrite orb_false_r in Hr. destruct (qi_reset _ _ _ _ Hi Hr) as [_ [Hl|Hs]].
  - rewrite Hl. unfold q_fsm, next_state. destruct (q_state q); simpl; rewrite ?orb_true_r; try (by left).
    right. destruct (store_metadata_f c), (mr_mode_erfm m && rec_abort_f c); auto.
  - rewrite Hs. right. simpl. destruct (store_metadata_f c), (mr_mode_erfm m && rec_abort_f c); auto.
Qed.

Lemma clear_held a' q' :
  q_lost q' = true ∨ q_state q' = s_rxb_idle ∨ q_state q' = s_rxb_store_frame_format ∨
  q_state q' = s_rxb_store_err_frame_format → held erfm a' (q_clear q').
Proof.
  unfold held, part, err_part. simpl. intros [-> | [-> | [-> | ->]]]; [|done..]. destruct (q_state q'); done || by left.
Qed.

Lemma mon_next :
  mon_state (mon_tick c m a) = q_state (q_normal size c m q) ∧
  (q_commit (q_normal size c m q) = true → frame_end (mon_tick c m a) = true).
Proof using Hi.
  destruct (qi_mon _ _ _ _ Hi) as [Hm _]. rewrite normal_state. destruct normal_commit as [-> _].
  unfold mon_tick, q_fsm. rewrite Hm. destruct (if rec_abort_f c then _ else _). split; [done|]. by intros [? _]%andb_true_iff.
Qed.

(** The invariant is kept by every cycle of the protocol. *)
Lemma queue_inv_tick : queue_inv size erfm (mon_tick c m a) (q_tick size c m q).
Proof using Hi Hc.
  pose proof counts_next as Hcnt. pose proof mon_next as Hm. destruct normal_misc as (Hfl & Ht & Hr).
  destruct normal_frames as [Hcu Hfr]. pose proof normal_size. destruct pend_next_length as (Hp & _). rewrite <- normal_pend in Hp.
  pose proof (qi_size _ _ _ _ Hi). unfold q_tick. destruct (q_reset q || mr_command_rrb m) eqn:Hrst.
  - pose proof (clear_lost Hrst) as Hl. split; simpl; try done; try lia.
    + split; [apply Hm|done].
    + unfold q_size in *. simpl. lia.
    + intros Hr'. split; [done|]. rewrite Hr in Hr'. left. by rewrite normal_lost, Hr', orb_true_r.
    + by rewrite normal_state.
    + by apply clear_held.
  - apply orb_false_iff in Hrst as [_ Hrrb]. split; try done.
    + destruct normal_commit as [-> ->]. by destruct (commit_intent _), (q_lost q || q_over size c q).
    + rewrite Hr, Hrrb. done.
    + by rewrite normal_state.
    + by apply held_next.
Qed.

End Invariant.

Definition mon_init (md : metadata) : core_monitor :=
  {| mon_state := s_rxb_idle; exp_data_stores := 0; act_data_stores := 0; held_meta := md; frame_end := false |}.

Lemma queue_inv_init size e md : 0 <= size → queue_inv size e (mon_init md) q_init.
Proof. intros. split; simpl; try done; try lia; auto. Qed.

(** ** Sample cycles *)

Definition md0 : metadata :=
  {| rec_ident := 0x048C0000; rec_dlc := 0; rec_ident_type := false; rec_frame_type := false; rec_lbpf := false;
     rec_is_rtr := false; rec_brs := false; rec_esi := false; rec_ivld := true |}.

Definition md_dlc (d : Z) : metadata :=
  {| rec_ident := rec_ident md0; rec_dlc := d; rec_ident_type := false; rec_frame_type := false; rec_lbpf := false;
     rec_is_rtr := false; rec_brs := false; rec_esi := false; rec_ivld := true |}.

(** A cycle in which the CAN core gives the commands [store], [data], [valid], [abort]. *)
Definition can_cmd (md : metadata) (store data valid abort : bool) (w : Z) : can_in :=
  {| rec_meta := md; store_metadata_f := store; store_data_f := data; rec_valid_f := valid; rec_abort_f := abort;
     store_data_word := w; sof_pulse := false; err_capt_err_type := 1; err_capt_err_pos := 2;
     err_capt_err_erp := false; timestamp := 0x700000008; curr_txtb_index := 0 |}.

Definition can_quiet (md : metadata) : can_in := can_cmd md false false false false 0.

(** The memory registers in automatic mode, with or without a read of RX_DATA, and with
    error frames logged or not. *)
Definition regs (read erfm : bool) : reg_in :=
  {| mr_mode_rxbam := true; mr_command_cdo := false; mr_command_rrb := false; mr_command_rxrpmv := false;
     mr_rx_data_read := read; mr_rx_settings_rtsop := false; mr_mode_erfm := erfm |}.

(** The CAN core stores a frame with the data words [ds]; software reads or not meanwhile. *)
Definition frame_cycles (md : metadata) (ds : list Z) : list can_in :=
  can_cmd md true false false false 0 :: replicate 4 (can_quiet md) ++
  (can_cmd md false true false false <$> ds) ++ [can_cmd md false false true false 0] ++ replicate 3 (can_quiet md).

Definition with_regs (read erfm : bool) (cs : list can_in) : list (can_in * reg_in) := (λ c, (c, regs read erfm)) <$> cs.

(** An error frame is logged. *)
Definition error_cycles : list can_in := can_cmd md0 false false false true 0 :: replicate 5 (can_quiet md0).
