(* ===== verification/RxStore.v ===== *)
(** * A received frame is stored

    A frame that the CAN core receives without an error, and for which there is space when it
    begins, joins the queue as a whole: its words are the frame format word, the identifier, the captured timestamp and
    the data words in the order in which the core gave them, behind everything that was there and
    whatever software reads meanwhile. *)

From Stdlib Require Import ZArith Lia.
From stdpp Require Import base numbers list.
From S2P Require Import Prelude LinuxDefs World Kregs RxFifo RxRtl RxQueue.

#[local] Open Scope Z_scope.

Section Store.
Context (N : Z) (erfm : bool).

(** The queue after a run. *)
Definition q_end (ins : list (can_in * reg_in)) (q : queue) : queue :=
  fold_left (λ q i, q_tick N (fst i) (snd i) q) ins q.

Definition mon_end (ins : list (can_in * reg_in)) (a : core_monitor) : core_monitor :=
  fold_left (λ a i, mon_tick (fst i) (snd i) a) ins a.

Lemma q_end_app l1 l2 q : q_end (l1 ++ l2) q = q_end l2 (q_end l1 q).
Proof. apply fold_left_app. Qed.

Lemma protocol_run_app l1 l2 a :
  protocol_run erfm (l1 ++ l2) a = protocol_run erfm l1 a && protocol_run erfm l2 (mon_end l1 a).
Proof.
  revert a. induction l1 as [|[c m] l1 IH]; intros a; simpl; [done|]. by rewrite IH, andb_assoc.
Qed.

(** No error, and software does not release the buffer. *)
Definition undisturbed (i : can_in * reg_in) : Prop := rec_abort_f (fst i) = false ∧ mr_command_rrb (snd i) = false.

(** The frame that joins the queue in this cycle. *)
Definition joining (q : queue) : list Z := if q_commit q then q_pend q else [].

(** In the middle of a frame: its words [f] so far, some of the words [w] still unread, and the time
    captured. *)
Definition storing (w f : list Z) (tm : Z) (st : t_rx_buf_state) (q : queue) : Prop :=
  (∃ r, q_words q = drop r w) ∧ q_pend q = f ∧ q_time q = tm ∧ q_state q = st ∧ q_lost q = false ∧
  q_reset q = false ∧ q_commit q = false ∧ q_abort q = false.

(** The words of the frame after a cycle. *)
Definition stored (c : can_in) (q : queue) : list Z :=
  if write_raw_intent (q_fsm c q) then q_pend q ++ [q_data c q]
  else match q_state q with
       | s_rxb_store_end_ts_low => <[2%nat := q_data c q]> (q_pend q)
       | s_rxb_store_end_ts_high => <[3%nat := q_data c q]> (q_pend q)
       | _ => q_pend q
       end.

Lemma tail_drop r (w : list Z) : tail (drop r w) = drop (S r) w.
Proof. revert w. induction r as [|r IH]; intros [|x w]; simpl; done. Qed.

Lemma storing_step w f tm st a q c m :
  queue_inv N erfm a q → commands erfm c m q a → storing w f tm st q → undisturbed (c, m) →
  st ≠ s_rxb_idle → commit_intent (q_fsm c q) = false →
  (write_raw_intent (q_fsm c q) = true → Z.of_nat (length w) + Z.of_nat (length f) < N) →
  storing w (stored c q) (if negb (mr_rx_settings_rtsop m) && rec_valid_f c then timestamp c else tm)
    (next_state st c m) (q_tick N c m q).
Proof.
  intros Hi Hc ((r & Hw) & Hp & Htm & Hst & Hl & Hrs & Hcm & Hab) [Hna Hrrb] Hid Hci Hspace. simpl in *.
  assert (sof_pulse c = false) as Hsof.
  { destruct (sof_pulse c) eqn:Hs; [|done]. pose proof (cm_sof _ _ _ _ _ Hc Hs) as Hr.
    unfold q_fsm in Hr. rewrite Hst in Hr. by destruct st. }
  assert (q_over N c q = false) as Ho.
  { unfold q_over. destruct (write_raw_intent _); [|done]. specialize (Hspace eq_refl). simpl.
    unfold q_size. rewrite Hw, Hp, length_drop. apply Z.leb_gt. lia. }
  unfold q_tick. rewrite Hrs, Hrrb. simpl. destruct (normal_commit N c m q) as [Hc' Ha'].
  split_and!.
  - rewrite (normal_words N erfm c m q a) by done. rewrite Hcm, app_nil_r, Hw.
    destruct (read_attempt m); [rewrite tail_drop|]; by eexists.
  - rewrite normal_pend. unfold q_pend_next, stored. by rewrite Hcm, Hab, Hna, Hl, Ho.
  - unfold q_normal. destruct (if read_attempt m then _ else _). simpl. unfold timestamp_capture_ce.
    rewrite Hsof, Hna, !andb_false_r, !orb_false_r. by destruct (mr_rx_settings_rtsop m), (rec_valid_f c).
  - by rewrite normal_state, Hst.
  - rewrite normal_lost, Ho, Hrrb, Hl. apply andb_false_r.
  - unfold q_normal. by destruct (if read_attempt m then _ else _).
  - by rewrite Hc', Hci.
  - by rewrite Ha', Hci.
Qed.

(** The first cycle, in which a frame may still join. *)
Lemma storing_begin a q c m :
  queue_inv N erfm a q → q_state q = s_rxb_idle → q_reset q = false → store_metadata_f c = true → undisturbed (c, m) →
  storing (q_words q ++ joining q) [] (q_time (q_tick N c m q)) s_rxb_store_frame_format (q_tick N c m q).
Proof.
  intros Hi Hs Hrs Hsm [Hna Hrrb]. simpl in *. unfold q_tick. rewrite Hrs, Hrrb. simpl.
  destruct (normal_commit N c m q) as [Hc' Ha']. unfold q_fsm in *. rewrite Hs in *. simpl in *. split_and!; try done.
  - rewrite (normal_words N erfm c m q a) by done. unfold joining. destruct (read_attempt m); [|by exists 0%nat].
    destruct (q_words q) as [|x ws]; [by exists 0%nat|by exists 1%nat].
  - apply (normal_pend_nil N erfm c m q a Hi). by right.
  - rewrite normal_state, Hs. simpl. by rewrite Hsm.
  - rewrite normal_lost. unfold q_over, q_fsm. by rewrite Hs, Hrrb.
  - unfold q_normal. by destruct (if read_attempt m then _ else _).
Qed.

(** The end: the frame joins. *)
Lemma storing_end w f tm a q c m q' c' m' :
  queue_inv N erfm a q → storing w f tm s_rxb_store_end_ts_high q → undisturbed (c, m) → q' = q_tick N c m q →
  queue_inv N erfm (mon_tick c m a) q' → undisturbed (c', m') →
  ∃ r, q_words (q_tick N c' m' q') = drop r w ++ stored c q.
Proof.
  intros Hi ((r & Hw) & Hp & _ & Hst & Hl & Hrs & Hcm & Hab) [Hna Hrrb] -> Hi' [_ Hrrb']. simpl in *.
  assert (q_over N c q = false) as Ho by (unfold q_over, q_fsm; by rewrite Hst).
  unfold q_tick in *. rewrite Hrs, Hrrb in *. simpl in *. destruct (normal_commit N c m q) as [Hc' _].
  assert (q_reset (q_normal N c m q) = false) as Hrs'.
  { unfold q_normal. by destruct (if read_attempt m then _ else _). }
  rewrite Hrs', Hrrb'. simpl. rewrite (normal_words N erfm c' m' _ _ Hi'), Hc', Hl, Ho.
  unfold q_fsm at 1. rewrite Hst. simpl.
  rewrite normal_pend. unfold q_pend_next. rewrite Hcm, Hab, Hna, Hl, Ho. simpl.
  rewrite (normal_words N erfm c m q a) by done. rewrite Hcm, app_nil_r, Hw.
  destruct (read_attempt m), (read_attempt m'); rewrite ?tail_drop; by eexists.
Qed.

Lemma inv_steps a q c m : queue_inv N erfm a q → protocol erfm c m a = true →
  queue_inv N erfm (mon_tick c m a) (q_tick N c m q).
Proof. intros Hi Hp. apply queue_inv_tick; [done|]. by eapply protocol_commands. Qed.

(** The data words. *)
Definition data_words (ins : list (can_in * reg_in)) : list Z :=
  (λ i, store_data_word (fst i)) <$> filter (λ i, store_data_f (fst i) = true) ins.

Lemma storing_data w tm ins : ∀ f a q,
  queue_inv N erfm a q → storing w f tm s_rxb_store_data q →
  Forall undisturbed ins → Forall (λ i, rec_valid_f (fst i) = false) ins →
  protocol_run erfm ins a = true →
  Z.of_nat (length w) + Z.of_nat (length f) + (exp_data_stores a - act_data_stores a) <= N →
  let a' := mon_end ins a in
  queue_inv N erfm a' (q_end ins q) ∧ storing w (f ++ data_words ins) tm s_rxb_store_data (q_end ins q) ∧
  exp_data_stores a' = exp_data_stores a ∧
  act_data_stores a' = act_data_stores a + Z.of_nat (length (data_words ins)).
Proof.
  induction ins as [|[c m] ins IH]; intros f a q Hi Hs Hu Hv Hp Hn; cbv zeta.
  { simpl. rewrite app_nil_r. split_and!; try done; lia. }
  apply Forall_cons in Hu as [Hu Hus]. apply Forall_cons in Hv as [Hv Hvs].
  simpl in Hp. apply andb_true_iff in Hp as [Hp Hps]. pose proof (inv_steps _ _ _ _ Hi Hp) as Hi'.
  pose proof (protocol_commands _ _ _ _ _ _ Hi Hp) as Hcm.
  pose proof Hs as (_ & Hpd & _ & Hst & _). destruct (mon_same erfm c m q a Hcm) as [He Ha]; [apply Hu|congruence|].
  pose proof (storing_step w f tm _ a q c m Hi Hcm Hs Hu ltac:(done)) as Hstep.
  unfold next_state, stored, q_data, q_fsm in Hstep. rewrite Hst, Hpd in Hstep. simpl in Hstep, Hv.
  destruct Hu as [Hna Hrrb]. simpl in Hna. rewrite Hna, Hv, andb_false_r in Hstep.
  specialize (Hstep eq_refl). unfold data_words. rewrite filter_cons. simpl fst.
  destruct (store_data_f c) eqn:Hsd; simpl in Hstep.
  - destruct (cm_data _ _ _ _ _ Hcm Hsd) as (_ & _ & _ & _ & Hlt).
    destruct (decide _) as [_|]; [|done].
    destruct (IH (f ++ [store_data_word c]) (mon_tick c m a) (q_tick N c m q)) as (H1 & H2 & H3 & H4); try done.
    + apply Hstep. intros _. lia.
    + rewrite He, Ha, length_app. simpl. lia.
    + simpl. split_and!; [done| |congruence|].
      * rewrite <- app_assoc in H2. exact H2.
      * rewrite H4, Ha. unfold data_words, fmap. simpl length. lia.
  - destruct (decide _) as [|_]; [done|].
    destruct (IH f (mon_tick c m a) (q_tick N c m q)) as (H1 & H2 & H3 & H4); try done.
    + by apply Hstep.
    + by rewrite He, Ha.
    + simpl. split_and!; [done|done|congruence|by rewrite H4, Ha].
Qed.

(** A cycle that appends a word, before the data. *)
Lemma storing_push w f tm st a q c m d st' :
  queue_inv N erfm a q → protocol erfm c m a = true → storing w f tm st q → undisturbed (c, m) →
  rxb_port_a_data_in (curr_state_proc st c) c tm = d → next_state st c m = st' →
  st ≠ s_rxb_idle → st ≠ s_rxb_store_data →
  write_raw_intent (curr_state_proc st c) = true → commit_intent (curr_state_proc st c) = false →
  Z.of_nat (length w) + Z.of_nat (length f) < N →
  let a' := mon_tick c m a in
  queue_inv N erfm a' (q_tick N c m q) ∧
  storing w (f ++ [d]) tm st' (q_tick N c m q) ∧
  exp_data_stores a' = exp_data_stores a ∧ act_data_stores a' = act_data_stores a.
Proof.
  intros Hi Hp Hs Hu <- <- Hid Hd Hin Hci Hn. pose proof (protocol_commands _ _ _ _ _ _ Hi Hp) as Hc.
  pose proof Hs as (_ & Hpd & Htm & Hst & _). cbv zeta.
  assert (rec_valid_f c = false) as Hv.
  { destruct (rec_valid_f c) eqn:Hv; [|done]. destruct (cm_valid _ _ _ _ _ Hc Hv). congruence. }
  assert (store_data_f c = false) as Hsd.
  { destruct (store_data_f c) eqn:Hsd; [|done]. destruct (cm_data _ _ _ _ _ Hc Hsd). congruence. }
  destruct (mon_same erfm c m q a Hc) as [He Ha]; [apply Hu|congruence|]. rewrite Hsd in Ha.
  split_and!; [by apply inv_steps| |done|done].
  pose proof (storing_step w f tm st a q c m Hi Hc Hs Hu Hid) as Hstep.
  unfold stored, q_data, q_fsm in Hstep. rewrite Hst, Hpd, Htm, Hin, Hv, andb_false_r in Hstep. by apply Hstep.
Qed.

Lemma first_data c tm :
  rxb_port_a_data_in (curr_state_proc s_rxb_store_frame_format c) c tm = frame_form_w c false.
Proof. unfold rxb_port_a_data_in, curr_state_proc. by cbn [data_selector rec_erf fsm_write]. Qed.

(** The first five cycles. *)
Lemma storing_head i0 i1 i2 i3 i4 a q :
  let ins := [i0; i1; i2; i3; i4] in
  let w := q_words q ++ joining q in
  queue_inv N erfm a q → q_state q = s_rxb_idle → q_reset q = false →
  Forall undisturbed ins → protocol_run erfm ins a = true → store_metadata_f (fst i0) = true →
  Z.of_nat (length w) + 4 <= N →
  let a' := mon_end ins a in
  queue_inv N erfm a' (q_end ins q) ∧
  storing w [frame_form_w (fst i1) false; rec_ident (rec_meta (fst i2)); 0; 0] (q_time (q_tick N (fst i0) (snd i0) q))
    s_rxb_store_data (q_end ins q) ∧
  exp_data_stores a' = frame_rwcnt (rec_meta (fst i1)) false - 3 ∧ act_data_stores a' = 0.
Proof.
  destruct i0 as [c0 m0], i1 as [c1 m1], i2 as [c2 m2], i3 as [c3 m3], i4 as [c4 m4]. cbv zeta. cbn [fst snd].
  intros Hi Hid Hrs Hu Hp Hsm Hn. simpl in Hp. rewrite !Forall_cons in Hu. destruct Hu as (Hu0 & Hu1 & Hu2 & Hu3 & Hu4 & _).
  repeat match type of Hp with _ && _ = true => apply andb_true_iff in Hp as [? Hp] end.
  pose proof (storing_begin a q c0 m0 Hi Hid Hrs Hsm Hu0) as S1. pose proof (inv_steps _ _ _ _ Hi H) as I1.
  pose proof Hu1 as [Hna1 _]. simpl in Hna1.
  destruct (storing_push _ _ _ _ _ _ c1 m1 (frame_form_w c1 false) s_rxb_store_identifier I1 H0 S1 Hu1
    (first_data c1 _) ltac:(by simpl; rewrite Hna1) ltac:(done) ltac:(done) ltac:(by simpl; rewrite Hna1) eq_refl)
    as (I2 & S2 & E2 & A2); [simpl; lia|].
  destruct (storing_push _ _ _ _ _ _ c2 m2 (rec_ident (rec_meta c2)) s_rxb_skip_ts_low I2 H1 S2 Hu2
    eq_refl eq_refl ltac:(done) ltac:(done) eq_refl eq_refl) as (I3 & S3 & E3 & A3); [simpl; lia|].
  destruct (storing_push _ _ _ _ _ _ c3 m3 0 s_rxb_skip_ts_high I3 H2 S3 Hu3
    eq_refl eq_refl ltac:(done) ltac:(done) eq_refl eq_refl) as (I4 & S4 & E4 & A4); [simpl; lia|].
  destruct (storing_push _ _ _ _ _ _ c4 m4 0 s_rxb_store_data I4 H3 S4 Hu4
    eq_refl eq_refl ltac:(done) ltac:(done) eq_refl eq_refl) as (I5 & S5 & E5 & A5); [simpl; lia|].
  cbn [mon_end q_end fold_left fst snd]. split_and!; [done|exact S5| |].
  - rewrite E5, E4, E3, E2. pose proof (protocol_commands _ _ _ _ _ _ I1 H0) as Hc1.
    rewrite (cm_meta _ _ _ _ _ Hc1) by apply S1. unfold mon_tick. destruct Hu0 as [Hna0 _]. simpl in Hna0.
    destruct (qi_mon _ _ _ _ Hi) as [-> _]. rewrite Hna0, Hsm, Hid. done.
  - rewrite A5, A4, A3, A2. unfold mon_tick. destruct Hu0 as [Hna0 _]. simpl in Hna0. rewrite Hna0, Hsm.
    pose proof (protocol_commands _ _ _ _ _ _ Hi H) as Hc0.
    destruct (store_data_f c0) eqn:Hsd; [|done]. destruct (cm_data _ _ _ _ _ Hc0 Hsd). congruence.
Qed.

(** The last cycles: the timestamp is filled in, and the frame joins. *)
Lemma storing_tail w f tm iv ie1 ie2 ie3 a q :
  let ins := [iv; ie1; ie2; ie3] in
  let t := if mr_rx_settings_rtsop (snd iv) then tm else timestamp (fst iv) in
  queue_inv N erfm a q → storing w f tm s_rxb_store_data q → (4 <= length f)%nat →
  Forall undisturbed ins → protocol_run erfm ins a = true → rec_valid_f (fst iv) = true →
  let frame := <[3%nat := t / 2 ^ 32]> (<[2%nat := t mod 2 ^ 32]> f) in
  hw_frame frame ∧ ∃ r, q_words (q_end ins q) = drop r w ++ frame.
Proof.
  destruct iv as [cv mv], ie1 as [c1 m1], ie2 as [c2 m2], ie3 as [c3 m3]. cbv zeta. cbn [fst snd].
  intros I0 S0 Hf Hu Hp Hv. simpl in Hp. rewrite !Forall_cons in Hu. destruct Hu as (Hu0 & Hu1 & Hu2 & Hu3 & _).
  repeat match type of Hp with _ && _ = true => apply andb_true_iff in Hp as [? Hp] end.
  pose proof (inv_steps _ _ _ _ I0 H) as I1. pose proof (inv_steps _ _ _ _ I1 H0) as I2.
  pose proof (inv_steps _ _ _ _ I2 H1) as I3.
  pose proof (protocol_commands _ _ _ _ _ _ I0 H) as C0. pose proof (protocol_commands _ _ _ _ _ _ I1 H0) as C1.
  destruct (cm_valid _ _ _ _ _ C0 Hv) as (_ & Hna & _).
  assert (store_data_f cv = false) as Hsd.
  { destruct (store_data_f cv) eqn:Hsd; [|done]. destruct (cm_data _ _ _ _ _ C0 Hsd) as (_ & _ & ? & _). congruence. }
  pose proof (storing_step w f tm _ a q cv mv I0 C0 S0 Hu0 ltac:(done)) as S1.
  pose proof S0 as (_ & Hpd & _ & Hst & _).
  unfold stored, q_fsm in S1. rewrite Hst, Hpd, Hv in S1. simpl in S1. rewrite Hsd, Hna, Hv, andb_true_r in S1.
  specialize (S1 eq_refl ltac:(done)).
  replace (if negb (mr_rx_settings_rtsop mv) then timestamp cv else tm) with
    (if mr_rx_settings_rtsop mv then tm else timestamp cv) in S1 by (by destruct (mr_rx_settings_rtsop mv)).
  set (t := if mr_rx_settings_rtsop mv then _ else _) in *.
  pose proof (storing_step w _ t _ _ _ c1 m1 I1 C1 S1 Hu1 ltac:(done)) as S2.
  pose proof S1 as (_ & Hpd1 & Htm1 & Hst1 & _).
  unfold stored, q_data, q_fsm in S2. rewrite Hst1, Hpd1, Htm1 in S2. simpl in S2. specialize (S2 eq_refl ltac:(done)).
  assert (rec_valid_f c1 = false) as Hv1.
  { destruct (rec_valid_f c1) eqn:Hv1; [|done]. destruct (cm_valid _ _ _ _ _ C1 Hv1). congruence. }
  rewrite Hv1, andb_false_r in S2. change (rxb_port_a_data_in _ c1 t) with (t mod 2 ^ 32) in S2.
  destruct (storing_end w _ t _ _ c2 m2 _ c3 m3 I2 S2 Hu2 eq_refl I3 Hu3) as [r Hr].
  pose proof S2 as (_ & Hpd2 & Htm2 & Hst2 & Hl2 & _).
  unfold stored, q_data, q_fsm in Hr. rewrite Hst2, Hpd2, Htm2 in Hr. simpl in Hr.
  change (rxb_port_a_data_in _ c2 t) with (t / 2 ^ 32) in Hr. split; [|by exists r].
  pose proof (qi_held _ _ _ _ I2) as Hh. unfold held, part in Hh. rewrite Hst2, Hpd2 in Hh.
  destruct Hh as [?|(ffw & ws & Hw & Hf' & Hws & Hlen & Hrw)]; [congruence|]. rewrite Hw.
  change (<[3%nat:=t / 2 ^ 32]> (ffw :: ws)) with (ffw :: <[2%nat:=t / 2 ^ 32]> ws).
  pose proof (qi_time _ _ _ _ I2) as Ht. rewrite Htm2 in Ht. split_and!.
  - done.
  - rewrite length_insert. lia.
  - apply Forall_insert; [done|]. unfold is_u32. Z.div_mod_to_equations; lia.
Qed.

(** C12: A received frame is stored.  From any state between two frames, when the CAN core receives a
    frame without an error (metadata, the data words with any pauses, end of frame) and the
    whole frame fits behind the words that are there (a frame that joins just now
    included), then afterwards the queue ends with exactly this frame: its format word, the
    identifier, the timestamp that RX_SETTINGS selects (of the end of the frame or of its start), and the
    data words in the order of the core.  Of the words before it only a prefix is gone, as
    software has read meanwhile; and the frame has the shape that the drivers expect. *)
Theorem received_frame_stored i0 i1 i2 i3 i4 data iv ie1 ie2 ie3 a q :
  let ins := [i0; i1; i2; i3; i4] ++ data ++ [iv; ie1; ie2; ie3] in
  let w := q_words q ++ joining q in
  let tm := if mr_rx_settings_rtsop (snd iv) then q_time (q_tick N (fst i0) (snd i0) q) else timestamp (fst iv) in
  let frame := [frame_form_w (fst i1) false; rec_ident (rec_meta (fst i2)); tm mod 2 ^ 32; tm / 2 ^ 32] ++
    data_words data in
  queue_inv N erfm a q → q_state q = s_rxb_idle → q_reset q = false →
  Forall undisturbed ins → protocol_run erfm ins a = true →
  store_metadata_f (fst i0) = true →
  Forall (λ i, rec_valid_f (fst i) = false) data → rec_valid_f (fst iv) = true →
  Z.of_nat (length w) + 1 + frame_rwcnt (rec_meta (fst i1)) false <= N →
  hw_frame frame ∧ ∃ r, q_words (q_end ins q) = drop r w ++ frame.
Proof.
  cbv zeta. intros Hi Hid Hrs Hu Hp Hsm Hdv Hv Hn.
  pose proof (frame_rwcnt_range (rec_meta (fst i1)) false).
  rewrite !protocol_run_app in Hp. apply andb_true_iff in Hp as [Hp1 [Hp2 Hp3]%andb_true_iff].
  apply Forall_app in Hu as [Hu1 [Hu2 Hu3]%Forall_app].
  destruct (storing_head i0 i1 i2 i3 i4 a q Hi Hid Hrs Hu1 Hp1 Hsm) as (I1 & S1 & E1 & A1); [lia|].
  destruct (storing_data _ _ data _ _ _ I1 S1 Hu2 Hdv Hp2) as (I2 & S2 & E2 & A2); [rewrite E1, A1; simpl; lia|].
  destruct (storing_tail _ _ _ iv ie1 ie2 ie3 _ _ I2 S2) as [Hf [r Hr]]; [rewrite length_app; simpl; lia|done..|].
  rewrite !q_end_app. split; [exact Hf|]. by exists r.
Qed.

End Store.

(** ** A frame *)

(** One cycle after power-up. *)
Definition ready : queue := q_tick 32 (can_quiet md0) (regs false false) q_init.

Definition ready_mon : core_monitor := mon_tick (can_quiet md0) (regs false false) (mon_init md0).

(** A frame of five bytes, with a pause between the words. *)
Definition sample_data : list (can_in * reg_in) :=
  with_regs true false (can_quiet <$> [md_dlc 5]) ++
  [(can_cmd (md_dlc 5) false true false false 0x04030201, regs true false)] ++
  with_regs false false (can_quiet <$> [md_dlc 5]) ++
  [(can_cmd (md_dlc 5) false true false false 5, regs false false)].

Lemma received_frame_witness :
  let i := (can_quiet (md_dlc 5), regs false false) in
  let i0 := (can_cmd (md_dlc 5) true false false false 0, regs false false) in
  let iv := (can_cmd (md_dlc 5) false false true false 0, regs true false) in
  let frame := [frame_form_w (can_quiet (md_dlc 5)) false; 0x048C0000; 8; 7; 0x04030201; 5] in
  hw_frame frame ∧
  ∃ r, q_words (q_end 32 ([i0; i; i; i; i] ++ sample_data ++ [iv; i; i; i]) ready) = drop r [] ++ frame.
Proof.
  set (i := (can_quiet (md_dlc 5), regs false false)).
  apply (received_frame_stored 32 false (can_cmd (md_dlc 5) true false false false 0, regs false false) i i i i sample_data
    (can_cmd (md_dlc 5) false false true false 0, regs true false) i i i ready_mon ready);
    [|done|done|by repeat constructor|by vm_compute|done|by repeat constructor|done|done].
  apply queue_inv_tick; [by apply queue_inv_init|]. eapply protocol_commands; [by apply (queue_inv_init 32)|by vm_compute].
Defined.
