(* ===== verification/RxRefine.v ===== *)
(** * The RX buffer implements the queue

    The registers, the counters and the memory of [RxRtl] against the queue of [RxQueue]: in every cycle
    the outputs to the memory registers are the same, for every size from 32 words and both
    technologies, as long as the CAN core keeps to the protocol. *)

From Stdlib Require Import ZArith Lia.
From stdpp Require Import base numbers list.
From S2P Require Import Prelude LinuxDefs World Kregs RxFifo RxRtl RxQueue.

#[local] Open Scope Z_scope.

(** ** Circular buffers *)

Section Ring.
Context (N : Z) (HN : 0 < N).

(** The list [l] is in the memory from address [p] on, around the end. *)
Definition ring (ram : list Z) (p : Z) (l : list Z) : Prop :=
  ∀ j x, l !! j = Some x → ram !! Z.to_nat ((p + Z.of_nat j) mod N) = Some x.

Lemma mod_add x y : (x mod N + y) mod N = (x + y) mod N.
Proof. apply Zplus_mod_idemp_l. Qed.

Lemma mod_inj p i j : 0 <= i < N → 0 <= j < N → (p + i) mod N = (p + j) mod N → i = j.
Proof using HN.
  intros Hi Hj H. assert ((i - j) mod N = 0) as Hd.
  { replace (i - j) with ((p + i) - (p + j)) by lia. by rewrite Zminus_mod, H, Z.sub_diag. }
  apply Z.mod_divide in Hd as [k Hk]; [|lia]. assert (k = 0) by nia. lia.
Qed.

Lemma ring_app ram p l k : ring ram p (l ++ k) → ring ram p l.
Proof. intros Hr j x Hj. by apply Hr, lookup_app_l_Some. Qed.

Lemma ring_tail ram p l : ring ram p l → ring ram ((p + 1) mod N) (tail l).
Proof.
  intros Hr j x Hj. rewrite mod_add. destruct l as [|y l]; [done|].
  replace (p + 1 + Z.of_nat j) with (p + Z.of_nat (S j)) by lia. by apply Hr.
Qed.

Lemma ring_head ram p l x : 0 <= p < N → ring ram p l → head l = Some x → ram !! Z.to_nat p = Some x.
Proof.
  intros Hp Hr Hx. destruct l as [|y l]; [done|]. simplify_eq/=.
  specialize (Hr 0%nat x eq_refl). by rewrite Z.add_0_r, Z.mod_small in Hr.
Qed.

Lemma addr_lt (ram : list Z) x : Z.of_nat (length ram) = N → (Z.to_nat (x mod N) < length ram)%nat.
Proof using HN. intros. pose proof (Z.mod_pos_bound x N HN). lia. Qed.

(** A write within the list. *)
Lemma ring_insert ram p l (j : nat) x :
  Z.of_nat (length ram) = N → Z.of_nat (length l) <= N → (j < length l)%nat → ring ram p l →
  ring (<[Z.to_nat ((p + Z.of_nat j) mod N) := x]> ram) p (<[j := x]> l).
Proof using HN.
  intros Hram Hl Hj Hr i y Hi. pose proof (addr_lt ram (p + Z.of_nat j) Hram).
  destruct (decide (i = j)) as [->|Hne].
  - rewrite list_lookup_insert_eq in Hi by done. by rewrite list_lookup_insert_eq by done.
  - rewrite list_lookup_insert_ne in Hi by done. pose proof (lookup_lt_Some _ _ _ Hi).
    rewrite list_lookup_insert_ne; [by apply Hr|]. intros Heq. apply Hne.
    assert (Z.of_nat i = Z.of_nat j); [|lia]. apply (mod_inj p); [lia..|].
    pose proof (Z.mod_pos_bound (p + Z.of_nat i) N HN). pose proof (Z.mod_pos_bound (p + Z.of_nat j) N HN). lia.
Qed.

(** A write behind the list. *)
Lemma ring_push ram p l x :
  Z.of_nat (length ram) = N → Z.of_nat (length l) < N → ring ram p l →
  ring (<[Z.to_nat ((p + Z.of_nat (length l)) mod N) := x]> ram) p (l ++ [x]).
Proof using HN.
  intros Hram Hl Hr i y Hi. pose proof (addr_lt ram (p + Z.of_nat (length l)) Hram).
  destruct (decide (i = length l)) as [->|Hne].
  - rewrite lookup_app_r, Nat.sub_diag in Hi by done. simplify_eq/=. by rewrite list_lookup_insert_eq by done.
  - pose proof (lookup_lt_Some _ _ _ Hi) as Hlt. rewrite length_app in Hlt. simpl in Hlt.
    rewrite lookup_app_l in Hi by lia. rewrite list_lookup_insert_ne; [by apply Hr|]. intros Heq. apply Hne.
    assert (Z.of_nat i = Z.of_nat (length l)); [|lia]. apply (mod_inj p); [lia..|].
    pose proof (Z.mod_pos_bound (p + Z.of_nat i) N HN). pose proof (Z.mod_pos_bound (p + Z.of_nat (length l)) N HN). lia.
Qed.

End Ring.

(** ** The relation *)

Section Refine.
Context (k : Z) (asic : bool) (Hk : 5 <= k).

Abbreviation N := (G_RX_BUFF_SIZE k).

Definition zlen (l : list Z) : Z := Z.of_nat (length l).

(** The timestamp pointer is at the third word of the frame in reception, then at the fourth. *)
Definition ts_pointer (s : rtl) (st : t_rx_buf_state) : Prop :=
  match st with
  | s_rxb_skip_ts_high | s_rxb_store_data | s_rxb_store_end_ts_low =>
      write_pointer_ts s = (write_pointer s + 2) mod N
  | s_rxb_store_end_ts_high => write_pointer_ts s = (write_pointer s + 3) mod N
  | _ => True
  end.

Record refines (s : rtl) (q : queue) : Prop := {
  rf_state : curr_state s = q_state q;
  rf_flags : commit_rx_frame s = q_commit q ∧ commit_overrun_abort s = q_abort q ∧
    data_overrun_flg s = q_overrun q ∧ data_overrun_i s = q_lost q;
  rf_misc : timestamp_capture s = q_time q ∧ rx_buf_reset s = q_reset q;
  rf_rptr : 0 <= read_pointer s < N;
  rf_wptr : write_pointer s = (read_pointer s + zlen (q_words q)) mod N;
  rf_wraw : write_pointer_raw s = (read_pointer s + zlen (q_words q) + zlen (q_pend q)) mod N;
  rf_wts : q_lost q = false → ts_pointer s (q_state q);
  rf_free : rx_mem_free_i s = N - zlen (q_words q);
  rf_free_raw : rx_mem_free_raw s = N - zlen (q_words q) - zlen (q_pend q);
  rf_count : frame_count s = q_count q;
  rf_read : read_counter_q s = zlen (q_cur q);
  rf_ram : zlen (ram_memory s) = N ∧ ring N (ram_memory s) (read_pointer s) (q_words q ++ q_pend q);
  rf_out : q_words q ≠ [] ∨ 2 <= zlen (q_pend q) → head (q_words q ++ q_pend q) = Some (ram_data_out s) }.

Lemma N_pos : 32 <= N.
Proof using Hk. unfold G_RX_BUFF_SIZE. change 32 with (2 ^ 5). apply Z.pow_le_mono_r; lia. Qed.

Lemma free_u_small x : 0 <= x <= N → free_u k x = x.
Proof using Hk.
  intros. apply Z.mod_small. rewrite Z.pow_add_r by lia. pose proof N_pos. unfold G_RX_BUFF_SIZE in *. lia.
Qed.

Lemma count_u_small x : 0 <= x <= N / 4 → count_u k x = x.
Proof using Hk.
  intros. apply Z.mod_small. pose proof N_pos. unfold G_RX_BUFF_SIZE in *.
  replace k with (2 + (k - 2)) in * by lia. rewrite Z.pow_add_r in * by lia.
  replace (2 + (k - 2) - 1) with (1 + (k - 2)) by lia. rewrite Z.pow_add_r by lia.
  change (2 ^ 2) with 4 in *. change (2 ^ 1) with 2. rewrite (Z.mul_comm 4), Z.div_mul in * by lia. lia.
Qed.

Lemma len_app (l1 l2 : list Z) : zlen (l1 ++ l2) = zlen l1 + zlen l2.
Proof. unfold zlen. rewrite length_app. lia. Qed.

Lemma len_nil (l : list Z) : zlen l = 0 ↔ l = [].
Proof. unfold zlen. destruct l; simpl; split; done || lia. Qed.

Lemma concat_len e fs : Forall (whole e) fs → 4 * Z.of_nat (length fs) <= zlen (concat fs).
Proof.
  induction fs as [|f fs IH]; [done|]. intros [Hf Hfs]%Forall_cons. specialize (IH Hfs). simpl. rewrite len_app.
  destruct (whole_shape _ _ Hf) as (ffw & rest & -> & ? & ? & _). unfold zlen in *. simpl length. lia.
Qed.

Lemma count_bound e q :
  Forall (whole e) (q_frames q) → q_size q <= N → 0 <= q_count q <= N / 4 ∧ (q_count q = 0 ↔ q_words q = []).
Proof using Hk.
  intros Hf%concat_len Hs. change (q_size q) with (zlen (q_words q) + zlen (q_pend q)) in Hs.
  assert (0 <= zlen (q_pend q)) by (unfold zlen; lia). unfold q_words in Hs |- *. rewrite len_app in Hs. unfold q_count. pose proof N_pos.
  assert (q_cur q ≠ [] → 1 <= zlen (q_cur q)).
  { intros Hne. assert (zlen (q_cur q) ≠ 0) by (by rewrite len_nil). unfold zlen in *. lia. }
  pose proof (len_nil (q_cur q ++ concat (q_frames q))) as Hn. rewrite len_app in Hn.
  assert (0 <= zlen (q_cur q)) by (unfold zlen; lia).
  assert (Z.of_nat (length (q_frames q)) = 0 → zlen (concat (q_frames q)) = 0) by (by destruct (q_frames q)).
  destruct (decide (q_cur q = [])) as [Hz|Hne]; rewrite <- Hn.
  - rewrite Hz in *. change (zlen []) with 0 in *. split; [|lia]. split; [lia|]. apply Z.div_le_lower_bound; lia.
  - pose proof (H1 Hne). split; [|lia]. split; [lia|].
    assert (N mod 4 = 0) as Hm.
    { unfold G_RX_BUFF_SIZE. replace k with (2 + (k - 2)) by lia. rewrite Z.pow_add_r by lia.
      change (2 ^ 2) with 4. by rewrite Z.mul_comm, Z.mod_mul. }
    Z.div_mod_to_equations; lia.
Qed.

(** ** The signals *)

Section Step.
Context (erfm : bool) (a : core_monitor) (s : rtl) (q : queue) (c : can_in) (m : reg_in).
Context (Hi : queue_inv N erfm a q) (Hc : commands erfm c m q a) (HR : refines s q).

Lemma sizes : 0 <= zlen (q_words q) ∧ 0 <= zlen (q_pend q) <= 20 ∧ zlen (q_words q) + zlen (q_pend q) <= N.
Proof using Hk Hi.
  pose proof (qi_size _ _ _ _ Hi). pose proof (qi_pend _ _ _ _ Hi). unfold q_size, zlen in *. lia.
Qed.

Lemma q_count_spec : 0 <= q_count q <= N / 4 ∧ (q_count q = 0 ↔ q_words q = []).
Proof using Hk Hi. apply (count_bound erfm); [apply (qi_frames _ _ _ _ Hi)|apply (qi_size _ _ _ _ Hi)]. Qed.

Lemma empty_spec : rx_empty_i s = bool_decide (q_words q = []).
Proof using Hk Hi HR.
  unfold rx_empty_i. rewrite (rf_count _ _ HR). destruct q_count_spec as [_ He].
  apply eq_bool_prop_intro. rewrite bool_decide_spec, <- He. rewrite Is_true_true. lia.
Qed.

Lemma rinc_spec : read_increment m s = read_attempt m && negb (bool_decide (q_words q = [])).
Proof using Hk Hi HR. unfold read_increment. by rewrite empty_spec. Qed.

Lemma fsm_spec : fsm c s = q_fsm c q.
Proof using HR. unfold fsm, q_fsm. by rewrite (rf_state _ _ HR). Qed.

(** The pointers meet with a frame stored exactly when the memory is full. *)
Lemma over_spec : overrun_condition c s = q_over N c q.
Proof using Hk Hi HR.
  unfold overrun_condition, q_over, is_free_word. rewrite fsm_spec, negb_involutive. f_equal.
  rewrite (rf_count _ _ HR), (rf_wraw _ _ HR). change (q_size q) with (zlen (q_words q) + zlen (q_pend q)).
  pose proof N_pos. destruct sizes as (? & ? & ?). destruct q_count_spec as [? He]. rewrite <- len_nil in He.
  pose proof (rf_rptr _ _ HR) as Hp. rewrite <- Z.add_assoc. set (n := zlen (q_words q) + zlen (q_pend q)) in *.
  destruct (Z.eq_dec (zlen (q_words q)) 0) as [Hz|Hz].
  - replace (q_count q) with 0 by lia. rewrite andb_false_r. lia.
  - assert ((read_pointer s =? (read_pointer s + n) mod N) = (N <=? n)) as ->.
    { destruct (Z.eq_dec n N) as [->|Hn].
      - rewrite <- (Z.mul_1_l N) at 1. rewrite Z_mod_plus_full, Z.mod_small by done. lia.
      - apply eq_true_iff_eq. rewrite Z.eqb_eq, Z.leb_le. split; [|lia]. intros Heq. exfalso. apply Hz.
        assert (0 = n); [|lia]. apply (mod_inj N ltac:(lia) (read_pointer s)); [lia..|].
        by rewrite <- Heq, Z.add_0_r, Z.mod_small. }
    replace (0 <? q_count q) with true by lia. apply andb_true_r.
Qed.

Lemma write_ok_spec :
  write_raw_OK c s = write_raw_intent (q_fsm c q) && negb (q_lost q || q_over N c q).
Proof using Hk Hi HR.
  unfold write_raw_OK. rewrite over_spec, fsm_spec. destruct (rf_flags _ _ HR) as (_ & _ & _ & ->).
  by destruct (write_raw_intent _), (q_over N c q), (q_lost q).
Qed.

(** ** The memory *)

(** The timestamp word that is filled in, as its place in the frame. *)
Definition ts_place : option nat :=
  match q_state q with
  | s_rxb_store_end_ts_low => Some 2%nat
  | s_rxb_store_end_ts_high => Some 3%nat
  | _ => None
  end.

(** The words in the memory after the write of this cycle. *)
Definition in_ram : list Z :=
  if q_lost q || q_over N c q then q_pend q
  else if write_raw_intent (q_fsm c q) then q_pend q ++ [q_data c q]
  else match ts_place with Some j => <[j := q_data c q]> (q_pend q) | None => q_pend q end.

Lemma port_a_write_spec :
  rxb_port_a_write c s = negb (q_lost q || q_over N c q) && (write_raw_intent (q_fsm c q) || select_ts_wptr (q_fsm c q)).
Proof using Hk Hi HR.
  unfold rxb_port_a_write. rewrite write_ok_spec, over_spec, fsm_spec.
  destruct (rf_flags _ _ HR) as (_ & _ & _ & ->).
  by destruct (write_raw_intent _), (select_ts_wptr _), (q_over N c q), (q_lost q).
Qed.

(** At the end of a frame its four first words are there. *)
Lemma ts_place_bound j :
  ts_place = Some j → q_lost q = false →
  (j < length (q_pend q))%nat ∧ write_pointer_ts s = (write_pointer s + Z.of_nat j) mod N ∧
  select_ts_wptr (q_fsm c q) = true ∧ write_raw_intent (q_fsm c q) = false.
Proof using Hi HR.
  unfold ts_place, q_fsm. intros Hj Hl. pose proof (rf_wts _ _ HR Hl) as Hts. pose proof (qi_held _ _ _ _ Hi) as Hh.
  destruct (qi_counts _ _ _ _ Hi) as (? & _). unfold held, part in Hh.
  destruct (q_state q); simplify_eq; (destruct Hh as [?|(ffw & ws & -> & _ & _ & ? & _)]; [congruence|]);
    simpl in *; (split_and!; [lia|done..]).
Qed.

Lemma ram_next_spec :
  zlen (ram_memory_next asic c m s) = N ∧
  ring N (ram_memory_next asic c m s) (read_pointer s) (q_words q ++ in_ram).
Proof using Hk Hi HR.
  destruct (rf_ram _ _ HR) as [Hlen Hring]. pose proof N_pos. destruct sizes as (? & ? & Hsz).
  unfold ram_memory_next, in_ram, rxb_port_a_address, clk_ram. rewrite fsm_spec, port_a_write_spec.
  destruct (rf_misc _ _ HR) as [-> _]. change (rxb_port_a_data_in _ c _) with (q_data c q).
  destruct (q_lost q || q_over N c q) eqn:Hlo; [by rewrite andb_false_r|]. apply orb_false_iff in Hlo as [Hl Ho].
  destruct (write_raw_intent (q_fsm c q)) eqn:Hin.
  - assert (select_ts_wptr (q_fsm c q) = false) as -> by (unfold q_fsm in *; by destruct (q_state q)).
    simpl. rewrite orb_true_r. simpl. unfold zlen in *. rewrite length_insert. split; [done|].
    rewrite (rf_wraw _ _ HR), app_assoc, <- Z.add_assoc.
    replace (zlen (q_words q) + zlen (q_pend q)) with (Z.of_nat (length (q_words q ++ q_pend q)))
      by (rewrite length_app; unfold zlen; lia).
    apply ring_push; [lia|done| |done]. unfold q_over in Ho. rewrite Hin in Ho. unfold q_size in Ho.
    rewrite length_app. lia.
  - destruct ts_place as [j|] eqn:Hj.
    + destruct (ts_place_bound j Hj Hl) as (Hb & -> & -> & _). simpl. rewrite orb_true_r. simpl.
      unfold zlen in *. rewrite length_insert. split; [done|].
      rewrite (rf_wptr _ _ HR), mod_add, <- insert_app_r, <- Z.add_assoc. unfold zlen. rewrite <- Nat2Z.inj_add.
      apply ring_insert; rewrite ?length_app; lia || done.
    + assert (select_ts_wptr (q_fsm c q) = false) as -> by (unfold q_fsm, ts_place in *; by destruct (q_state q)).
      simpl. by rewrite andb_false_r.
Qed.

(** ** What remains after a read, an abort or the end of the frame *)

Definition rest (l : list Z) : list Z := if read_increment m s then tail l else l.

Lemma rest_app l : rest (q_words q ++ l) = rest (q_words q) ++ l.
Proof using Hk Hi HR.
  unfold rest. rewrite rinc_spec. destruct (read_attempt m); [|done]. by destruct (q_words q).
Qed.

Lemma words_next : q_words (q_normal N c m q) = rest (q_words q) ++ (if q_commit q then q_pend q else []).
Proof using Hk Hi HR.
  rewrite (normal_words N erfm c m q a) by done. f_equal. unfold rest. rewrite rinc_spec.
  destruct (read_attempt m); [|done]. by destruct (q_words q).
Qed.

Definition dropped : bool := q_commit q || q_abort q || rec_abort_f c.

Lemma pend_next : q_pend (q_normal N c m q) = if dropped then [] else in_ram.
Proof.
  rewrite normal_pend. unfold q_pend_next, dropped, in_ram, ts_place. destruct (_ || _); [done|].
  destruct (q_lost q || q_over N c q); [done|]. destruct (write_raw_intent _); [done|]. by destruct (q_state q).
Qed.

(** Nothing is written in a cycle in which the frame joins the queue or is dropped. *)
Lemma dropped_in_ram : dropped = true → write_raw_intent (q_fsm c q) = false ∧ ts_place = None ∧ in_ram = q_pend q.
Proof using Hi Hc.
  intros Hd. assert (write_raw_intent (q_fsm c q) = false ∧ ts_place = None) as [Hin Hts].
  { unfold dropped in Hd. unfold q_fsm, ts_place. destruct (rec_abort_f c) eqn:Hab.
    - destruct (cm_abort _ _ _ _ _ Hc Hab) as [Hs _]. pose proof (cm_data _ _ _ _ _ Hc) as Hsd.
      destruct (store_data_f c) eqn:Hd'; [naive_solver congruence|].
      destruct Hs as [Hs|[Hs|Hs]]; rewrite Hs; simpl; by rewrite ?Hab, ?Hd'.
    - rewrite orb_false_r in Hd. by rewrite (qi_flags _ _ _ _ Hi Hd). }
  split_and!; [done..|]. unfold in_ram. rewrite Hin, Hts. by destruct (_ || _).
Qed.

Lemma contents_next : ∃ z,
  rest (q_words q ++ in_ram) = (q_words (q_normal N c m q) ++ q_pend (q_normal N c m q)) ++ z ∧
  (z = [] ∨ q_commit q = false ∧ dropped = true).
Proof using Hk Hi Hc HR.
  rewrite rest_app, words_next, pend_next. destruct dropped eqn:Hd.
  - destruct (dropped_in_ram Hd) as (_ & _ & ->). destruct (q_commit q).
    + exists []. rewrite !app_nil_r. auto.
    + exists (q_pend q). rewrite !app_nil_r. auto.
  - exists []. unfold dropped in Hd. destruct (q_commit q); [done|]. rewrite !app_nil_r. auto.
Qed.

(** ** The registers after the cycle *)

Lemma rptr_next :
  let p := if read_increment m s then read_pointer_inc_1 k s else read_pointer s in
  0 <= p < N ∧ ∀ x, (p + (zlen (rest (q_words q)) + x)) mod N = (read_pointer s + zlen (q_words q) + x) mod N.
Proof using Hk Hi HR.
  pose proof (rf_rptr _ _ HR). pose proof N_pos. cbv zeta. unfold rest. rewrite rinc_spec.
  destruct (read_attempt m); simpl; [|split; [lia|]; intros; f_equal; lia].
  destruct (q_words q) as [|w ws]; simpl; [split; [lia|]; intros; f_equal; unfold zlen; simpl; lia|].
  unfold read_pointer_inc_1, ptr_u. split; [apply Z.mod_pos_bound; lia|]. intros x. rewrite mod_add.
  f_equal. unfold zlen. simpl length. lia.
Qed.

Lemma ring_next :
  let q' := q_normal N c m q in
  ring N (ram_memory_next asic c m s) (if read_increment m s then read_pointer_inc_1 k s else read_pointer s)
    (q_words q' ++ q_pend q').
Proof using Hk Hi Hc HR.
  destruct ram_next_spec as [_ Hr]. destruct contents_next as (z & Hz & _). cbv zeta.
  eapply ring_app. rewrite <- Hz. unfold rest. destruct (read_increment m s); [|done]. by apply ring_tail.
Qed.

Lemma len_rest : zlen (rest (q_words q)) = zlen (q_words q) - Z.b2z (read_increment m s).
Proof using Hk Hi HR.
  unfold rest. rewrite rinc_spec. destruct (read_attempt m); simpl; [|lia].
  destruct (q_words q); unfold zlen; simpl length; simpl; lia.
Qed.

(** The number of words in reception. *)
Lemma len_in_ram :
  zlen in_ram = zlen (q_pend q) + Z.b2z (write_raw_OK c s).
Proof using Hk Hi HR.
  rewrite write_ok_spec. unfold in_ram. destruct (q_lost q || q_over N c q); simpl; [rewrite andb_false_r; simpl; lia|].
  destruct (write_raw_intent _); simpl; [by rewrite len_app|]. unfold zlen.
  destruct ts_place; rewrite ?length_insert; lia.
Qed.

Lemma len_words_next : zlen (q_words (q_normal N c m q)) =
  zlen (q_words q) - Z.b2z (read_increment m s) + (if q_commit q then zlen (q_pend q) else 0).
Proof using Hk Hi HR. rewrite words_next, len_app, len_rest. destruct (q_commit q); [done|]. unfold zlen. simpl. lia. Qed.

Lemma len_pend_next : zlen (q_pend (q_normal N c m q)) =
  if dropped then 0 else zlen (q_pend q) + Z.b2z (write_raw_OK c s).
Proof using Hk Hi HR. rewrite pend_next. destruct dropped; [done|apply len_in_ram]. Qed.

(** A frame that is dropped does not join. *)
Lemma dropped_cases :
  (q_commit q = true ∧ abort_applied c s = false ∧ dropped = true ∧ write_raw_OK c s = false) ∨
  (q_commit q = false ∧ abort_applied c s = true ∧ dropped = true ∧ write_raw_OK c s = false) ∨
  (q_commit q = false ∧ abort_applied c s = false ∧ dropped = false).
Proof using Hk Hi Hc HR.
  pose proof (qi_excl _ _ _ _ Hi) as Hx. pose proof dropped_in_ram as Hw. rewrite write_ok_spec.
  unfold abort_applied. destruct (rf_flags _ _ HR) as (_ & -> & _). unfold dropped in *.
  pose proof (cm_abort _ _ _ _ _ Hc) as Hab.
  destruct (q_commit q), (q_abort q), (rec_abort_f c); simpl in *; try done; try (by destruct (Hab eq_refl));
    try (destruct (Hw eq_refl) as (-> & _)); auto 10.
Qed.

Lemma wptr_next :
  (if commit_rx_frame s then write_pointer_raw s else write_pointer s) =
    ((if read_increment m s then read_pointer_inc_1 k s else read_pointer s) +
     zlen (q_words (q_normal N c m q))) mod N ∧
  write_pointer_raw_next k c s =
    ((if read_increment m s then read_pointer_inc_1 k s else read_pointer s) +
     zlen (q_words (q_normal N c m q)) + zlen (q_pend (q_normal N c m q))) mod N.
Proof using Hk Hi Hc HR.
  destruct rptr_next as [_ Hp]. rewrite words_next, len_app, len_pend_next.
  destruct (rf_flags _ _ HR) as (-> & _). unfold write_pointer_raw_next, ptr_u.
  change (if write_raw_OK c s || rec_abort_f c || commit_overrun_abort s then _ else _) with
    (if write_raw_OK c s || rec_abort_f c || commit_overrun_abort s then
       if write_raw_OK c s then (write_pointer_raw s + 1) mod N else write_pointer s else write_pointer_raw s).
  rewrite <- orb_assoc. change (rec_abort_f c || commit_overrun_abort s) with (abort_applied c s).
  rewrite (rf_wptr _ _ HR), (rf_wraw _ _ HR).
  set (p := if read_increment m s then _ else _) in *.
  assert (∀ y z x, y + z = zlen (rest (q_words q)) + x → (p + y + z) mod N = (read_pointer s + zlen (q_words q) + x) mod N) as Hq.
  { intros y z x Hx. rewrite <- Hp. f_equal. lia. }
  assert (∀ y x, y = zlen (rest (q_words q)) + x → (p + y) mod N = (read_pointer s + zlen (q_words q) + x) mod N) as Hq1.
  { intros y x ->. apply Hp. }
  change (zlen []) with 0.
  destruct dropped_cases as [(-> & -> & -> & ->)|[(-> & -> & -> & ->)|(-> & -> & ->)]]; simpl.
  - rewrite (Hq _ _ (zlen (q_pend q))), (Hq1 _ (zlen (q_pend q))) by lia. done.
  - change (zlen []) with 0. rewrite (Hq _ _ 0), (Hq1 _ 0), Z.add_0_r by lia. done.
  - change (zlen []) with 0. rewrite (Hq _ _ (zlen (q_pend q) + Z.b2z (write_raw_OK c s))), (Hq1 _ 0), Z.add_0_r by lia.
    split; [done|]. rewrite orb_false_r. destruct (write_raw_OK c s); simpl; [by rewrite mod_add, Z.add_assoc|by rewrite Z.add_0_r].
Qed.

Lemma free_next :
  mem_free_next k m s = N - zlen (q_words (q_normal N c m q)) ∧
  mem_free_raw_next k c m s = N - zlen (q_words (q_normal N c m q)) - zlen (q_pend (q_normal N c m q)).
Proof using Hk Hi Hc HR.
  pose proof N_pos. destruct sizes as (? & ? & ?). rewrite len_words_next, len_pend_next.
  destruct (rf_flags _ _ HR) as (Hcm & _). unfold mem_free_next, mem_free_raw_next.
  rewrite Hcm, (rf_free _ _ HR), (rf_free_raw _ _ HR).
  assert (read_increment m s = true → 1 <= zlen (q_words q)) as Hr.
  { rewrite rinc_spec. intros [_ Hne%negb_true_iff]%andb_true_iff. apply bool_decide_eq_false in Hne.
    rewrite <- len_nil in Hne. lia. }
  assert (write_raw_OK c s = true → zlen (q_words q) + zlen (q_pend q) < N) as Hw.
  { rewrite write_ok_spec. intros [Hin [_ Ho]%negb_true_iff%orb_false_iff]%andb_true_iff.
    unfold q_over, q_size in Ho. rewrite Hin in Ho. unfold zlen. simpl in Ho. lia. }
  destruct dropped_cases as [(-> & -> & -> & Hwo)|[(-> & -> & -> & Hwo)|(-> & -> & ->)]];
    rewrite ?Hwo; destruct (read_increment m s); simpl;
    try (specialize (Hr eq_refl)); rewrite ?free_u_small by lia; try lia;
    destruct (write_raw_OK c s); simpl; try (specialize (Hw eq_refl)); rewrite ?free_u_small by lia; lia.
Qed.

Lemma normal_cur :
  q_cur (q_normal N c m q) = (if read_increment m s then (q_read q).1 else q_cur q) ∧
  q_frames (q_normal N c m q) =
    (if read_increment m s then (q_read q).2 else q_frames q) ++ (if q_commit q then [q_pend q] else []).
Proof using Hk Hi HR.
  assert (q_words q = [] → q_read q = (q_cur q, q_frames q)) as He.
  { intros Hw. apply q_count_spec in Hw. unfold q_count, q_read in *.
    destruct (q_frames q), (q_cur q); simpl in *; done || lia. }
  rewrite rinc_spec. unfold q_normal. destruct (read_attempt m); simpl.
  - destruct (decide (q_words q = [])) as [Hw|Hw].
    + rewrite He, bool_decide_eq_true_2 by done. simpl. by destruct (q_commit q); rewrite ?app_nil_r.
    + rewrite bool_decide_eq_false_2 by done. destruct (q_read q). simpl. by destruct (q_commit q); rewrite ?app_nil_r.
  - by destruct (q_commit q); rewrite ?app_nil_r.
Qed.

(** The word that is read first in a frame announces the rest. *)
Lemma first_word f fs :
  q_cur q = [] → q_frames q = f :: fs → Z.shiftr (ram_data_out s) 11 mod 2 ^ 5 = zlen (tail f).
Proof using Hk Hi HR.
  intros Hcur Hfr. pose proof (qi_frames _ _ _ _ Hi) as Hf. rewrite Hfr in Hf. apply Forall_cons in Hf as [Hf _].
  destruct (whole_shape _ _ Hf) as (ffw & rest & -> & Hlen & _). pose proof (rf_out _ _ HR) as Ho.
  unfold q_words in Ho. rewrite Hcur, Hfr in Ho. simpl in Ho. assert (Some ffw = Some (ram_data_out s)) as [= <-] by (apply Ho; by left).
  unfold zlen. simpl. rewrite Hlen. unfold ffw_rwcnt, REG_FRAME_FORMAT_W_RWCNT. by rewrite FIELD_GET_GENMASK.
Qed.

Lemma read_next :
  (if read_increment m s then read_counter_d s else read_counter_q s) = zlen (q_cur (q_normal N c m q)) ∧
  frame_count_next k m s = q_count (q_normal N c m q).
Proof using Hk Hi Hc HR.
  assert (0 <= q_count (q_normal N c m q) <= N / 4) as Hb.
  { apply (count_bound erfm); [by eapply normal_frames|by eapply normal_size]. }
  destruct normal_cur as [Hcur Hfr]. unfold q_count in *. rewrite Hcur, Hfr in *. rewrite length_app in *.
  destruct (rf_flags _ _ HR) as (Hcm & _). destruct q_count_spec as [Hb0 Hw].
  unfold frame_count_next, read_counter_d. rewrite Hcm, (rf_count _ _ HR), (rf_read _ _ HR). unfold q_count in *.
  destruct (read_increment m s) eqn:Hr; simpl.
  - pose proof first_word as Hfw. unfold q_read in *. destruct (q_cur q) as [|x cur].
    + pose proof (qi_frames _ _ _ _ Hi) as Hf. destruct (q_frames q) as [|f fs].
      { exfalso. rewrite rinc_spec in Hr. apply andb_true_iff in Hr as [_ Hr%negb_true_iff%bool_decide_eq_false].
        apply Hr, Hw. done. }
      rewrite (Hfw f fs) by done. change (zlen []) with 0 in *. simpl in *. split; [done|].
      assert (tail f ≠ []) as Hne.
      { apply Forall_cons in Hf as [Hf _].
        destruct (whole_shape _ _ Hf) as (? & [|] & -> & ? & ? & _); simpl in *; [lia|done]. }
      destruct (decide (tail f = [])); [done|]. rewrite ?decide_True in * by done.
      destruct (q_commit q); simpl in *; rewrite ?count_u_small by lia; lia.
    + assert (zlen (x :: cur) = zlen cur + 1) as -> by (unfold zlen; simpl length; lia).
      assert (0 <= zlen cur) by (unfold zlen; lia). replace (0 <? zlen cur + 1) with true by lia. split; [simpl; lia|].
      pose proof (len_nil cur) as Hn. rewrite ?decide_False in * by done. simpl in *.
      destruct (decide (cur = [])) as [Hz|Hz]; rewrite <- Hn in Hz; destruct (q_commit q); simpl in *.
      all: try replace (zlen cur + 1 =? 1) with true by lia; try replace (zlen cur + 1 =? 1) with false by lia.
      all: rewrite ?count_u_small by lia; lia.
  - split; [done|]. destruct (q_commit q); simpl in *; rewrite ?count_u_small by lia; lia.
Qed.

Lemma ts_next :
  q_lost (q_normal N c m q) = false → ts_pointer (tick_normal k asic c m s) (next_state (q_state q) c m).
Proof using Hk Hi Hc HR.
  rewrite normal_lost. intros [[Ho Hrrb]%orb_false_iff Hl]%orb_false_iff.
  assert (q_state q ≠ s_rxb_idle → q_commit q = false ∧ q_lost q = false) as Hne.
  { intros Hs. split; [by apply (no_flags N erfm q a Hi)|]. unfold q_fsm in Hl. by destruct (q_state q). }
  unfold ts_pointer, tick_normal. cbn [write_pointer_ts write_pointer].
  destruct (rf_flags _ _ HR) as (-> & _). unfold write_pointer_ts_next, ptr_u. rewrite fsm_spec.
  pose proof (rf_wts _ _ HR) as Hts. pose proof (qi_held _ _ _ _ Hi) as Hh.
  pose proof (rf_wptr _ _ HR) as Hw. pose proof (rf_wraw _ _ HR) as Hr.
  unfold held, part in Hh. unfold q_fsm in *.
  destruct (q_state q) eqn:Hs; try (destruct Hne as [Hcm Hlo]; [done|]; rewrite Hcm; specialize (Hts Hlo)); simpl in *.
  - destruct (store_metadata_f c), (mr_mode_erfm m && rec_abort_f c); done.
  - destruct (rec_abort_f c), (mr_mode_erfm m); done.
  - done.
  - destruct Hh as [?|(ffw & ws & Hp & _ & _ & Hlen & _)]; [congruence|].
    rewrite Hr, Hw, mod_add, Hp. unfold zlen. simpl length. f_equal. lia.
  - done.
  - rewrite Hts, mod_add. f_equal. lia.
  - done.
  - destruct (rec_abort_f c); [by destruct (mr_mode_erfm m)|]. by destruct (rec_valid_f c).
  - done.
  - done.
  - done.
  - done.
Qed.

Lemma head_app (l1 l2 : list Z) : head (l1 ++ l2) = match l1 with [] => head l2 | x :: _ => Some x end.
Proof. by destruct l1. Qed.

Lemma head_in_ram : 2 <= zlen in_ram → head in_ram = head (q_pend q).
Proof.
  unfold in_ram. destruct (q_lost q || q_over N c q); [done|]. destruct (write_raw_intent _).
  - rewrite len_app. destruct (q_pend q); [done|]. done.
  - destruct ts_place as [j|] eqn:Hj; [|done]. unfold ts_place in Hj. destruct (q_state q); simplify_eq; by destruct (q_pend q).
Qed.

(** A frame that joins has more than one word. *)
Lemma commit_len : q_commit q = true → 2 <= zlen (q_pend q).
Proof using Hi.
  intros Hcm. pose proof (qi_held _ _ _ _ Hi) as Hh. unfold held in Hh.
  rewrite (qi_flags _ _ _ _ Hi) in Hh by (by rewrite Hcm). destruct Hh as [Hw _].
  destruct (whole_shape _ _ (Hw Hcm)) as (ffw & l & -> & ? & ? & _). unfold zlen. simpl. lia.
Qed.

Lemma out_head :
  let q' := q_normal N c m q in
  q_words q' ≠ [] ∨ 2 <= zlen (q_pend q') →
  head (q_words q' ++ q_pend q') = head (rest (q_words q ++ q_pend q)) ∧ rest (q_words q ++ q_pend q) ≠ [].
Proof using Hk Hi Hc HR.
  cbv zeta. rewrite rest_app, words_next, pend_next, !head_app.
  destruct (rest (q_words q)) as [|x l]; [|done]. simpl. destruct (q_commit q) eqn:Hcm.
  - pose proof (commit_len Hcm). by destruct (q_pend q).
  - destruct dropped; intros [?|Hl]; try done. pose proof (head_in_ram Hl) as Hh. split; [done|].
    destruct in_ram; [by unfold zlen in Hl; simpl in Hl; lia|]. by destruct (q_pend q).
Qed.

(** The read port of the memory shows the first word whenever there is one to read. *)
Lemma out_next :
  let q' := q_normal N c m q in
  q_words q' ≠ [] ∨ 2 <= zlen (q_pend q') →
  head (q_words q' ++ q_pend q') = Some (ram_data_out_next k asic c m s).
Proof using Hk Hi Hc HR.
  cbv zeta. intros Hne. destruct (rf_ram _ _ HR) as [_ Hring]. destruct (out_head Hne) as [-> Hl].
  unfold ram_data_out_next, rxb_port_b_address. destruct (clk_ram asic c m s) eqn:Hclk.
  - destruct rptr_next as [Hp _]. destruct (rest (q_words q ++ q_pend q)) as [|x l] eqn:Hx; [done|]. simpl.
    erewrite (ring_head N _ _ (x :: l)); [done|exact Hp| |done]. rewrite <- Hx.
    unfold rest. destruct (read_increment m s); [|done]. by apply ring_tail.
  - unfold clk_ram in Hclk. apply orb_false_iff in Hclk as [[_ Hpa]%orb_false_iff Hra].
    assert (read_increment m s = false) as Hri by (unfold read_increment; by rewrite Hra).
    assert (write_raw_OK c s = false) as Hwo by (unfold rxb_port_a_write in Hpa; by destruct (write_raw_OK c s)).
    unfold rest in *. rewrite Hri in *. apply (rf_out _ _ HR).
    pose proof len_pend_next as Hlp. rewrite Hwo in Hlp. simpl in Hlp.
    rewrite words_next in Hne. unfold rest in Hne. rewrite Hri in Hne. pose proof commit_len.
    destruct (q_words q); [|by left]. right. destruct (q_commit q); [auto|]. simpl in *.
    destruct Hne as [?|Hne]; [done|]. rewrite Hlp in Hne. destruct dropped; lia.
Qed.

(** ** One cycle *)

(** The last word of an error frame is stored.  Its state writes and commits in the same cycle, and
    the commit does not see that there was no space. *)
Definition err_fits : bool :=
  negb (bool_decide (q_state q = s_rxb_store_err_ts_high) && negb (q_lost q) && q_over N c q).

Lemma commit_next : err_fits = true →
  (if commit_intent (fsm c s) then commit_rx_frame s || negb (data_overrun_i s) else false) =
    q_commit (q_normal N c m q) ∧
  (if commit_intent (fsm c s) then commit_overrun_abort s || data_overrun_i s else false) =
    q_abort (q_normal N c m q).
Proof using Hk Hi HR.
  intros Hfit. destruct (normal_commit N c m q) as [-> ->]. rewrite fsm_spec.
  destruct (rf_flags _ _ HR) as (-> & -> & _ & ->). destruct (commit_intent (q_fsm c q)) eqn:Hci; [|done]. simpl.
  assert (q_state q ≠ s_rxb_idle) as Hs by (intros Hs; unfold q_fsm in Hci; by rewrite Hs in Hci).
  destruct (no_flags N erfm q a Hi Hs) as [-> ->]. simpl.
  assert (q_lost q = false → q_over N c q = false) as Ho.
  { intros Hl. unfold err_fits in Hfit. rewrite Hl in Hfit. unfold q_over, q_fsm in *.
    by destruct (q_state q), (N <=? q_size q). }
  destruct (q_lost q); [done|]. by rewrite Ho.
Qed.

Lemma refines_normal : err_fits = true → refines (tick_normal k asic c m s) (q_normal N c m q).
Proof using Hk Hi Hc HR.
  intros Hfit. destruct (commit_next Hfit) as [Hcm Hab]. destruct (rf_flags _ _ HR) as (_ & _ & Hov & Hlo).
  destruct (rf_misc _ _ HR) as [Htm _]. destruct wptr_next as [Hw Hr]. destruct free_next as [Hf Hfr].
  destruct read_next as [Hrd Hcnt].
  split; cbn [tick_normal curr_state commit_rx_frame commit_overrun_abort data_overrun_flg data_overrun_i
    timestamp_capture rx_buf_reset read_pointer write_pointer write_pointer_raw rx_mem_free_i rx_mem_free_raw
    frame_count read_counter_q ram_memory ram_data_out]; try done.
  - by rewrite normal_state, (rf_state _ _ HR).
  - split_and!; [done..| |].
    + unfold data_overrun_flg_next. rewrite over_spec, Hov. unfold q_normal.
      destruct (if read_attempt m then _ else _). simpl. by destruct (mr_command_cdo m), (q_over N c q).
    + rewrite normal_lost. unfold data_overrun_i_next. rewrite over_spec, Hlo, fsm_spec.
      destruct (q_over N c q || mr_command_rrb m); [done|]. by destruct (reset_overrun_flag _).
  - unfold q_normal. destruct (if read_attempt m then _ else _). simpl. split; [|done].
    destruct (timestamp_capture_ce c m); [done|exact Htm].
  - apply rptr_next.
  - rewrite normal_state. apply ts_next.
  - split; [apply ram_next_spec|apply ring_next].
  - apply out_next.
Qed.

(** The reset of the buffer is the same on both sides, from any two states that agree on the registers that
    it leaves alone. *)
Lemma refines_clear s' q' :
  curr_state s' = q_state q' → data_overrun_i s' = q_lost q' → timestamp_capture s' = q_time q' →
  rx_buf_reset s' = q_reset q' → zlen (ram_memory s') = N →
  (q_lost q' = false → ts_pointer (buf_reset k s') (q_state q')) → refines (buf_reset k s') (q_clear q').
Proof using Hk.
  intros ?????. pose proof N_pos. split; simpl; try done; try lia; try (unfold zlen; simpl; lia).
  - intros [?|Hl]; [done|]. by vm_compute in Hl.
Qed.

(** One cycle of the RX buffer is one step of the queue. *)
Lemma refines_tick : err_fits = true → refines (tick k asic c m s) (q_tick N c m q).
Proof using Hk Hi Hc HR.
  intros Hfit. pose proof (refines_normal Hfit) as Hn. unfold tick, q_tick.
  destruct (rf_misc _ _ HR) as [_ ->]. destruct (q_reset q || mr_command_rrb m) eqn:Hr; [|done].
  apply refines_clear; [apply Hn..|apply (rf_ram _ _ Hn)|].
  intros Hl. destruct (clear_lost N erfm c m q a Hi Hr) as [?|Hs]; [congruence|].
  destruct Hs as [Hs|[Hs|Hs]]; by rewrite Hs.
Qed.

(** In every cycle the outputs are those of the queue. *)
Lemma refines_out : rtl_out s = q_out N q.
Proof using Hk Hi HR.
  unfold rtl_out, q_out. rewrite empty_spec, (rf_free _ _ HR), (rf_count _ _ HR), (rf_read _ _ HR).
  destruct (rf_flags _ _ HR) as (_ & _ & -> & _). fold (zlen (q_words q)). f_equal.
  - f_equal. apply eq_bool_prop_intro. rewrite bool_decide_spec, <- len_nil. rewrite Is_true_true. lia.
  - destruct (decide (q_words q = [])) as [Hw|Hw]; [by rewrite bool_decide_eq_true_2, Hw|].
    rewrite bool_decide_eq_false_2 by done. pose proof (rf_out _ _ HR (or_introl Hw)) as Ho.
    rewrite head_app in Ho. destruct (q_words q); [done|]. by injection Ho as <-.
Qed.

End Step.

(** ** Runs *)

(** An error frame that is logged always finds space for its last word during the run. *)
Fixpoint err_fits_run (ins : list (can_in * reg_in)) (q : queue) : bool :=
  match ins with
  | [] => true
  | (c, m) :: ins => err_fits q c && err_fits_run ins (q_tick N c m q)
  end.

(** The reset state. *)
Lemma refines_init ram out : zlen ram = N → refines (rtl_init k ram out) q_init.
Proof using Hk.
  intros Hram. pose proof N_pos. split; simpl; try done; try lia; try (unfold zlen; simpl; lia).
  intros [?|Hl]; [done|]. by vm_compute in Hl.
Qed.

Lemma run_refines e ins a s q :
  queue_inv N e a q → refines s q → protocol_run e ins a = true → err_fits_run ins q = true →
  rtl_run k asic ins s = q_run N ins q.
Proof using Hk.
  revert a s q. induction ins as [|[c m] ins IH]; [done|]. intros a s q Hi HR Hp He. simpl in *.
  apply andb_true_iff in Hp as [Hc%(protocol_commands N _ _ _ q) Hp]; [|done]. apply andb_true_iff in He as [Hf He].
  f_equal; [by eapply refines_out|]. eapply IH; [| |exact Hp|exact He].
  - by apply queue_inv_tick.
  - by eapply refines_tick.
Qed.

End Refine.

(** ** The theorem, and the case it leaves out *)

(** C9: The RX buffer of the core implements the queue of whole frames.  For every size of the buffer from 32
    to 4096 words, for both technologies, any contents of the memory at power-up, and any sequence of clock
    cycles in which the CAN core keeps to the protocol of the assertions in the source, with reads, releases and overrun
    commands of software at any time: in every cycle the frame count, the free words, the flags
    and the word at the read port are those of the bounded queue.  Overruns, aborted frames and the
    wrapping of the pointers are included; excluded is an error frame whose last word does
    not fit. *)
Theorem rx_buffer_refines_queue k asic erfm ins ram out md :
  5 <= k <= 12 → Z.of_nat (length ram) = 2 ^ k →
  protocol_run erfm ins (mon_init md) = true → err_fits_run k ins q_init = true →
  rtl_run k asic ins (rtl_init k ram out) = q_run (2 ^ k) ins q_init.
Proof.
  intros Hk Hram Hp Hf. assert (5 <= k) as Hk' by lia. pose proof (N_pos k Hk').
  apply (run_refines k asic Hk' erfm ins (mon_init md)); [|by apply refines_init|done|done].
  apply queue_inv_init. lia.
Qed.

(** ** Concrete runs *)

(** An error frame with three words left. *)
Definition err_case : list (can_in * reg_in) :=
  mjoin (replicate 6 (with_regs false true (frame_cycles md0 []))) ++
  with_regs false true (frame_cycles (md_dlc 2) [0xBBAA]) ++ with_regs false true error_cycles ++
  with_regs true true (replicate 34 (can_quiet md0)).

(** Two frames, the second read while the third is stored, and a release of the buffer at the end. *)
Definition sample_cycles : list (can_in * reg_in) :=
  with_regs false false (frame_cycles (md_dlc 2) [0xBBAA] ++ frame_cycles md0 []) ++
  with_regs true false (frame_cycles (md_dlc 5) [1; 2]) ++
  [(can_quiet md0, {| mr_mode_rxbam := true; mr_command_cdo := true; mr_command_rrb := true;
     mr_command_rxrpmv := false; mr_rx_data_read := false; mr_rx_settings_rtsop := false; mr_mode_erfm := false |})] ++
  with_regs true false (replicate 3 (can_quiet md0)).

Lemma rx_buffer_refines_witness :
  rtl_run 5 true sample_cycles (rtl_init 5 (replicate 32 0xDEAD) 0xBEEF) = q_run (2 ^ 5) sample_cycles q_init.
Proof.
  apply (rx_buffer_refines_queue 5 true false sample_cycles (replicate 32 0xDEAD) 0xBEEF (md_dlc 2));
    [lia|done|by vm_compute|by vm_compute].
Defined.

(** An error frame that is logged when only three words are free joins the queue without its fourth word, against
    its own word count: the commit looks at the overrun of the earlier words only.  When software has read what
    the counts announce, the buffer claims more free words than it has. *)
Example err_frame_truncated :
  protocol_run true err_case (mon_init md0) = true ∧
  (λ o, (rx_frame_count o, rx_mem_free o)) <$> last (rtl_run 5 true err_case (rtl_init 5 (replicate 32 0) 0)) =
    Some (0, 33) ∧
  rtl_run 5 true err_case (rtl_init 5 (replicate 32 0) 0) ≠ q_run 32 err_case q_init.
Proof. split_and!; [by vm_compute|by vm_compute|by vm_compute]. Qed.
