(* ===== verification/BaseRx.v ===== *)
(** * Reception in the kernel driver

    [ctucan_read_rx_frame], [ctucan_rx] and [ctucan_rx_poll] of [ctucanfd_base.c].
    The RX FIFO is read word by word through one register; when no socket buffer can
    be allocated, the first word of the frame, which was already taken from the
    FIFO, is kept in the private structure for the next attempt. *)

From Stdlib Require Import ZArith Lia.
From stdpp Require Import base numbers list strings sets.
From S2P Require Import Prelude LinuxDefs World Kregs Base Sim RxFifo.

#[local] Open Scope Z_scope.

(** ** The functions *)

(** The identifier and the flags that [ctucan_read_rx_frame] stores. *)
Definition rx_can_id (ffw idw : Z) : Z :=
  let id := if nz (FIELD_GET REG_FRAME_FORMAT_W_IDE ffw)
            then Z.lor (Z.land idw CAN_EFF_MASK) CAN_EFF_FLAG
            else Z.land (Z.shiftr idw 18) CAN_SFF_MASK in
  if nz (FIELD_GET REG_FRAME_FORMAT_W_FDF ffw) then id
  else if nz (FIELD_GET REG_FRAME_FORMAT_W_RTR ffw) then Z.lor id CAN_RTR_FLAG
  else id.

Definition rx_flags (ffw : Z) : Z :=
  if nz (FIELD_GET REG_FRAME_FORMAT_W_FDF ffw) then
    let fl := if nz (FIELD_GET REG_FRAME_FORMAT_W_BRS ffw) then Z.lor 0 CANFD_BRS else 0 in
    if nz (FIELD_GET REG_FRAME_FORMAT_W_ESI_RSV ffw) then Z.lor fl CANFD_ESI else fl
  else 0.

(** [wc] and the first value of [len], as [unsigned int]. *)
Definition rx_wc (ffw : Z) : Z := u32 (FIELD_GET REG_FRAME_FORMAT_W_RWCNT ffw - 3).

Definition rx_len (ffw : Z) : Z :=
  if FIELD_GET REG_FRAME_FORMAT_W_DLC ffw <=? 8 then FIELD_GET REG_FRAME_FORMAT_W_DLC ffw
  else if nz (FIELD_GET REG_FRAME_FORMAT_W_FDF ffw) then u32 (Z.shiftl (rx_wc ffw) 2)
  else 8.

Section Rx.
Context {W : Type} `{World W}.
Abbreviation MB := (M net_device W).

(** [for (i = 0; i < len; i += 4)]: returns the frame and the final [i].  A
    store outside of the frame is undefined, so the loop has at most 17 iterations. *)
Fixpoint rx_data_loop (fuel : nat) (cf : canfd_frame) (len i : Z) : MB (canfd_frame * Z) :=
  if i <? len then
    match fuel with
    | O => no_fuel
    | S fuel' =>
        d ← ctucan_read32 CTUCANFD_RX_DATA;
        bytes ← some_or OutOfBounds (store_le32 (data cf) i d);
        rx_data_loop fuel' (set_data bytes cf) len (i + 4)
    end
  else mret (cf, i).

(** [while (i < wc * 4)] *)
Fixpoint rx_skip_loop (fuel : nat) (wc4 i : Z) : MB unit :=
  if i <? wc4 then
    match fuel with
    | O => no_fuel
    | S fuel' => _ ← ctucan_read32 CTUCANFD_RX_DATA; rx_skip_loop fuel' wc4 (i + 4)
    end
  else mret tt.

(** Returns the frame that [cf] points to as it is filled. *)
Definition ctucan_read_rx_frame (cf : canfd_frame) (ffw : Z) : MB canfd_frame :=
  idw ← ctucan_read32 CTUCANFD_RX_DATA;
  let cf := set_can_id (rx_can_id ffw idw) cf in
  let cf := set_flags (rx_flags ffw) cf in
  let wc4 := u32 (rx_wc ffw * 4) in
  let len := rx_len ffw in
  let cf := set_len (u8 len) cf in
  let len := if wc4 <? len then wc4 else len in
  _ ← ctucan_read32 CTUCANFD_RX_DATA;
  _ ← ctucan_read32 CTUCANFD_RX_DATA;
  ci ← rx_data_loop 17 cf len 0;
  rx_skip_loop (Z.to_nat wc4) wc4 (snd ci);;
  mret (fst ci).

Definition ctucan_rx : MB Z :=
  buffered ← gets (λ n, test_bit CTUCANFD_FLAG_RX_FFW_BUFFERED (drv_flags (priv n)));
  ffw ←
    (if (buffered : bool) then
       ffw ← gets (λ n, rxfrm_first_word (priv n));
       modify (upd_priv (λ p, set_drv_flags
         (clear_bit CTUCANFD_FLAG_RX_FFW_BUFFERED (drv_flags p)) p));;
       mret ffw
     else ctucan_read32 CTUCANFD_RX_DATA);
  if negb (nz (FIELD_GET REG_FRAME_FORMAT_W_RWCNT ffw)) then mret (- EAGAIN) else
  skb ← alloc (if nz (FIELD_GET REG_FRAME_FORMAT_W_FDF ffw) then alloc_canfd_skb
               else alloc_can_skb);
  match skb with
  | None =>
      modify (upd_priv (set_rxfrm_first_word ffw));;
      modify (upd_priv (λ p, set_drv_flags
        (set_bit CTUCANFD_FLAG_RX_FFW_BUFFERED (drv_flags p)) p));;
      mret 0
  | Some cf =>
      cf ← ctucan_read_rx_frame cf ffw;
      modify (upd_stats (λ r, set_rx_bytes (u64 (rx_bytes r + len cf)) r));;
      modify (upd_stats (λ r, set_rx_packets (incr64 (rx_packets r)) r));;
      call_ (netif_receive_skb cf);;
      mret 1
  end.

(** [cf->data[i] |= v] *)
Definition or_data (i : nat) (v : Z) (cf : canfd_frame) : MB canfd_frame :=
  b ← some_or OutOfBounds (data cf !! i);
  mret (set_data (<[i := Z.lor b v]> (data cf)) cf).

Definition read_framecnt : MB Z :=
  v ← ctucan_read32 CTUCANFD_RX_STATUS; mret (FIELD_GET REG_RX_STATUS_RXFRC v).

(** The [while] loop of [ctucan_rx_poll]: returns [framecnt], [work_done] and [res]. *)
Fixpoint rx_poll_loop (fuel : nat) (quota framecnt work_done res : Z) : MB (Z * Z * Z) :=
  if nz framecnt && (work_done <? quota) && (0 <? res) then
    match fuel with
    | O => no_fuel
    | S fuel' =>
        res ← ctucan_rx;
        framecnt ← read_framecnt;
        rx_poll_loop fuel' quota framecnt (work_done + 1) res
    end
  else mret (framecnt, work_done, res).

(** The overflow branch of [ctucan_rx_poll]. *)
Definition rx_overflow : MB unit :=
  call_ (netdev_msg "rx_poll: rx fifo overflow\n");;
  modify (upd_stats (λ r, set_rx_over_errors (incr64 (rx_over_errors r)) r));;
  modify (upd_stats (λ r, set_rx_errors (incr64 (rx_errors r)) r));;
  skb ← alloc alloc_can_err_skb;
  match skb with
  | Some cf =>
      let cf := set_can_id (Z.lor (can_id cf) CAN_ERR_CRTL) cf in
      cf ← or_data 1 CAN_ERR_CRTL_RX_OVERFLOW cf;
      modify (upd_stats (λ r, set_rx_packets (incr64 (rx_packets r)) r));;
      modify (upd_stats (λ r, set_rx_bytes (u64 (rx_bytes r + len cf)) r));;
      call_ (netif_rx cf)
  | None => mret tt
  end;;
  ctucan_write32 CTUCANFD_COMMAND REG_COMMAND_CDO.

Definition ctucan_rx_poll (quota : Z) : MB Z :=
  framecnt ← read_framecnt;
  fwr ← rx_poll_loop (Z.to_nat quota) quota framecnt 0 1;
  let '(framecnt, work_done, res) := fwr in
  status ← ctucan_read32 CTUCANFD_STATUS;
  when (nz (FIELD_GET REG_STATUS_DOR status)) rx_overflow;;
  (if negb (nz framecnt) && nz res then
     done ← call (napi_complete_done work_done);
     when (nz done)
       (ctucan_write32 CTUCANFD_INT_STAT REG_INT_STAT_RBNEI;;
        ctucan_write32 CTUCANFD_INT_MASK_CLR REG_INT_STAT_RBNEI)
   else mret tt);;
  mret work_done.

End Rx.

(** ** The frame that is delivered *)

(** The length field of a received frame: a remote frame keeps the length it asks for. *)
Definition hw_len (ffw : Z) : Z :=
  if ffw_fdf ffw then can_dlc2len (ffw_dlc ffw) else Z.min 8 (ffw_dlc ffw).

(** The frame for the words [ffw :: rest] of the FIFO in the new buffer [cf]. *)
Definition rx_decode (cf : canfd_frame) (ffw : Z) (rest : list Z) : canfd_frame :=
  let bytes := concat (le32_bytes <$> drop 3 rest) in
  {| can_id := rx_can_id ffw (nth 0 rest 0); len := hw_len ffw; flags := rx_flags ffw;
     data := bytes ++ drop (length bytes) (data cf) |}.

(** *** Lengths of well-formed frames *)

Lemma dlc2len_facts d :
  0 <= d < 16 →
  0 <= can_dlc2len d <= 64 ∧ (d <= 8 → can_dlc2len d = d) ∧
  (8 < d → 4 * nwords (can_dlc2len d) = can_dlc2len d).
Proof.
  intros Hd.
  enough ((0 <=? can_dlc2len d) && (can_dlc2len d <=? 64) && (negb (d <=? 8) || (can_dlc2len d =? d))
          && ((d <=? 8) || (4 * nwords (can_dlc2len d) =? can_dlc2len d)) = true) by lia.
  apply (Z_range_forallb 16 (λ d, (0 <=? can_dlc2len d) && (can_dlc2len d <=? 64) &&
    (negb (d <=? 8) || (can_dlc2len d =? d)) &&
    ((d <=? 8) || (4 * nwords (can_dlc2len d) =? can_dlc2len d)))); [done|lia].
Qed.

Lemma hw_payload_range ffw : 0 <= hw_payload ffw <= (if ffw_fdf ffw then 64 else 8).
Proof.
  pose proof (ffw_dlc_range ffw) as Hd. destruct (dlc2len_facts _ Hd) as [? _].
  unfold hw_payload. repeat case_match; lia.
Qed.

Lemma nwords_mono a b : a <= b → nwords a <= nwords b.
Proof. intros. apply Z.div_le_mono; lia. Qed.

(** What the arithmetic of [ctucan_read_rx_frame] gives for a word of the core. *)
Lemma hw_ffw_facts ffw :
  hw_ffw ffw →
  rx_wc ffw = nwords (hw_payload ffw) ∧ u32 (rx_wc ffw * 4) = 4 * nwords (hw_payload ffw) ∧
  0 <= nwords (hw_payload ffw) <= 16 ∧ rx_len ffw = hw_len ffw ∧ 0 <= hw_len ffw <= 64 ∧
  Z.min (4 * nwords (hw_payload ffw)) (hw_len ffw) = hw_payload ffw.
Proof.
  intros (_ & Hrw & Hfd). pose proof (ffw_dlc_range ffw) as Hd.
  destruct (dlc2len_facts _ Hd) as (Hl & Hsmall & Hbig).
  pose proof (hw_payload_range ffw) as Hp. pose proof (nwords_bounds (hw_payload ffw)) as Hb.
  assert (Hwc : rx_wc ffw = nwords (hw_payload ffw)).
  { unfold rx_wc. fold (ffw_rwcnt ffw). rewrite Hrw, u32_small; [lia|].
    unfold is_u32. case_match; lia. }
  assert (Hn : 0 <= nwords (hw_payload ffw) <= 16) by (case_match; lia).
  assert (Hlen : rx_len ffw = hw_len ffw).
  { unfold rx_len, hw_len. fold (ffw_dlc ffw) (ffw_fdf ffw). rewrite Hwc.
    rewrite Z.shiftl_mul_pow2, u32_small by (unfold is_u32; lia).
    destruct (Z.leb_spec (ffw_dlc ffw) 8), (ffw_fdf ffw) eqn:Ef; try lia.
    unfold hw_payload. rewrite Ef, Hfd by done. lia. }
  split_and!; try done; try lia.
  - rewrite Hwc, u32_small by (unfold is_u32; lia). lia.
  - unfold hw_len. case_match; lia.
  - unfold hw_len. case_match; lia.
  - unfold hw_len, hw_payload in *. destruct (ffw_rtr ffw), (ffw_fdf ffw); try lia.
Qed.

(** The frames handed to the network layer along a trace. *)
Fixpoint delivered (tr : list event) : list canfd_frame :=
  match tr with
  | [] => []
  | EvCall (netif_receive_skb cf) _ :: tr' => cf :: delivered tr'
  | _ :: tr' => delivered tr'
  end.

Lemma delivered_app t1 t2 : delivered (t1 ++ t2) = delivered t1 ++ delivered t2.
Proof. induction t1 as [|[| |[]|] t1 IH]; simpl; congruence. Qed.

Lemma delivered_loads a ws : delivered (EvLoad a <$> ws) = [].
Proof. by induction ws. Qed.

(** The control events: stores and the completion of the poll. *)
Fixpoint rx_ctl (tr : list event) : list event :=
  match tr with
  | [] => []
  | EvStore a v :: tr' => EvStore a v :: rx_ctl tr'
  | EvCall (napi_complete_done k) r :: tr' => EvCall (napi_complete_done k) r :: rx_ctl tr'
  | _ :: tr' => rx_ctl tr'
  end.

Lemma rx_ctl_app t1 t2 : rx_ctl (t1 ++ t2) = rx_ctl t1 ++ rx_ctl t2.
Proof. induction t1 as [|[| |[]|] t1 IH]; simpl; congruence. Qed.

Lemma rx_ctl_loads a ws : rx_ctl (EvLoad a <$> ws) = [].
Proof. by induction ws. Qed.

(** [cf] is the decoded form of the words [ws] in a buffer of the right size. *)
Definition is_decode (ws : list Z) (cf : canfd_frame) : Prop :=
  match ws with
  | [] => False
  | ffw :: rest => ∃ cf0, length (data cf0) = (if ffw_fdf ffw then 64 else 8)%nat ∧
      cf = rx_decode cf0 ffw rest
  end.

Lemma test_clear_bit x : test_bit CTUCANFD_FLAG_RX_FFW_BUFFERED
  (clear_bit CTUCANFD_FLAG_RX_FFW_BUFFERED x) = false.
Proof. unfold test_bit, clear_bit. rewrite testbit_clear by done. apply andb_false_r. Qed.

Lemma test_set_bit x : test_bit CTUCANFD_FLAG_RX_FFW_BUFFERED
  (set_bit CTUCANFD_FLAG_RX_FFW_BUFFERED x) = true.
Proof. unfold test_bit, set_bit. rewrite testbit_set by done. apply orb_true_r. Qed.

(** The word kept in the private structure. *)
Definition kept_word (n : net_device) : list Z :=
  if test_bit CTUCANFD_FLAG_RX_FFW_BUFFERED (drv_flags (priv n)) then [rxfrm_first_word (priv n)]
  else [].

Lemma kept_word_priv n n' : priv n = priv n' → kept_word n = kept_word n'.
Proof. unfold kept_word. by intros ->. Qed.

Section RxProofs.
Context {W : Type} `{World W} `{!AllocOk W} (base : Z) (fifo : W → list Z).
Context `{!RxDevice W base fifo}.
Implicit Types (s : st net_device W).

(** The device is at the address of the FIFO. *)
Definition rx_dev (n : net_device) : Prop := le_dev n ∧ mem_base (priv n) = base.

Abbreviation rx_addr := (base + CTUCANFD_RX_DATA).

Lemma wp_pop x xs s Q :
  rx_dev (drv s) → fifo (world s) = x :: xs → is_u32 x →
  (∀ w', grows xs (fifo w') → Q x (mkst (drv s) w' (trace s ++ [EvLoad rx_addr x]))) →
  wp (ctucan_read32 CTUCANFD_RX_DATA) s Q.
Proof.
  intros [Hle Hb] Hf Hx HQ. apply wp_read32; [done|]. intros v w' Hv.
  unfold reg_at in *. rewrite Hb in *. destruct (rxd_pop _ _ _ Hv) as [-> Hg].
  rewrite Hf in *. simpl in *. rewrite u32_small by done. by apply HQ.
Qed.

(** A store of four bytes after the ones already stored. *)
Lemma store_le32_app (A B : list Z) w :
  (4 <= length B)%nat →
  store_le32 (A ++ B) (Z.of_nat (length A)) w = Some (A ++ le32_bytes w ++ drop 4 B).
Proof.
  intros HB. unfold store_le32. rewrite length_app, Nat2Z.id.
  destruct (Z.leb_spec (Z.of_nat (length A) + 4) (Z.of_nat (length A + length B))); [|exfalso; lia]. f_equal.
  rewrite <- (Nat.add_0_r (length A)), list_inserts_app_r. f_equal.
  rewrite <- (take_drop 4 B) at 1. rewrite list_inserts_0_r; [done|].
  rewrite length_take, le32_bytes_length. lia.
Qed.

Lemma rx_data_loop_wp fuel ws more cf len (A B : list Z) s :
  rx_dev (drv s) → fifo (world s) = ws ++ more → Forall is_u32 ws → data cf = A ++ B →
  (4 * length ws <= length B)%nat → (length ws <= fuel)%nat →
  Z.of_nat (4 * length ws) < len - Z.of_nat (length A) + 4 →
  len - Z.of_nat (length A) <= Z.of_nat (4 * length ws) →
  wp (rx_data_loop fuel cf len (Z.of_nat (length A))) s (λ ci s',
    fst ci = set_data (A ++ concat (le32_bytes <$> ws) ++ drop (4 * length ws) B) cf ∧
    snd ci = Z.of_nat (length A + 4 * length ws) ∧
    drv s' = drv s ∧ grows more (fifo (world s')) ∧
    trace s' = trace s ++ (EvLoad rx_addr <$> ws)).
Proof.
  revert fuel more cf A B s. induction ws as [|w ws IH];
    intros fuel more cf A B s Hd Hf Hws Hdata HB Hfuel H1 H2; simpl in *.
  - assert (E : (Z.of_nat (length A) <? len) = false) by lia.
    destruct fuel; cbn [rx_data_loop]; rewrite E; bsteps; simpl;
      rewrite app_nil_r, Nat.add_0_r, drop_0, <- Hdata, Hf; split_and!; try done; try apply grows_refl;
      by destruct cf.
  - destruct fuel as [|fuel]; [lia|]. cbn [rx_data_loop]. inversion_clear Hws.
    replace (Z.of_nat (length A) <? len) with true by lia. bstep.
    eapply wp_pop; [done|exact Hf|done|]. intros w' (new & Hnew & Hg). bsteps.
    eapply wp_some_or; [rewrite Hdata; apply store_le32_app; lia|].
    replace (Z.of_nat (length A) + 4) with (Z.of_nat (length (A ++ le32_bytes w)))
      by (rewrite length_app, le32_bytes_length; lia).
    eapply wp_mono; [apply (IH fuel (more ++ concat new) _ (A ++ le32_bytes w) (drop 4 B))|].
    + done.
    + simpl. by rewrite Hg, app_assoc.
    + done.
    + unfold set_data. cbn [data]. by rewrite <- app_assoc.
    + rewrite length_drop. lia.
    + lia.
    + rewrite length_app, le32_bytes_length. lia.
    + rewrite length_app, le32_bytes_length. lia.
    + intros ci s' (Hc & Hi & Hdr & Hgr & Htr). rewrite Hc, Hi, Hdr, Htr, length_app, le32_bytes_length.
      split_and!; [|lia|done|eapply grows_trans; [by exists new|done]|by tr_norm].
      unfold set_data. cbn [data can_id LinuxDefs.len flags]. f_equal. rewrite drop_drop, <- !app_assoc.
      f_equal. simpl. do 6 f_equal. lia.
Qed.

Lemma rx_skip_none fuel wc4 i s Q : wc4 <= i → Q tt s → wp (rx_skip_loop fuel wc4 i) s Q.
Proof.
  intros Hi HQ. destruct fuel; simpl; replace (i <? wc4) with false by lia; done.
Qed.

(** Three pops and the payload. *)
Lemma read_rx_frame_wp cf ffw rest more s :
  rx_dev (drv s) → fifo (world s) = rest ++ more → hw_frame (ffw :: rest) →
  ((if ffw_fdf ffw then 64 else 8) <= length (data cf))%nat →
  wp (ctucan_read_rx_frame cf ffw) s (λ cf' s', cf' = rx_decode cf ffw rest ∧ drv s' = drv s ∧
    grows more (fifo (world s')) ∧ trace s' = trace s ++ (EvLoad rx_addr <$> rest)).
Proof.
  intros Hd Hf (Hffw & Hlen & Hu) Hcap.
  destruct (hw_ffw_facts _ Hffw) as (Hwc & Hwc4 & Hn & Hrl & Hhl & Hmin).
  destruct Hffw as (_ & Hrw & _). pose proof (nwords_bounds (hw_payload ffw)) as Hb.
  pose proof (hw_payload_range ffw) as Hp.
  destruct rest as [|idw [|t1 [|t2 ws]]]; simpl in Hlen; try lia. simpl in Hf.
  apply Forall_cons in Hu as [Hu0 [Hu1 [Hu2 Hu]%Forall_cons]%Forall_cons].
  unfold ctucan_read_rx_frame. cbv zeta. bstep. eapply wp_pop; [done|exact Hf|done|].
  intros w0 (n0 & Hn0 & E0). bstep. eapply wp_pop; [done|exact E0|done|].
  intros w1 (n1 & Hn1 & E1). bstep. eapply wp_pop; [done|exact E1|done|].
  intros w2 (n2 & Hn2 & E2). bstep. rewrite Hwc4, Hrl.
  assert (Hbytes : length (concat (le32_bytes <$> ws)) = (4 * length ws)%nat)
    by (clear; induction ws as [|w ws IH]; csimpl; [done|]; rewrite IH; lia).
  set (L := if 4 * nwords (hw_payload ffw) <? hw_len ffw then _ else _).
  assert (HL : L = hw_payload ffw) by
    (unfold L; destruct (Z.ltb_spec (4 * nwords (hw_payload ffw)) (hw_len ffw)); lia).
  eapply wp_mono; [apply (rx_data_loop_wp 17 ws (more ++ concat n0 ++ concat n1 ++ concat n2) _ L
    [] (data cf)); simpl; [done| |done|done|..]|].
  { simpl in E2. by rewrite E2, <- !app_assoc. }
  { case_match; lia. }
  { lia. }
  { lia. }
  { lia. }
  intros [cf' i] s' (Hc & Hi & Hdr & Hg & Ht). simpl in Hc, Hi, Hdr, Ht. subst cf' i. bsteps.
  apply rx_skip_none; [simpl; lia|]. bsteps. split_and!.
  - unfold rx_decode. cbn [skipn fst]. rewrite drop_0, Hbytes. unfold set_data. csimpl. f_equal.
    unfold u8. rewrite Z.mod_small; lia.
  - done.
  - eapply grows_trans; [|done]. exists (n0 ++ n1 ++ n2). rewrite !concat_app.
    split; [by rewrite !Forall_app|done].
  - rewrite Ht. tr_norm. by csimpl.
Qed.

(** *** The queue of received frames

    The frames that are not delivered yet: the kept word, if any, followed by the FIFO. *)
Definition rx_queue s (frames : list (list Z)) : Prop :=
  Forall hw_frame frames ∧ kept_word (drv s) ++ fifo (world s) = concat frames.

Lemma rx_queue_grows s s' frames :
  rx_queue s frames → kept_word (drv s') = kept_word (drv s) →
  grows (fifo (world s)) (fifo (world s')) →
  ∃ new, Forall hw_frame new ∧ rx_queue s' (frames ++ new).
Proof.
  intros [Hf Hq] Hk (new & Hn & E). exists new. split; [done|]. split; [by apply Forall_app|].
  by rewrite Hk, E, app_assoc, Hq, concat_app.
Qed.

(** From [s] to [s'], with the frames [frames] queued at first: the frames [got]
    were delivered, in order, the frames [left] are queued, and [c] are the control
    events.  The core may have received further frames meanwhile, but none is lost. *)
Definition rx_sim (frames : list (list Z)) s (got left : list (list Z)) (c : list event) s' : Prop :=
  rx_dev (drv s') ∧ ∃ tr new, Forall hw_frame new ∧ trace s' = trace s ++ tr ∧ frames ++ new = got ++ left ∧
    rx_queue s' left ∧ Forall2 is_decode got (delivered tr) ∧ rx_ctl tr = c.

Lemma rx_sim_trans frames s g1 l1 c1 s1 g2 l2 c2 s2 :
  rx_sim frames s g1 l1 c1 s1 → rx_sim l1 s1 g2 l2 c2 s2 →
  rx_sim frames s (g1 ++ g2) l2 (c1 ++ c2) s2.
Proof.
  intros (_ & t1 & n1 & Hn1 & Ht1 & E1 & _ & Hd1 & <-) (Hdev & t2 & n2 & Hn2 & Ht2 & E2 & Hq & Hd2 & <-).
  split; [done|]. exists (t1 ++ t2), (n1 ++ n2). split_and!.
  - by apply Forall_app.
  - by rewrite Ht2, Ht1, app_assoc.
  - by rewrite app_assoc, E1, <- !app_assoc, E2.
  - done.
  - rewrite delivered_app. by apply Forall2_app.
  - by rewrite rx_ctl_app.
Qed.

(** A single event that delivers nothing. *)
Lemma rx_sim_event e frames s d' w' :
  rx_dev d' → kept_word d' = kept_word (drv s) → delivered [e] = [] →
  rx_queue s frames → grows (fifo (world s)) (fifo w') →
  ∃ left, frames `prefix_of` left ∧ rx_sim frames s [] left (rx_ctl [e]) (mkst d' w' (trace s ++ [e])).
Proof.
  intros Hd Hk He [Hfs Hq] (new & Hn & E). exists (frames ++ new).
  split; [by apply prefix_app_r|]. split; [done|].
  exists [e], new. split_and!; try done; [|by rewrite He].
  split; [by apply Forall_app|]. simpl. by rewrite Hk, E, app_assoc, Hq, concat_app.
Qed.

(** The outcomes of one attempt to receive. *)
Definition rx_post (frames : list (list Z)) s (r : Z) s' : Prop :=
  match frames with
  | [] => r = - EAGAIN ∧ stats (drv s') = stats (drv s) ∧ ∃ left, rx_sim frames s [] left [] s'
  | f :: _ =>
      (r = 0 ∧ stats (drv s') = stats (drv s) ∧
       ∃ left, frames `prefix_of` left ∧ rx_sim frames s [] left [] s') ∨
      (r = 1 ∧ (∃ left, rx_sim frames s [f] left [] s') ∧
       rx_packets (stats (drv s')) = incr64 (rx_packets (stats (drv s))) ∧
       rx_bytes (stats (drv s')) = u64 (rx_bytes (stats (drv s)) + hw_len (hd 0 f)))
  end.

(** [ctucan_rx] after the first word [ffw] is known. *)
Lemma rx_rest_wp ffw rest frames s :
  rx_dev (drv s) → hw_frame (ffw :: rest) → Forall hw_frame frames →
  kept_word (drv s) = [] → fifo (world s) = rest ++ concat frames →
  wp (if negb (nz (FIELD_GET REG_FRAME_FORMAT_W_RWCNT ffw)) then mret (- EAGAIN) else
      skb ← alloc (if nz (FIELD_GET REG_FRAME_FORMAT_W_FDF ffw) then alloc_canfd_skb
                   else alloc_can_skb);
      match skb with
      | None =>
          modify (upd_priv (set_rxfrm_first_word ffw));;
          modify (upd_priv (λ p, set_drv_flags
            (set_bit CTUCANFD_FLAG_RX_FFW_BUFFERED (drv_flags p)) p));;
          mret 0
      | Some cf =>
          cf ← ctucan_read_rx_frame cf ffw;
          modify (upd_stats (λ r, set_rx_bytes (u64 (rx_bytes r + len cf)) r));;
          modify (upd_stats (λ r, set_rx_packets (incr64 (rx_packets r)) r));;
          call_ (netif_receive_skb cf);;
          mret 1
      end) s (rx_post ((ffw :: rest) :: frames) s).
Proof.
  intros Hd Hfr Hfs Hk Hf. pose proof Hfr as (Hffw & Hlen & Hu).
  assert (Hrw : 3 <= ffw_rwcnt ffw).
  { destruct (hw_ffw_facts _ Hffw) as (_ & _ & Hn & _). destruct Hffw as (_ & -> & _). lia. }
  fold (ffw_rwcnt ffw). rewrite (proj2 (nz_true (ffw_rwcnt ffw))) by lia. simpl. bstep.
  fold (ffw_fdf ffw). apply wp_alloc. intros o w1 Ho.
  destruct (rxd_alloc _ _ _ _ Ho) as (n1 & Hn1 & E1). rewrite Hf in E1.
  destruct o as [cf|].
  - assert (Hcap : length (data cf) = (if ffw_fdf ffw then 64 else 8)%nat)
      by (rewrite (alloc_capacity _ _ _ _ Ho); by destruct (ffw_fdf ffw)).
    bstep. eapply wp_mono; [apply (read_rx_frame_wp cf ffw rest (concat frames ++ concat n1));
      [done|simpl; by rewrite E1, app_assoc|done|by rewrite Hcap]|].
    intros cf' s2 (-> & Hd2 & (n2 & Hn2 & E2) & Ht2). simpl in Hd2, Ht2.
    repeat first [apply wp_call_; intros r w3 Hr | bstep]. simpl.
    destruct (rxd_call _ _ _ _ Hr) as (n3 & Hn3 & E3). simpl in E3.
    right. split; [done|]. split; [|by rewrite Hd2].
    exists (frames ++ n1 ++ n2 ++ n3). split; [unfold rx_dev, le_dev; simpl; by rewrite Hd2|].
    eexists _, (n1 ++ n2 ++ n3). rewrite Ht2, <- !app_assoc. split_and!; [by rewrite !Forall_app|done..| | |].
    + split; [by rewrite !Forall_app|]. cbn [drv world].
      rewrite (kept_word_priv _ (drv s)), Hk, E3, E2 by (simpl; by rewrite Hd2).
      by rewrite !concat_app, <- !app_assoc.
    + rewrite !delivered_app, delivered_loads. simpl. constructor; [|done]. by exists cf.
    + by rewrite !rx_ctl_app, rx_ctl_loads.
  - bsteps. left. split; [done|]. split; [done|].
    exists (((ffw :: rest) :: frames) ++ n1). split; [by apply prefix_app_r|]. split; [done|].
    eexists _, n1. split_and!; [done..| |done|done].
    split; [apply Forall_app; split; [by constructor|done]|].
    unfold kept_word. cbn [drv world upd_priv priv set_drv_flags drv_flags rxfrm_first_word set_rxfrm_first_word].
    rewrite test_set_bit, E1, concat_app. done.
Qed.

(** Taking the first word from the FIFO and keeping it in a variable. *)
Lemma rx_post_pop f frames n1 s s1 r s' e :
  Forall hw_frame n1 →
  drv s1 = drv s → trace s1 = trace s ++ [e] → delivered [e] = [] → rx_ctl [e] = [] →
  rx_post (f :: frames ++ n1) s1 r s' → rx_post (f :: frames) s r s'.
Proof.
  intros Hn1 Hd1 Ht1 He Hc Hp.
  assert (Hs : ∀ got left c, rx_sim (f :: frames ++ n1) s1 got left c s' →
    rx_sim (f :: frames) s got left c s').
  { intros got left c (Hdev & tr & new & Hn & Ht & E & Hq & Hdel & Hctl). split; [done|].
    exists (e :: tr), (n1 ++ new). split_and!; [by apply Forall_app| |by rewrite <- E; simpl; rewrite <- app_assoc|done|..].
    - by rewrite Ht, Ht1, <- app_assoc.
    - change (e :: tr) with ([e] ++ tr). by rewrite delivered_app, He.
    - change (e :: tr) with ([e] ++ tr). by rewrite rx_ctl_app, Hc. }
  unfold rx_post in *. rewrite Hd1 in Hp.
  destruct Hp as [(? & ? & q & [k ->] & ?)|(? & (q & ?) & ?)]; [left|right; naive_solver].
  split_and!; [done..|]. exists ((f :: frames ++ n1) ++ k). split; [|by apply Hs].
  exists (n1 ++ k). simpl. by rewrite <- app_assoc.
Qed.

Lemma rx_wp frames s :
  rx_dev (drv s) → rx_queue s frames → wp ctucan_rx s (rx_post frames s).
Proof.
  intros Hd [Hfs Hq]. unfold ctucan_rx. bstep. bstep. bstep. unfold kept_word in Hq.
  destruct (test_bit _ _) eqn:Eb.
  - destruct frames as [|[|ffw rest] frames]; [done|by apply Forall_cons in Hfs as [[] _]|].
    apply Forall_cons in Hfs as [Hf Hfs]. simpl in Hq. injection Hq as Hw Hq. bsteps. rewrite Hw.
    set (s1 := mkst _ _ _).
    eapply wp_mono; [apply (rx_rest_wp ffw rest frames s1)|]; try done.
    unfold kept_word, s1. simpl. by rewrite test_clear_bit.
  - destruct frames as [|[|ffw rest] frames].
    + apply wp_read32; [apply Hd|]. intros v w' Hv. simpl in Hq. unfold reg_at in *.
      pose proof Hd as [Hle Hb]. rewrite Hb in *. destruct (rxd_pop _ _ _ Hv) as [-> Hg].
      rewrite Hq in Hg |- *. simpl in *. destruct Hg as (new & Hn & E). bsteps.
      split; [done|]. split; [done|]. exists new. split; [done|]. eexists _, new.
      split_and!; try done. split; [done|]. unfold kept_word. simpl. by rewrite Eb, E.
    + by apply Forall_cons in Hfs as [[] _].
    + apply Forall_cons in Hfs as [Hf Hfs]. simpl in Hq.
      eapply wp_pop; [done|exact Hq|by destruct Hf as [[? _] _]|].
      intros w' (n1 & Hn1 & E1). set (s1 := mkst _ _ _).
      eapply wp_mono; [apply (rx_rest_wp ffw rest (frames ++ n1) s1)|]; try done.
      * by apply Forall_app.
      * unfold kept_word, s1. simpl. by rewrite Eb.
      * unfold s1. simpl. by rewrite E1, concat_app, app_assoc.
      * intros r s'. by eapply rx_post_pop.
Qed.

(** *** Polling *)

Lemma rx_sim_queue frames s got lft c s' : rx_sim frames s got lft c s' → rx_queue s' lft ∧ rx_dev (drv s').
Proof. by intros (? & ? & ? & ? & ? & ? & ? & _). Qed.

Lemma rx_sim_refl frames s :
  rx_dev (drv s) → rx_queue s frames → rx_sim frames s [] frames [] s.
Proof.
  intros Hd Hq. split; [done|]. exists [], []. rewrite !app_nil_r. by split_and!.
Qed.

(** One more event that delivers nothing; the driver may update its counters. *)
Lemma rx_sim_step e d' w' frames s got lft c s1 :
  rx_sim frames s got lft c s1 → priv d' = priv (drv s1) → delivered [e] = [] →
  grows (fifo (world s1)) (fifo w') →
  ∃ lft', rx_sim frames s got lft' (c ++ rx_ctl [e]) (mkst d' w' (trace s1 ++ [e])).
Proof.
  intros Hs Hp He Hg. destruct (rx_sim_queue _ _ _ _ _ _ Hs) as [Hq Hd].
  destruct (rx_sim_event e lft s1 d' w') as (lft' & _ & Hs'); try done.
  - unfold rx_dev, le_dev. by rewrite Hp.
  - by apply kept_word_priv.
  - exists lft'. rewrite <- (app_nil_r got). by eapply rx_sim_trans.
Qed.

Lemma rx_sim_stats f frames s got lft c s1 :
  rx_sim frames s got lft c s1 →
  rx_sim frames s got lft c (mkst (upd_stats f (drv s1)) (world s1) (trace s1)).
Proof.
  intros (Hd & tr & new & Hn & Ht & E & [Hfs Hq] & Hdel & Hc). split; [done|]. exists tr, new.
  split_and!; try done.
Qed.

(** Reading the frame count. *)
Lemma read_framecnt_wp frames s got lft c s1 :
  rx_sim frames s got lft c s1 →
  wp read_framecnt s1 (λ fc s', 0 <= fc ∧ (fc = 0 → frames `prefix_of` got) ∧
    ∃ lft', rx_sim frames s got lft' c s').
Proof.
  intros Hs. destruct (rx_sim_queue _ _ _ _ _ _ Hs) as [[Hfs Hq] [Hle Hb]].
  unfold read_framecnt. bstep. apply wp_read32; [done|]. intros v w' Hv.
  unfold reg_at in *. rewrite Hb in *. bsteps.
  destruct (rxd_count _ _ _ Hv) as [Hv32 Hc]. rewrite u32_small by done. split_and!.
  - by apply FIELD_GET_nonneg.
  - intros Hz. apply Hc in Hz. rewrite Hz, app_nil_r in Hq.
    assert (lft = []) as ->.
    { destruct lft as [|f lft]; [done|]. exfalso. apply Forall_cons in Hfs as [Hf _].
      destruct f as [|ffw rest]; [done|]. destruct Hf as (Hffw & Hl & _).
      destruct (hw_ffw_facts _ Hffw) as (_ & _ & ? & _). destruct Hffw as (_ & Hrw & _).
      assert (Hlen : (length (kept_word (drv s1)) <= 1)%nat) by (unfold kept_word; by case_match; simpl; lia).
      rewrite Hq in Hlen. simpl in Hlen. rewrite length_app in Hlen. lia. }
    destruct Hs as (_ & tr & new & _ & _ & E & _). rewrite app_nil_r in E. by exists new.
  - destruct (rx_sim_step (EvLoad (base + CTUCANFD_RX_STATUS) v) (drv s1) w' _ _ _ _ _ _ Hs)
      as (lft' & Hs'); [done|done| |].
    + eapply rxd_load; [|done]. by unfold CTUCANFD_RX_STATUS, CTUCANFD_RX_DATA; lia.
    + exists lft'. by rewrite app_nil_r in Hs'.
Qed.

Lemma rx_poll_loop_wp fuel quota fc wd res frames s got lft s1 :
  rx_sim frames s got lft [] s1 → 0 <= fc → (fc = 0 → frames `prefix_of` got) →
  Z.of_nat (length got) <= wd → quota - wd <= Z.of_nat fuel →
  wp (rx_poll_loop fuel quota fc wd res) s1 (λ r s', let '(fc', wd', res') := r in
    ∃ got' lft', rx_sim frames s got' lft' [] s' ∧ (fc' = 0 → frames `prefix_of` got') ∧
      Z.of_nat (length got') <= wd' ∧ wd <= wd' <= Z.max wd quota).
Proof.
  revert fc wd res got lft s1. induction fuel as [|fuel IH];
    intros fc wd res got lft s1 Hs Hfc Hpre Hgot Hfuel; cbn [rx_poll_loop];
    (destruct (nz fc && (wd <? quota) && (0 <? res)) eqn:Ego; [|
      bsteps; exists got, lft; split_and!; (done || lia)]).
  { lia. }
  destruct (rx_sim_queue _ _ _ _ _ _ Hs) as [Hq Hd].
  bstep. eapply wp_mono; [by apply rx_wp|]. intros r s2 Hp. bstep.
  assert (∃ g2 l2, rx_sim frames s g2 l2 [] s2 ∧ Z.of_nat (length g2) <= wd + 1) as (g2 & l2 & Hs2 & Hg2).
  { destruct lft as [|f lft]; simpl in Hp.
    - destruct Hp as (_ & _ & l2 & Hs2). exists (got ++ []), l2.
      split; [by eapply (rx_sim_trans _ _ _ _ [] _ _ _ [])|]. rewrite app_nil_r. lia.
    - destruct Hp as [(_ & _ & l2 & _ & Hs2)|(_ & (l2 & Hs2) & _)].
      + exists (got ++ []), l2. split; [by eapply (rx_sim_trans _ _ _ _ [] _ _ _ [])|]. rewrite app_nil_r. lia.
      + exists (got ++ [f]), l2. split; [by eapply (rx_sim_trans _ _ _ _ [] _ _ _ [])|]. rewrite length_app. simpl. lia. }
  eapply wp_mono; [by eapply read_framecnt_wp|]. intros fc' s3 (Hfc' & Hpre' & l3 & Hs3).
  eapply wp_mono; [eapply IH; [exact Hs3|done|done|lia|lia]|].
  intros [[fc'' wd''] res''] s' (g & l & ? & ? & ? & ?). exists g, l. split_and!; (done || lia).
Qed.

(** **** Rules for the operations that deliver nothing *)

Section SimRules.
Context (frames : list (list Z)) (s0 : st net_device W).
Abbreviation sim := (rx_sim frames s0).

Lemma wp_sim_call k s got lft c Q :
  sim got lft c s → (∀ r, delivered [EvCall k r] = []) →
  (∀ r s' lft', sim got lft' (c ++ rx_ctl [EvCall k r]) s' → drv s' = drv s → Q r s') →
  wp (call k) s Q.
Proof.
  intros Hs He HQ. apply wp_call. intros r w' Hw.
  eapply (rx_sim_step (EvCall k r) (drv s)) in Hs as (l & Hs'); [|done|done|by eapply rxd_call].
  by eapply HQ.
Qed.

Lemma wp_sim_call_ k s got lft c Q :
  sim got lft c s → (∀ r, delivered [EvCall k r] = []) → (∀ r, rx_ctl [EvCall k r] = []) →
  (∀ s' lft', sim got lft' c s' → drv s' = drv s → Q tt s') → wp (call_ k) s Q.
Proof.
  intros Hs He Hc HQ. unfold call_. apply wp_bind. eapply wp_sim_call; [done|done|].
  intros r s' l Hs' Hd. rewrite Hc, app_nil_r in Hs'. apply wp_ret. by eapply HQ.
Qed.

Lemma wp_sim_alloc k s got lft c Q :
  sim got lft c s →
  (∀ o s' lft', sim got lft' c s' → drv s' = drv s →
    (∀ cf, o = Some cf → length (data cf) = skb_capacity k) → Q o s') →
  wp (alloc k) s Q.
Proof.
  intros Hs HQ. apply wp_alloc. intros o w' Hw.
  eapply (rx_sim_step (EvAlloc k (bool_decide (is_Some o))) (drv s)) in Hs as (l & Hs');
    [|done|done|by eapply rxd_alloc]. rewrite app_nil_r in Hs'.
  eapply HQ; [done|done|]. intros cf ->. by eapply alloc_capacity.
Qed.

Lemma wp_sim_read reg s got lft c Q :
  sim got lft c s → reg ≠ CTUCANFD_RX_DATA →
  (∀ v s' lft', sim got lft' c s' → drv s' = drv s → Q v s') → wp (ctucan_read32 reg) s Q.
Proof.
  intros Hs Hr HQ. destruct (rx_sim_queue _ _ _ _ _ _ Hs) as [_ [Hle Hb]].
  apply wp_read32; [done|]. intros v w' Hv. unfold reg_at in *. rewrite Hb in *.
  eapply (rx_sim_step (EvLoad (base + reg) (u32 v)) (drv s)) in Hs as (l & Hs');
    [|done|done|eapply (rxd_load (base + reg)); [lia|done]]. rewrite app_nil_r in Hs'. by eapply HQ.
Qed.

Lemma wp_sim_write reg val s got lft c Q :
  sim got lft c s → reg ≠ CTUCANFD_MODE → reg ≠ CTUCANFD_COMMAND ∨ val = REG_COMMAND_CDO → is_u32 val →
  (∀ s' lft', sim got lft' (c ++ [EvStore (base + reg) val]) s' → drv s' = drv s → Q tt s') →
  wp (ctucan_write32 reg val) s Q.
Proof.
  intros Hs Hm Hc Hv HQ. destruct (rx_sim_queue _ _ _ _ _ _ Hs) as [_ [Hle Hb]].
  apply wp_write32; [done|]. unfold reg_at. rewrite Hb, u32_small by done.
  eapply (rx_sim_step (EvStore (base + reg) val) (drv s) (w_store32 (base + reg) val (world s)))
    in Hs as (l & Hs');
    [|done|done|apply rxd_store; [lia|destruct Hc; [left; lia|by right]]]. by eapply HQ.
Qed.

Lemma wp_sim_stats f s got lft c Q :
  sim got lft c s → (∀ s', sim got lft c s' → drv s' = upd_stats f (drv s) → Q tt s') →
  wp (modify (upd_stats f)) s Q.
Proof. intros Hs HQ. apply wp_modify, HQ; [|done]. by apply rx_sim_stats. Qed.

End SimRules.

(** Symbolic execution that maintains the simulation. *)
Ltac sim_step :=
  lazymatch goal with
  | Hs : rx_sim _ _ _ _ _ ?s |- wp (call_ _) ?s _ =>
      eapply wp_sim_call_; [exact Hs|done|done|]; clear Hs; intros ? ? Hs ?
  | Hs : rx_sim _ _ _ _ _ ?s |- wp (call _) ?s _ =>
      eapply wp_sim_call; [exact Hs|done|]; clear Hs; intros r ? ? Hs ?
  | Hs : rx_sim _ _ _ _ _ ?s |- wp (alloc _) ?s _ =>
      eapply wp_sim_alloc; [exact Hs|]; clear Hs; intros o ? ? Hs ? Hcap
  | Hs : rx_sim _ _ _ _ _ ?s |- wp (ctucan_read32 _) ?s _ =>
      eapply wp_sim_read; [exact Hs|done|]; clear Hs; intros v ? ? Hs ?
  | Hs : rx_sim _ _ _ _ _ ?s |- wp (ctucan_write32 _ _) ?s _ =>
      eapply wp_sim_write; [exact Hs|done|by (left + right)|by_compute|]; clear Hs; intros ? ? Hs ?
  | Hs : rx_sim _ _ _ _ _ ?s |- wp (modify (upd_stats _)) ?s _ =>
      eapply wp_sim_stats; [exact Hs|]; clear Hs; intros ? Hs ?
  | |- wp (mbind _ _) _ _ => apply wp_bind
  | |- wp (mret _) _ _ => apply wp_ret
  end; cbn beta iota.

Ltac sim_steps := repeat sim_step.

(** The overflow branch reports the overrun and clears it. *)
Lemma rx_overflow_wp frames s got lft c s1 :
  rx_sim frames s got lft c s1 →
  wp rx_overflow s1 (λ _ s', ∃ lft', rx_sim frames s got lft'
    (c ++ [EvStore (base + CTUCANFD_COMMAND) REG_COMMAND_CDO]) s').
Proof.
  intros Hs. unfold rx_overflow. sim_steps.
  destruct o as [cf|].
  - specialize (Hcap cf eq_refl). unfold or_data. sim_steps.
    destruct (data cf) as [|b0 [|b1 d]] eqn:Ed; simpl in Hcap; try lia.
    eapply wp_some_or; [simpl; by rewrite Ed|]. sim_steps. eauto.
  - sim_steps. eauto.
Qed.

(** The ways a poll ends: it stays scheduled, or it is completed, and then the
    receive interrupt is cleared and unmasked, in this order, exactly if the kernel says so. *)
Inductive poll_end (wd : Z) : list event → Prop :=
  | poll_again : poll_end wd []
  | poll_done : poll_end wd [EvCall (napi_complete_done wd) 0]
  | poll_rearm r : r ≠ 0 →
      poll_end wd [EvCall (napi_complete_done wd) r;
                   EvStore (base + CTUCANFD_INT_STAT) REG_INT_STAT_RBNEI;
                   EvStore (base + CTUCANFD_INT_MASK_CLR) REG_INT_STAT_RBNEI].

Definition poll_post quota frames s (wd : Z) s' : Prop :=
  ∃ got lft c ovf, rx_sim frames s got lft (ovf ++ c) s' ∧
    (ovf = [] ∨ ovf = [EvStore (base + CTUCANFD_COMMAND) REG_COMMAND_CDO]) ∧
    poll_end wd c ∧ (c = [] ∨ frames `prefix_of` got) ∧
    Z.of_nat (length got) <= wd ∧ 0 <= wd <= Z.max 0 quota.

Lemma rx_poll_wp quota frames s :
  rx_dev (drv s) → rx_queue s frames → wp (ctucan_rx_poll quota) s (poll_post quota frames s).
Proof.
  intros Hd Hq. pose proof (rx_sim_refl _ _ Hd Hq) as Hs. unfold ctucan_rx_poll. bstep.
  eapply wp_mono; [by eapply read_framecnt_wp|]. intros fc s1 (Hfc & Hpre & l1 & Hs1). bstep.
  eapply wp_mono; [eapply rx_poll_loop_wp; [done|done|done|simpl; lia|lia]|].
  intros [[fc' wd] res] s2 (got & l2 & Hs2 & Hpre2 & Hgot & Hwd). clear Hs Hs1. sim_steps.
  assert (Hend : ∀ ovf lft s3, rx_sim frames s got lft ovf s3 →
    (ovf = [] ∨ ovf = [EvStore (base + CTUCANFD_COMMAND) REG_COMMAND_CDO]) →
    wp ((if negb (nz fc') && nz res then
           done ← call (napi_complete_done wd);
           when (nz done)
             (ctucan_write32 CTUCANFD_INT_STAT REG_INT_STAT_RBNEI;;
              ctucan_write32 CTUCANFD_INT_MASK_CLR REG_INT_STAT_RBNEI)
         else mret tt);; mret wd) s3 (poll_post quota frames s)).
  { intros ovf lft s3 Hs3 Hovf. bstep. destruct (negb (nz fc') && nz res) eqn:Ego.
    - apply andb_true_iff in Ego as [Hz%negb_true_iff%nz_false _]. sim_steps.
      apply wp_when; intros Er; sim_steps; rewrite <- ?app_assoc in Hs3; eexists got, _, _, ovf;
        (split; [exact Hs3|]); split_and!; try done; try lia; try (right; by apply Hpre2).
      + by apply poll_rearm, nz_true.
      + apply nz_false in Er as ->. apply poll_done.
    - sim_steps. exists got, lft, [], ovf. rewrite app_nil_r.
      split_and!; try done; try lia; [apply poll_again|by left]. }
  apply wp_when; intros Hdor.
  - eapply wp_mono; [by eapply rx_overflow_wp|]. intros [] s3 [l3 Hs3]. eapply Hend; [exact Hs3|by right].
  - eapply Hend; [done|by left].
Qed.

(** *** The budget

    NAPI looks at the number a poll returns and at whether it was completed.  A poll that was not completed has used
    up its quota, or stopped because the buffer for a frame could not be allocated. *)

Definition alloc_failed (tr : list event) : Prop :=
  EvAlloc alloc_can_skb false ∈ tr ∨ EvAlloc alloc_canfd_skb false ∈ tr.

Definition completed (tr : list event) : Prop := ∃ k r, EvCall (napi_complete_done k) r ∈ tr.

(** What the events since [s0] satisfy. *)
Definition since s0 (P : list event → Prop) s : Prop := ∃ tr, trace s = trace s0 ++ tr ∧ P tr.

Abbreviation ext s0 := (since s0 (λ _, True)).

Lemma since_more (P : list event → Prop) s0 s s' :
  (∀ t1 t2, P t1 → P (t1 ++ t2)) → since s0 P s → ext s s' → since s0 P s'.
Proof. intros HP (t1 & E1 & H1) (t2 & E2 & _). exists (t1 ++ t2). rewrite E2, E1, app_assoc. auto. Qed.

Lemma since_later (P : list event → Prop) s0 s s' :
  (∀ t1 t2, P t2 → P (t1 ++ t2)) → ext s0 s → since s P s' → since s0 P s'.
Proof. intros HP (t1 & E1 & _) (t2 & E2 & H2). exists (t1 ++ t2). rewrite E2, E1, app_assoc. auto. Qed.

Lemma alloc_failed_app t1 t2 : alloc_failed (t1 ++ t2) ↔ alloc_failed t1 ∨ alloc_failed t2.
Proof. unfold alloc_failed. rewrite !elem_of_app. tauto. Qed.

Lemma failed_more s0 s s' : since s0 alloc_failed s → ext s s' → since s0 alloc_failed s'.
Proof. apply since_more. intros t1 t2. rewrite alloc_failed_app. auto. Qed.

Lemma failed_later s0 s s' : ext s0 s → since s alloc_failed s' → since s0 alloc_failed s'.
Proof. apply since_later. intros t1 t2. rewrite alloc_failed_app. auto. Qed.

Lemma rx_sim_ext frames s got lft c s' : rx_sim frames s got lft c s' → ext s s'.
Proof. intros (_ & tr & _ & _ & E & _). by exists tr. Qed.

Lemma elem_of_rx_ctl e tr : e ∈ rx_ctl tr → e ∈ tr.
Proof.
  induction tr as [|e' tr IH]; [done|]. rewrite elem_of_cons.
  destruct e' as [| |[]|]; cbn [rx_ctl]; rewrite ?elem_of_cons; tauto.
Qed.

(** [ctucan_rx] with a frame queued: 1, or 0 after a failed allocation. *)
Lemma rx_result f frames s :
  rx_dev (drv s) → rx_queue s (f :: frames) →
  wp ctucan_rx s (λ r s', rx_dev (drv s') ∧ (∃ lft, rx_queue s' lft) ∧ ext s s' ∧
    (r = 1 ∨ r = 0 ∧ since s alloc_failed s')).
Proof.
  intros Hd Hq. pose proof (rx_wp _ _ Hd Hq) as Hw.
  assert (Hz : ∀ s', ctucan_rx s = (Ok 0, s') → since s alloc_failed s').
  { clear Hw Hq. intros s'. unfold ctucan_rx. unfold mbind at 1, M_bind at 1, gets at 1.
    set (m := if test_bit _ _ then _ else _).
    assert (Hm : wp m s (λ _ s1, ext s s1)).
    { unfold m. case_match; bsteps; [exists []; by rewrite app_nil_r|].
      apply wp_read32; [apply Hd|]. intros v w' _. by eexists. }
    unfold mbind at 1, M_bind at 1. apply wp_iff in Hm as (ffw & s1 & -> & Hx).
    case_match; [by intros [= ?]|]. unfold mbind at 1, M_bind at 1, alloc.
    destruct (w_alloc _ (world s1)) as [[cf|] w1].
    - intros Hr. exfalso. revert Hr. unfold mbind, M_bind.
      repeat (case_match; try discriminate).
    - intros [= <-]. destruct Hx as (t & E & _). eexists (t ++ [_]). cbn [trace]. split; [by rewrite E, app_assoc|].
      apply alloc_failed_app. right. unfold alloc_failed. rewrite !list_elem_of_singleton. case_match; auto. }
  apply wp_iff in Hw as (r & s' & E & Hp). apply wp_iff. exists r, s'. split; [done|]. cbn [rx_post] in Hp.
  destruct Hp as [(-> & _ & l & _ & Hs)|(-> & (l & Hs) & _)];
    (split_and!; [by apply rx_sim_queue in Hs as []|by apply rx_sim_queue in Hs as []; eauto|by eapply rx_sim_ext|]); auto.
Qed.

Lemma read_framecnt_queue frames s :
  rx_dev (drv s) → rx_queue s frames →
  wp read_framecnt s (λ fc s', rx_dev (drv s') ∧ ext s s' ∧ ∃ lft, rx_queue s' lft ∧ (fc ≠ 0 → lft ≠ [])).
Proof.
  intros Hd Hq. pose proof (rx_sim_refl _ _ Hd Hq) as Hs. eapply wp_mono; [apply wp_and; [by eapply read_framecnt_wp|]|].
  - instantiate (1 := λ fc s', fc ≠ 0 → fifo (world s') ≠ []). destruct Hd as [Hle Hb].
    unfold read_framecnt. bstep. apply wp_read32; [done|]. intros v w' Hv. unfold reg_at in *. rewrite Hb in *.
    destruct (rxd_count _ _ _ Hv) as [Hv32 Hc]. rewrite u32_small by done. bsteps.
    intros Hz. assert (Hne : fifo (world s) ≠ []) by tauto.
    assert (Hg : grows (fifo (world s)) (fifo w')) by (eapply rxd_load; [|done]; unfold CTUCANFD_RX_STATUS, CTUCANFD_RX_DATA; lia).
    destruct Hg as (new & _ & Hg). cbn [world]. rewrite Hg. by destruct (fifo (world s)).
  - intros fc s' [(_ & _ & lft & Hs') Hne]. pose proof (rx_sim_queue _ _ _ _ _ _ Hs') as [Hq' Hd'].
    split_and!; [done|by eapply rx_sim_ext|]. exists lft. split; [done|]. intros Hz ->. destruct Hq' as [_ Hq'].
    apply app_eq_nil in Hq' as [_ Hq']. by apply Hne.
Qed.

Lemma rx_poll_loop_budget fuel quota fc wd res frames s0 s1 :
  rx_dev (drv s1) → rx_queue s1 frames → ext s0 s1 → (fc ≠ 0 → frames ≠ []) →
  res = 1 ∨ res = 0 ∧ since s0 alloc_failed s1 → quota - wd <= Z.of_nat fuel →
  wp (rx_poll_loop fuel quota fc wd res) s1 (λ r s', let '(fc', wd', res') := r in
    rx_dev (drv s') ∧ (∃ lft, rx_queue s' lft) ∧ ext s0 s' ∧
    (fc' = 0 ∧ res' = 1 ∨ quota <= wd' ∨ since s0 alloc_failed s')).
Proof.
  revert fc wd res frames s1. induction fuel as [|fuel IH]; intros fc wd res frames s1 Hd Hq Hx Hne Hres Hfuel; cbn [rx_poll_loop];
    (destruct (nz fc && (wd <? quota) && (0 <? res)) eqn:Ego; [|
      bsteps; split_and!; [done|by eexists|done|]; destruct Hres as [->|[-> ?]]; [|by auto];
      destruct (nz fc) eqn:Ez; [right; left; simpl in Ego; lia|apply nz_false in Ez; auto]]).
  { exfalso. lia. }
  apply andb_true_iff in Ego as [[Ez%nz_true _]%andb_true_iff _].
  destruct frames as [|f frames]; [by apply Hne in Ez|].
  bstep. eapply wp_mono; [by eapply rx_result|]. intros r s2 (Hd2 & [l2 Hq2] & Hx2 & Hr). bstep.
  eapply wp_mono; [by eapply read_framecnt_queue|]. intros fc3 s3 (Hd3 & Hx3 & l3 & Hq3 & Hne3).
  assert (Hx02 : ext s0 s2) by (eapply (since_more (λ _, True)); [done|exact Hx|exact Hx2]).
  eapply IH; [done|exact Hq3| |done| |lia].
  - by eapply (since_more (λ _, True)).
  - destruct Hr as [|[]]; [by left|right; split; [done|]]. eapply failed_more; [|exact Hx3]. by eapply (failed_later _ s1).
Qed.

(** A poll that was not completed has used up its quota or could not allocate a buffer. *)
Lemma rx_poll_budget quota frames s :
  rx_dev (drv s) → rx_queue s frames →
  wp (ctucan_rx_poll quota) s (λ wd, since s (λ tr, completed tr ∨ quota <= wd ∨ alloc_failed tr)).
Proof.
  intros Hd Hq. unfold ctucan_rx_poll. bstep.
  eapply wp_mono; [by eapply read_framecnt_queue|]. intros fc s1 (Hd1 & Hx1 & l1 & Hq1 & Hne1). bstep.
  eapply wp_mono; [eapply (rx_poll_loop_budget _ _ _ _ _ _ s); [done|exact Hq1|done|done|by left|lia]|].
  intros [[fc' wd] res] s2 (Hd2 & [l2 Hq2] & Hx2 & Hend). pose proof (rx_sim_refl _ _ Hd2 Hq2) as Hs. sim_steps.
  assert (Hgoal : ∀ lft c s3, rx_sim l2 s2 [] lft c s3 →
    wp ((if negb (nz fc') && nz res then
           done ← call (napi_complete_done wd);
           when (nz done)
             (ctucan_write32 CTUCANFD_INT_STAT REG_INT_STAT_RBNEI;;
              ctucan_write32 CTUCANFD_INT_MASK_CLR REG_INT_STAT_RBNEI)
         else mret tt);; mret wd) s3
      (λ wd, since s (λ tr, completed tr ∨ quota <= wd ∨ alloc_failed tr))).
  { intros lft c s3 Hs3. clear Hs. bstep. destruct (negb (nz fc') && nz res) eqn:Ego.
    - assert (Hc : ∀ c1 r lft4 s4, rx_sim l2 s2 [] lft4 c1 s4 → EvCall (napi_complete_done wd) r ∈ c1 →
        since s (λ tr, completed tr ∨ quota <= wd ∨ alloc_failed tr) s4).
      { intros c1 r lft4 s4 (_ & t4 & _ & _ & E4 & _ & _ & _ & <-) Hin%elem_of_rx_ctl. destruct Hx2 as (t2 & E2 & _).
        exists (t2 ++ t4). rewrite E4, E2, app_assoc. split; [done|]. left. exists wd, r. rewrite elem_of_app. auto. }
      sim_steps. apply wp_when; intros _; sim_steps; (eapply Hc; [exact Hs3|]); rewrite !elem_of_app; cbn [rx_ctl]; rewrite !list_elem_of_singleton; eauto.
    - sim_steps. pose proof (rx_sim_ext _ _ _ _ _ _ Hs3) as Hx3.
      destruct Hend as [[-> ->]|[Hw|Hf]]; [done| |].
      + assert (Hx : ext s s3) by (by eapply (since_more (λ _, True))). destruct Hx as (t & E & _). exists t. auto.
      + eapply failed_more in Hf as (t & E & Hf); [|exact Hx3]. exists t. auto. }
  apply wp_when; intros Hdor.
  - eapply wp_mono; [by eapply rx_overflow_wp|]. intros [] s3 [l3 Hs3]. by eapply Hgoal.
  - by eapply Hgoal.
Qed.

(** C7: [ctucan_rx] is one step of a FIFO queue, for every core that behaves as
    [RxDevice] says.  With no frame queued it returns -EAGAIN.  With a frame queued
    it either delivers exactly the oldest frame, reading exactly its words, and returns 1 and counts
    it; or, when no buffer can be allocated, it returns 0 and every
    frame, the one whose first word was already read included, stays queued.  No frame
    is lost, reordered or read in part, and no store leaves the buffer. *)
Theorem ctucan_rx_refines frames s :
  rx_dev (drv s) → rx_queue s frames → wp ctucan_rx s (rx_post frames s).
Proof. apply rx_wp. Qed.

(** C6: [ctucan_rx_poll] terminates and delivers a prefix of the queued frames, in
    order, at most [quota] of them; everything else stays queued.  The
    poll is completed only when every frame that was queued at its start has been
    delivered; the receive interrupt is cleared and unmasked only after a
    completion that the kernel confirms; an overrun is cleared once. *)
Theorem ctucan_rx_poll_refines quota frames s :
  rx_dev (drv s) → rx_queue s frames → wp (ctucan_rx_poll quota) s (poll_post quota frames s).
Proof. apply rx_poll_wp. Qed.

End RxProofs.

(** ** Concrete runs *)

(** Two classical frames: two bytes with identifier 0x123, and a remote frame. *)
Definition sample_rx : list (list Z) :=
  [[0x2002; 0x048C0000; 7; 0; 0xBBAA]; [0x1824; 0x048C0000; 8; 0]].

Definition rx_st (allocs : list bool) : st net_device fifo_world :=
  mkst sample_dev {| q_fifo := concat sample_rx; q_script := mkscript [] [1] allocs |} [].

Lemma sample_rx_hw : Forall hw_frame sample_rx.
Proof.
  repeat constructor; try by_compute; try done.
Qed.

Lemma sample_rx_queue allocs : rx_queue q_fifo (rx_st allocs) sample_rx.
Proof. split; [apply sample_rx_hw|done]. Qed.

Lemma ctucan_rx_witness :
  wp ctucan_rx (rx_st [true]) (rx_post sample_base q_fifo sample_rx (rx_st [true])) ∧
  wp ctucan_rx (rx_st [false]) (rx_post sample_base q_fifo sample_rx (rx_st [false])).
Proof.
  split; refine (ctucan_rx_refines sample_base q_fifo sample_rx _ _ (sample_rx_queue _)); done.
Defined.

Lemma ctucan_rx_poll_witness :
  wp (ctucan_rx_poll 16) (rx_st [true; true]) (poll_post sample_base q_fifo 16 sample_rx (rx_st [true; true])).
Proof.
  refine (ctucan_rx_poll_refines sample_base q_fifo 16 sample_rx _ _ (sample_rx_queue _)); done.
Defined.

(** The two frames are delivered; with a failing allocation the poll resumes later. *)
Example rx_poll_run :
  wp (ctucan_rx_poll 16) (rx_st [true; true]) (λ wd s', wd = 2 ∧ q_fifo (world s') = [] ∧
    (can_id <$> delivered (trace s')) = [0x123; Z.lor CAN_RTR_FLAG 0x123]).
Proof. by vm_compute. Qed.

Example rx_poll_retry :
  wp (w ← ctucan_rx_poll 16; ctucan_rx_poll 16) (rx_st [true; false; true]) (λ wd s',
    wd = 1 ∧ (len <$> delivered (trace s')) = [2; 4]).
Proof. by vm_compute. Qed.
