(* ===== verification/RoundTrip.v ===== *)
(** * From transmission to reception

    The words that [ctucan_insert_frame] leaves in a TXT buffer, sent by one core
    and received by another one, give [ctucan_rx] the frame that was sent. *)

From Stdlib Require Import ZArith Lia Btauto.
From stdpp Require Import base numbers list strings sets.
From S2P Require Import Prelude LinuxDefs World Kregs Base Sim RxFifo BaseTx BaseRx.

#[local] Open Scope Z_scope.

(** ** The medium *)

(** The word a sequence of stores leaves at an address. *)
Fixpoint mem_read (a : Z) (l : list (Z * Z)) : option Z :=
  match l with
  | [] => None
  | (b, v) :: l' =>
      match mem_read a l' with
      | Some w => Some w
      | None => if a =? b then Some v else None
      end
  end.

(** The frame format word the receiving core forms: the fields of the frame with
    the word count added. *)
Definition core_rx_ffw (ffw : Z) : Z :=
  Z.lor ffw (FIELD_PREP REG_FRAME_FORMAT_W_RWCNT (3 + nwords (hw_payload ffw))).

(** Frames that can be on the bus: no error frame; a standard identifier has 11
    bits; a classical frame has at most 8 bytes and no CAN FD flags; a CAN FD
    frame is no remote frame and has one of the lengths of the DLC code. *)
Record sendable (cf : canfd_frame) (isfdf : bool) : Prop := {
  se_wf : frame_wf cf;
  se_err : Z.testbit (can_id cf) 29 = false;
  se_sff : Z.testbit (can_id cf) 31 = false → ∀ i, 11 <= i < 29 → Z.testbit (can_id cf) i = false;
  se_cc : isfdf = false → len cf <= 8 ∧ flags cf = 0;
  se_fd : isfdf = true → Z.testbit (can_id cf) 30 = false ∧
            can_dlc2len (can_len2dlc (len cf)) = len cf ∧ (flags cf = 0 ∨ flags cf = CANFD_BRS);
}.

(** The same frame for the network layer: a remote frame has no payload. *)
Definition same_frame (cf cf' : canfd_frame) : Prop :=
  can_id cf' = can_id cf ∧ len cf' = len cf ∧ flags cf' = flags cf ∧
  (Z.testbit (can_id cf) 30 = false →
   take (Z.to_nat (len cf)) (data cf') = take (Z.to_nat (len cf)) (data cf)).

(** ** Fields of the transmitted words *)

Lemma land_flag_nz x k : 0 <= k → nz (Z.land x (2 ^ k)) = Z.testbit x k.
Proof. intros. rewrite <- Z.shiftl_1_l. by apply land_BIT_nz. Qed.

Lemma rtr_flag x : nz (Z.land x CAN_RTR_FLAG) = Z.testbit x 30.
Proof. by apply (land_flag_nz x 30). Qed.

Lemma eff_flag x : nz (Z.land x CAN_EFF_FLAG) = Z.testbit x 31.
Proof. by apply (land_flag_nz x 31). Qed.

Lemma brs_flag x : nz (Z.land x CANFD_BRS) = Z.testbit x 0.
Proof. by apply (land_flag_nz x 0). Qed.

Lemma frame_ffw_bit cf fd i :
  4 <= i → Z.testbit (frame_ffw cf fd) i =
    ((i =? 5) && Z.testbit (can_id cf) 30) || ((i =? 6) && Z.testbit (can_id cf) 31) ||
    (fd && ((i =? 7) || ((i =? 9) && Z.testbit (flags cf) 0))).
Proof.
  intros Hi. unfold frame_ffw. rewrite rtr_flag, eff_flag, brs_flag.
  rewrite Z.lor_spec, testbit_FIELD_PREP by lia. unfold REG_FRAME_FORMAT_W_DLC at 2.
  rewrite testbit_GENMASK by lia. replace (i <=? 3) with false by lia.
  rewrite !andb_false_r, orb_false_r.
  unfold REG_FRAME_FORMAT_W_RTR, REG_FRAME_FORMAT_W_IDE, REG_FRAME_FORMAT_W_FDF, REG_FRAME_FORMAT_W_BRS.
  destruct (Z.testbit (can_id cf) 30), (Z.testbit (can_id cf) 31), fd, (Z.testbit (flags cf) 0);
    rewrite ?Z.lor_spec, ?testbit_BIT, ?Z.bits_0 by lia;
    rewrite ?andb_true_r, ?andb_false_r, ?orb_false_r; simpl; btauto.
Qed.

Lemma core_ffw_bit ffw i :
  0 <= i → ¬ 11 <= i <= 15 → Z.testbit (core_rx_ffw ffw) i = Z.testbit ffw i.
Proof.
  intros Hi Hn. unfold core_rx_ffw. rewrite Z.lor_spec, testbit_FIELD_PREP by done.
  unfold REG_FRAME_FORMAT_W_RWCNT at 2. rewrite testbit_GENMASK by lia.
  replace ((11 <=? i) && (i <=? 15)) with false by lia. by rewrite andb_false_r, orb_false_r.
Qed.

Lemma core_ffw_dlc ffw : ffw_dlc (core_rx_ffw ffw) = ffw_dlc ffw.
Proof.
  unfold ffw_dlc, core_rx_ffw. rewrite FIELD_GET_lor, FIELD_GET_PREP_ne by by_compute.
  apply Z.lor_0_r.
Qed.

Lemma frame_ffw_dlc cf fd : 0 <= len cf → ffw_dlc (frame_ffw cf fd) = can_len2dlc (len cf).
Proof.
  intros Hl. pose proof (can_len2dlc_range _ Hl). unfold ffw_dlc, frame_ffw.
  rewrite FIELD_GET_lor, FIELD_GET_PREP_eq by (mask_bound || by_compute).
  rewrite rtr_flag, eff_flag, brs_flag.
  by destruct (Z.testbit (can_id cf) 30), (Z.testbit (can_id cf) 31), fd, (Z.testbit (flags cf) 0).
Qed.

(** The single bits, as the drivers test them. *)
Lemma ffw_bit_get n ffw : 0 <= n → nz (FIELD_GET (BIT n) ffw) = Z.testbit ffw n.
Proof. apply nz_FIELD_GET_BIT. Qed.

Section Sent.
Context (cf : canfd_frame) (fd : bool) (Hse : sendable cf fd).

Abbreviation tx_ffw := (frame_ffw cf fd).
Abbreviation rx_ffw := (core_rx_ffw (frame_ffw cf fd)).

Lemma sent_bit n : 4 <= n → ¬ 11 <= n <= 15 →
  nz (FIELD_GET (BIT n) rx_ffw) =
    ((n =? 5) && Z.testbit (can_id cf) 30) || ((n =? 6) && Z.testbit (can_id cf) 31) ||
    (fd && ((n =? 7) || ((n =? 9) && Z.testbit (flags cf) 0))).
Proof.
  intros. rewrite ffw_bit_get, core_ffw_bit by lia. by apply frame_ffw_bit.
Qed.

Lemma sent_rtr : ffw_rtr rx_ffw = Z.testbit (can_id cf) 30.
Proof. unfold ffw_rtr, REG_FRAME_FORMAT_W_RTR. rewrite sent_bit by lia. simpl. btauto. Qed.

Lemma sent_fdf : ffw_fdf rx_ffw = fd.
Proof. unfold ffw_fdf, REG_FRAME_FORMAT_W_FDF. rewrite sent_bit by lia. simpl. btauto. Qed.

Lemma sent_ide : nz (FIELD_GET REG_FRAME_FORMAT_W_IDE rx_ffw) = Z.testbit (can_id cf) 31.
Proof. unfold REG_FRAME_FORMAT_W_IDE. rewrite sent_bit by lia. simpl. btauto. Qed.

Lemma sent_payload_ffw : hw_payload rx_ffw = hw_payload tx_ffw.
Proof.
  unfold hw_payload. rewrite core_ffw_dlc. unfold ffw_rtr, ffw_fdf, REG_FRAME_FORMAT_W_RTR,
    REG_FRAME_FORMAT_W_FDF. by rewrite !ffw_bit_get, !core_ffw_bit by lia.
Qed.

Lemma sent_len : 0 <= len cf <= 64.
Proof.
  destruct Hse as [[_ Hl _ _ _] _ _ Hcc Hfd]. destruct fd.
  - destruct Hfd as (_ & <- & _); [done|].
    destruct (dlc2len_facts (can_len2dlc (len cf))) as [? _]; [|lia].
    pose proof (can_len2dlc_range (len cf)). lia.
  - destruct Hcc; [done|]. lia.
Qed.

Lemma sent_hw_len : hw_len rx_ffw = len cf.
Proof.
  pose proof sent_len. unfold hw_len. rewrite sent_fdf, core_ffw_dlc, frame_ffw_dlc by lia.
  destruct fd.
  - by destruct (se_fd _ _ Hse) as (_ & ? & _).
  - destruct (se_cc _ _ Hse) as [? _]; [done|]. rewrite len2dlc_small by lia. lia.
Qed.

Lemma sent_payload : hw_payload rx_ffw = if Z.testbit (can_id cf) 30 then 0 else len cf.
Proof. unfold hw_payload. rewrite sent_rtr. case_match; [done|]. apply sent_hw_len. Qed.

Lemma sent_nwords : 0 <= nwords (hw_payload rx_ffw) <= 16.
Proof.
  pose proof sent_len. rewrite sent_payload.
  pose proof (nwords_bounds (if Z.testbit (can_id cf) 30 then 0 else len cf)). case_match; lia.
Qed.

Lemma sent_rwcnt : ffw_rwcnt rx_ffw = 3 + nwords (hw_payload rx_ffw).
Proof.
  pose proof sent_nwords as Hn. rewrite sent_payload_ffw in *. unfold ffw_rwcnt, core_rx_ffw.
  rewrite FIELD_GET_lor, FIELD_GET_PREP_eq by (mask_bound || by_compute).
  replace (FIELD_GET REG_FRAME_FORMAT_W_RWCNT tx_ffw) with 0; [done|].
  symmetry. apply Z.bits_inj'. intros i Hi. rewrite testbit_FIELD_GET, Z.bits_0 by done.
  change (bf_shf REG_FRAME_FORMAT_W_RWCNT) with 11. rewrite frame_ffw_bit by lia.
  unfold REG_FRAME_FORMAT_W_RWCNT. rewrite testbit_GENMASK by lia.
  destruct (Z.eqb_spec (i + 11) 5), (Z.eqb_spec (i + 11) 6), (Z.eqb_spec (i + 11) 7),
    (Z.eqb_spec (i + 11) 9); try lia; simpl; btauto.
Qed.

Lemma sent_hw_ffw : hw_ffw rx_ffw.
Proof.
  split_and!.
  - apply lor_u32; [apply frame_ffw_u32|]. apply FIELD_PREP_u32. by_compute.
  - apply sent_rwcnt.
  - rewrite sent_fdf, sent_rtr. intros Hfd. by destruct (se_fd _ _ Hse Hfd).
Qed.

(** The identifier and the flags. *)
Lemma sent_id : rx_can_id rx_ffw (frame_idw cf) = can_id cf.
Proof.
  pose proof (fw_id _ (se_wf _ _ Hse)) as Hid. unfold is_u32 in Hid.
  unfold rx_can_id. fold (ffw_fdf rx_ffw) (ffw_rtr rx_ffw). rewrite sent_fdf, sent_rtr, sent_ide.
  unfold frame_idw. rewrite eff_flag. destruct Hse as [_ He Hs _ Hfd].
  set (x := can_id cf) in *.
  assert (Hr : (if fd then false else Z.testbit x 30) = Z.testbit x 30).
  { destruct fd; [|done]. by destruct Hfd as [-> _]. }
  assert (Hgoal : ∀ y, (if fd then y else if Z.testbit x 30 then Z.lor y CAN_RTR_FLAG else y) =
    if Z.testbit x 30 then Z.lor y CAN_RTR_FLAG else y).
  { intros y. destruct fd; [|done]. by destruct Hfd as [-> _]. }
  rewrite Hgoal. clear Hr Hgoal.
  change CAN_RTR_FLAG with (BIT 30). change CAN_EFF_FLAG with (BIT 31).
  change CAN_EFF_MASK with (GENMASK 28 0). change CAN_SFF_MASK with (GENMASK 10 0).
  apply (bits_eq 32); [lia| |done|].
  { match goal with |- 0 <= ?y < _ => change (is_u32 y) end.
    destruct (Z.testbit x 31), (Z.testbit x 30); auto with u32. }
  intros i Hi. change (FIELD_PREP REG_IDENTIFIER_W_IDENTIFIER_BASE (Z.land x (GENMASK 10 0)))
    with (Z.land (Z.shiftl (Z.land x (GENMASK 10 0)) 18) (GENMASK 28 18)).
  destruct (Z.testbit x 31) eqn:E31.
  - assert (Hx : Z.testbit x i = Z.testbit x i && (0 <=? i) && (i <=? 28) || (i =? 31) ||
      Z.testbit x 30 && (i =? 30)).
    { destruct (Z.eqb_spec i 31) as [->|]; [rewrite E31; btauto|].
      destruct (Z.eqb_spec i 30) as [->|]; [by destruct (Z.testbit x 30)|].
      destruct (Z.eq_dec i 29) as [->|]; [rewrite He; simpl; btauto|].
      replace (i <=? 28) with true by lia. replace (0 <=? i) with true by lia. btauto. }
    rewrite Hx. destruct (Z.testbit x 30);
      rewrite ?Z.lor_spec, !Z.land_spec, ?testbit_BIT, ?testbit_GENMASK by lia; btauto.
  - assert (Hx : Z.testbit x i = Z.testbit x i && (0 <=? i) && (i <=? 10) || Z.testbit x 30 && (i =? 30)).
    { destruct (Z.eqb_spec i 30) as [->|]; [by destruct (Z.testbit x 30)|].
      destruct (Z.eq_dec i 29) as [->|]; [rewrite He; simpl; btauto|].
      destruct (Z.eq_dec i 31) as [->|]; [rewrite E31; simpl; btauto|].
      destruct (Z.leb_spec i 10); [replace (0 <=? i) with true by lia; btauto|].
      rewrite Hs by (done || lia). btauto. }
    rewrite Hx. destruct (Z.testbit x 30);
      rewrite ?Z.lor_spec, !Z.land_spec, Z.shiftr_spec, Z.land_spec, Z.shiftl_spec, !Z.land_spec,
        ?testbit_BIT, !testbit_GENMASK, Z.add_simpl_r by lia; 
      (destruct (Z.leb_spec i 10);
        [replace (18 <=? i + 18) with true by lia; replace (i + 18 <=? 28) with true by lia; btauto|btauto]).
Qed.

Lemma sent_flags : rx_flags rx_ffw = flags cf.
Proof.
  unfold rx_flags. fold (ffw_fdf rx_ffw). rewrite sent_fdf.
  unfold REG_FRAME_FORMAT_W_BRS, REG_FRAME_FORMAT_W_ESI_RSV. rewrite !sent_bit by lia. simpl.
  destruct fd; [|by destruct (se_cc _ _ Hse)].
  by destruct (se_fd _ _ Hse) as (_ & _ & [-> | ->]).
Qed.

(** *** Payload *)

Definition sent_words : list Z := data_word cf <$> seqZ 0 (nwords (hw_payload rx_ffw)).

Lemma word_bytes d j :
  Forall is_byte d → 0 <= j → 4 * j + 4 <= Z.of_nat (length d) →
  le32_bytes (default 0 (load_le32 d (4 * j))) = take 4 (drop (Z.to_nat (4 * j)) d).
Proof.
  intros Hb Hj Hl. unfold load_le32. set (k := Z.to_nat (4 * j)).
  assert (Hlen : (4 <= length (drop k d))%nat) by (rewrite length_drop; lia).
  assert (Hd : Forall is_byte (drop k d)) by by apply Forall_drop.
  assert (Hk : ∀ i m, m = (k + i)%nat → d !! m = drop k d !! i) by (intros i m ->; by rewrite lookup_drop).
  rewrite (Hk 0%nat k), (Hk 1%nat (S k)), (Hk 2%nat (S (S k))), (Hk 3%nat (S (S (S k)))) by lia.
  destruct (drop k d) as [|b0 [|b1 [|b2 [|b3 d']]]]; simpl in *; try lia.
  rewrite !Forall_cons in Hd. destruct Hd as (? & ? & ? & ? & _). by apply le32_bytes_of_bytes.
Qed.

Lemma sent_bytes n d :
  Forall is_byte d → (4 * n <= length d)%nat →
  concat (le32_bytes <$> ((λ j, default 0 (load_le32 d (4 * j))) <$> seqZ 0 (Z.of_nat n))) = take (4 * n) d.
Proof.
  intros Hb. induction n as [|n IH]; intros Hn; [done|].
  rewrite Nat2Z.inj_succ, <- Z.add_1_r, seqZ_app, !fmap_app, concat_app, IH by lia.
  rewrite seqZ_cons, (seqZ_nil _ (Z.pred 1)), !fmap_cons, !fmap_nil by lia. cbn [concat].
  rewrite word_bytes by (done || lia). rewrite app_nil_r.
  replace (Z.to_nat (4 * (0 + Z.of_nat n))) with (4 * n)%nat by lia.
  replace (4 * S n)%nat with (4 * n + 4)%nat by lia. by rewrite take_take_drop.
Qed.

Lemma sent_words_length : Z.of_nat (length sent_words) = nwords (hw_payload rx_ffw).
Proof. pose proof sent_nwords. unfold sent_words. rewrite length_fmap, length_seqZ. lia. Qed.

Lemma sent_words_fit : 4 * nwords (hw_payload rx_ffw) <= Z.of_nat (length (data cf)).
Proof.
  pose proof sent_len. rewrite sent_payload. case_match; [change (nwords 0) with 0; lia|].
  apply (fw_fits _ (se_wf _ _ Hse)). unfold CANFD_MAX_DLEN. lia.
Qed.

Lemma sent_payload_bytes :
  concat (le32_bytes <$> sent_words) = take (4 * Z.to_nat (nwords (hw_payload rx_ffw))) (data cf).
Proof.
  pose proof sent_nwords. pose proof sent_words_fit. unfold sent_words, data_word.
  rewrite <- (Z2Nat.id (nwords (hw_payload rx_ffw))) at 1 by lia.
  apply sent_bytes; [apply Hse|lia].
Qed.

Lemma sent_words_u32 : Forall is_u32 sent_words.
Proof.
  apply Forall_fmap, Forall_forall. intros j Hj%elem_of_seqZ. simpl.
  pose proof sent_words_fit. unfold data_word.
  destruct (load_le32_ok (data cf) j) as (w & -> & ?); [apply Hse|lia|lia|done].
Qed.

End Sent.

(** ** The TXT buffer *)

Lemma mem_read_none a l : (∀ p, p ∈ l → fst p ≠ a) → mem_read a l = None.
Proof.
  induction l as [|[b v] l IH]; intros Hl; [done|]. simpl. rewrite IH by (intros; apply Hl; set_solver).
  specialize (Hl (b, v) ltac:(set_solver)). simpl in Hl. by destruct (Z.eqb_spec a b).
Qed.

Lemma mem_read_app a l l' :
  mem_read a (l ++ l') = match mem_read a l' with Some w => Some w | None => mem_read a l end.
Proof.
  induction l as [|[b v] l IH]; simpl; [by case_match|]. rewrite IH. by destruct (mem_read a l').
Qed.

(** Words stored at increasing addresses. *)
Lemma mem_read_seqZ f (g : Z → Z) m n j :
  (∀ i k, f i = f k → i = k) → m <= j < m + n →
  mem_read (f j) ((λ i, (f i, g i)) <$> seqZ m n) = Some (g j).
Proof.
  intros Hinj Hj. replace n with ((j - m) + (1 + (n - (j - m) - 1))) by lia.
  rewrite !seqZ_app, !fmap_app, !mem_read_app by lia.
  rewrite mem_read_none.
  - csimpl. replace (m + (j - m)) with j by lia. by rewrite Z.eqb_refl.
  - intros p (i & -> & Hi%elem_of_seqZ)%list_elem_of_fmap. simpl. intros ->%Hinj. lia.
Qed.

Lemma stores_fmap {A} (f g : A → Z) l :
  stores ((λ x, EvStore (f x) (g x)) <$> l) = (λ x, (f x, g x)) <$> l.
Proof. induction l as [|x l IH]; csimpl; [done|]. by rewrite IH. Qed.

(** What the words of the frame leave in the TXT buffer. *)
Lemma image_words n cf buf fd :
  sendable cf fd →
  let mem := stores (frame_image n cf buf fd) in
  mem_read (txtb_at n buf CTUCANFD_FRAME_FORMAT_W) mem = Some (frame_ffw cf fd) ∧
  mem_read (txtb_at n buf CTUCANFD_IDENTIFIER_W) mem = Some (frame_idw cf) ∧
  ∀ j, 0 <= j < nwords (hw_payload (core_rx_ffw (frame_ffw cf fd))) →
    mem_read (txtb_at n buf (CTUCANFD_DATA_1_4_W + 4 * j)) mem = Some (data_word cf j).
Proof.
  intros Hse. cbv zeta. unfold frame_image. rewrite rtr_flag. cbn [stores].
  set (ds := if Z.testbit (can_id cf) 30 then _ else _).
  assert (Hds : stores ds = (λ j, (txtb_at n buf (CTUCANFD_DATA_1_4_W + 4 * j), data_word cf j)) <$>
    seqZ 0 (nwords (hw_payload (core_rx_ffw (frame_ffw cf fd))))).
  { unfold ds. rewrite (sent_payload _ _ Hse). destruct (Z.testbit (can_id cf) 30); [done|].
    by rewrite stores_fmap. }
  rewrite Hds. clear ds Hds.
  assert (Hlow : ∀ off, off < CTUCANFD_DATA_1_4_W → mem_read (txtb_at n buf off)
    ((λ j, (txtb_at n buf (CTUCANFD_DATA_1_4_W + 4 * j), data_word cf j)) <$>
       seqZ 0 (nwords (hw_payload (core_rx_ffw (frame_ffw cf fd))))) = None).
  { intros off Hoff. apply mem_read_none. intros p (j & -> & Hj%elem_of_seqZ)%list_elem_of_fmap.
    unfold txtb_at, reg_at. simpl. lia. }
  split_and!; cbn [mem_read].
  - rewrite !Hlow by done. unfold txtb_at. by rewrite reg_eqb, Z.eqb_refl;
      replace ((buf + 1) * 256 + CTUCANFD_FRAME_FORMAT_W =? (buf + 1) * 256 + CTUCANFD_IDENTIFIER_W)
        with false by (unfold CTUCANFD_FRAME_FORMAT_W, CTUCANFD_IDENTIFIER_W; lia).
  - rewrite !Hlow by done. by rewrite Z.eqb_refl.
  - intros j Hj. rewrite (mem_read_seqZ (λ j, txtb_at n buf (CTUCANFD_DATA_1_4_W + 4 * j))); [done| |lia].
    intros i k. unfold txtb_at, reg_at. lia.
Qed.

(** C14: Round trip.  A frame that [ctucan_insert_frame] writes to a TXT buffer
    leaves there its format word, its identifier word and as many payload words as
    its DLC asks for.  Received by a core (which adds the word count and two
    timestamp words) these words form a well-formed frame of the RX FIFO, and the frame that
    [ctucan_read_rx_frame] decodes from it has the identifier, length, flags
    and payload of the one sent. *)
Theorem tx_rx_roundtrip n cf buf fd ts0 ts1 cf0 :
  sendable cf fd → is_u32 ts0 → is_u32 ts1 →
  length (data cf0) = (if fd then 64 else 8)%nat →
  let mem := stores (frame_image n cf buf fd) in
  ∃ ffw idw ws,
    mem_read (txtb_at n buf CTUCANFD_FRAME_FORMAT_W) mem = Some ffw ∧
    mem_read (txtb_at n buf CTUCANFD_IDENTIFIER_W) mem = Some idw ∧
    (∀ j w, ws !! j = Some w →
      mem_read (txtb_at n buf (CTUCANFD_DATA_1_4_W + 4 * Z.of_nat j)) mem = Some w) ∧
    hw_frame (core_rx_ffw ffw :: idw :: ts0 :: ts1 :: ws) ∧
    same_frame cf (rx_decode cf0 (core_rx_ffw ffw) (idw :: ts0 :: ts1 :: ws)).
Proof.
  intros Hse H0 H1 Hcap. destruct (image_words n cf buf fd Hse) as (Hf & Hi & Hd).
  exists (frame_ffw cf fd), (frame_idw cf), (sent_words cf fd).
  pose proof (sent_words_length cf fd Hse) as Hlen. pose proof (sent_nwords cf fd Hse) as Hn.
  split_and!; [done|done| | |].
  - intros j w Hw. unfold sent_words in Hw. apply list_lookup_fmap_Some in Hw as (k & -> & Hk).
    apply lookup_seqZ in Hk as [-> ?]. rewrite Z.add_0_l. apply Hd. lia.
  - split; [by apply sent_hw_ffw|]. rewrite (sent_rwcnt cf fd Hse). split; [simpl; lia|].
    repeat (constructor; [done || apply frame_idw_u32|]). by apply sent_words_u32.
  - unfold same_frame, rx_decode. cbn [can_id len flags data nth skipn].
    rewrite drop_0, sent_id, sent_hw_len, sent_flags by done. split_and!; [done..|].
    intros Hrtr. rewrite (sent_payload_bytes cf fd Hse), (sent_payload cf fd Hse), Hrtr.
    pose proof (sent_len cf fd Hse). pose proof (nwords_bounds (len cf)).
    pose proof (sent_words_fit cf fd Hse) as Hfit. rewrite (sent_payload cf fd Hse), Hrtr in Hfit.
    rewrite take_app_le by (rewrite length_take; lia).
    rewrite take_take. f_equal. lia.
Qed.

(** A CAN FD frame and a remote frame. *)
Lemma sample_sendable : sendable sample_cf true.
Proof.
  constructor; [apply sample_frame_wf|done|done|done|].
  intros _. split_and!; [done|done|by right].
Qed.

Lemma tx_rx_roundtrip_witness :
  ∃ ffw idw ws, hw_frame (core_rx_ffw ffw :: idw :: 7 :: 8 :: ws) ∧
    same_frame sample_cf (rx_decode (new_frame alloc_canfd_skb) (core_rx_ffw ffw) (idw :: 7 :: 8 :: ws)).
Proof.
  destruct (tx_rx_roundtrip sample_dev sample_cf 2 true 7 8 (new_frame alloc_canfd_skb)
    sample_sendable ltac:(by_compute) ltac:(by_compute) eq_refl) as (ffw & idw & ws & _ & _ & _ & H1 & H2).
  by exists ffw, idw, ws.
Defined.
