(* ===== verification/TxtBuf.v ===== *)
(** * A TXT buffer of the core, cycle by cycle

    [src/src/txt_buffer/]: the state machine of [txt_buffer_fsm.vhd], the memory of
    [txt_buffer_ram.vhd] with the synchronous read of [inf_ram_wrapper.vhd], and the rest of
    [txt_buffer.vhd].  A record holds the registers; every signal that is assigned concurrently is a
    definition over the registers and the input ports; [txtb_tick] is one rising edge of
    [clk_sys].

    Vectors are integers, [std_logic] is [bool].  The words of the memory are written as a whole (all
    byte enables set, as every driver does).  The mismatch of the parity bit of a word is an input
    port.  Not modelled: the memory test port (it needs the test mode) and scan mode. *)

From Stdlib Require Import ZArith Lia.
From stdpp Require Import base numbers list.
From S2P Require Import Prelude.

#[local] Open Scope Z_scope.

(** ** Ports *)

Inductive t_txt_buf_state :=
  | s_txt_empty
  | s_txt_ready
  | s_txt_tx_prog
  | s_txt_ab_prog
  | s_txt_ok
  | s_txt_failed
  | s_txt_aborted
  | s_txt_parity_err.

#[export] Instance t_txt_buf_state_eq_dec : EqDecision t_txt_buf_state.
Proof. solve_decision. Defined.

(** The commands of the protocol control. *)
Record t_txtb_hw_cmd := mkcmd {
  cmd_lock : bool; cmd_valid : bool; cmd_err : bool; cmd_arbl : bool; cmd_failed : bool }.

(** [(others => '0')] *)
Definition no_hw_cmd : t_txtb_hw_cmd := mkcmd false false false false false.

(** The input ports of [txt_buffer]; [mr_tx_command_txbi] and [txtb_hw_cmd_cs] are the bits for this
    buffer. *)
Record txtb_in := mktxtb_in {
  mr_mode_bmm : bool; mr_mode_rom : bool; mr_settings_tbfbo : bool;
  mr_tx_command_txce : bool; mr_tx_command_txcr : bool; mr_tx_command_txca : bool;
  mr_tx_command_txbi : bool;
  txtb_port_a_cs : bool; txtb_port_a_address : Z; txtb_port_a_data_in : Z;
  txtb_is_bb : bool; txtb_hw_cmd : t_txtb_hw_cmd; txtb_hw_cmd_cs : bool;
  txtb_port_b_address : Z; txtb_port_b_clk_en : bool;
  is_bus_off : bool; txtb_parity_check_valid : bool; parity_mismatch : bool; txtb_index_muxed : nat }.

(** The registers: the state, the registered software commands, the memory and its output. *)
Record txtb := mktxtb {
  txt_curr_state : t_txt_buf_state;
  txce_q : bool; txcr_q : bool; txca_q : bool;
  txt_ram : list Z; txt_data_out : Z }.

Definition C_TXT_BUF_DEPTH : nat := 21.

(** After [res_n], with arbitrary contents of the memory. *)
Definition txtb_init (ram : list Z) (out : Z) : txtb := mktxtb s_txt_empty false false false ram out.

Section Txtb.
(** The generic [G_ID], the ports and the registers. *)
Context (G_ID : nat) (i : txtb_in) (s : txtb).

(** ** The state machine *)

Definition tx_command_txce_valid : bool := txce_q s && mr_tx_command_txbi i.
Definition tx_command_txcr_valid : bool := txcr_q s && mr_tx_command_txbi i.
Definition txt_abort_applied : bool := txca_q s && mr_tx_command_txbi i.

Definition buffer_skipped : bool :=
  (cmd_failed (txtb_hw_cmd i) || cmd_valid (txtb_hw_cmd i)) && txtb_is_bb i.

Definition transient_state : bool :=
  match txt_curr_state s with s_txt_ab_prog | s_txt_tx_prog | s_txt_ready => true | _ => false end.

Definition go_to_failed : bool :=
  (is_bus_off i && mr_settings_tbfbo i) || mr_mode_bmm i || mr_mode_rom i.

Definition txtb_hw_cmd_i : t_txtb_hw_cmd := if txtb_hw_cmd_cs i then txtb_hw_cmd i else no_hw_cmd.

Definition arbl_or_err : bool := cmd_err txtb_hw_cmd_i || cmd_arbl txtb_hw_cmd_i.

Definition txtb_parity_error_valid : bool :=
  parity_mismatch i && txtb_parity_check_valid i && (txtb_index_muxed i =? G_ID)%nat.

(** [tx_buf_fsm_next_state_proc] *)
Definition txt_next_state : t_txt_buf_state :=
  match txt_curr_state s with
  | s_txt_empty => if tx_command_txcr_valid then s_txt_ready else s_txt_empty
  | s_txt_ready =>
      if go_to_failed then s_txt_failed
      else if txtb_parity_error_valid then s_txt_parity_err
      else if cmd_lock txtb_hw_cmd_i then
        if txt_abort_applied then s_txt_ab_prog else s_txt_tx_prog
      else if txt_abort_applied || buffer_skipped then s_txt_aborted
      else s_txt_ready
  | s_txt_tx_prog =>
      if go_to_failed then s_txt_failed
      else if txtb_parity_error_valid then s_txt_parity_err
      else if cmd_failed txtb_hw_cmd_i then s_txt_failed
      else if cmd_valid txtb_hw_cmd_i then s_txt_ok
      else if arbl_or_err then if txt_abort_applied then s_txt_aborted else s_txt_ready
      else if txt_abort_applied then s_txt_ab_prog
      else s_txt_tx_prog
  | s_txt_ab_prog =>
      if go_to_failed then s_txt_failed
      else if txtb_parity_error_valid then s_txt_parity_err
      else if cmd_failed txtb_hw_cmd_i then s_txt_failed
      else if cmd_valid txtb_hw_cmd_i then s_txt_ok
      else if arbl_or_err then s_txt_aborted
      else s_txt_ab_prog
  | st =>
      (* s_txt_failed, s_txt_aborted, s_txt_ok, s_txt_parity_err *)
      if tx_command_txcr_valid then s_txt_ready
      else if tx_command_txce_valid then s_txt_empty
      else st
  end.

(** *** Outputs of the state machine *)

Definition txtb_user_accessible : bool := negb transient_state.

Definition txtb_allow_bb : bool := transient_state.

Definition txtb_unmask_data_ram : bool := transient_state.

Definition txtb_available : bool :=
  bool_decide (txt_curr_state s = s_txt_ready) && negb txt_abort_applied.

Definition txtb_hw_cmd_int : bool :=
  (cmd_failed txtb_hw_cmd_i || cmd_valid txtb_hw_cmd_i ||
   ((cmd_arbl txtb_hw_cmd_i || cmd_err txtb_hw_cmd_i) && bool_decide (txt_curr_state s = s_txt_ab_prog))) ||
  (is_bus_off i && bool_decide (txt_next_state = s_txt_failed) && transient_state).

(** The code of the state in TX_STATUS. *)
Definition txtb_state : Z :=
  match txt_curr_state s with
  | s_txt_ready => 0x1 | s_txt_tx_prog => 0x2 | s_txt_ab_prog => 0x3 | s_txt_ok => 0x4
  | s_txt_failed => 0x6 | s_txt_aborted => 0x7 | s_txt_empty => 0x8 | s_txt_parity_err => 0x9
  end.

(** ** The memory *)

Definition txtb_port_a_write : bool := txtb_port_a_cs i && txtb_user_accessible.

Definition txtb_ram_clk_en : bool := txtb_port_b_clk_en i || txtb_port_a_write.

Definition txtb_port_b_data_out : Z := if txtb_unmask_data_ram then txt_data_out s else 0.

(** [ram_write_process], [ram_read_process], on the gated clock: the word read is the one before the
    write. *)
Definition txt_ram_next : list Z :=
  if txtb_port_a_write then <[Z.to_nat (txtb_port_a_address i) := txtb_port_a_data_in i]> (txt_ram s)
  else txt_ram s.

Definition txt_data_out_next : Z :=
  if txtb_ram_clk_en then default 0 (txt_ram s !! Z.to_nat (txtb_port_b_address i)) else txt_data_out s.

(** ** One clock cycle *)

Definition txtb_tick : txtb :=
  mktxtb txt_next_state (mr_tx_command_txce i) (mr_tx_command_txcr i) (mr_tx_command_txca i)
    txt_ram_next txt_data_out_next.

End Txtb.
