(* ===== verification/TxArb.v ===== *)
(** * The TX arbitrator of the core and the TXT buffers around it, cycle by cycle

    [src/src/tx_arbitrator/]: the comparator tree of [priority_decoder.vhd], the state machine of
    [tx_arbitrator_fsm.vhd] and the registers of [tx_arbitrator.vhd]; the two registers
    TX_COMMAND and TX_PRIORITY, the chip selects and the status bits of
    [memory_registers.vhd]; and the generate loop of [can_top_level.vhd] that puts them together with
    the TXT buffers of TxtBuf.  [tx_tick] is one rising edge of [clk_sys] of all of them.

    The inputs of a cycle come from the protocol control (its registered commands, the pointer to the data
    words), the other registers (modes, timestamp) and the bus, one access at most. *)

From Stdlib Require Import ZArith Lia.
From stdpp Require Import base numbers list.
From S2P Require Import Prelude TxtBuf.

#[local] Open Scope Z_scope.

(** ** The priority decoder *)

Section Decoder.
Context (G_TXT_BUFFER_COUNT : nat) (prio : nat → Z) (prio_valid : nat → bool).

(** Level 0: the unused inputs are 0. *)
Definition l0_prio (i : nat) : Z := if (i <? G_TXT_BUFFER_COUNT)%nat then prio i else 0.
Definition l0_valid (i : nat) : bool := (i <? G_TXT_BUFFER_COUNT)%nat && prio_valid i.

(** The case statement of [l1_prio_dec_proc] and [l2_prio_dec_proc]: priority, valid, and whether the
    upper input wins. *)
Definition comparator (p0 p1 : Z) (v0 v1 : bool) : Z * bool * bool :=
  match v1, v0 with
  | false, true => (p0, true, false)
  | true, false => (p1, true, true)
  | true, true => if p0 <? p1 then (p1, true, true) else (p0, true, false)
  | false, false => (p1, false, true)
  end.

Definition l1 (i : nat) : Z * bool * bool :=
  comparator (l0_prio (2 * i)) (l0_prio (2 * i + 1)) (l0_valid (2 * i)) (l0_valid (2 * i + 1)).
Definition l1_prio (i : nat) : Z := (l1 i).1.1.
Definition l1_valid (i : nat) : bool := (l1 i).1.2.
Definition l1_winner (i : nat) : bool := (l1 i).2.

Definition l2 (i : nat) : Z * bool * bool :=
  comparator (l1_prio (2 * i)) (l1_prio (2 * i + 1)) (l1_valid (2 * i)) (l1_valid (2 * i + 1)).
Definition l2_prio (i : nat) : Z := (l2 i).1.1.
Definition l2_valid (i : nat) : bool := (l2 i).1.2.
Definition l2_winner (i : nat) : bool := (l2 i).2.

Definition l3_valid : bool := l2_valid 0 || l2_valid 1.
Definition l3_winner : bool :=
  match l2_valid 1, l2_valid 0 with
  | false, true => false
  | true, false => true
  | true, true => l2_prio 0 <? l2_prio 1
  | false, false => false
  end.

Definition output_valid : bool := l3_valid.

(** [out_index_proc] *)
Definition output_index : nat :=
  if negb l3_winner then
    if negb (l2_winner 0) then
      if negb (l1_winner 0) then 0%nat else 1%nat
    else
      if negb (l1_winner 1) then 2 mod G_TXT_BUFFER_COUNT else 3 mod G_TXT_BUFFER_COUNT
  else
    if negb (l2_winner 1) then
      if negb (l1_winner 2) then 4 mod G_TXT_BUFFER_COUNT else 5 mod G_TXT_BUFFER_COUNT
    else
      if negb (l1_winner 3) then 6 mod G_TXT_BUFFER_COUNT else 7 mod G_TXT_BUFFER_COUNT.

End Decoder.

(** ** The state machine of the arbitrator *)

Inductive t_tx_arb_state :=
  | s_arb_idle
  | s_arb_sel_low_ts
  | s_arb_sel_upp_ts
  | s_arb_sel_ffw
  | s_arb_sel_idw
  | s_arb_sel_ftw
  | s_arb_validated
  | s_arb_locked.

#[export] Instance t_tx_arb_state_eq_dec : EqDecision t_tx_arb_state.
Proof. solve_decision. Defined.

(** The input ports and [fsm_wait_state_q]. *)
Record arb_fsm_in := {
  fi_avail : bool;     (* select_buf_avail *)
  fi_changed : bool;   (* select_index_changed *)
  fi_ts_valid : bool;  (* timestamp_valid *)
  fi_lock : bool;      (* txtb_hw_cmd_lock *)
  fi_unlock : bool;    (* txtb_hw_cmd_unlock *)
  fi_mismatch : bool;  (* txtb_parity_mismatch_vld *)
  fi_wait : bool }.

Definition parity_error_vld (f : arb_fsm_in) : bool := fi_mismatch f && negb (fi_wait f).

(** [tx_arb_fsm_proc] *)
Definition arb_next_state (curr_state : t_tx_arb_state) (f : arb_fsm_in) : t_tx_arb_state :=
  match curr_state with
  | s_arb_idle => if fi_avail f then s_arb_sel_low_ts else s_arb_idle
  | s_arb_sel_low_ts =>
      if fi_lock f then s_arb_locked
      else if negb (fi_avail f) || parity_error_vld f then s_arb_idle
      else if fi_changed f then s_arb_sel_low_ts
      else if negb (fi_wait f) then s_arb_sel_upp_ts
      else s_arb_sel_low_ts
  | s_arb_sel_upp_ts =>
      if fi_lock f then s_arb_locked
      else if negb (fi_avail f) || parity_error_vld f then s_arb_idle
      else if fi_changed f then s_arb_sel_low_ts
      else if negb (fi_wait f) then if fi_ts_valid f then s_arb_sel_ftw else s_arb_sel_upp_ts
      else s_arb_sel_upp_ts
  | s_arb_sel_ftw =>
      if fi_lock f then s_arb_locked
      else if negb (fi_avail f) then s_arb_idle
      else if fi_changed f then s_arb_sel_low_ts
      else if negb (fi_wait f) then s_arb_sel_ffw
      else s_arb_sel_ftw
  | s_arb_sel_ffw =>
      if fi_lock f then s_arb_locked
      else if negb (fi_avail f) || parity_error_vld f then s_arb_idle
      else if fi_changed f then s_arb_sel_low_ts
      else if negb (fi_wait f) then s_arb_sel_idw
      else s_arb_sel_ffw
  | s_arb_sel_idw =>
      if fi_lock f then s_arb_locked
      else if negb (fi_avail f) || parity_error_vld f then s_arb_idle
      else if fi_changed f then s_arb_sel_low_ts
      else if negb (fi_wait f) then s_arb_validated
      else s_arb_sel_idw
  | s_arb_validated =>
      if fi_lock f then s_arb_locked
      else if negb (fi_avail f) then s_arb_idle
      else if fi_changed f then s_arb_sel_low_ts
      else s_arb_validated
  | s_arb_locked => if fi_unlock f then s_arb_idle else s_arb_locked
  end.

(** The word whose address is loaded into the metadata pointer. *)
Inductive meta_load := ld_none | ld_ts_lw | ld_ts_uw | ld_ffmt | ld_ident | ld_ftest.

(** The outputs; the five [load_*_addr] are one field, at most one of them is active. *)
Record arb_fsm_out := mkarb_out {
  fo_load : meta_load;        (* load_ts_lw_addr, load_ts_uw_addr, load_ffmt_w_addr, ... *)
  txtb_meta_clk_en : bool;
  store_ts_l_w : bool;
  commit_dbl_bufs : bool;
  buffer_frame_test_w : bool;
  buffer_md_w : bool;
  tx_arb_locked : bool;
  store_last_txtb_index : bool;
  frame_valid_com_set : bool;
  frame_valid_com_clear : bool;
  tx_arb_parity_check_valid : bool;
  fsm_wait_state_d : bool }.

Definition arb_none : arb_fsm_out :=
  mkarb_out ld_none false false false false false false false false false false false.

(** The branch common to the states of the validation: [read] is what the state does with the word
    it waited for. *)
Definition arb_sel (clk : bool) (f : arb_fsm_in) (read : arb_fsm_out) : arb_fsm_out :=
  if fi_lock f then mkarb_out ld_none clk false false false false false true false false false false
  else if negb (fi_avail f) then mkarb_out ld_none clk false false false false false false false true false false
  else if fi_changed f then mkarb_out ld_ts_lw clk false false false false false false false false false true
  else if negb (fi_wait f) then read
  else mkarb_out ld_none clk false false false false false false false false false false.

(** [tx_arb_fsm_out_proc] *)
Definition arb_out (curr_state : t_tx_arb_state) (f : arb_fsm_in) : arb_fsm_out :=
  match curr_state with
  | s_arb_idle =>
      if fi_avail f then mkarb_out ld_ts_lw false false false false false false false false false false true
      else arb_none
  | s_arb_sel_low_ts =>
      arb_sel true f (mkarb_out ld_ts_uw true true false false false false false false false true true)
  | s_arb_sel_upp_ts =>
      arb_sel true f
        (if fi_ts_valid f
         then mkarb_out ld_ftest true false false false false false false false false true true
         else mkarb_out ld_none true false false false false false false false false true false)
  | s_arb_sel_ftw =>
      arb_sel true f (mkarb_out ld_ffmt true false false true false false false false false false true)
  | s_arb_sel_ffw =>
      arb_sel true f (mkarb_out ld_ident true false false false true false false false false true true)
  | s_arb_sel_idw =>
      arb_sel true f
        (if negb (parity_error_vld f)
         then mkarb_out ld_none true false true false false false false true false true false
         else mkarb_out ld_none true false false false false false false false false true false)
  | s_arb_validated => arb_sel false f arb_none
  | s_arb_locked =>
      mkarb_out ld_none false false false false false true false false (fi_unlock f) false false
  end.

(** ** The arbitrator *)

(** The fields of a frame format word, and of a frame test word. *)
Record tran_md := mkmd {
  md_dlc : Z; md_is_rtr : bool; md_ident_type : bool; md_frame_type : bool; md_brs : bool }.

Record t_frame_test_w := mkftw { fstc : bool; fcrc : bool; sdlc : bool; tprm : Z }.

Definition md_zero : tran_md := mkmd 0 false false false false.
Definition ftw_zero : t_frame_test_w := mkftw false false false 0.

(** DLC_H downto DLC_L, RTR_IND, IDE_IND, FDF_IND, BRS_IND *)
Definition md_of (w : Z) : tran_md :=
  mkmd (w mod 2 ^ 4) (Z.testbit w 5) (Z.testbit w 6) (Z.testbit w 7) (Z.testbit w 9).

Definition ftw_of (w : Z) : t_frame_test_w :=
  mkftw (Z.testbit w 0) (Z.testbit w 1) (Z.testbit w 2) (Z.shiftr w 8 mod 2 ^ 5).

(** The registers. *)
Record arb := mkarb {
  arb_curr_state : t_tx_arb_state; fsm_wait_state_q : bool;
  txtb_clk_en_q : bool; ts_low_internal : Z;
  dbl_md : tran_md; dbl_ftw : t_frame_test_w;
  com_md : tran_md; tran_identifier_com : Z; com_ftw : t_frame_test_w; tran_frame_valid_com : bool;
  last_txtb_index : nat; curr_txtb_index_i : nat; select_buf_index_reg : nat;
  txtb_pointer_meta_q : Z }.

(** The word addresses [*_ADR(11 downto 2)]. *)
Definition meta_ptr (l : meta_load) (q : Z) : Z :=
  match l with
  | ld_ts_lw => 2 | ld_ts_uw => 3 | ld_ffmt => 0 | ld_ident => 1 | ld_ftest => 20 | ld_none => q
  end.

Definition arb_init : arb :=
  mkarb s_arb_idle true false 0 md_zero ftw_zero md_zero 0 ftw_zero false 0 0 0 (meta_ptr ld_ts_lw 0).

(** [less_than], on the words of two timestamps. *)
Definition less_than (a_h a_l b_h b_l : Z) : bool := (a_h <? b_h) || ((a_h =? b_h) && (a_l <? b_l)).

(** ** The inputs of a cycle *)

(** An access of the bus: a load with the value it returns, or a store; the address is that within the
    core. *)
Inductive tx_access := bus_rd (adress : Z) (v : Z) | bus_wr (adress : Z) (data_in : Z).

Record cycle_in := mkcycle {
  (* protocol control *)
  ci_hw_cmd : t_txtb_hw_cmd; ci_ptr : Z; ci_clk_en : bool; ci_bus_off : bool;
  (* other registers *)
  ci_bmm : bool; ci_rom : bool; ci_tbfbo : bool; ci_tttm : bool; ci_txbbm : bool; ci_timestamp : Z;
  (* parity bits of the buffers *)
  ci_mismatch : nat → bool;
  ci_bus : option tx_access }.

(** The whole: the buffers, the arbitrator, the registers TX_PRIORITY (the fields TXTnP) and TX_COMMAND
    (the bits TXBn). *)
Record tx_rtl := mktx { tx_bufs : list txtb; tx_arb : arb; tx_priority : Z; tx_command_txb : Z }.

Definition TX_STATUS_ADR : Z := 0x70.
Definition TX_COMMAND_ADR : Z := 0x74.
Definition TX_PRIORITY_ADR : Z := 0x78.
Definition STATUS_ADR : Z := 0x8.

(** A write to an address of the block of control registers. *)
Definition reg_write (c : cycle_in) (adr : Z) : option Z :=
  match ci_bus c with
  | Some (bus_wr a v) => if a =? adr then Some v else None
  | _ => None
  end.

Section Tx.
Context (G_TXT_BUFFER_COUNT : nat).

Section Signals.
Context (c : cycle_in) (s : tx_rtl).

Definition txt (i : nat) : txtb := default (txtb_init [] 0) (tx_bufs s !! i).

(** *** Registers *)

Definition mr_tx_priority (i : nat) : Z := Z.shiftr (tx_priority s) (4 * Z.of_nat i) mod 2 ^ 3.

(** [memory_reg_os] *)
Definition tx_command_bit (k : Z) : bool :=
  match reg_write c TX_COMMAND_ADR with Some v => Z.testbit v k | None => false end.

Definition tx_command_txbi (i : nat) : bool :=
  if ci_txbbm c && Nat.odd i
  then Z.testbit (tx_command_txb s) (Z.of_nat i + 7) || Z.testbit (tx_command_txb s) (Z.of_nat i + 8)
  else Z.testbit (tx_command_txb s) (Z.of_nat i + 8).

(** [txtb_port_a_cs_gen], for a write *)
Definition port_a_cs (i : nat) : bool :=
  match ci_bus c with Some (bus_wr a _) => a / 0x100 =? Z.of_nat i + 1 | _ => false end.

Definition port_a_address : Z :=
  match ci_bus c with Some (bus_wr a _) => (a / 4) mod 2 ^ 5 | _ => 0 end.

Definition port_a_data_in : Z :=
  match ci_bus c with Some (bus_wr _ v) => v | _ => 0 end.

(** *** The arbitrator *)

Definition avail (i : nat) : bool :=
  bool_decide (txt_curr_state (txt i) = s_txt_ready) &&
  negb (txca_q (txt i) && tx_command_txbi i).

Definition mr_tx_priority_txbbm (i : nat) : Z :=
  if Nat.odd i && ci_txbbm c then mr_tx_priority (i - 1) else mr_tx_priority i.

Definition is_bb (i : nat) : bool :=
  Nat.odd i && ci_txbbm c && (curr_txtb_index_i (tx_arb s) =? i - 1)%nat && txtb_allow_bb (txt (i - 1)).

Definition select_buf_avail : bool := output_valid G_TXT_BUFFER_COUNT mr_tx_priority_txbbm avail.
Definition select_buf_index : nat := output_index G_TXT_BUFFER_COUNT mr_tx_priority_txbbm avail.

Definition select_index_changed : bool :=
  negb (select_buf_index =? select_buf_index_reg (tx_arb s))%nat.

Definition arb_locked : bool := bool_decide (arb_curr_state (tx_arb s) = s_arb_locked).

Definition index_muxed : nat :=
  if arb_locked then curr_txtb_index_i (tx_arb s) else select_buf_index.

Definition txtb_selected_input : Z := txtb_port_b_data_out (txt index_muxed).

Definition timestamp_valid : bool :=
  if ci_tttm c
  then less_than txtb_selected_input (ts_low_internal (tx_arb s))
         (ci_timestamp c / 2 ^ 32) (ci_timestamp c mod 2 ^ 32)
  else true.

Definition unlock_cmd : bool :=
  cmd_valid (ci_hw_cmd c) || cmd_err (ci_hw_cmd c) || cmd_arbl (ci_hw_cmd c) || cmd_failed (ci_hw_cmd c).

Definition arb_in : arb_fsm_in :=
  {| fi_avail := select_buf_avail; fi_changed := select_index_changed; fi_ts_valid := timestamp_valid;
     fi_lock := cmd_lock (ci_hw_cmd c); fi_unlock := unlock_cmd;
     fi_mismatch := ci_mismatch c select_buf_index; fi_wait := fsm_wait_state_q (tx_arb s) |}.

Definition arb_o : arb_fsm_out := arb_out (arb_curr_state (tx_arb s)) arb_in.

Definition validated_buffer : bool :=
  avail (curr_txtb_index_i (tx_arb s)) && tran_frame_valid_com (tx_arb s).

Definition tran_frame_valid : bool := validated_buffer || arb_locked.

Definition tran_frame_parity_error : bool :=
  ci_mismatch c (curr_txtb_index_i (tx_arb s)) && txtb_clk_en_q (tx_arb s).

Definition parity_check_valid : bool :=
  if arb_locked then txtb_clk_en_q (tx_arb s) else tx_arb_parity_check_valid arb_o.

Definition port_b_address : Z := if arb_locked then ci_ptr c else txtb_pointer_meta_q (tx_arb s).

Definition port_b_clk_en : bool := if arb_locked then ci_clk_en c else txtb_meta_clk_en arb_o.

Definition txtb_changed : bool :=
  negb (last_txtb_index (tx_arb s) =? curr_txtb_index_i (tx_arb s))%nat && store_last_txtb_index arb_o.

Definition arb_tick : arb :=
  let a := tx_arb s in
  let w := txtb_selected_input in
  {| arb_curr_state := arb_next_state (arb_curr_state a) arb_in;
     fsm_wait_state_q := fsm_wait_state_d arb_o;
     txtb_clk_en_q := ci_clk_en c;
     ts_low_internal := if store_ts_l_w arb_o then w else ts_low_internal a;
     dbl_md := if buffer_md_w arb_o then md_of w else dbl_md a;
     dbl_ftw := if buffer_frame_test_w arb_o then ftw_of w else dbl_ftw a;
     com_md := if commit_dbl_bufs arb_o then dbl_md a else com_md a;
     tran_identifier_com := if commit_dbl_bufs arb_o then w mod 2 ^ 29 else tran_identifier_com a;
     com_ftw := if commit_dbl_bufs arb_o then dbl_ftw a else com_ftw a;
     tran_frame_valid_com :=
       if frame_valid_com_set arb_o then true
       else if frame_valid_com_clear arb_o then false
       else tran_frame_valid_com a;
     last_txtb_index := if store_last_txtb_index arb_o then curr_txtb_index_i a else last_txtb_index a;
     curr_txtb_index_i := if commit_dbl_bufs arb_o then select_buf_index else curr_txtb_index_i a;
     select_buf_index_reg := select_buf_index;
     txtb_pointer_meta_q := meta_ptr (fo_load arb_o) (txtb_pointer_meta_q a) |}.

(** *** The ports of buffer [i] *)

Definition txtb_ports (i : nat) : txtb_in :=
  {| mr_mode_bmm := ci_bmm c; mr_mode_rom := ci_rom c; mr_settings_tbfbo := ci_tbfbo c;
     mr_tx_command_txce := tx_command_bit 0; mr_tx_command_txcr := tx_command_bit 1;
     mr_tx_command_txca := tx_command_bit 2; mr_tx_command_txbi := tx_command_txbi i;
     txtb_port_a_cs := port_a_cs i; txtb_port_a_address := port_a_address;
     txtb_port_a_data_in := port_a_data_in;
     txtb_is_bb := is_bb i; txtb_hw_cmd := ci_hw_cmd c;
     txtb_hw_cmd_cs := (i =? curr_txtb_index_i (tx_arb s))%nat;
     txtb_port_b_address := port_b_address; txtb_port_b_clk_en := port_b_clk_en;
     is_bus_off := ci_bus_off c; txtb_parity_check_valid := parity_check_valid;
     parity_mismatch := ci_mismatch c i; txtb_index_muxed := index_muxed |}.

(** ** One clock cycle *)

Definition tx_tick : tx_rtl :=
  {| tx_bufs := imap (λ i b, txtb_tick i (txtb_ports i) b) (tx_bufs s);
     tx_arb := arb_tick;
     tx_priority := default (tx_priority s) (reg_write c TX_PRIORITY_ADR);
     tx_command_txb := default (tx_command_txb s) (reg_write c TX_COMMAND_ADR) |}.

(** ** What a load returns *)

(** [txnf_calc_proc] *)
Definition status_txnf : bool :=
  existsb (λ i, txtb_state (txt i) =? 0x8) (seq 0 G_TXT_BUFFER_COUNT).

(** [tx_status_proc]: the codes of the states, padded with 0. *)
Definition tx_status : Z :=
  foldr (λ i w, (if (i <? G_TXT_BUFFER_COUNT)%nat then txtb_state (txt i) else 0) + 2 ^ 4 * w) 0 (seq 0 8).

End Signals.

(** The state after a sequence of cycles. *)
Fixpoint tx_cycles (ins : list cycle_in) (s : tx_rtl) : tx_rtl :=
  match ins with
  | [] => s
  | c :: ins => tx_cycles ins (tx_tick c s)
  end.

(** After [res_n], with arbitrary contents of the memories and TX_PRIORITY as the driver programs it. *)
Definition tx_init (rams : list (list Z)) (priority : Z) : tx_rtl :=
  mktx ((λ ram, txtb_init ram 0) <$> rams) arb_init priority 0.

End Tx.
