(* ===== verification/TxPrio.v ===== *)
(** * The priority decoder picks the buffer with the highest priority

    The comparator tree of TxArb against its specification: an index is valid exactly when some input
    is, and it is then the first input among those with the highest priority.  The proof
    follows the tree: [best lo hi] says what a node that covers the inputs [lo .. hi - 1] computes, and
    one lemma combines two nodes. *)

From Stdlib Require Import ZArith Lia.
From stdpp Require Import base numbers list.
From S2P Require Import Prelude TxtBuf TxArb.

#[local] Open Scope Z_scope.

(** ** Nodes of the tree *)

Section Best.
Context (prio : nat → Z) (ok : nat → bool).

(** Input [k] is at least as good as input [j]: ties go to the lower index. *)
Definition beats (k j : nat) : Prop := prio j < prio k ∨ (prio j = prio k ∧ (k <= j)%nat).

(** [k] is the best valid input of [lo .. hi - 1]. *)
Definition best_in (lo hi k : nat) : Prop :=
  (lo <= k < hi)%nat ∧ ok k = true ∧ ∀ j, (lo <= j < hi)%nat → ok j = true → beats k j.

(** A node with the outputs [p] and [v], that leads to input [k]. *)
Definition node (lo hi k : nat) (p : Z) (v : bool) : Prop :=
  if v then best_in lo hi k ∧ p = prio k else ∀ j, (lo <= j < hi)%nat → ok j = false.

Lemma node_leaf k : node k (S k) k (prio k) (ok k).
Proof.
  unfold node. destruct (ok k) eqn:E.
  - split; [|done]. split_and!; [lia|lia|done|]. intros j Hj _. assert (j = k) as -> by lia. right. lia.
  - intros j Hj. by assert (j = k) as -> by lia.
Qed.

Lemma best_in_left lo mid hi k :
  best_in lo mid k → (mid <= hi)%nat →
  (∀ j, (mid <= j < hi)%nat → ok j = true → prio j <= prio k) → best_in lo hi k.
Proof.
  intros (Hk & Ho & Hb) Hm Hr. split_and!; [lia|lia|done|]. intros j Hj Hoj.
  destruct (le_lt_dec mid j) as [Hj'|Hj']; [|apply Hb; [lia|done]].
  pose proof (Hr j ltac:(lia) Hoj). unfold beats. lia.
Qed.

Lemma best_in_right lo mid hi k :
  best_in mid hi k → (lo <= mid)%nat →
  (∀ j, (lo <= j < mid)%nat → ok j = true → prio j < prio k) → best_in lo hi k.
Proof.
  intros (Hk & Ho & Hb) Hm Hr. split_and!; [lia|lia|done|]. intros j Hj Hoj.
  destruct (le_lt_dec mid j) as [Hj'|Hj']; [apply Hb; [lia|done]|]. left. apply Hr; [lia|done].
Qed.

(** A comparator combines two adjacent nodes. *)
Lemma node_comparator lo mid hi k0 k1 p0 p1 v0 v1 :
  (lo <= mid <= hi)%nat → node lo mid k0 p0 v0 → node mid hi k1 p1 v1 →
  let '(p, v, w) := comparator p0 p1 v0 v1 in node lo hi (if w : bool then k1 else k0) p v.
Proof.
  intros Hm H0 H1. unfold comparator, node in *.
  destruct v1, v0; simpl.
  - destruct H0 as [H0 ->], H1 as [H1 ->]. destruct (Z.ltb_spec (prio k0) (prio k1)); (split; [|done]).
    + apply (best_in_right lo mid); [done|lia|]. intros j Hj Hoj. destruct H0 as (_ & _ & Hb).
      destruct (Hb j Hj Hoj); lia.
    + apply (best_in_left lo mid); [done|lia|]. intros j Hj Hoj. destruct H1 as (_ & _ & Hb).
      destruct (Hb j Hj Hoj); lia.
  - destruct H1 as [H1 ->]. split; [|done]. apply (best_in_right lo mid); [done|lia|].
    intros j Hj Hoj. by rewrite H0 in Hoj.
  - destruct H0 as [H0 ->]. split; [|done]. apply (best_in_left lo mid); [done|lia|].
    intros j Hj Hoj. by rewrite H1 in Hoj.
  - intros j Hj. destruct (le_lt_dec mid j); [apply H1|apply H0]; lia.
Qed.

(** The best input is unique. *)
Lemma best_in_unique lo hi k k' : best_in lo hi k → best_in lo hi k' → k = k'.
Proof.
  intros (Hk & Ho & Hb) (Hk' & Ho' & Hb'). destruct (Hb k'), (Hb' k); lia || done.
Qed.

(** The reference: a scan of the inputs from the first to the last. *)
Fixpoint scan (l : list nat) : option nat :=
  match l with
  | [] => None
  | k :: l =>
      match scan l with
      | Some j => if ok k && (prio j <=? prio k) then Some k else Some j
      | None => if ok k then Some k else None
      end
  end.

Lemma scan_best n lo :
  match scan (seq lo n) with
  | Some k => best_in lo (lo + n) k
  | None => ∀ j, (lo <= j < lo + n)%nat → ok j = false
  end.
Proof.
  revert lo. induction n as [|n IH]; intros lo; [intros j Hj; lia|]. cbn [seq scan].
  replace (lo + S n)%nat with (S lo + n)%nat by lia. specialize (IH (S lo)).
  assert (Hhd : ∀ k, best_in (S lo) (S lo + n) k → ok lo = false ∨ prio lo < prio k → best_in lo (S lo + n) k).
  { intros k Hb Hlo. apply (best_in_right lo (S lo)); [done|lia|]. intros j Hj Hoj.
    assert (j = lo) as -> by lia. destruct Hlo; [congruence|done]. }
  destruct (scan (seq (S lo) n)) as [k|].
  - destruct (ok lo) eqn:Eo; simpl; [|auto]. destruct (Z.leb_spec (prio k) (prio lo)); [|auto].
    apply (best_in_left lo (S lo)); [|lia|].
    + split_and!; [lia|lia|done|]. intros j Hj _. assert (j = lo) as -> by lia. right. lia.
    + intros j Hj Hoj. destruct IH as (_ & _ & Hb). destruct (Hb j Hj Hoj); lia.
  - assert (Hn : ∀ j, (lo <= j < S lo + n)%nat → ok j = true → j = lo).
    { intros j Hj Hoj. destruct (decide (j = lo)); [done|]. rewrite IH in Hoj by lia. done. }
    destruct (ok lo) eqn:Eo.
    + split_and!; [lia|lia|done|]. intros j Hj Hoj. rewrite (Hn j Hj Hoj). right. lia.
    + intros j Hj. destruct (ok j) eqn:Ej; [|done]. rewrite (Hn j Hj Ej) in Ej. congruence.
Qed.

End Best.

(** ** The decoder *)

Section Decoder.
Context (n : nat) (prio : nat → Z) (ok : nat → bool).
Hypothesis Hn : (2 <= n <= 8)%nat.

Abbreviation P := (l0_prio n prio).
Abbreviation V := (l0_valid n ok).

Lemma l0_best k : best_in P V 0 8 k ↔ best_in prio ok 0 n k.
Proof using Hn.
  assert (HV : ∀ j, V j = true ↔ (j < n)%nat ∧ ok j = true).
  { intros j. unfold l0_valid. rewrite andb_true_iff, Nat.ltb_lt. done. }
  assert (HP : ∀ j, (j < n)%nat → P j = prio j).
  { intros j Hj. unfold l0_prio. apply Nat.ltb_lt in Hj. by rewrite Hj. }
  unfold best_in, beats. rewrite HV. split.
  - intros (Hk & [Hkn Ho] & Hb). split_and!; [lia|done|done|]. intros j Hj Hoj.
    rewrite <- !HP by lia. apply Hb; [lia|]. apply HV. split; [lia|done].
  - intros (Hk & Ho & Hb). split_and!; [lia|lia|lia|done|]. intros j Hj [Hjn Hoj]%HV.
    rewrite !HP by lia. apply Hb; [lia|done].
Qed.

(** The leaf that the winners of a level lead to. *)
Definition leaf1 (i : nat) : nat := if l1_winner n prio ok i then 2 * i + 1 else 2 * i.
Definition leaf2 (i : nat) : nat := leaf1 (if l2_winner n prio ok i then 2 * i + 1 else 2 * i).
Definition leaf3 : nat := leaf2 (if l3_winner n prio ok then 1 else 0).

Lemma l1_node i : node P V (2 * i) (2 * i + 2) (leaf1 i) (l1_prio n prio ok i) (l1_valid n prio ok i).
Proof.
  pose proof (node_comparator P V (2 * i) (2 * i + 1) (2 * i + 2) (2 * i) (2 * i + 1)
    (P (2 * i)) (P (2 * i + 1)) (V (2 * i)) (V (2 * i + 1)) ltac:(lia)) as Hc.
  unfold leaf1, l1_prio, l1_valid, l1_winner, l1.
  destruct (comparator _ _ _ _) as [[p v] w]. apply Hc.
  - rewrite (Nat.add_1_r (2 * i)). apply node_leaf.
  - replace (2 * i + 2)%nat with (S (2 * i + 1)) by lia. apply node_leaf.
Qed.

Lemma l2_node i : node P V (4 * i) (4 * i + 4) (leaf2 i) (l2_prio n prio ok i) (l2_valid n prio ok i).
Proof.
  pose proof (l1_node (2 * i)) as H0. pose proof (l1_node (2 * i + 1)) as H1.
  replace (2 * (2 * i))%nat with (4 * i)%nat in H0 by lia.
  replace (2 * (2 * i + 1))%nat with (4 * i + 2)%nat in H1 by lia.
  replace (4 * i + 2 + 2)%nat with (4 * i + 4)%nat in H1 by lia.
  pose proof (node_comparator P V (4 * i) (4 * i + 2) (4 * i + 4) _ _ _ _ _ _ ltac:(lia) H0 H1) as Hc.
  unfold leaf2, l2_prio, l2_valid, l2_winner, l2.
  destruct (comparator _ _ _ _) as [[p v] w]. by destruct w.
Qed.

Lemma l3_node :
  match output_valid n prio ok with
  | true => best_in P V 0 8 leaf3
  | false => ∀ j, (0 <= j < 8)%nat → V j = false
  end.
Proof.
  pose proof (node_comparator P V 0 4 8 _ _ _ _ _ _ ltac:(lia) (l2_node 0) (l2_node 1)) as Hc.
  unfold output_valid, l3_valid, leaf3, l3_winner. unfold comparator in Hc.
  destruct (l2_valid n prio ok 1), (l2_valid n prio ok 0); simpl in *; try done;
    try (by destruct Hc). destruct (_ <? _); by destruct Hc.
Qed.

Lemma output_index_leaf : (leaf3 < n)%nat → output_index n prio ok = leaf3.
Proof using Hn.
  unfold output_index, leaf3, leaf2, leaf1.
  destruct (l3_winner _ _ _), (l2_winner _ _ _ 0), (l2_winner _ _ _ 1); simpl;
    repeat case_match; simpl; intros; rewrite ?Nat.mod_small by lia; done.
Qed.

(** The output index is a number of a buffer even when no input is valid. *)
Lemma output_index_range : (output_index n prio ok < n)%nat.
Proof using Hn. unfold output_index. repeat case_match; try lia; apply Nat.mod_upper_bound; lia. Qed.

Lemma decoder_valid : output_valid n prio ok = true → best_in prio ok 0 n (output_index n prio ok).
Proof using Hn.
  intros Hv. pose proof l3_node as Hb. rewrite Hv in Hb. apply l0_best in Hb.
  rewrite output_index_leaf; [done|]. destruct Hb. lia.
Qed.

Lemma decoder_none : output_valid n prio ok = false ↔ ∀ j, (j < n)%nat → ok j = false.
Proof using Hn.
  pose proof l3_node as Hb. destruct (output_valid n prio ok) eqn:Hv.
  - apply l0_best in Hb as (Hk & Ho & _). split; [done|]. intros Hall.
    rewrite Hall in Ho by lia. done.
  - split; [|done]. intros _ j Hj. specialize (Hb j ltac:(lia)). unfold l0_valid in Hb.
    apply Nat.ltb_lt in Hj. by rewrite Hj in Hb.
Qed.

End Decoder.

(** C4: The comparator tree computes a maximum: for every number of buffers, all priorities and every set of
    valid inputs, the three levels with their unused inputs give what a scan of the buffers gives, the
    first buffer of the highest priority, and report that there is none exactly when no input is
    valid; the index is always the number of a buffer. *)
Theorem priority_decoder_spec n prio ok :
  (2 <= n <= 8)%nat →
  (if output_valid n prio ok then Some (output_index n prio ok) else None) = scan prio ok (seq 0 n) ∧
  (output_index n prio ok < n)%nat.
Proof.
  intros Hn. split; [|by apply output_index_range]. pose proof (scan_best prio ok n 0) as Hs.
  destruct (output_valid n prio ok) eqn:Hv.
  - apply decoder_valid in Hv; [|done]. destruct (scan _ _ _) as [k|].
    + f_equal. by eapply best_in_unique.
    + destruct Hv as (Hk & Ho & _). rewrite Hs in Ho by lia. done.
  - pose proof (proj1 (decoder_none n prio ok Hn) Hv) as Hall. destruct (scan _ _ _) as [k|]; [|done].
    destruct Hs as (Hk & Ho & _). rewrite Hall in Ho by lia. done.
Qed.

(** Five buffers, the priorities of TX_PRIORITY = 0x33201, buffers 1 to 4 ready: buffers 3 and 4 have
    the highest priority. *)
Lemma priority_decoder_spec_witness :
  (2 <= 5 <= 8)%nat ∧
  scan (λ i, Z.shiftr 0x33201 (4 * Z.of_nat i) mod 8) (λ i, (0 <? i)%nat) (seq 0 5) = Some 3%nat ∧
  output_index 5 (λ i, Z.shiftr 0x33201 (4 * Z.of_nat i) mod 8) (λ i, (0 <? i)%nat) = 3%nat.
Proof.
  split; [lia|]. split; [reflexivity|].
  destruct (priority_decoder_spec 5 (λ i, Z.shiftr 0x33201 (4 * Z.of_nat i) mod 8) (λ i, (0 <? i)%nat)
    ltac:(lia)) as [E _].
  exact (f_equal (default 0%nat) E).
Defined.
