(* ===== verification/TxFsm.v ===== *)
(** * The state machine of the TX arbitrator

    Facts about [arb_next_state] and [arb_out] of TxArb, for all inputs without a parity error: when a
    validation goes on, when it ends, and in which order the words of the metadata are read. *)

From Stdlib Require Import ZArith Lia.
From stdpp Require Import base numbers list.
From S2P Require Import Prelude TxtBuf TxArb.

#[local] Open Scope Z_scope.

(** A validation is going on or finished, but the arbitrator is not locked. *)
Definition sel_state (st : t_tx_arb_state) : Prop := st ≠ s_arb_idle ∧ st ≠ s_arb_locked.

Section Fsm.
Context (st : t_tx_arb_state) (f : arb_fsm_in).
Hypothesis Hpar : fi_mismatch f = false.

Local Ltac fsm_cases :=
  unfold parity_error_vld, sel_state in *; destruct f as [av ch ts lk un mm wt]; simpl in *; subst mm;
  destruct st; unfold arb_sel, arb_none; simpl;
  destruct lk, av, ch, wt; try destruct ts; try destruct un; simpl; intuition (congruence || discriminate).

Lemma fsm_sel :
  sel_state (arb_next_state st f) →
  (sel_state st ∧ fi_lock f = false ∨ st = s_arb_idle) ∧ fi_avail f = true.
Proof using Hpar. fsm_cases. Qed.

Lemma fsm_sel_stays : sel_state st → fi_lock f = false → fi_avail f = true → sel_state (arb_next_state st f).
Proof using Hpar. fsm_cases. Qed.

Lemma fsm_sel_locks : sel_state st → fi_lock f = true → arb_next_state st f = s_arb_locked.
Proof using Hpar. fsm_cases. Qed.

Lemma fsm_commit :
  commit_dbl_bufs (arb_out st f) = true →
  st = s_arb_sel_idw ∧ fi_wait f = false ∧ fi_avail f = true ∧ fi_lock f = false ∧ fi_changed f = false.
Proof using Hpar. fsm_cases. Qed.

Lemma fsm_set : frame_valid_com_set (arb_out st f) = commit_dbl_bufs (arb_out st f).
Proof using Hpar. fsm_cases. Qed.

(** In the states of a validation the committed frame stays valid only if some buffer is available, or
    it is being locked. *)
Lemma fsm_keep :
  sel_state st → frame_valid_com_clear (arb_out st f) = false → fi_lock f = true ∨ fi_avail f = true.
Proof using Hpar. fsm_cases. Qed.

Lemma fsm_no_clear : sel_state st → fi_avail f = true → frame_valid_com_clear (arb_out st f) = false.
Proof using Hpar. fsm_cases. Qed.

Lemma fsm_locked : arb_next_state st f = s_arb_locked → st = s_arb_locked ∨ sel_state st ∧ fi_lock f = true.
Proof using Hpar. fsm_cases. Qed.

Lemma fsm_unlock :
  st = s_arb_locked → arb_next_state st f = (if fi_unlock f then s_arb_idle else s_arb_locked) ∧
    frame_valid_com_clear (arb_out st f) = fi_unlock f.
Proof using Hpar. fsm_cases. Qed.

(** How the words of the metadata are read: the pointer is loaded, one cycle is waited. *)
Lemma fsm_ffw :
  arb_next_state st f = s_arb_sel_ffw →
  fi_avail f = true ∧ fi_changed f = false ∧ sel_state st ∧
  (fo_load (arb_out st f) = ld_ffmt ∧ fsm_wait_state_d (arb_out st f) = true ∨
   st = s_arb_sel_ffw ∧ fo_load (arb_out st f) = ld_none ∧ fsm_wait_state_d (arb_out st f) = false ∧
     txtb_meta_clk_en (arb_out st f) = true).
Proof using Hpar. fsm_cases. Qed.

Lemma fsm_idw :
  arb_next_state st f = s_arb_sel_idw →
  fi_avail f = true ∧ fi_changed f = false ∧ sel_state st ∧
  (st = s_arb_sel_ffw ∧ fi_wait f = false ∧ fo_load (arb_out st f) = ld_ident ∧
     fsm_wait_state_d (arb_out st f) = true ∧ buffer_md_w (arb_out st f) = true ∨
   st = s_arb_sel_idw ∧ fo_load (arb_out st f) = ld_none ∧ fsm_wait_state_d (arb_out st f) = false ∧
     txtb_meta_clk_en (arb_out st f) = true ∧ buffer_md_w (arb_out st f) = false).
Proof using Hpar. fsm_cases. Qed.

Lemma fsm_validated :
  arb_next_state st f = s_arb_validated →
  commit_dbl_bufs (arb_out st f) = true ∨
  st = s_arb_validated ∧ fi_changed f = false ∧ commit_dbl_bufs (arb_out st f) = false ∧
    frame_valid_com_clear (arb_out st f) = false.
Proof using Hpar. fsm_cases. Qed.

End Fsm.
