(* ===== verification/TxInv.v ===== *)
(** * The control invariant of the TX buffers and their arbitrator

    What the protocol control and the bus promise to the design of TxArb ([cycle_ok], checked along a run
    by a monitor), and the invariant of the registers that this gives: at most the
    buffer that the arbitrator is locked on is in transmission, the committed metadata are those of a
    buffer that has been ready ever since, and the pipeline that reads the metadata holds
    the words of the buffer being validated. *)

From Stdlib Require Import ZArith Lia.
From stdpp Require Import base numbers list.
From S2P Require Import Prelude TxtBuf TxArb TxPrio TxFsm.

#[local] Open Scope Z_scope.

(** ** The environment *)

(** All pending buffers fail (the same signal in every buffer). *)
Definition all_failed (c : cycle_in) : bool := (ci_bus_off c && ci_tbfbo c) || ci_bmm c || ci_rom c.

(** What the monitor remembers of the last cycles: whether a frame was offered to the
    protocol control, for how many cycles [all_failed] has been active (up to 3), and the command
    written in the last cycle. *)
Record tx_mon := mktxmon { m_offered : bool; m_failing : nat; m_cmd : option Z }.

Definition mon_init : tx_mon := mktxmon false 0 None.

Section Env.
Context (n : nat).

Definition mon_next (c : cycle_in) (s : tx_rtl) (m : tx_mon) : tx_mon :=
  {| m_offered := tran_frame_valid c s && negb (arb_locked s) && negb (cmd_lock (ci_hw_cmd c));
     m_failing := if all_failed c then Nat.min 3 (S (m_failing m)) else 0;
     m_cmd := reg_write c TX_COMMAND_ADR |}.

(** The protocol control locks a buffer only in the cycle after one was offered to it (its commands are
    registered once); [all_failed] lasts 3 cycles at least; the bus leaves a cycle after a
    command; the loads return what the registers hold; parity errors and the backup mode are absent. *)
Definition cycle_ok (c : cycle_in) (s : tx_rtl) (m : tx_mon) : bool :=
  (negb (cmd_lock (ci_hw_cmd c)) || m_offered m) &&
  ((m_failing m =? 0)%nat || (m_failing m =? 3)%nat || all_failed c) &&
  match m_cmd m, ci_bus c with Some _, Some _ => false | _, _ => true end &&
  match ci_bus c with
  | Some (bus_rd a v) =>
      (negb (a =? TX_STATUS_ADR) || (v =? tx_status n s)) &&
      (negb (a =? STATUS_ADR) || Bool.eqb (Z.testbit v 2) (status_txnf n s))
  | _ => true
  end &&
  forallb (λ i, negb (ci_mismatch c i)) (seq 0 n) && negb (ci_txbbm c).

Fixpoint conforms (ins : list cycle_in) (s : tx_rtl) (m : tx_mon) : bool :=
  match ins with
  | [] => true
  | c :: ins => cycle_ok c s m && conforms ins (tx_tick n c s) (mon_next c s m)
  end.

End Env.

(** What the software promises: aligned accesses within the 21 words of a buffer, and no abort. *)
Definition access_ok (x : tx_access) : bool :=
  match x with
  | bus_rd _ _ => true
  | bus_wr a v =>
      (a mod 4 =? 0) && ((a <? 0x100) || (a mod 0x100 <? 0x54)) &&
      negb ((a =? TX_COMMAND_ADR) && Z.testbit v 2)
  end.

Definition accesses_ok (ins : list cycle_in) : Prop :=
  Forall (λ c, match ci_bus c with Some x => access_ok x = true | None => True end) ins.

(** ** The invariant *)

Definition ready (b : txtb) : bool := bool_decide (txt_curr_state b = s_txt_ready).

Definition in_progress (b : txtb) : bool := bool_decide (txt_curr_state b = s_txt_tx_prog).

(** The word [w] of the memory of a buffer. *)
Definition word (b : txtb) (w : nat) : Z := default 0 (txt_ram b !! w).

(** Bit [k] of the command written in the last cycle. *)
Definition cmd_bit (m : tx_mon) (k : Z) : bool :=
  match m_cmd m with Some v => Z.testbit v k | None => false end.

(** A buffer without abort and parity error, with the command of the last cycle in its registers. *)
Record plain (m : tx_mon) (b : txtb) : Prop := {
  pl_state : txt_curr_state b ≠ s_txt_ab_prog ∧ txt_curr_state b ≠ s_txt_aborted ∧
    txt_curr_state b ≠ s_txt_parity_err;
  pl_txce : txce_q b = cmd_bit m 0;
  pl_txcr : txcr_q b = cmd_bit m 1;
  pl_txca : txca_q b = false;
  pl_ram : length (txt_ram b) = C_TXT_BUF_DEPTH }.

Section Inv.
Context (n : nat).
Hypothesis Hn : (2 <= n <= 8)%nat.

Implicit Types (s : tx_rtl) (m : tx_mon) (c : cycle_in).

Abbreviation curr s := (curr_txtb_index_i (tx_arb s)).
Abbreviation sreg s := (select_buf_index_reg (tx_arb s)).
Abbreviation arb_st s := (arb_curr_state (tx_arb s)).
Abbreviation com s := (tran_frame_valid_com (tx_arb s)).

(** The committed metadata are those of buffer [i]. *)
Definition content s (i : nat) : Prop :=
  com_md (tx_arb s) = md_of (word (txt s i) 0) ∧ tran_identifier_com (tx_arb s) = word (txt s i) 1 mod 2 ^ 29.

Definition none_ready s : Prop := ∀ i, (i < n)%nat → ready (txt s i) = false.

(** While the committed frame is valid its buffer is ready with this content; when all buffers fail it
    stays valid for 2 cycles at most, in which the buffer does not become ready again. *)
Definition com_phase s m : Prop :=
  match m_failing m with
  | 0%nat => ready (txt s (curr s)) = true ∧ content s (curr s)
  | 1%nat => ready (txt s (curr s)) = false ∧ (m_cmd m ≠ None → none_ready s)
  | 2%nat => none_ready s
  | _ => False
  end.

Record ctl_inv s m : Prop := {
  ci_len : length (tx_bufs s) = n;
  ci_plain : ∀ i, (i < n)%nat → plain m (txt s i);
  ci_cmd : ∀ v, m_cmd m = Some v → tx_command_txb s = v;
  ci_idx : (curr s < n ∧ sreg s < n)%nat;
  ci_tran : ∀ i, (i < n)%nat → in_progress (txt s i) = true → arb_locked s = true ∧ i = curr s ∧ content s i;
  ci_sel : sel_state (arb_st s) → ready (txt s (sreg s)) = (m_failing m =? 0)%nat;
  ci_ffw : arb_st s = s_arb_sel_ffw → txtb_pointer_meta_q (tx_arb s) = 0 ∧
    (fsm_wait_state_q (tx_arb s) = false → txt_data_out (txt s (sreg s)) = word (txt s (sreg s)) 0);
  ci_idw : arb_st s = s_arb_sel_idw → txtb_pointer_meta_q (tx_arb s) = 1 ∧
    dbl_md (tx_arb s) = md_of (word (txt s (sreg s)) 0) ∧
    (fsm_wait_state_q (tx_arb s) = false → txt_data_out (txt s (sreg s)) = word (txt s (sreg s)) 1);
  ci_com : com s = true → arb_locked s = false → sel_state (arb_st s) ∧ com_phase s m;
  ci_validated : arb_st s = s_arb_validated → com s = true ∧ curr s = sreg s;
  ci_off : m_offered m = true → sel_state (arb_st s) ∧ com s = true;
  ci_failing : (m_failing m <= 3)%nat }.

(** *** One cycle of a buffer *)

(** The next state of a buffer under the assumptions; [here] when the commands of the protocol control
    are for it, [cr] and [ce] when a command of the software is. *)
Definition buf_next (failing here cr ce : bool) (h : t_txtb_hw_cmd) (st : t_txt_buf_state) :
    t_txt_buf_state :=
  match st with
  | s_txt_empty => if cr then s_txt_ready else st
  | s_txt_ready =>
      if failing then s_txt_failed else if here && cmd_lock h then s_txt_tx_prog else st
  | s_txt_tx_prog =>
      if failing then s_txt_failed
      else if negb here then st
      else if cmd_failed h then s_txt_failed
      else if cmd_valid h then s_txt_ok
      else if cmd_err h || cmd_arbl h then s_txt_ready
      else st
  | _ => if cr then s_txt_ready else if ce then s_txt_empty else st
  end.

Lemma txt_tick c s i :
  (i < length (tx_bufs s))%nat → txt (tx_tick n c s) i = txtb_tick i (txtb_ports n c s i) (txt s i).
Proof.
  intros Hi. unfold txt. simpl. apply lookup_lt_is_Some in Hi as [b Hb].
  by rewrite list_lookup_imap, Hb.
Qed.

Section Cycle.
Context (c : cycle_in) (s : tx_rtl) (m : tx_mon).
Hypothesis Hinv : ctl_inv s m.
Hypothesis Hok : cycle_ok n c s m = true.

Let s' := tx_tick n c s.
Let m' := mon_next c s m.

Lemma ok_parts :
  (cmd_lock (ci_hw_cmd c) = true → m_offered m = true) ∧
  (m_failing m = 1%nat ∨ m_failing m = 2%nat → all_failed c = true) ∧
  (m_cmd m ≠ None → ci_bus c = None) ∧
  (∀ i, (i < n)%nat → ci_mismatch c i = false) ∧ ci_txbbm c = false.
Proof using Hok Hn.
  unfold cycle_ok in Hok. rewrite !andb_true_iff in Hok.
  destruct Hok as (((((Hl & Hf) & Hb) & _) & Hp) & Hx). split_and!.
  - intros El. by rewrite El in Hl.
  - intros [E|E]; by rewrite E in Hf.
  - destruct (m_cmd m), (ci_bus c); done.
  - intros i Hi. rewrite forallb_forall in Hp. apply negb_true_iff, Hp, in_seq. lia.
  - by apply negb_true_iff.
Qed.

Lemma no_txbbm : ci_txbbm c = false.
Proof using Hok Hn. apply ok_parts. Qed.

Lemma no_mismatch i : (i < n)%nat → ci_mismatch c i = false.
Proof using Hok Hn. apply ok_parts. Qed.

Lemma avail_ready i : (i < n)%nat → avail c s i = ready (txt s i).
Proof using Hinv.
  intros Hi. unfold avail, ready. destruct (ci_plain _ _ Hinv i Hi) as [_ _ _ -> _].
  by rewrite andb_true_r.
Qed.

Lemma index_range : (select_buf_index n c s < n)%nat.
Proof using Hn. by apply output_index_range. Qed.

(** The selected buffer is ready, with the highest priority. *)
Lemma selected :
  select_buf_avail n c s = true →
  ready (txt s (select_buf_index n c s)) = true ∧
  ∀ j, (j < n)%nat → ready (txt s j) = true →
    mr_tx_priority s j <= mr_tx_priority s (select_buf_index n c s).
Proof using Hn Hinv Hok.
  intros Hv. pose proof index_range as Hr. destruct (decoder_valid n _ _ Hn Hv) as (Hk & Ho & Hb).
  fold (select_buf_index n c s) in *. rewrite avail_ready in Ho by done. split; [done|].
  intros j Hj Hrj. specialize (Hb j ltac:(lia) ltac:(by rewrite avail_ready)).
  assert (E : ∀ i, mr_tx_priority_txbbm c s i = mr_tx_priority s i).
  { intros i. unfold mr_tx_priority_txbbm. by rewrite no_txbbm, andb_false_r. }
  unfold beats in Hb. rewrite !E in Hb. lia.
Qed.

Lemma not_selected : select_buf_avail n c s = false ↔ none_ready s.
Proof using Hn Hinv.
  unfold select_buf_avail. rewrite decoder_none by done. unfold none_ready.
  split; intros Ha j Hj; specialize (Ha j Hj); by rewrite avail_ready in *.
Qed.

Lemma arb_par : fi_mismatch (arb_in n c s) = false.
Proof using Hn Hok. apply no_mismatch, index_range. Qed.

(** The command of the software for buffer [i]. *)
Definition sw_cmd (k : Z) (i : nat) : bool := cmd_bit m k && cmd_bit m (Z.of_nat i + 8).

Lemma txt_next i :
  (i < n)%nat →
  txt_curr_state (txt s' i) =
    buf_next (all_failed c) (i =? curr s)%nat (sw_cmd 1 i) (sw_cmd 0 i) (ci_hw_cmd c) (txt_curr_state (txt s i)).
Proof using Hn Hinv Hok.
  intros Hi. unfold s'. rewrite txt_tick by (by rewrite (ci_len _ _ Hinv)).
  destruct (ci_plain _ _ Hinv i Hi) as [(Ha & Hb & Hp) Hce Hcr Hca _].
  assert (Hsw : ∀ k, cmd_bit m k && tx_command_txbi c s i = sw_cmd k i).
  { intros k. unfold sw_cmd, tx_command_txbi, cmd_bit. rewrite no_txbbm. simpl.
    pose proof (ci_cmd _ _ Hinv) as Hc. destruct (m_cmd m) as [v|]; [|done].
    by rewrite (Hc v eq_refl). }
  simpl. unfold txt_next_state, arbl_or_err, txtb_hw_cmd_i, txtb_parity_error_valid, buffer_skipped,
    txt_abort_applied, tx_command_txcr_valid, tx_command_txce_valid. simpl.
  rewrite no_mismatch, Hca, Hce, Hcr, !Hsw by done. simpl.
  unfold is_bb. rewrite no_txbbm, (andb_false_r (Nat.odd i)). simpl. rewrite andb_false_r.
  change (go_to_failed _) with (all_failed c).
  destruct (txt_curr_state (txt s i)); try done; simpl; destruct (i =? curr s)%nat; simpl; try done;
    by destruct (all_failed c).
Qed.

Lemma ram_next i :
  (i < n)%nat → ready (txt s i) = true ∨ in_progress (txt s i) = true → txt_ram (txt s' i) = txt_ram (txt s i).
Proof using Hinv.
  intros Hi Hr. unfold s'. rewrite txt_tick by (by rewrite (ci_len _ _ Hinv)). simpl.
  unfold txt_ram_next, txtb_port_a_write, txtb_user_accessible, transient_state.
  destruct Hr as [Hr%bool_decide_eq_true|Hr%bool_decide_eq_true]; rewrite Hr; simpl; by rewrite andb_false_r.
Qed.

Lemma word_next i w :
  (i < n)%nat → ready (txt s i) = true ∨ in_progress (txt s i) = true → word (txt s' i) w = word (txt s i) w.
Proof using Hinv. intros. unfold word. by rewrite ram_next. Qed.

(** A ready buffer that is read in this cycle gives the word in the next one. *)
Lemma meta_read_next i :
  (i < n)%nat → arb_locked s = false → txtb_meta_clk_en (arb_o n c s) = true →
  ready (txt s i) = true →
  txt_data_out (txt s' i) = word (txt s' i) (Z.to_nat (txtb_pointer_meta_q (tx_arb s))).
Proof using Hinv.
  intros Hi Hl Hc Hr. rewrite word_next by auto. unfold s'.
  rewrite txt_tick by (by rewrite (ci_len _ _ Hinv)). simpl.
  unfold txt_data_out_next, txtb_ram_clk_en, word. simpl.
  unfold port_b_clk_en, port_b_address. by rewrite Hl, Hc.
Qed.

(** *** The buffers after the edge *)

Lemma ready_stays i :
  (i < n)%nat → ready (txt s i) = true → all_failed c = false → cmd_lock (ci_hw_cmd c) = false →
  ready (txt s' i) = true.
Proof using Hn Hinv Hok.
  intros Hi Hr%bool_decide_eq_true Hf Hl. apply bool_decide_eq_true. rewrite txt_next by done.
  rewrite Hr. simpl. by rewrite Hf, Hl, andb_false_r.
Qed.

Lemma ready_after_failure i :
  (i < n)%nat → all_failed c = true → ready (txt s' i) = true → ready (txt s i) = false ∧ m_cmd m ≠ None.
Proof using Hn Hinv Hok.
  intros Hi Hf Hr%bool_decide_eq_true. rewrite txt_next, Hf in Hr by done. split.
  - apply bool_decide_eq_false. intros E. by rewrite E in Hr.
  - intros E. unfold sw_cmd, cmd_bit in Hr. rewrite E in Hr. by destruct (txt_curr_state (txt s i)).
Qed.

Lemma none_ready_after_failure : all_failed c = true → m_cmd m' ≠ None → none_ready s'.
Proof using Hn Hinv Hok.
  intros Hf Hc i Hi. destruct (ready (txt s' i)) eqn:E; [|done].
  apply ready_after_failure in E as [_ E]; [|done..]. destruct (ok_parts) as (_ & _ & Hb & _).
  specialize (Hb E). unfold m', mon_next, reg_write in Hc. simpl in Hc. by rewrite Hb in Hc.
Qed.

Lemma failing_next : all_failed c = true → m_failing m' = Nat.min 3 (S (m_failing m)).
Proof. unfold m'. simpl. by intros ->. Qed.

Lemma failing_reset : all_failed c = false → m_failing m' = 0%nat.
Proof. unfold m'. simpl. by intros ->. Qed.

Lemma in_progress_next i :
  (i < n)%nat → in_progress (txt s' i) = true →
  all_failed c = false ∧
  (ready (txt s i) = true ∧ i = curr s ∧ cmd_lock (ci_hw_cmd c) = true ∨
   in_progress (txt s i) = true ∧ (i = curr s → unlock_cmd c = false)).
Proof using Hn Hinv Hok.
  intros Hi Hp%bool_decide_eq_true. rewrite txt_next in Hp by done. unfold ready, in_progress.
  destruct (txt_curr_state (txt s i)); simpl in Hp; repeat case_match; try done.
  - destruct (Nat.eqb_spec i (curr s)); [|done]. split; [done|]. left. by rewrite bool_decide_eq_true_2.
  - split; [done|]. right. split; [done|]. intros ->. by rewrite Nat.eqb_refl in *.
  - split; [done|]. right. split; [done|]. intros _. unfold unlock_cmd.
    destruct (cmd_err _), (cmd_arbl _), (cmd_valid _), (cmd_failed _); done.
Qed.

(** *** The lock command *)

Lemma lock_ready :
  cmd_lock (ci_hw_cmd c) = true → ready (txt s (curr s)) = true →
  sel_state (arb_st s) ∧ com s = true ∧ m_failing m = 0%nat ∧ content s (curr s).
Proof using Hn Hinv Hok.
  intros Hl Hr. destruct ok_parts as (Ho & _). apply (ci_off _ _ Hinv) in Ho as [Hs Hc]; [|done].
  assert (Hnl : arb_locked s = false) by apply bool_decide_eq_false, Hs.
  destruct (ci_com _ _ Hinv Hc Hnl) as [_ Hp]. unfold com_phase in Hp.
  destruct (m_failing m) as [|[|[|k]]]; [|destruct Hp as [Hp _]; congruence| |done].
  - destruct Hp as [_ Hp]. exact (conj Hs (conj Hc (conj eq_refl Hp))).
  - rewrite Hp in Hr; [done|]. apply Hinv.
Qed.

Lemma idle_no_lock : arb_st s = s_arb_idle → cmd_lock (ci_hw_cmd c) = false.
Proof using Hn Hinv Hok.
  intros E. destruct (cmd_lock (ci_hw_cmd c)) eqn:Hl; [|done]. destruct ok_parts as (Ho & _).
  apply (ci_off _ _ Hinv) in Ho as [[Hs _] _]; done.
Qed.

(** *** Preservation *)

Lemma locked_st : arb_locked s = true ↔ arb_st s = s_arb_locked.
Proof. apply bool_decide_eq_true. Qed.

Lemma sel_not_locked : sel_state (arb_st s) → arb_locked s = false.
Proof. intros [_ H]. by apply bool_decide_eq_false. Qed.

Lemma index_sreg : fi_changed (arb_in n c s) = false → select_buf_index n c s = sreg s.
Proof. simpl. unfold select_index_changed. rewrite negb_false_iff. by intros ?%Nat.eqb_eq. Qed.

(** What the arbitrator sees at port B of the selected buffer. *)
Lemma input_ready :
  arb_locked s = false → ready (txt s (select_buf_index n c s)) = true →
  txtb_selected_input n c s = txt_data_out (txt s (select_buf_index n c s)).
Proof.
  intros Hl Hr%bool_decide_eq_true. unfold txtb_selected_input, index_muxed. rewrite Hl.
  unfold txtb_port_b_data_out, txtb_unmask_data_ram, transient_state. by rewrite Hr.
Qed.

Lemma plain_next i : (i < n)%nat →
  match ci_bus c with Some x => access_ok x = true | None => True end → plain m' (txt s' i).
Proof using Hn Hinv Hok.
  intros Hi Hacc. pose proof (txt_next i Hi) as Ht. destruct (ci_plain _ _ Hinv i Hi) as [(Ha & Hb & Hp) _ _ _ Hr].
  unfold s' in *. rewrite txt_tick in * by (by rewrite (ci_len _ _ Hinv)). constructor.
  - rewrite Ht. unfold buf_next. destruct (txt_curr_state (txt s i)); try done; repeat case_match; done.
  - done.
  - done.
  - cbn [txca_q txtb_tick txtb_ports mr_tx_command_txca]. unfold tx_command_bit, reg_write.
    destruct (ci_bus c) as [[|a v]|]; try done.
    unfold access_ok in Hacc. rewrite !andb_true_iff, negb_true_iff in Hacc. destruct Hacc as [_ Hacc].
    by destruct (a =? TX_COMMAND_ADR).
  - simpl. unfold txt_ram_next. destruct (txtb_port_a_write _ _); [by rewrite length_insert|exact Hr].
Qed.

Lemma tran_next i :
  (i < n)%nat → in_progress (txt s' i) = true → arb_locked s' = true ∧ i = curr s' ∧ content s' i.
Proof using Hn Hinv Hok.
  intros Hi Hp. apply in_progress_next in Hp as [Hf [(Hr & -> & Hl)|(Hp & Hu)]]; [| |done].
  - destruct (lock_ready Hl Hr) as (Hs & Hc & _ & Hco).
    assert (E : commit_dbl_bufs (arb_o n c s) = false).
    { apply not_true_is_false. intros Hcm. apply fsm_commit in Hcm as (_ & _ & _ & Hl' & _); [|apply arb_par].
      simpl in Hl'. congruence. }
    unfold content, arb_locked. rewrite !word_next by auto.
    unfold s'. simpl. rewrite E. split_and!; [|done|apply Hco..].
    apply bool_decide_eq_true, fsm_sel_locks; [apply arb_par|done|done].
  - destruct (ci_tran _ _ Hinv i Hi Hp) as (Hl & -> & Hco). specialize (Hu eq_refl). pose proof Hl as Hst.
    apply locked_st in Hst. assert (E : commit_dbl_bufs (arb_o n c s) = false).
    { unfold arb_o. by rewrite Hst. }
    unfold content, arb_locked. rewrite !word_next by auto.
    unfold s'. simpl. rewrite E. split_and!; [|done|apply Hco..].
    apply bool_decide_eq_true. rewrite Hst. simpl. by rewrite Hu.
Qed.

Lemma sel_next : sel_state (arb_st s') → ready (txt s' (sreg s')) = (m_failing m' =? 0)%nat.
Proof using Hn Hinv Hok.
  intros Hs. change (sreg s') with (select_buf_index n c s).
  destruct (fsm_sel _ _ arb_par Hs) as [Hst Ha].
  assert (Hl : cmd_lock (ci_hw_cmd c) = false) by (destruct Hst as [[_ Hl]|Hl]; [done|by apply idle_no_lock]).
  destruct (selected Ha) as [Hr _]. pose proof index_range as Hi.
  destruct (all_failed c) eqn:Hf.
  - rewrite failing_next by done. destruct (ready (txt s' _)) eqn:E; [|by destruct (m_failing m) as [|[|[|]]]].
    apply ready_after_failure in E as [E _]; [congruence|done..].
  - rewrite failing_reset by done. by apply ready_stays.
Qed.

Lemma ffw_next :
  arb_st s' = s_arb_sel_ffw → txtb_pointer_meta_q (tx_arb s') = 0 ∧
    (fsm_wait_state_q (tx_arb s') = false → txt_data_out (txt s' (sreg s')) = word (txt s' (sreg s')) 0).
Proof using Hn Hinv Hok.
  intros Hst. destruct (fsm_ffw _ _ arb_par Hst) as (Ha & Hch & Hs & Hcase).
  change (sreg s') with (select_buf_index n c s).
  destruct (selected Ha) as [Hr _]. pose proof index_range as Hi.
  unfold s' at 1 2. simpl. unfold arb_o. destruct Hcase as [[-> ->]|(E & -> & -> & Hclk)]; [done|].
  destruct (ci_ffw _ _ Hinv E) as [Hptr _]. simpl. rewrite Hptr. split; [done|]. intros _.
  pose proof (meta_read_next _ Hi (sel_not_locked Hs) Hclk Hr) as Hrd.
  by rewrite Hptr in Hrd.
Qed.

Lemma idw_next :
  arb_st s' = s_arb_sel_idw → txtb_pointer_meta_q (tx_arb s') = 1 ∧
    dbl_md (tx_arb s') = md_of (word (txt s' (sreg s')) 0) ∧
    (fsm_wait_state_q (tx_arb s') = false → txt_data_out (txt s' (sreg s')) = word (txt s' (sreg s')) 1).
Proof using Hn Hinv Hok.
  intros Hst. destruct (fsm_idw _ _ arb_par Hst) as (Ha & Hch & Hs & Hcase).
  change (sreg s') with (select_buf_index n c s). pose proof (index_sreg Hch) as Hix.
  destruct (selected Ha) as [Hr _]. pose proof index_range as Hi.
  rewrite (word_next _ 0) by auto.
  unfold s' at 1 2 3. simpl. unfold arb_o.
  destruct Hcase as [(E & Hw & -> & -> & ->)|(E & -> & -> & Hclk & ->)].
  - split_and!; [done| |done]. f_equal. rewrite input_ready by (done || by apply sel_not_locked).
    rewrite Hix. by apply (ci_ffw _ _ Hinv E).
  - destruct (ci_idw _ _ Hinv E) as (Hptr & Hdbl & _). simpl. rewrite Hptr, Hix. split_and!; [done..|]. intros _.
    rewrite Hix in *. pose proof (meta_read_next _ Hi (sel_not_locked Hs) Hclk Hr) as Hrd.
    by rewrite Hptr in Hrd.
Qed.

(** A new committed frame: the metadata just read are those of the selected buffer. *)
Lemma arb_commit_next :
  commit_dbl_bufs (arb_o n c s) = true →
  sel_state (arb_st s') ∧ com_phase s' m' ∧ com s' = true ∧ ready (txt s (select_buf_index n c s)) = true ∧
  curr s' = select_buf_index n c s.
Proof using Hn Hinv Hok.
  intros Hcm. destruct (fsm_commit _ _ arb_par Hcm) as (Hst & Hw & Ha & Hl & Hch).
  assert (Hs : sel_state (arb_st s)) by (rewrite Hst; done).
  destruct (selected Ha) as [Hr _]. pose proof (index_sreg Hch) as Hix.
  destruct (ci_idx _ _ Hinv) as [_ Hi].
  assert (Hc' : curr s' = select_buf_index n c s) by (unfold s'; simpl; by rewrite Hcm).
  split; [by apply fsm_sel_stays; [apply arb_par|..]|].
  assert (Hco : com s' = true) by (unfold s'; simpl; unfold arb_o in *; by rewrite fsm_set, Hcm by apply arb_par).
  split; [|done]. unfold com_phase. rewrite Hc', Hix in *.
  pose proof (ci_sel _ _ Hinv Hs) as H0. rewrite Hr in H0. symmetry in H0. apply Nat.eqb_eq in H0.
  destruct (all_failed c) eqn:Hf.
  - rewrite failing_next, H0 by done. simpl. split; [|by apply none_ready_after_failure].
    apply not_true_is_false. intros [E _]%ready_after_failure; [congruence|done..].
  - rewrite failing_reset by done. split; [by apply ready_stays|].
    destruct (ci_idw _ _ Hinv Hst) as (_ & Hd & Hx). specialize (Hx Hw).
    unfold content. rewrite !word_next by auto. unfold s'. simpl. rewrite Hcm.
    split; [done|]. rewrite input_ready, Hix, Hx by (by rewrite ?Hix || by apply sel_not_locked). done.
Qed.

(** Without a new one the committed frame stays valid only while a buffer is available. *)
Lemma com_kept :
  commit_dbl_bufs (arb_o n c s) = false → com s' = true → arb_locked s' = false →
  sel_state (arb_st s) ∧ arb_locked s = false ∧ com s = true ∧ cmd_lock (ci_hw_cmd c) = false ∧
  curr s' = curr s.
Proof using Hn Hinv Hok.
  intros Hcm Hc Hnl.
  assert (Hcl : frame_valid_com_clear (arb_o n c s) = false ∧ com s = true).
  { unfold s' in Hc. simpl in Hc. unfold arb_o in *. rewrite fsm_set, Hcm in Hc by apply arb_par.
    by destruct (frame_valid_com_clear _). }
  destruct Hcl as [Hcl Hcs]. apply bool_decide_eq_false in Hnl.
  assert (Hls : arb_locked s = false).
  { apply not_true_is_false. intros Hls%locked_st.
    destruct (fsm_unlock (arb_st s) (arb_in n c s) arb_par Hls) as [Hnx Hcl2].
    unfold arb_o in Hcl. rewrite Hcl2 in Hcl. destruct Hnl. unfold s'. simpl. rewrite Hnx. simpl in *.
    by rewrite Hcl. }
  destruct (ci_com _ _ Hinv Hcs Hls) as [Hs _].
  assert (Hl : cmd_lock (ci_hw_cmd c) = false).
  { apply not_true_is_false. intros Hl. destruct Hnl. by apply fsm_sel_locks; [apply arb_par|..]. }
  assert (Hc' : curr s' = curr s) by (unfold s'; simpl; by rewrite Hcm).
  exact (conj Hs (conj Hls (conj Hcs (conj Hl Hc')))).
Qed.

Lemma com_kept_avail :
  commit_dbl_bufs (arb_o n c s) = false → com s' = true → arb_locked s' = false →
  select_buf_avail n c s = true.
Proof using Hn Hinv Hok.
  intros Hcm Hc Hnl. destruct (com_kept Hcm Hc Hnl) as (Hs & _ & Hcs & Hl & _).
  destruct (fsm_keep _ _ arb_par Hs) as [Hl'|Ha]; [|simpl in Hl'; congruence|done].
  unfold s' in Hc. simpl in Hc. unfold arb_o in *. rewrite fsm_set, Hcm in Hc by apply arb_par.
  by destruct (frame_valid_com_clear _).
Qed.

Lemma com_next : com s' = true → arb_locked s' = false → sel_state (arb_st s') ∧ com_phase s' m'.
Proof using Hn Hinv Hok.
  intros Hc Hnl. destruct (commit_dbl_bufs (arb_o n c s)) eqn:Hcm.
  { destruct (arb_commit_next Hcm) as (? & ? & _). done. }
  destruct (com_kept Hcm Hc Hnl) as (Hs & Hls & Hcs & Hl & Hc').
  pose proof (com_kept_avail Hcm Hc Hnl) as Ha. destruct (ci_com _ _ Hinv Hcs Hls) as [_ Hp].
  split; [by apply fsm_sel_stays; [apply arb_par|..]|].
  assert (Hnn : ¬ none_ready s) by (intros Hx%not_selected; simpl in Ha; congruence).
  destruct (ci_idx _ _ Hinv) as [Hi _]. unfold com_phase in *. rewrite Hc'.
  destruct (all_failed c) eqn:Hf.
  - rewrite failing_next by done. destruct (m_failing m) as [|[|[|k]]] eqn:Hm; simpl; [| |by destruct Hnn|done].
    + split; [|by apply none_ready_after_failure]. destruct Hp as [Hr _].
      apply not_true_is_false. intros [E _]%ready_after_failure; [congruence|done..].
    + intros i Hii. apply not_true_is_false. intros [_ E]%ready_after_failure; [|done..].
      destruct Hp as [_ Hp]. by apply Hnn, Hp.
  - rewrite failing_reset by done. destruct ok_parts as (_ & Hhold & _).
    destruct (m_failing m) as [|[|[|k]]] eqn:Hm; [|by rewrite Hhold in Hf by auto|by rewrite Hhold in Hf by auto|done].
    destruct Hp as [Hr Hco]. split; [by apply ready_stays|].
    unfold content. rewrite !word_next by auto. unfold s'. simpl. rewrite Hcm. done.
Qed.

Lemma validated_next : arb_st s' = s_arb_validated → com s' = true ∧ curr s' = sreg s'.
Proof using Hn Hinv Hok.
  intros Hst. change (sreg s') with (select_buf_index n c s).
  destruct (fsm_validated _ _ arb_par Hst) as [Hcm|(Hs & Hch & Hcm & Hcl)].
  - by destruct (arb_commit_next Hcm) as (_ & _ & ? & _ & ?).
  - destruct (ci_validated _ _ Hinv Hs) as [Hc Hcur]. unfold s'. simpl. unfold arb_o.
    rewrite fsm_set, Hcm, Hcl by apply arb_par. split; [done|]. by rewrite (index_sreg Hch).
Qed.

Lemma off_next : m_offered m' = true → sel_state (arb_st s') ∧ com s' = true.
Proof using Hn Hinv Hok.
  unfold m'. simpl. rewrite !andb_true_iff, !negb_true_iff. intros ((Hv & Hnl) & Hl).
  unfold tran_frame_valid, validated_buffer in Hv. rewrite Hnl, orb_false_r in Hv.
  apply andb_prop in Hv as [Hr Hc]. destruct (ci_idx _ _ Hinv) as [Hi _]. rewrite avail_ready in Hr by done.
  destruct (ci_com _ _ Hinv Hc Hnl) as [Hs _].
  assert (Ha : select_buf_avail n c s = true).
  { destruct (select_buf_avail n c s) eqn:E; [done|]. apply not_selected in E. by rewrite E in Hr. }
  split; [by apply fsm_sel_stays; [apply arb_par|..]|]. unfold s'. simpl. unfold arb_o.
  rewrite (fsm_no_clear _ _ arb_par Hs Ha). by destruct (frame_valid_com_set _).
Qed.

Lemma ctl_inv_next :
  match ci_bus c with Some x => access_ok x = true | None => True end → ctl_inv s' m'.
Proof using Hn Hinv Hok.
  intros Hacc. constructor.
  - unfold s'. simpl. by rewrite length_imap, (ci_len _ _ Hinv).
  - intros i Hi. by apply plain_next.
  - unfold m', s'. simpl. by intros v ->.
  - unfold s'. simpl. destruct (ci_idx _ _ Hinv). pose proof index_range. split; [by destruct (commit_dbl_bufs _)|done].
  - apply tran_next.
  - apply sel_next.
  - apply ffw_next.
  - apply idw_next.
  - apply com_next.
  - apply validated_next.
  - apply off_next.
  - unfold m', mon_next, m_failing. destruct (all_failed c); lia.
Qed.

End Cycle.

(** *** Runs *)

Lemma txt_init rams p i ram : rams !! i = Some ram → txt (tx_init rams p) i = txtb_init ram 0.
Proof. intros Hr. unfold txt. simpl. by rewrite list_lookup_fmap, Hr. Qed.

Lemma ctl_inv_init rams p :
  length rams = n → Forall (λ ram, length ram = C_TXT_BUF_DEPTH) rams → ctl_inv (tx_init rams p) mon_init.
Proof using Hn.
  intros Hlen Hall.
  assert (Hb : ∀ i, (i < n)%nat → ∃ ram, length ram = C_TXT_BUF_DEPTH ∧ txt (tx_init rams p) i = txtb_init ram 0).
  { intros i Hi. destruct (lookup_lt_is_Some_2 rams i) as [ram Hr]; [lia|]. exists ram.
    split; [by eapply (Forall_lookup_1 _ _ _ _ Hall)|by apply txt_init]. }
  constructor; try done.
  - simpl. by rewrite length_fmap.
  - intros i Hi. destruct (Hb i Hi) as (ram & Hl & ->). by constructor.
  - simpl. lia.
  - intros i Hi. by destruct (Hb i Hi) as (ram & _ & ->).
  - by intros [? _].
  - simpl. lia.
Qed.

(** The state and the monitor after some cycles. *)
Fixpoint mon_after (ins : list cycle_in) s m : tx_mon :=
  match ins with
  | [] => m
  | c :: ins => mon_after ins (tx_tick n c s) (mon_next c s m)
  end.

Lemma run_inv pre post s m :
  ctl_inv s m → conforms n (pre ++ post) s m = true → accesses_ok pre →
  ctl_inv (tx_cycles n pre s) (mon_after pre s m) ∧
  conforms n post (tx_cycles n pre s) (mon_after pre s m) = true.
Proof using Hn.
  revert s m. induction pre as [|c pre IH]; intros s m Hi Hc Ha; [done|].
  simpl in Hc. apply andb_prop in Hc as [Hok Hc]. apply Forall_cons in Ha as [Hx Ha].
  apply IH; [|done|done]. by apply ctl_inv_next.
Qed.

End Inv.
