(* ===== verification/TxLive.v ===== *)
(** * A ready buffer is offered for transmission

    Liveness of the TX arbitrator of TxArb: when nothing disturbs it (no access of the bus, no command of
    the protocol control, no bus-off, no time-triggered transmission) it offers the ready
    buffer with the highest priority after 12 clock cycles at the latest, from every state that
    it can reach.  The measure is the number of words of metadata still to be read. *)

From Stdlib Require Import ZArith Lia.
From stdpp Require Import base numbers list sets.
From S2P Require Import Prelude TxtBuf TxArb TxPrio TxFsm TxInv.

#[local] Open Scope Z_scope.

(** A cycle in which nothing happens but the work of the arbitrator. *)
Definition quiet (c : cycle_in) : bool :=
  match ci_bus c with None => true | Some _ => false end &&
  negb (cmd_lock (ci_hw_cmd c)) && negb (unlock_cmd c) && negb (all_failed c) && negb (ci_tttm c).

(** The cycles to the end of the validation. *)
Definition rank (st : t_tx_arb_state) (wait : bool) : nat :=
  match st, wait with
  | s_arb_idle, _ => 11
  | s_arb_sel_low_ts, true => 10 | s_arb_sel_low_ts, false => 9
  | s_arb_sel_upp_ts, true => 8 | s_arb_sel_upp_ts, false => 7
  | s_arb_sel_ftw, true => 6 | s_arb_sel_ftw, false => 5
  | s_arb_sel_ffw, true => 4 | s_arb_sel_ffw, false => 3
  | s_arb_sel_idw, true => 2 | s_arb_sel_idw, false => 1
  | s_arb_validated, _ => 0
  | s_arb_locked, _ => 12
  end.

(** The rank decreases, or the validation starts again. *)
Lemma rank_step st f :
  fi_mismatch f = false → fi_lock f = false → fi_avail f = true → fi_ts_valid f = true →
  st ≠ s_arb_locked →
  arb_next_state st f ≠ s_arb_locked ∧
  rank (arb_next_state st f) (fsm_wait_state_d (arb_out st f)) =
    if fi_changed f && negb (bool_decide (st = s_arb_idle)) then 10%nat else (rank st (fi_wait f) - 1)%nat.
Proof.
  destruct f as [av ch ts lk un mm wt]. simpl. intros -> -> -> -> Hst.
  destruct st, ch, wt; try done; by vm_compute.
Qed.

Section Live.
Context (n : nat).
Hypothesis Hn : (2 <= n <= 8)%nat.

Abbreviation curr s := (curr_txtb_index_i (tx_arb s)).
Abbreviation arb_st s := (arb_curr_state (tx_arb s)).
Abbreviation arb_wait s := (fsm_wait_state_q (tx_arb s)).

(** Two states with the same buffers ready and the same priorities select the same buffer. *)
Definition same_choice (s s' : tx_rtl) : Prop :=
  tx_priority s' = tx_priority s ∧
  ∀ i, (i < n)%nat → txt_curr_state (txt s' i) = txt_curr_state (txt s i).

Lemma select_scan c s m :
  ctl_inv n s m → cycle_ok n c s m = true →
  (if select_buf_avail n c s then Some (select_buf_index n c s) else None) =
  scan (mr_tx_priority s) (λ i, ready (txt s i)) (seq 0 n).
Proof using Hn.
  intros Hi Hok. destruct (select_buf_avail n c s) eqn:Ha.
  - destruct (selected n Hn c s m Hi Hok Ha) as [Hr _].
    pose proof (decoder_valid n _ _ Hn Ha) as (_ & _ & Hb). fold (select_buf_index n c s) in Hb.
    pose proof (index_range n Hn c s) as Hk. pose proof (scan_best (mr_tx_priority s) (λ i, ready (txt s i)) n 0) as Hs.
    assert (Hbest : best_in (mr_tx_priority s) (λ i, ready (txt s i)) 0 n (select_buf_index n c s)).
    { split_and!; [lia|done|done|]. intros j Hj Hrj. unfold beats in *.
      specialize (Hb j Hj). rewrite (avail_ready n c s m) in Hb by (done || lia). specialize (Hb Hrj).
      unfold mr_tx_priority_txbbm in Hb. by rewrite (no_txbbm n Hn c s m Hok), !andb_false_r in Hb. }
    destruct (scan _ _ _) as [k|]; [f_equal; by eapply best_in_unique|]. rewrite Hs in Hr by lia. done.
  - apply (not_selected n Hn c s m Hi) in Ha. pose proof (scan_best (mr_tx_priority s) (λ i, ready (txt s i)) n 0) as Hs.
    destruct (scan _ _ _) as [k|]; [|done]. destruct Hs as (Hk & Hr & _). rewrite Ha in Hr by lia. done.
Qed.

Lemma scan_ext (p p' : nat → Z) (ok ok' : nat → bool) (l : list nat) :
  (∀ i, i ∈ l → p' i = p i ∧ ok' i = ok i) → scan p' ok' l = scan p ok l.
Proof.
  induction l as [|k l IH]; intros He; [done|]. simpl. rewrite IH by set_solver.
  destruct (He k ltac:(set_solver)) as [-> ->].
  pose proof (λ j, He j) as Hj. assert (Hin : ∀ j, scan p ok l = Some j → j ∈ l).
  { clear. induction l as [|k l IH]; intros j; [done|]. simpl.
    destruct (scan p ok l) as [j'|]; repeat case_match; intros [= <-]; set_solver. }
  destruct (scan p ok l) as [j|]; [|done]. by rewrite (proj1 (Hj j ltac:(set_solver))).
Qed.

Lemma same_scan s s' :
  same_choice s s' →
  scan (mr_tx_priority s') (λ i, ready (txt s' i)) (seq 0 n) = scan (mr_tx_priority s) (λ i, ready (txt s i)) (seq 0 n).
Proof.
  intros [Hp Hs]. apply scan_ext. intros i Hi. apply elem_of_seq in Hi. unfold mr_tx_priority, ready. rewrite Hp.
  by rewrite Hs by lia.
Qed.

(** A quiet cycle without a pending command leaves the buffers. *)
Lemma quiet_same c s m :
  ctl_inv n s m → cycle_ok n c s m = true → quiet c = true → m_cmd m = None →
  same_choice s (tx_tick n c s) ∧ m_cmd (mon_next c s m) = None.
Proof using Hn.
  intros Hi Hok Hq Hc. unfold quiet in Hq. rewrite !andb_true_iff, !negb_true_iff in Hq.
  destruct Hq as ((((Hb & Hl) & Hu) & Hf) & _).
  assert (Hbus : ci_bus c = None) by by destruct (ci_bus c).
  split; [split|]; [simpl; unfold reg_write; by rewrite Hbus| |simpl; unfold reg_write; by rewrite Hbus].
  intros i Hin. rewrite (txt_next n Hn c s m) by done. unfold sw_cmd, cmd_bit, buf_next. rewrite Hc, Hf, Hl.
  unfold unlock_cmd in Hu. rewrite !orb_false_iff in Hu. destruct Hu as (((-> & ->) & ->) & ->).
  destruct (txt_curr_state (txt s i)); try done; by destruct (i =? curr s)%nat.
Qed.

Lemma quiet_arb c s m :
  ctl_inv n s m → cycle_ok n c s m = true → quiet c = true → select_buf_avail n c s = true →
  arb_locked s = false →
  arb_locked (tx_tick n c s) = false ∧
  rank (arb_st (tx_tick n c s)) (arb_wait (tx_tick n c s)) =
    if select_index_changed n c s && negb (bool_decide (arb_st s = s_arb_idle)) then 10%nat
    else (rank (arb_st s) (arb_wait s) - 1)%nat.
Proof using Hn.
  intros Hi Hok Hq Ha Hl%bool_decide_eq_false. unfold quiet in Hq. rewrite !andb_true_iff, !negb_true_iff in Hq.
  destruct Hq as ((((_ & Hlk) & _) & _) & Ht).
  destruct (rank_step (arb_st s) (arb_in n c s)) as [Hnl Hr]; try done.
  - by apply (arb_par n Hn c s m).
  - simpl. unfold timestamp_valid. by rewrite Ht.
  - split; [by apply bool_decide_eq_false|]. exact Hr.
Qed.

(** After one quiet cycle the selected index no longer changes. *)
Lemma quiet_cycles ins s m k :
  ctl_inv n s m → conforms n ins s m = true → Forall (λ c, quiet c = true) ins → m_cmd m = None →
  arb_locked s = false → scan (mr_tx_priority s) (λ i, ready (txt s i)) (seq 0 n) = Some k →
  select_buf_index_reg (tx_arb s) = k → (rank (arb_st s) (arb_wait s) <= length ins)%nat →
  let s' := tx_cycles n ins s in
  arb_st s' = s_arb_validated ∧ select_buf_index_reg (tx_arb s') = k ∧ same_choice s s'.
Proof using Hn.
  revert s m. induction ins as [|c ins IH]; intros s m Hi Hco Hq Hc Hl Hk Hreg Hr.
  - simpl in *. split_and!; [|done|done]. apply bool_decide_eq_false in Hl.
    destruct (arb_st s), (arb_wait s); simpl in Hr; try lia; done.
  - simpl in Hco. apply andb_prop in Hco as [Hok Hco]. apply Forall_cons in Hq as [Hqc Hq].
    destruct (quiet_same c s m Hi Hok Hqc Hc) as [Hsame Hc'].
    pose proof (select_scan c s m Hi Hok) as Hsel. rewrite Hk in Hsel.
    destruct (select_buf_avail n c s) eqn:Ha; [|done]. injection Hsel as Hix.
    assert (Hch : select_index_changed n c s = false).
    { unfold select_index_changed. by rewrite Hix, Hreg, Nat.eqb_refl. }
    destruct (quiet_arb c s m Hi Hok Hqc Ha Hl) as [Hl' Hr']. rewrite Hch in Hr'. simpl in Hr'.
    assert (Hi' : ctl_inv n (tx_tick n c s) (mon_next c s m)).
    { apply ctl_inv_next; try done. unfold quiet in Hqc. by destruct (ci_bus c). }
    destruct (IH (tx_tick n c s) (mon_next c s m)) as (Hv & Hreg' & Hsame'); try done.
    + by rewrite (same_scan _ _ Hsame).
    + simpl in Hr |- *. simpl in Hr'. lia.
    + split_and!; [done|done|]. destruct Hsame as [Hp1 Hs1], Hsame' as [Hp2 Hs2].
      split; [by rewrite <- Hp1|]. intros i Hin. rewrite <- Hs1 by done. by apply Hs2.
Qed.

Lemma same_choice_trans s1 s2 s3 : same_choice s1 s2 → same_choice s2 s3 → same_choice s1 s3.
Proof.
  intros [Hp1 Hs1] [Hp2 Hs2]. split; [by rewrite Hp2|]. intros i Hi. by rewrite Hs2, Hs1.
Qed.

Lemma quiet_accesses ins : Forall (λ c, quiet c = true) ins → accesses_ok ins.
Proof.
  intros Hq. eapply Forall_impl; [exact Hq|]. intros c Hc. unfold quiet in Hc. by destruct (ci_bus c).
Qed.

Lemma quiet_keeps ins s m :
  ctl_inv n s m → conforms n ins s m = true → Forall (λ c, quiet c = true) ins → m_cmd m = None →
  same_choice s (tx_cycles n ins s).
Proof using Hn.
  revert s m. induction ins as [|c ins IH]; intros s m Hi Hco Hq Hc; [done|].
  simpl in Hco. apply andb_prop in Hco as [Hok Hco]. apply Forall_cons in Hq as [Hqc Hq].
  destruct (quiet_same c s m Hi Hok Hqc Hc) as [Hsame Hc'].
  eapply same_choice_trans; [done|]. eapply IH; try done.
  apply ctl_inv_next; try done. unfold quiet in Hqc. by destruct (ci_bus c).
Qed.

Lemma quiet_not_locked c s m :
  ctl_inv n s m → cycle_ok n c s m = true → quiet c = true → arb_locked s = false →
  arb_locked (tx_tick n c s) = false.
Proof using Hn.
  intros Hi Hok Hq Hl%bool_decide_eq_false. apply bool_decide_eq_false. intros E.
  apply fsm_locked in E as [E|[_ E]]; [done| |by apply (arb_par n Hn c s m)].
  unfold quiet in Hq. rewrite !andb_true_iff, !negb_true_iff in Hq. simpl in E.
  destruct Hq as ((((_ & Hlk) & _) & _) & _). congruence.
Qed.

(** After 12 quiet cycles the validation has ended. *)
Lemma quiet_validates ins s m :
  ctl_inv n s m → conforms n ins s m = true → Forall (λ c, quiet c = true) ins → (12 <= length ins)%nat →
  arb_locked s = false → (∃ i, (i < n)%nat ∧ ready (txt (tx_cycles n ins s) i) = true) →
  let s' := tx_cycles n ins s in
  arb_st s' = s_arb_validated ∧
  scan (mr_tx_priority s') (λ i, ready (txt s' i)) (seq 0 n) = Some (select_buf_index_reg (tx_arb s')).
Proof using Hn.
  intros Hi Hco Hq Hlen Hl Hr. destruct ins as [|c0 [|c1 ins]]; [simpl in Hlen; lia..|].
  simpl in Hco. rewrite !andb_true_iff in Hco. destruct Hco as (Hok0 & Hok1 & Hco).
  apply Forall_cons in Hq as [Hq0 Hq]. pose proof Hq as Hq'. apply Forall_cons in Hq' as [Hq1 Hq2].
  set (s1 := tx_tick n c0 s) in *. set (m1 := mon_next c0 s m) in *.
  assert (Hi1 : ctl_inv n s1 m1).
  { apply ctl_inv_next; try done. unfold quiet in Hq0. by destruct (ci_bus c0). }
  assert (Hc1 : m_cmd m1 = None).
  { unfold m1, mon_next, reg_write, quiet in *. simpl. by destruct (ci_bus c0). }
  assert (Hl1 : arb_locked s1 = false) by by eapply quiet_not_locked.
  assert (Hco1 : conforms n (c1 :: ins) s1 m1 = true) by (simpl; by rewrite Hok1).
  pose proof (quiet_keeps _ _ _ Hi1 Hco1 Hq Hc1) as Hsame.
  change (tx_cycles n (c0 :: c1 :: ins) s) with (tx_cycles n (c1 :: ins) s1) in *.
  (* the choice is made in [s1] *)
  assert (∃ k, scan (mr_tx_priority s1) (λ i, ready (txt s1 i)) (seq 0 n) = Some k) as [k Hk].
  { pose proof (scan_best (mr_tx_priority s1) (λ i, ready (txt s1 i)) n 0) as Hs.
    destruct (scan _ _ _) as [k|]; [eauto|]. destruct Hr as (i & Hin & Hri). unfold ready in Hri.
    rewrite (proj2 Hsame) in Hri by done. specialize (Hs i ltac:(lia)). unfold ready in Hs. congruence. }
  pose proof (select_scan c1 s1 m1 Hi1 Hok1) as Hsel. rewrite Hk in Hsel.
  destruct (select_buf_avail n c1 s1) eqn:Ha; [|done]. injection Hsel as Hix.
  destruct (quiet_arb c1 s1 m1 Hi1 Hok1 Hq1 Ha Hl1) as [Hl2 Hr2].
  destruct (quiet_same c1 s1 m1 Hi1 Hok1 Hq1 Hc1) as [Hs12 Hc2].
  destruct (quiet_cycles ins (tx_tick n c1 s1) (mon_next c1 s1 m1) k) as (Hv & Hreg & Hs); try done.
  - apply ctl_inv_next; try done. unfold quiet in Hq1. by destruct (ci_bus c1).
  - by rewrite (same_scan _ _ Hs12).
  - rewrite Hr2. simpl in Hlen. assert (rank (arb_st s1) (arb_wait s1) <= 11)%nat.
    { apply bool_decide_eq_false in Hl1. destruct (arb_st s1), (arb_wait s1); simpl; lia || done. }
    case_match; lia.
  - simpl. split; [done|]. rewrite Hreg. rewrite (same_scan (tx_tick n c1 s1)) by done.
    by rewrite (same_scan _ _ Hs12).
Qed.

End Live.

(** C5: A ready buffer is offered within 12 clock cycles.  In every state that the TXT buffers and the
    arbitrator can reach with a conforming environment and in which no transmission goes on: after 12 or
    more cycles without disturbance, if any buffer is ready then a frame is offered to the protocol
    control, from the first of the ready buffers with the highest priority, and the metadata and the
    identifier offered are those in the memory of this buffer. *)
Theorem ready_buffer_offered n rams p pre q c :
  (2 <= n <= 8)%nat → length rams = n → Forall (λ ram, length ram = C_TXT_BUF_DEPTH) rams →
  conforms n (pre ++ q) (tx_init rams p) mon_init = true → accesses_ok pre →
  Forall (λ c, quiet c = true) q → (12 <= length q)%nat →
  let s := tx_cycles n pre (tx_init rams p) in
  let s' := tx_cycles n q s in
  arb_locked s = false → (∃ i, (i < n)%nat ∧ ready (txt s' i) = true) →
  tran_frame_valid c s' = true ∧
  scan (mr_tx_priority s') (λ i, ready (txt s' i)) (seq 0 n) = Some (curr_txtb_index_i (tx_arb s')) ∧
  content s' (curr_txtb_index_i (tx_arb s')).
Proof.
  intros Hn Hlen Hall Hco Hacc Hq H12 s s' Hl Hr. pose proof (ctl_inv_init n Hn rams p Hlen Hall) as H0.
  destruct (run_inv n Hn pre q _ _ H0 Hco Hacc) as [Hi Hcq]. fold s in Hi, Hcq.
  destruct (quiet_validates n Hn q s _ Hi Hcq Hq H12 Hl Hr) as [Hv Hs]. fold s' in Hv, Hs.
  destruct (run_inv n Hn q [] s (mon_after n pre (tx_init rams p) mon_init) Hi) as [Hi' _];
    [by rewrite app_nil_r|by apply quiet_accesses|]. fold s' in Hi'.
  destruct (ci_validated _ _ _ Hi' Hv) as [Hc Hcur]. rewrite <- Hcur in Hs.
  assert (Hsel : sel_state (arb_curr_state (tx_arb s'))) by by rewrite Hv.
  destruct (ci_com _ _ _ Hi' Hc (sel_not_locked _ Hsel)) as [_ Hp].
  pose proof (ci_sel _ _ _ Hi' Hsel) as Hrd. rewrite <- Hcur in Hrd.
  pose proof (scan_best (mr_tx_priority s') (λ i, ready (txt s' i)) n 0) as Hb. rewrite Hs in Hb.
  destruct Hb as (Hk & Hrk & _). rewrite Hrk in Hrd. symmetry in Hrd. apply Nat.eqb_eq in Hrd.
  unfold com_phase in Hp. rewrite Hrd in Hp. split_and!; [|done|apply Hp].
  unfold tran_frame_valid, validated_buffer. rewrite (avail_ready n c s' _ Hi'), Hrk, Hc by lia. done.
Qed.


(** The run of a frame in the second of two buffers. *)
Lemma ready_buffer_offered_witness :
  let ins := (λ x, mkcycle no_hw_cmd 0 false false false false true false false 0 (λ _, false) (Some x)) <$>
    [bus_wr 0x200 0x2; bus_wr 0x204 0x4440000; bus_wr 0x210 0xBBAA; bus_wr 0x74 0x202] in
  let wait := mkcycle no_hw_cmd 0 false false false false true false false 0 (λ _, false) None in
  let init := tx_init (replicate 2 (replicate 21 0)) 0x01 in
  let s' := tx_cycles 2 (replicate 12 wait) (tx_cycles 2 ins init) in
  tran_frame_valid wait (tx_cycles 2 ins init) = false ∧
  tran_frame_valid wait s' = true ∧ com_md (tx_arb s') = mkmd 2 false false false false.
Proof.
  intros ins wait init s'. split; [by vm_compute|].
  destruct (ready_buffer_offered 2 (replicate 2 (replicate 21 0)) 0x01 ins (replicate 12 wait) wait
    ltac:(lia) eq_refl ltac:(by repeat constructor) ltac:(by vm_compute) ltac:(by repeat constructor)
    ltac:(by repeat constructor) ltac:(simpl; lia) ltac:(by vm_compute)
    ltac:(exists 1%nat; split; [lia|by vm_compute])) as (Hv & _ & Hc).
  split; [exact Hv|]. refine (eq_trans (proj1 Hc) _). by vm_compute.
Defined.
