(* ===== verification/TxCore.v ===== *)
(** * The transmit side of the core, as the driver sees it

    The states of the TXT buffers ([src/src/txt_buffer/txt_buffer_fsm.vhd]), the
    validation of the buffer with the highest priority
    ([src/src/tx_arbitrator/]) and the registers through which a
    driver sees and commands them.  The two abort states are left out (they are
    entered by a command that no driver here gives), as are parity errors.  TxRefine
    proves that the design, cycle by cycle, is an instance of these steps. *)

From Stdlib Require Import ZArith Lia.
From stdpp Require Import base numbers list strings sets.
From S2P Require Import Prelude LinuxDefs World Kregs Base RxFifo BaseTx RoundTrip.

#[local] Open Scope Z_scope.

(** ** State *)

Inductive txt_state := Ety | Rdy | Tran | Tok | Err.

#[export] Instance txt_state_eq_dec : EqDecision txt_state.
Proof. solve_decision. Defined.

(** The code of a state in TX_STATUS. *)
Definition txt_code (st : txt_state) : Z :=
  match st with Ety => 8 | Rdy => 1 | Tran => 2 | Tok => 4 | Err => 6 end.

(** A frame in a buffer: format word, identifier word, payload words. *)
Definition txt_frame : Type := Z * Z * list Z.

(** [d_sent] lists the frames sent so far; [d_failed] records that some
    transmission was given up; [d_val] is the validated buffer, whose metadata the arbitrator
    has read and offers to the protocol control. *)
Record txdev := mkdev {
  d_n : Z;
  d_st : Z → txt_state;
  d_prio : Z;
  d_mem : Z → Z;
  d_sent : list txt_frame;
  d_failed : bool;
  d_val : option Z;
}.

Definition upd {A} (f : Z → A) (i : Z) (x : A) : Z → A := λ j, if j =? i then x else f j.

(** The frame in the memory of a buffer; [base] is the address of the core. *)
Definition mem_frame (base : Z) (mem : Z → Z) (b : Z) : txt_frame :=
  let at_ off := mem (base + ((b + 1) * 0x100 + off)) in
  (at_ CTUCANFD_FRAME_FORMAT_W, at_ CTUCANFD_IDENTIFIER_W,
   (λ j, at_ (CTUCANFD_DATA_1_4_W + 4 * j)) <$>
     seqZ 0 (nwords (hw_payload (at_ CTUCANFD_FRAME_FORMAT_W)))).

(** The three bits of priority of a buffer. *)
Definition prio3 (p b : Z) : Z := Z.land (Z.shiftr p (4 * b)) 0x7.

(** ** Steps of the core *)

Section Core.
Context (base : Z).

Inductive core_step (d : txdev) : txdev → Prop :=
  (** the ready buffer with the highest priority is validated *)
  | core_validate b :
      0 <= b < d_n d → d_st d b = Rdy → (∀ b', 0 <= b' < d_n d → d_st d b' ≠ Tran) →
      (∀ b', 0 <= b' < d_n d → d_st d b' = Rdy → prio3 (d_prio d) b' <= prio3 (d_prio d) b) →
      core_step d (mkdev (d_n d) (d_st d) (d_prio d) (d_mem d) (d_sent d) (d_failed d) (Some b))
  (** the validated buffer is locked for transmission; meanwhile another one with a higher priority
      may have become ready *)
  | core_lock b :
      0 <= b < d_n d → d_val d = Some b → d_st d b = Rdy → (∀ b', 0 <= b' < d_n d → d_st d b' ≠ Tran) →
      core_step d
        (mkdev (d_n d) (upd (d_st d) b Tran) (d_prio d) (d_mem d) (d_sent d) (d_failed d) None)
  (** it is sent *)
  | core_valid b :
      0 <= b < d_n d → d_st d b = Tran →
      core_step d (mkdev (d_n d) (upd (d_st d) b Tok) (d_prio d) (d_mem d)
                     (d_sent d ++ [mem_frame base (d_mem d) b]) (d_failed d) None)
  (** the retransmit limit is reached *)
  | core_fail b :
      0 <= b < d_n d → d_st d b = Tran →
      core_step d (mkdev (d_n d) (upd (d_st d) b Err) (d_prio d) (d_mem d) (d_sent d) true None)
  (** arbitration is lost or an error occurs: it will be tried again *)
  | core_retry b :
      0 <= b < d_n d → d_st d b = Tran →
      core_step d
        (mkdev (d_n d) (upd (d_st d) b Rdy) (d_prio d) (d_mem d) (d_sent d) (d_failed d) None)
  (** bus-off: all pending buffers fail *)
  | core_bus_off :
      core_step d (mkdev (d_n d)
        (λ b, match d_st d b with Rdy | Tran => Err | st => st end)
        (d_prio d) (d_mem d) (d_sent d) true None).

(** ** Register accesses *)

(** A command (bit 0: set empty, bit 1: set ready) for the buffers whose bit is set. *)
Definition command (v b : Z) (st : txt_state) : txt_state :=
  if Z.testbit v (b + 8) then
    match st with
    | Ety => if Z.testbit v 1 then Rdy else Ety
    | Tok | Err => if Z.testbit v 1 then Rdy else if Z.testbit v 0 then Ety else st
    | _ => st
    end
  else st.

(** The memory of a buffer that is ready or in transmission cannot be written. *)
Definition accessible (d : txdev) (a : Z) : bool :=
  let b := (a - base) / 0x100 - 1 in
  negb ((0 <=? b) && (b <? d_n d) && match d_st d b with Rdy | Tran => true | _ => false end).

Definition dev_ev (d : txdev) (e : event) (d' : txdev) : Prop :=
  match e with
  | EvLoad a v =>
      d' = d ∧
      (a = base + CTUCANFD_TX_STATUS →
       ∀ b, 0 <= b < d_n d → Z.land (Z.shiftr v (4 * b)) 0xF = txt_code (d_st d b)) ∧
      (a = base + CTUCANFD_STATUS →
       (txnf v = true ↔ ∃ b, 0 <= b < d_n d ∧ d_st d b = Ety))
  | EvStore a v =>
      d' = if a =? base + CTUCANFD_TX_COMMAND then
             mkdev (d_n d) (λ b, command v b (d_st d b)) (d_prio d) (d_mem d) (d_sent d) (d_failed d) (d_val d)
           else if a =? base + CTUCANFD_TX_PRIORITY then
             mkdev (d_n d) (d_st d) v (d_mem d) (d_sent d) (d_failed d) (d_val d)
           else mkdev (d_n d) (d_st d) (d_prio d)
                  (if accessible d a then upd (d_mem d) a v else d_mem d)
                  (d_sent d) (d_failed d) (d_val d)
  | _ => d' = d
  end.

(** A sequence of accesses, with steps of the core at any moment. *)
Inductive dev_run : txdev → list event → txdev → Prop :=
  | dr_nil d : dev_run d [] d
  | dr_core d d1 tr d2 : core_step d d1 → dev_run d1 tr d2 → dev_run d tr d2
  | dr_ev d e d1 tr d2 : dev_ev d e d1 → dev_run d1 tr d2 → dev_run d (e :: tr) d2.

Lemma dev_run_app_inv t1 t2 d d2 :
  dev_run d (t1 ++ t2) d2 → ∃ d1, dev_run d t1 d1 ∧ dev_run d1 t2 d2.
Proof.
  remember (t1 ++ t2) as tr eqn:E. intros Hr. revert t1 E.
  induction Hr as [d|d d1 tr d2 Hs Hr IH|d e d1 tr d2 He Hr IH]; intros t1 E.
  - symmetry in E. apply app_nil in E as [-> ->]. exists d. split; constructor.
  - destruct (IH _ E) as (d3 & H1 & H2). exists d3. split; [by econstructor|done].
  - destruct t1 as [|e1 t1]; simpl in E.
    + subst t2. exists d. split; [constructor|by econstructor].
    + injection E as <- ->. destruct (IH t1 eq_refl) as (d3 & H1 & H2).
      exists d3. split; [by econstructor|done].
Qed.

Lemma dev_run_app t1 t2 d d1 d2 : dev_run d t1 d1 → dev_run d1 t2 d2 → dev_run d (t1 ++ t2) d2.
Proof. induction 1; intros; [done|by econstructor; eauto|]. simpl. by econstructor; eauto. Qed.

(** The state is only seen through a property that the core maintains. *)
Lemma dev_run_cons_inv e tr d d2 :
  dev_run d (e :: tr) d2 → ∃ d0 d1, dev_run d [] d0 ∧ dev_ev d0 e d1 ∧ dev_run d1 tr d2.
Proof.
  remember (e :: tr) as t eqn:E. intros Hr.
  induction Hr as [d|d d1 t d2 Hs Hr IH|d e' d1 t d2 He Hr IH]; [done|..].
  - destruct (IH E) as (d3 & d4 & H3 & He & H4). exists d3, d4. split; [by econstructor|done].
  - injection E as -> ->. exists d, d1. split; [constructor|done].
Qed.

(** A call does not reach the core. *)
Lemma dev_run_call c r tr d d' : dev_run d (EvCall c r :: tr) d' → dev_run d tr d'.
Proof.
  intros (d0 & d1 & H0 & -> & H1)%dev_run_cons_inv. by apply (dev_run_app [] tr d d0).
Qed.

(** ** Well-behaved software *)

(** A command is only given to buffers that are neither ready nor in transmission. *)
Definition cmd_target (d : txdev) (v : Z) : Prop :=
  ∀ b, 0 <= b < d_n d → Z.testbit v (b + 8) = true → d_st d b ≠ Rdy ∧ d_st d b ≠ Tran.

(** Every command of a sequence of accesses, whatever the core does in between. *)
Definition cmds_ok (d : txdev) (tr : list event) : Prop :=
  ∀ t1 v t2 d1, tr = t1 ++ EvStore (base + CTUCANFD_TX_COMMAND) v :: t2 → dev_run d t1 d1 → cmd_target d1 v.

Lemma cmds_ok_app_inv t1 t2 d d1 : cmds_ok d (t1 ++ t2) → dev_run d t1 d1 → cmds_ok d1 t2.
Proof.
  intros Hok Hr u1 v u2 d2 -> Hr2. eapply (Hok (t1 ++ u1) v u2); [by rewrite <- app_assoc|].
  by eapply dev_run_app.
Qed.

Lemma cmds_ok_nil d : cmds_ok d [].
Proof. intros t1 v t2 d1 E _. by destruct t1. Qed.

Lemma cmds_ok_app t1 t2 d :
  cmds_ok d t1 → (∀ d1, dev_run d t1 d1 → cmds_ok d1 t2) → cmds_ok d (t1 ++ t2).
Proof.
  intros H1 H2 u1 v u2 d1 E Hr. apply app_eq_inv in E as [(k & -> & Ek)|(k & -> & E)].
  - destruct k as [|e k].
    + rewrite app_nil_r in *. simpl in Ek. by apply (H2 d1 Hr [] v u2 d1); [|constructor].
    + injection Ek as <- ->. by apply (H1 u1 v k d1).
  - apply dev_run_app_inv in Hr as (d0 & Hr1 & Hr2). by apply (H2 d0 Hr1 k v u2 d1).
Qed.

(** Accesses that are no commands. *)
Lemma cmds_ok_quiet d tr :
  Forall (λ e, match e with EvStore a _ => a ≠ base + CTUCANFD_TX_COMMAND | _ => True end) tr → cmds_ok d tr.
Proof.
  intros Hq t1 v t2 d1 -> _. apply Forall_app in Hq as [_ Hq]. apply Forall_cons in Hq as [Hq _]. by destruct Hq.
Qed.

End Core.
