(* ===== verification/TxRefine.v ===== *)
(** * The TX buffers and their arbitrator implement the core of TxCore

    A simulation: every run of the design of TxArb, with a protocol control and a bus that keep the
    rules of TxInv, is a run of [TxCore.dev_run] with the same accesses, and the frames that
    the arbitrator presents when a transmission ends successfully are the frames that the abstract core
    sends.  A cycle is at most three steps: the access of the bus (or, for a command, the access of
    the cycle before), the command of the protocol control and a new validated buffer. *)

From Stdlib Require Import ZArith Lia.
From stdpp Require Import base numbers list strings sets.
From S2P Require Import Prelude LinuxDefs World Kregs Base RxFifo BaseTx BaseRx RoundTrip TxCore TxtBuf TxArb TxPrio TxFsm TxInv.

#[local] Open Scope Z_scope.

(** ** Observations *)

(** A frame as the arbitrator presents it: metadata, identifier, data words. *)
Definition tran_frame : Type := tran_md * Z * list Z.

(** The number of data words for the metadata. *)
Definition md_words (md : tran_md) : nat :=
  Z.to_nat (nwords (if md_is_rtr md then 0
                    else if md_frame_type md then can_dlc2len (md_dlc md) else Z.min 8 (md_dlc md))).

Definition presented (s : tx_rtl) : tran_frame :=
  let a := tx_arb s in
  (com_md a, tran_identifier_com a,
   (λ j, word (txt s (curr_txtb_index_i a)) (4 + j)) <$> seq 0 (md_words (com_md a))).

(** The frame whose transmission ends successfully in this cycle. *)
Definition sent_now (c : cycle_in) (s : tx_rtl) : list tran_frame :=
  if in_progress (txt s (curr_txtb_index_i (tx_arb s))) && negb (all_failed c) &&
     negb (cmd_failed (ci_hw_cmd c)) && cmd_valid (ci_hw_cmd c)
  then [presented s] else [].

(** A transmission is given up in this cycle. *)
Definition failed_now (c : cycle_in) (s : tx_rtl) : bool := all_failed c || cmd_failed (ci_hw_cmd c).

(** The same fields of the words in a TXT buffer. *)
Definition frame_view (f : txt_frame) : tran_frame :=
  let '(ffw, idw, ws) := f in (md_of ffw, idw mod 2 ^ 29, ws).

Definition abs_st (st : t_txt_buf_state) : txt_state :=
  match st with
  | s_txt_empty => Ety
  | s_txt_ready => Rdy
  | s_txt_tx_prog => Tran
  | s_txt_ok => Tok
  | _ => Err
  end.

Lemma testbit_flag k w : 0 <= k → nz (FIELD_GET (BIT k) w) = Z.testbit w k.
Proof. apply nz_FIELD_GET_BIT. Qed.

(** The length that the metadata give is that of the format word. *)
Lemma md_words_of ffw : md_words (md_of ffw) = Z.to_nat (nwords (hw_payload ffw)).
Proof.
  assert (Hd : ffw_dlc ffw = ffw mod 2 ^ 4).
  { unfold ffw_dlc. change REG_FRAME_FORMAT_W_DLC with (GENMASK 3 0).
    rewrite FIELD_GET_GENMASK by lia. by rewrite Z.shiftr_0_r. }
  unfold md_words, hw_payload, ffw_rtr, ffw_fdf. simpl. rewrite Hd.
  by rewrite (testbit_flag 5), (testbit_flag 7) by done.
Qed.

Section Refine.
Context (base : Z) (n : nat).
Hypothesis Hn : (2 <= n <= 8)%nat.

Implicit Types (d : txdev) (s : tx_rtl) (m : tx_mon) (c : cycle_in).

Abbreviation curr s := (curr_txtb_index_i (tx_arb s)).
Abbreviation arb_st s := (arb_curr_state (tx_arb s)).
Abbreviation com s := (tran_frame_valid_com (tx_arb s)).
Abbreviation Zi i := (Z.of_nat i).

(** The address of word [w] of buffer [i]. *)
Definition word_addr (i w : nat) : Z := base + ((Zi i + 1) * 0x100 + 4 * Zi w).

(** The words of buffer [i]. *)
Definition same_words d s (i : nat) : Prop :=
  ∀ w, (w < C_TXT_BUF_DEPTH)%nat → d_mem d (word_addr i w) = word (txt s i) w.

(** The relation without the memory of the buffers that are not in transmission. *)
Record core_rel d s m : Prop := {
  cr_n : d_n d = Zi n;
  cr_st : ∀ i, (i < n)%nat → d_st d (Zi i) = abs_st (txt_curr_state (txt s i));
  cr_prio : d_prio d = tx_priority s;
  cr_val : com s = true → arb_locked s = false → m_failing m = 0%nat → d_val d = Some (Zi (curr s));
  cr_mem : ∀ i, (i < n)%nat → in_progress (txt s i) = true → same_words d s i }.

Record tx_rel d s m : Prop := {
  tr_inv : ctl_inv n s m;
  tr_core : core_rel d s m;
  tr_mem : ∀ i, (i < n)%nat → same_words d s i }.

(** The words that the arbitrator presents are the frame in the memory. *)
Lemma presented_view d s :
  same_words d s (curr s) → content s (curr s) →
  presented s = frame_view (mem_frame base (d_mem d) (Zi (curr s))).
Proof.
  intros Hw [Hmd Hid]. unfold presented, mem_frame, frame_view. set (i := curr s) in *.
  assert (Ha : ∀ w off, off = 4 * Zi w → (w < C_TXT_BUF_DEPTH)%nat →
    d_mem d (base + ((Zi i + 1) * 256 + off)) = word (txt s i) w) by (intros w off -> ?; by apply Hw).
  rewrite (Ha 0%nat CTUCANFD_FRAME_FORMAT_W), (Ha 1%nat CTUCANFD_IDENTIFIER_W) by (unfold C_TXT_BUF_DEPTH; done || lia).
  rewrite Hmd, Hid. f_equal. rewrite md_words_of. unfold seqZ. rewrite <- list_fmap_compose.
  apply list_fmap_ext. intros j k Hk. apply lookup_seq in Hk as [-> Hj]. simpl.
  set (f := word (txt s i) 0) in *. pose proof (hw_payload_range f). pose proof (nwords_bounds (hw_payload f)).
  symmetry. apply (Ha (4 + j)%nat); [unfold CTUCANFD_DATA_1_4_W; lia|].
  unfold C_TXT_BUF_DEPTH. destruct (ffw_fdf f); lia.
Qed.

(** *** The steps of the core in a cycle *)

Section Cycle.
Context (c : cycle_in) (s : tx_rtl) (m : tx_mon).
Hypothesis Hinv : ctl_inv n s m.
Hypothesis Hok : cycle_ok n c s m = true.

(** The state of buffer [i] after the command of the protocol control. *)
Definition hw_next (i : nat) : t_txt_buf_state :=
  buf_next (all_failed c) (i =? curr s)%nat false false (ci_hw_cmd c) (txt_curr_state (txt s i)).

(** What the command of the protocol control does to the abstract core. *)
Record hw_result (d d1 : txdev) : Prop := {
  hr_run : dev_run base d [] d1;
  hr_n : d_n d1 = d_n d;
  hr_prio : d_prio d1 = d_prio d;
  hr_mem : d_mem d1 = d_mem d;
  hr_st : ∀ i, (i < n)%nat → d_st d1 (Zi i) = abs_st (hw_next i);
  hr_sent : frame_view <$> d_sent d1 = (frame_view <$> d_sent d) ++ sent_now c s;
  hr_failed : failed_now c s = false → d_failed d = false → d_failed d1 = false;
  hr_val : all_failed c = false → arb_locked s = false → cmd_lock (ci_hw_cmd c) = false →
    d_val d1 = d_val d }.

Lemma step_run d d1 : core_step base d d1 → dev_run base d [] d1.
Proof. intros. eapply dr_core; [done|constructor]. Qed.

Lemma in_range i d : core_rel d s m → (i < n)%nat → 0 <= Zi i < d_n d.
Proof. intros [-> _ _ _ _] Hi. lia. Qed.

(** A buffer of the abstract core is one of the design. *)
Lemma abs_index d b : core_rel d s m → 0 <= b < d_n d → ∃ i, b = Zi i ∧ (i < n)%nat.
Proof. intros [-> _ _ _ _] Hb. exists (Z.to_nat b). lia. Qed.

Lemma abs_rdy d i : core_rel d s m → (i < n)%nat → d_st d (Zi i) = Rdy ↔ ready (txt s i) = true.
Proof using Hn Hinv Hok.
  intros Hc Hi. rewrite (cr_st _ _ _ Hc i Hi). unfold ready. rewrite bool_decide_eq_true.
  by destruct (txt_curr_state (txt s i)).
Qed.

Lemma abs_tran d i : core_rel d s m → (i < n)%nat → d_st d (Zi i) = Tran ↔ in_progress (txt s i) = true.
Proof using Hn Hinv Hok.
  intros Hc Hi. rewrite (cr_st _ _ _ Hc i Hi). unfold in_progress. rewrite bool_decide_eq_true.
  by destruct (txt_curr_state (txt s i)).
Qed.

(** Outside of a transmission no buffer is in progress. *)
Lemma not_locked_no_tran d :
  core_rel d s m → arb_locked s = false → ∀ b, 0 <= b < d_n d → d_st d b ≠ Tran.
Proof using Hn Hinv Hok.
  intros Hc Hl b Hb. destruct (abs_index _ _ Hc Hb) as (i & -> & Hi). rewrite abs_tran by done.
  intros Hp. destruct (ci_tran _ _ _ Hinv i Hi Hp). congruence.
Qed.

(** The states after a step for the current buffer. *)
Lemma upd_curr d st :
  core_rel d s m → (curr s < n)%nat → abs_st (hw_next (curr s)) = st → all_failed c = false →
  ∀ i, (i < n)%nat → upd (d_st d) (Zi (curr s)) st (Zi i) = abs_st (hw_next i).
Proof using Hn Hinv Hok.
  intros Hc Hcur Hst Hf i Hi. unfold upd. destruct (Z.eqb_spec (Zi i) (Zi (curr s))) as [E|E].
  - assert (i = curr s) as -> by lia. done.
  - rewrite (cr_st _ _ _ Hc i Hi). unfold hw_next. rewrite Hf.
    rewrite (proj2 (Nat.eqb_neq i (curr s))) by lia. by destruct (txt_curr_state (txt s i)).
Qed.

Lemma hw_lock d :
  core_rel d s m → all_failed c = false → cmd_lock (ci_hw_cmd c) = true → ready (txt s (curr s)) = true →
  ∃ d1, hw_result d d1.
Proof using Hn Hinv Hok.
  intros Hc Hf Hl Hr. destruct (lock_ready n Hn c s m Hinv Hok Hl Hr) as (Hs & Hco & Hm & _).
  destruct (ci_idx _ _ _ Hinv) as [Hcur _]. pose proof (sel_not_locked s Hs) as Hnl.
  assert (Hnp : in_progress (txt s (curr s)) = false).
  { apply bool_decide_eq_true in Hr. apply bool_decide_eq_false. by rewrite Hr. }
  eexists. constructor.
  - apply step_run, (core_lock _ _ (Zi (curr s))); [by apply in_range|by apply (cr_val _ _ _ Hc)| |].
    + by apply abs_rdy.
    + by apply not_locked_no_tran.
  - done.
  - done.
  - done.
  - apply upd_curr; try done. unfold hw_next. apply bool_decide_eq_true in Hr.
    rewrite Hr, Hf, Nat.eqb_refl. simpl. by rewrite Hl.
  - simpl. unfold sent_now. by rewrite Hnp, app_nil_r.
  - done.
  - congruence.
Qed.

Lemma hw_unlock d :
  core_rel d s m → all_failed c = false → in_progress (txt s (curr s)) = true → unlock_cmd c = true →
  ∃ d1, hw_result d d1.
Proof using Hn Hinv Hok.
  intros Hc Hf Hp Hu. destruct (ci_idx _ _ _ Hinv) as [Hcur _].
  destruct (ci_tran _ _ _ Hinv _ Hcur Hp) as (Hl & _ & Hco).
  pose proof (in_range _ _ Hc Hcur) as Hr. pose proof (proj2 (abs_tran _ _ Hc Hcur) Hp) as Ht.
  assert (Hst : hw_next (curr s) =
    if cmd_failed (ci_hw_cmd c) then s_txt_failed else if cmd_valid (ci_hw_cmd c) then s_txt_ok else s_txt_ready).
  { unfold hw_next. pose proof Hp as Hp'. apply bool_decide_eq_true in Hp'. rewrite Hp', Hf, Nat.eqb_refl. simpl.
    unfold unlock_cmd in Hu. by destruct (cmd_valid _), (cmd_err _), (cmd_arbl _), (cmd_failed _). }
  destruct (cmd_failed (ci_hw_cmd c)) eqn:Efa; [|destruct (cmd_valid (ci_hw_cmd c)) eqn:Eva].
  - eexists. constructor; [by apply step_run, (core_fail _ _ (Zi (curr s)))|done..|by apply upd_curr; rewrite ?Hst| | |congruence].
    + simpl. unfold sent_now. by rewrite Efa, andb_false_r, app_nil_r.
    + unfold failed_now. by rewrite Efa, orb_true_r.
  - eexists. constructor; [by apply step_run, (core_valid _ _ (Zi (curr s)))|done..|by apply upd_curr; rewrite ?Hst| |done|congruence].
    simpl. unfold sent_now. rewrite Hp, Hf, Efa, Eva, fmap_app. simpl. do 2 f_equal. symmetry.
    apply presented_view; [|done]. by apply (cr_mem _ _ _ Hc).
  - eexists. constructor; [by apply step_run, (core_retry _ _ (Zi (curr s)))|done..|by apply upd_curr; rewrite ?Hst| |done|congruence].
    simpl. unfold sent_now. by rewrite Eva, andb_false_r, app_nil_r.
Qed.

Lemma hw_fail_all d : core_rel d s m → all_failed c = true → ∃ d1, hw_result d d1.
Proof using Hn Hinv Hok.
  intros Hc Hf. eexists. constructor; [by apply step_run, core_bus_off|done..| | | |congruence].
  - intros i Hi. simpl. rewrite (cr_st _ _ _ Hc i Hi). unfold hw_next. rewrite Hf.
    destruct (ci_plain _ _ _ Hinv i Hi) as [(? & ? & ?) _ _ _ _]. by destruct (txt_curr_state (txt s i)).
  - simpl. unfold sent_now. by rewrite Hf, andb_false_r, app_nil_r.
  - unfold failed_now. by rewrite Hf.
Qed.

Lemma hw_step d : core_rel d s m → ∃ d1, hw_result d d1.
Proof using Hn Hinv Hok.
  intros Hc. destruct (all_failed c) eqn:Hf; [by apply hw_fail_all|].
  destruct (cmd_lock (ci_hw_cmd c) && ready (txt s (curr s))) eqn:Hl.
  { apply andb_prop in Hl as [Hl Hr]. by eapply hw_lock. }
  destruct (in_progress (txt s (curr s)) && unlock_cmd c) eqn:Hu.
  { apply andb_prop in Hu as [Hp Hu]. by eapply hw_unlock. }
  exists d. constructor; try done; [constructor| |].
  - intros i Hi. rewrite (cr_st _ _ _ Hc i Hi). unfold hw_next. rewrite Hf.
    destruct (Nat.eqb_spec i (curr s)) as [->|]; [|by destruct (txt_curr_state (txt s i))].
    unfold ready, in_progress, unlock_cmd in *.
    destruct (txt_curr_state (txt s (curr s))); try done; simpl in *.
    + rewrite andb_true_r in Hl. by rewrite Hl.
    + by destruct (cmd_valid _), (cmd_err _), (cmd_arbl _), (cmd_failed _).
  - unfold sent_now. destruct (in_progress _); simpl in *; [|by rewrite app_nil_r].
    rewrite Hf. unfold unlock_cmd in Hu.
    destruct (cmd_valid _); simpl in *; [done|]. by rewrite andb_false_r, app_nil_r.
Qed.

(** The field of TX_PRIORITY. *)
Lemma prio_field d i : core_rel d s m → mr_tx_priority s i = prio3 (d_prio d) (Zi i).
Proof.
  intros Hc. unfold mr_tx_priority, prio3. rewrite (cr_prio _ _ _ Hc).
  change 0x7 with (Z.ones 3). by rewrite Z.land_ones.
Qed.

(** The command of the protocol control, then the new validated buffer. *)
Record core_result (d d1 : txdev) : Prop := {
  co_run : dev_run base d [] d1;
  co_n : d_n d1 = d_n d;
  co_prio : d_prio d1 = d_prio d;
  co_mem : d_mem d1 = d_mem d;
  co_st : ∀ i, (i < n)%nat → d_st d1 (Zi i) = abs_st (hw_next i);
  co_sent : frame_view <$> d_sent d1 = (frame_view <$> d_sent d) ++ sent_now c s;
  co_failed : failed_now c s = false → d_failed d = false → d_failed d1 = false;
  co_val : com (tx_tick n c s) = true → arb_locked (tx_tick n c s) = false →
    all_failed c = false → d_val d1 = Some (Zi (curr (tx_tick n c s))) }.

Lemma validate_step d d1 :
  core_rel d s m → hw_result d d1 → commit_dbl_bufs (arb_o n c s) = true → all_failed c = false →
  core_step base d1 (mkdev (d_n d1) (d_st d1) (d_prio d1) (d_mem d1) (d_sent d1) (d_failed d1)
                       (Some (Zi (select_buf_index n c s)))).
Proof using Hn Hinv Hok.
  intros Hc Hr Hcm Hf. destruct (fsm_commit _ _ (arb_par n Hn c s m Hok) Hcm) as (Hst & _ & Ha & Hl & _).
  destruct (selected n Hn c s m Hinv Hok Ha) as [Hrd Hmax]. pose proof (index_range n Hn c s) as Hi.
  assert (Hnl : arb_locked s = false) by (apply bool_decide_eq_false; by rewrite Hst).
  (* no buffer is locked and no transmission ends in this cycle *)
  assert (Hsame : ∀ j, (j < n)%nat → hw_next j = txt_curr_state (txt s j)).
  { intros j Hj. unfold hw_next. simpl in Hl. rewrite Hf. destruct (in_progress (txt s j)) eqn:Hp.
    - destruct (ci_tran _ _ _ Hinv j Hj Hp). congruence.
    - apply bool_decide_eq_false in Hp. destruct (txt_curr_state (txt s j)); try done. simpl.
      by rewrite Hl, andb_false_r. }
  assert (Hst1 : ∀ j, (j < n)%nat → d_st d1 (Zi j) = d_st d (Zi j)).
  { intros j Hj. rewrite (hr_st _ _ Hr j Hj), Hsame by done. by rewrite (cr_st _ _ _ Hc j Hj). }
  apply core_validate.
  - rewrite (hr_n _ _ Hr). by apply in_range.
  - rewrite Hst1 by done. by apply abs_rdy.
  - intros b Hb. rewrite (hr_n _ _ Hr) in Hb. destruct (abs_index _ _ Hc Hb) as (j & -> & Hj).
    rewrite Hst1 by done. by apply not_locked_no_tran.
  - intros b Hb Hs. rewrite (hr_n _ _ Hr) in Hb. destruct (abs_index _ _ Hc Hb) as (j & -> & Hj).
    rewrite Hst1 in Hs by done. apply abs_rdy in Hs; [|done..]. rewrite (hr_prio _ _ Hr), <- !prio_field by done.
    by apply Hmax.
Qed.

(** Without a new one the validated buffer is kept as long as the arbitrator offers it. *)
Lemma val_kept d d1 :
  core_rel d s m → hw_result d d1 → commit_dbl_bufs (arb_o n c s) = false → all_failed c = false →
  com (tx_tick n c s) = true → arb_locked (tx_tick n c s) = false → d_val d1 = Some (Zi (curr (tx_tick n c s))).
Proof using Hn Hinv Hok.
  intros Hc Hr Hcm Hf Hco Hnl.
  destruct (com_kept n Hn c s m Hinv Hok Hcm Hco Hnl) as (Hs & Hls & Hcs & Hl & Hcur).
  rewrite Hcur, (hr_val _ _ Hr) by done. apply (cr_val _ _ _ Hc); [done..|].
  destruct (ci_com _ _ _ Hinv Hcs Hls) as [_ Hp]. unfold com_phase in Hp.
  destruct (ok_parts n Hn c s m Hok) as (_ & Hhold & _).
  destruct (m_failing m) as [|[|[|k]]]; [done|by rewrite Hhold in Hf by auto|by rewrite Hhold in Hf by auto|done].
Qed.

Lemma core_moves d : core_rel d s m → ∃ d1, core_result d d1.
Proof using Hn Hinv Hok.
  intros Hc. destruct (hw_step d Hc) as [d1 Hr].
  destruct (commit_dbl_bufs (arb_o n c s) && negb (all_failed c)) eqn:E.
  - apply andb_prop in E as [Hcm Hf%negb_true_iff]. pose proof (validate_step _ _ Hc Hr Hcm Hf) as Hv.
    destruct (arb_commit_next n Hn c s m Hinv Hok Hcm) as (_ & _ & _ & _ & Hcur).
    exists (mkdev (d_n d1) (d_st d1) (d_prio d1) (d_mem d1) (d_sent d1) (d_failed d1)
              (Some (Zi (select_buf_index n c s)))).
    destruct Hr. constructor; cbn [d_n d_st d_prio d_mem d_sent d_failed d_val]; try done.
    + eapply (dev_run_app base [] []); [done|by apply step_run].
    + intros _ _ _. by rewrite Hcur.
  - exists d1. destruct Hr. constructor; try done. intros Hco Hnl Hf. rewrite Hf, andb_true_r in E.
    by eapply val_kept.
Qed.

End Cycle.

(** *** The accesses of the bus *)

(** The command of the last cycle takes effect in this one. *)
Definition cmd_event m : list event :=
  match m_cmd m with Some v => [EvStore (base + CTUCANFD_TX_COMMAND) v] | None => [] end.

Definition bus_event (x : tx_access) : event :=
  match x with bus_rd a v => EvLoad (base + a) v | bus_wr a v => EvStore (base + a) v end.

(** The other accesses take effect at once. *)
Definition now_event c : list event :=
  match ci_bus c with
  | Some (bus_wr a v) => if a =? TX_COMMAND_ADR then [] else [EvStore (base + a) v]
  | Some x => [bus_event x]
  | None => []
  end.

Definition cycle_trace c : list event := match ci_bus c with Some x => [bus_event x] | None => [] end.

Lemma cycle_trace_split c s m : cycle_trace c = now_event c ++ cmd_event (mon_next c s m).
Proof.
  unfold cycle_trace, now_event, cmd_event, mon_next, reg_write. simpl.
  destruct (ci_bus c) as [[a v|a v]|]; [done| |done].
  destruct (Z.eqb_spec a TX_COMMAND_ADR) as [->|]; done.
Qed.

(** *** The registers *)

(** TX_STATUS has the codes of the states. *)
Lemma pad_nibble (f : nat → Z) (i : nat) (l : list nat) :
  (∀ j, 0 <= f j < 2 ^ 4) → (i < length l)%nat →
  Z.land (Z.shiftr (foldr (λ j w, f j + 2 ^ 4 * w) 0 l) (4 * Zi i)) 0xF = f (nth i l 0%nat).
Proof.
  intros Hf. revert i. induction l as [|j l IH]; intros i Hi; [simpl in Hi; lia|].
  cbn [foldr]. set (w := foldr _ _ l) in *. change 0xF with (Z.ones 4). rewrite Z.land_ones by done.
  destruct i as [|i].
  - change (4 * Zi 0) with 0. rewrite Z.shiftr_0_r, (Z.mul_comm (2 ^ 4)), Z_mod_plus_full. by apply Z.mod_small.
  - simpl in Hi. specialize (IH i ltac:(lia)). change 0xF with (Z.ones 4) in IH. rewrite Z.land_ones in IH by done.
    replace (4 * Zi (S i)) with (4 + 4 * Zi i) by lia. rewrite <- Z.shiftr_shiftr by lia.
    rewrite (Z.shiftr_div_pow2 _ 4) by done. rewrite (Z.mul_comm (2 ^ 4)), Z.div_add by done.
    by rewrite Z.div_small, Z.add_0_l by done.
Qed.

Lemma txtb_state_range b : 0 <= txtb_state b < 2 ^ 4.
Proof. unfold txtb_state. destruct (txt_curr_state b); done. Qed.

Lemma tx_status_nibble s i :
  (i < n)%nat → Z.land (Z.shiftr (tx_status n s) (4 * Zi i)) 0xF = txtb_state (txt s i).
Proof using Hn.
  intros Hi. unfold tx_status.
  rewrite (pad_nibble (λ i, if (i <? n)%nat then txtb_state (txt s i) else 0) i (seq 0 8)).
  - rewrite seq_nth by lia. simpl. apply Nat.ltb_lt in Hi. by rewrite Hi.
  - intros j. pose proof (txtb_state_range (txt s j)). case_match; [done|lia].
  - rewrite length_seq. lia.
Qed.

Lemma state_code m b : plain m b → txtb_state b = txt_code (abs_st (txt_curr_state b)).
Proof. intros [(? & ? & ?) _ _ _ _]. unfold txtb_state. by destruct (txt_curr_state b). Qed.

Lemma txnf_bit v : txnf v = Z.testbit v 2.
Proof. apply (testbit_flag 2). done. Qed.

(** The loads return what the abstract core answers. *)
Lemma load_event d s m c a v :
  tx_rel d s m → cycle_ok n c s m = true → ci_bus c = Some (bus_rd a v) →
  dev_ev base d (EvLoad (base + a) v) d.
Proof using Hn.
  intros [Hinv Hc _] Hok Hb. unfold cycle_ok in Hok. rewrite Hb, !andb_true_iff in Hok.
  destruct Hok as (((((_ & _) & _) & Hv & Ht) & _) & _). split; [done|]. split.
  - intros E b Hbr. destruct (abs_index _ _ _ _ Hc Hbr) as (i & -> & Hi).
    assert (Ea : a = TX_STATUS_ADR) by (unfold CTUCANFD_TX_STATUS, TX_STATUS_ADR in *; lia).
    subst a. rewrite Z.eqb_refl in Hv. cbn [negb orb] in Hv. apply Z.eqb_eq in Hv. rewrite Hv, tx_status_nibble by done.
    rewrite (cr_st _ _ _ Hc i Hi). apply (state_code m), (ci_plain _ _ _ Hinv), Hi.
  - intros E. assert (Ea : a = STATUS_ADR) by (unfold CTUCANFD_STATUS, STATUS_ADR in *; lia).
    subst a. rewrite Z.eqb_refl in Ht. cbn [negb orb] in Ht. apply eqb_prop in Ht. rewrite txnf_bit, Ht. unfold status_txnf. rewrite existsb_exists.
    assert (He : ∀ i, (i < n)%nat → d_st d (Zi i) = Ety ↔ (txtb_state (txt s i) =? 0x8) = true).
    { intros i Hi. rewrite (cr_st _ _ _ Hc i Hi). unfold txtb_state. by destruct (txt_curr_state (txt s i)). }
    split.
    + intros (i & Hi%in_seq & Hs). exists (Zi i). rewrite (cr_n _ _ _ Hc). split; [lia|]. apply He; [lia|done].
    + intros (b & Hbr & Hs). destruct (abs_index _ _ _ _ Hc Hbr) as (i & -> & Hi). exists i.
      split; [apply in_seq; lia|by apply He].
Qed.
(** *** The memories *)

Lemma word_kept c s m i w :
  ctl_inv n s m → (i < n)%nat → port_a_cs c i = false → word (txt (tx_tick n c s) i) w = word (txt s i) w.
Proof.
  intros Hinv Hi Hp. unfold word. rewrite txt_tick by (by rewrite (ci_len _ _ _ Hinv)). simpl.
  unfold txt_ram_next, txtb_port_a_write. simpl. by rewrite Hp.
Qed.

(** No write of a register is a write to a buffer. *)
Lemma no_port_a c a v i :
  ci_bus c = Some (bus_wr a v) → a = TX_COMMAND_ADR ∨ a = TX_PRIORITY_ADR → port_a_cs c i = false.
Proof. intros Hb Ha. unfold port_a_cs. rewrite Hb. apply Z.eqb_neq. assert (a / 0x100 = 0) by (by destruct Ha as [-> | ->]). lia. Qed.

(** A buffer is accessible in the design when it is in the abstract core. *)
Lemma accessible_buf d s m a i :
  ctl_inv n s m → core_rel d s m → (i < n)%nat → a / 0x100 = Zi i + 1 →
  accessible base d (base + a) = txtb_user_accessible (txt s i).
Proof.
  intros Hinv Hc Hi Ha. unfold accessible. replace (base + a - base) with a by lia.
  rewrite Ha, Z.add_simpl_r, (cr_st _ _ _ Hc i Hi), (cr_n _ _ _ Hc).
  replace ((0 <=? Zi i) && (Zi i <? Zi n)) with true by lia. unfold txtb_user_accessible, transient_state.
  destruct (ci_plain _ _ _ Hinv i Hi) as [(? & ? & ?) _ _ _ _]. by destruct (txt_curr_state (txt s i)).
Qed.

(** A word of a buffer, as an address. *)
Lemma word_addr_eq a i w :
  a mod 4 = 0 → a mod 0x100 < 0x54 → a / 0x100 = Zi i + 1 → (w < C_TXT_BUF_DEPTH)%nat →
  base + a = word_addr i w ↔ Z.to_nat ((a / 4) mod 2 ^ 5) = w.
Proof.
  intros H4 Hlt Hi Hw. unfold C_TXT_BUF_DEPTH, word_addr in *.
  pose proof (Z.div_mod a 0x100 ltac:(lia)) as E. rewrite Hi in E. pose proof (Z.mod_pos_bound a 0x100 ltac:(lia)).
  set (r := a mod 0x100) in *.
  assert (Hr : r mod 4 = 0).
  { rewrite E in H4. replace (0x100 * (Zi i + 1) + r) with (r + (0x40 * (Zi i + 1)) * 4) in H4 by lia.
    by rewrite Z_mod_plus_full in H4. }
  assert (Ha : (a / 4) mod 2 ^ 5 = r / 4).
  { rewrite E. replace (0x100 * (Zi i + 1) + r) with (r + (0x40 * (Zi i + 1)) * 4) by lia.
    rewrite Z.div_add by lia. replace (r / 4 + 0x40 * (Zi i + 1)) with (r / 4 + (2 * (Zi i + 1)) * 2 ^ 5) by lia.
    rewrite Z_mod_plus_full. apply Z.mod_small. split; [apply Z.div_pos; lia|apply Z.div_lt_upper_bound; lia]. }
  rewrite Ha. pose proof (Z.div_mod r 4 ltac:(lia)) as E4. lia.
Qed.

(** A write to the memory of a buffer. *)
Lemma store_words d s m c a v i :
  tx_rel d s m → ci_bus c = Some (bus_wr a v) → access_ok (bus_wr a v) = true → (i < n)%nat →
  ∀ w, (w < C_TXT_BUF_DEPTH)%nat →
    (if accessible base d (base + a) then upd (d_mem d) (base + a) v else d_mem d) (word_addr i w) =
    word (txt (tx_tick n c s) i) w.
Proof using Hn.
  intros [Hinv Hc Hm] Hb Hacc Hi w Hw. simpl in Hacc.
  apply andb_prop in Hacc as [[H4%Z.eqb_eq Hlt]%andb_prop _].
  destruct (Z.eq_dec (a / 0x100) (Zi i + 1)) as [Ha|Ha].
  - assert (H256 : a mod 0x100 < 0x54).
    { apply orb_prop in Hlt as [Hlt|Hlt]; [|by apply Z.ltb_lt].
      apply Z.ltb_lt in Hlt. pose proof (Z.div_lt_upper_bound a 0x100 1 ltac:(lia) ltac:(lia)). lia. }
    rewrite (accessible_buf d s m a i) by done. unfold word.
    rewrite txt_tick by (by rewrite (ci_len _ _ _ Hinv)). simpl.
    unfold txt_ram_next, txtb_port_a_write. simpl.
    unfold port_a_cs, port_a_address, port_a_data_in. rewrite Hb, Ha, Z.eqb_refl. simpl.
    destruct (txtb_user_accessible (txt s i)); [|by apply Hm].
    pose proof (word_addr_eq a i w H4 H256 Ha Hw) as Hiff. unfold upd.
    pose proof (pl_ram _ _ (ci_plain _ _ _ Hinv i Hi)) as Hlen.
    destruct (Z.eqb_spec (word_addr i w) (base + a)) as [E|E].
    + assert (Z.to_nat ((a / 4) mod 2 ^ 5) = w) as Ew by by apply Hiff.
      by rewrite Ew, list_lookup_insert_eq by lia.
    + rewrite list_lookup_insert_ne; [by apply Hm|]. intros Ew. by apply E, eq_sym, Hiff.
  - rewrite (word_kept _ _ m) by (done || unfold port_a_cs; rewrite Hb; by apply Z.eqb_neq).
    rewrite <- Hm by done. case_match; [|done]. unfold upd. destruct (Z.eqb_spec (word_addr i w) (base + a)) as [E|]; [|done].
    destruct Ha. unfold word_addr, C_TXT_BUF_DEPTH in *.
    replace a with (4 * Zi w + (Zi i + 1) * 0x100) by lia. rewrite Z.div_add, Z.div_small by lia. lia.
Qed.

(** *** A cycle *)

Section Sim.
Context (c : cycle_in) (s : tx_rtl) (m : tx_mon) (d : txdev).
Hypothesis Hok : cycle_ok n c s m = true.
Hypothesis Hacc : match ci_bus c with Some x => access_ok x = true | None => True end.
Hypothesis Hrel : tx_rel d s m.

Let s' := tx_tick n c s.
Let m' := mon_next c s m.

(** The relation after the cycle, from the result of the steps of the core. *)
Lemma next_rel d0 d1 d' :
  core_result c s d0 d1 →
  d_n d0 = Zi n → d_n d' = d_n d1 → d_val d' = d_val d1 → d_prio d' = tx_priority s' →
  (∀ i, (i < n)%nat → d_st d' (Zi i) = abs_st (txt_curr_state (txt s' i))) →
  (∀ i, (i < n)%nat → same_words d' s' i) → tx_rel d' s' m'.
Proof using Hn Hok Hacc Hrel.
  intros Hr Hn0 Hn' Hv Hp Hs Hm. destruct Hrel as [Hinv Hc _]. constructor; [|constructor|done].
  - by apply ctl_inv_next.
  - by rewrite Hn', (co_n _ _ _ _ Hr).
  - done.
  - done.
  - intros Hco Hnl Hf. rewrite Hv. apply (co_val _ _ _ _ Hr Hco Hnl).
    destruct (all_failed c) eqn:E; [|done]. unfold m', mon_next in Hf. simpl in Hf. rewrite E in Hf. lia.
  - intros i Hi _. by apply Hm.
Qed.

(** Without a command the buffers are as the protocol control leaves them. *)
Lemma hw_is_next i : m_cmd m = None → (i < n)%nat → txt_curr_state (txt s' i) = hw_next c s i.
Proof using Hn Hok Hacc Hrel.
  intros Hcm Hi. destruct Hrel as [Hinv _ _]. unfold s'. rewrite (txt_next n Hn c s m) by done.
  unfold sw_cmd, cmd_bit. by rewrite Hcm.
Qed.

(** A command and the protocol control never act on the same buffer. *)
Lemma command_next v i :
  m_cmd m = Some v → cmd_target d v → (i < n)%nat →
  command v (Zi i) (abs_st (hw_next c s i)) = abs_st (txt_curr_state (txt s' i)).
Proof using Hn Hok Hacc Hrel.
  intros Hcm Ht Hi. destruct Hrel as [Hinv Hc _]. unfold s'. rewrite (txt_next n Hn c s m) by done.
  unfold sw_cmd, cmd_bit, hw_next, command. rewrite Hcm. rewrite !(andb_comm _ (Z.testbit v (Zi i + 8))).
  destruct (ci_plain _ _ _ Hinv i Hi) as [(Ha & Hb & Hp) _ _ _ _].
  destruct (Z.testbit v (Zi i + 8)) eqn:Hbit; simpl; [|done].
  assert (Hst : d_st d (Zi i) ≠ Rdy ∧ d_st d (Zi i) ≠ Tran)
    by (apply Ht; [rewrite (cr_n _ _ _ Hc); lia|done]).
  rewrite (cr_st _ _ _ Hc i Hi) in Hst. destruct Hst as [Hs1 Hs2].
  destruct (txt_curr_state (txt s i)); try done; simpl in *; by repeat case_match.
Qed.

(** What a cycle does: its accesses are answered, the frames sent are those presented. *)
Definition cycle_result (d' : txdev) : Prop :=
  dev_run base d (cmd_event m ++ now_event c) d' ∧ tx_rel d' s' m' ∧
  frame_view <$> d_sent d' = (frame_view <$> d_sent d) ++ sent_now c s ∧
  (failed_now c s = false → d_failed d = false → d_failed d' = false).

Lemma core_rel_moves d0 : core_rel d0 s m → ∃ d1, core_result c s d0 d1.
Proof using Hn Hok Hrel. intros Hc. exact (core_moves c s m (tr_inv _ _ _ Hrel) Hok d0 Hc). Qed.

(** The priorities and the memories in a cycle without a write. *)
Lemma no_write_prio : reg_write c TX_PRIORITY_ADR = None → tx_priority s' = d_prio d.
Proof using Hrel. intros E. unfold s'. simpl. rewrite E. simpl. symmetry. apply (cr_prio _ _ _ (tr_core _ _ _ Hrel)). Qed.

Lemma no_write_words d' :
  d_mem d' = d_mem d → (∀ i, (i < n)%nat → port_a_cs c i = false) → ∀ i, (i < n)%nat → same_words d' s' i.
Proof using Hrel.
  intros E Hp i Hi w Hw. destruct Hrel as [Hinv _ Hm]. rewrite E. unfold s'.
  rewrite (word_kept _ _ m) by auto. by apply Hm.
Qed.

Lemma cycle_command v : m_cmd m = Some v → cmd_target d v → ∃ d', cycle_result d'.
Proof using Hn Hok Hacc Hrel.
  intros Hcm Ht. destruct (ok_parts n Hn c s m Hok) as (_ & _ & Hb & _).
  specialize (Hb ltac:(congruence)). destruct (core_rel_moves d (tr_core _ _ _ Hrel)) as [d1 Hr].
  exists (mkdev (d_n d1) (λ b, command v b (d_st d1 b)) (d_prio d1) (d_mem d1) (d_sent d1) (d_failed d1) (d_val d1)).
  split_and!; [| |apply Hr|apply Hr].
  - unfold cmd_event, now_event. rewrite Hcm, Hb, app_nil_r. eapply (dev_run_app base []); [apply Hr|].
    eapply dr_ev; [|constructor]. simpl. by rewrite Z.eqb_refl.
  - eapply next_rel; [done|apply (cr_n _ _ _ (tr_core _ _ _ Hrel))|done|done|..]; simpl.
    + rewrite (co_prio _ _ _ _ Hr). symmetry. apply no_write_prio. unfold reg_write. by rewrite Hb.
    + intros i Hi. rewrite (co_st _ _ _ _ Hr i Hi). by apply command_next.
    + apply no_write_words; [apply Hr|]. intros i Hi. unfold port_a_cs. by rewrite Hb.
Qed.

(** Cycles in which only the core moves, before or after the access that [now_event] shows. *)
Lemma cycle_plain :
  m_cmd m = None → reg_write c TX_PRIORITY_ADR = None → (∀ i, (i < n)%nat → port_a_cs c i = false) →
  dev_run base d (now_event c) d → ∃ d', cycle_result d'.
Proof using Hn Hok Hacc Hrel.
  intros Hcm Hp Hw Hrun. destruct (core_rel_moves d (tr_core _ _ _ Hrel)) as [d1 Hr].
  exists d1. split_and!; [| |apply Hr|apply Hr].
  - unfold cmd_event. rewrite Hcm. simpl. rewrite <- (app_nil_r (now_event c)).
    eapply dev_run_app; [done|apply Hr].
  - eapply next_rel; [done|apply (cr_n _ _ _ (tr_core _ _ _ Hrel))|done|done|..].
    + rewrite (co_prio _ _ _ _ Hr). symmetry. by apply no_write_prio.
    + intros i Hi. rewrite (co_st _ _ _ _ Hr i Hi). by rewrite hw_is_next.
    + apply no_write_words; [apply Hr|done].
Qed.

Lemma cycle_priority v :
  m_cmd m = None → ci_bus c = Some (bus_wr TX_PRIORITY_ADR v) → ∃ d', cycle_result d'.
Proof using Hn Hok Hacc Hrel.
  intros Hcm Hb. destruct (core_rel_moves d (tr_core _ _ _ Hrel)) as [d1 Hr].
  exists (mkdev (d_n d1) (d_st d1) v (d_mem d1) (d_sent d1) (d_failed d1) (d_val d1)).
  split_and!; [| |apply Hr|apply Hr].
  - unfold cmd_event, now_event. rewrite Hcm, Hb. eapply (dev_run_app base []); [apply Hr|].
    eapply dr_ev; [|constructor]. simpl. unfold CTUCANFD_TX_COMMAND, CTUCANFD_TX_PRIORITY, TX_PRIORITY_ADR.
    by rewrite (proj2 (Z.eqb_neq _ _)), Z.eqb_refl by lia.
  - eapply next_rel; [done|apply (cr_n _ _ _ (tr_core _ _ _ Hrel))|done|done|..]; simpl.
    + unfold reg_write. by rewrite Hb.
    + intros i Hi. rewrite (co_st _ _ _ _ Hr i Hi). by rewrite hw_is_next.
    + apply no_write_words; [apply Hr|]. intros i Hi. eapply no_port_a; [done|by right].
Qed.

Lemma cycle_store a v :
  m_cmd m = None → ci_bus c = Some (bus_wr a v) → a ≠ TX_COMMAND_ADR → a ≠ TX_PRIORITY_ADR →
  ∃ d', cycle_result d'.
Proof using Hn Hok Hacc Hrel.
  intros Hcm Hb Ha1 Ha2. pose proof Hacc as Hax. rewrite Hb in Hax. pose proof Hrel as [Hinv Hc Hm].
  set (d0 := mkdev (d_n d) (d_st d) (d_prio d)
    (if accessible base d (base + a) then upd (d_mem d) (base + a) v else d_mem d) (d_sent d) (d_failed d) (d_val d)).
  assert (Hw : ∀ i, (i < n)%nat → ∀ w, (w < C_TXT_BUF_DEPTH)%nat → d_mem d0 (word_addr i w) = word (txt s' i) w).
  { intros i Hi w Hw. by apply (store_words d s m c a v i Hrel Hb Hax). }
  destruct (core_rel_moves d0) as [d1 Hr].
  { destruct Hc. constructor; try done. intros i Hi Hp w Hw'. rewrite Hw by done. apply (word_next n c s m); auto. }
  exists d1. split_and!; [| |apply Hr|apply Hr].
  - unfold cmd_event, now_event. rewrite Hcm, Hb, (proj2 (Z.eqb_neq _ _) Ha1). simpl.
    apply (dr_ev base d _ d0); [|apply Hr]. simpl.
    unfold CTUCANFD_TX_COMMAND, CTUCANFD_TX_PRIORITY, TX_COMMAND_ADR, TX_PRIORITY_ADR in *.
    by rewrite !(proj2 (Z.eqb_neq _ _)) by lia.
  - eapply next_rel; [done|apply Hc|done|done|..].
    + rewrite (co_prio _ _ _ _ Hr). simpl. symmetry. apply no_write_prio. unfold reg_write. rewrite Hb.
      by apply Z.eqb_neq in Ha2 as ->.
    + intros i Hi. rewrite (co_st _ _ _ _ Hr i Hi). by rewrite hw_is_next.
    + intros i Hi w Hw'. rewrite (co_mem _ _ _ _ Hr). by apply Hw.
Qed.

Lemma cycle_sim : (∀ v, m_cmd m = Some v → cmd_target d v) → ∃ d', cycle_result d'.
Proof using Hn Hok Hacc Hrel.
  intros Ht. destruct (m_cmd m) as [v|] eqn:Hcm; [by eapply cycle_command; auto|].
  assert (∃ x, ci_bus c = x) as [[[a v|a v]|] Hb] by eauto.
  - apply cycle_plain; [done|unfold reg_write; by rewrite Hb|intros; unfold port_a_cs; by rewrite Hb|].
    unfold now_event. rewrite Hb. eapply dr_ev; [by eapply load_event|constructor].
  - destruct (Z.eq_dec a TX_COMMAND_ADR) as [->|Ha1].
    + apply cycle_plain; [done|unfold reg_write; by rewrite Hb| |unfold now_event; rewrite Hb; constructor].
      intros i Hi. eapply no_port_a; [done|by left].
    + destruct (Z.eq_dec a TX_PRIORITY_ADR) as [->|Ha2]; [by eapply cycle_priority|by eapply cycle_store].
  - apply cycle_plain; [done|unfold reg_write; by rewrite Hb|intros; unfold port_a_cs; by rewrite Hb|].
    unfold now_event. rewrite Hb. constructor.
Qed.

End Sim.

(** *** A run *)

Definition bus_trace (ins : list cycle_in) : list event := ins ≫= cycle_trace.

(** The frames sent in a run, and whether a transmission was given up. *)
Fixpoint sent_frames (ins : list cycle_in) (s : tx_rtl) : list tran_frame :=
  match ins with
  | [] => []
  | c :: ins => sent_now c s ++ sent_frames ins (tx_tick n c s)
  end.

Fixpoint given_up (ins : list cycle_in) (s : tx_rtl) : bool :=
  match ins with
  | [] => false
  | c :: ins => failed_now c s || given_up ins (tx_tick n c s)
  end.

Lemma run_sim ins d s m :
  tx_rel d s m → conforms n ins s m = true → accesses_ok ins →
  cmds_ok base d (cmd_event m ++ bus_trace ins) →
  ∃ d', dev_run base d (cmd_event m ++ bus_trace ins) d' ∧
    frame_view <$> d_sent d' = (frame_view <$> d_sent d) ++ sent_frames ins s ∧
    (given_up ins s = false → d_failed d = false → d_failed d' = false).
Proof using Hn.
  revert d s m. induction ins as [|c ins IH]; intros d s m Hrel Hco Hacc Hcmd.
  - simpl. rewrite !app_nil_r. unfold cmd_event. destruct (m_cmd m) as [v|]; [|by exists d; split; [constructor|]].
    eexists. split; [eapply dr_ev; [reflexivity|constructor]|]. by rewrite Z.eqb_refl.
  - simpl in Hco. apply andb_prop in Hco as [Hok Hco]. apply Forall_cons in Hacc as [Hacc Haccs].
    destruct (cycle_sim c s m d Hok Hacc Hrel) as (d1 & Hr & Hrel1 & Hs & Hf).
    { intros v E. apply (Hcmd [] v (bus_trace (c :: ins)) d); [|constructor].
      unfold cmd_event. by rewrite E. }
    assert (Et : cmd_event m ++ bus_trace (c :: ins) =
      (cmd_event m ++ now_event c) ++ cmd_event (mon_next c s m) ++ bus_trace ins).
    { unfold bus_trace. cbn [mbind list_bind]. rewrite (cycle_trace_split c s m). by rewrite <- !app_assoc. }
    rewrite Et in *. destruct (IH _ _ _ Hrel1 Hco Haccs) as (d2 & Hr2 & Hs2 & Hf2).
    { by eapply cmds_ok_app_inv. }
    exists d2. split_and!; [by eapply dev_run_app| |].
    + rewrite Hs2, Hs. by rewrite <- app_assoc.
    + simpl. rewrite orb_false_iff. intros [? ?] ?. auto.
Qed.

(** *** The initial states *)

(** The abstract core with the same empty buffers and memories. *)
Record core_start (rams : list (list Z)) (d : txdev) : Prop := {
  cs_rams : length rams = n ∧ Forall (λ ram, length ram = C_TXT_BUF_DEPTH) rams;
  cs_n : d_n d = Zi n;
  cs_st : ∀ b, 0 <= b < d_n d → d_st d b = Ety;
  cs_mem : ∀ i ram w x, rams !! i = Some ram → ram !! w = Some x → d_mem d (word_addr i w) = x;
  cs_sent : d_sent d = [];
  cs_failed : d_failed d = false }.

Lemma start_rel rams d : core_start rams d → tx_rel d (tx_init rams (d_prio d)) mon_init.
Proof using Hn.
  intros [[Hlen Hall] Hdn Hst Hmem _ _]. set (s := tx_init rams (d_prio d)).
  assert (Hb : ∀ i, (i < n)%nat → ∃ ram, rams !! i = Some ram ∧ length ram = C_TXT_BUF_DEPTH ∧ txt s i = txtb_init ram 0).
  { intros i Hi. destruct (lookup_lt_is_Some_2 rams i) as [ram Hr]; [lia|]. exists ram.
    split_and!; [done|by eapply (Forall_lookup_1 _ _ _ _ Hall)|by apply txt_init]. }
  assert (Hw : ∀ i, (i < n)%nat → same_words d s i).
  { intros i Hi w Hww. destruct (Hb i Hi) as (ram & Hr & Hl & ->). unfold word. simpl.
    destruct (lookup_lt_is_Some_2 ram w) as [x Hx]; [lia|]. rewrite Hx. by eapply Hmem. }
  constructor; [by apply ctl_inv_init|constructor|done]; try done.
  - intros i Hi. rewrite Hst by (rewrite Hdn; lia). by destruct (Hb i Hi) as (ram & _ & _ & ->).
  - intros i Hi _. by apply Hw.
Qed.

End Refine.

(** C3: The design refines the abstract core.  For 2 to 8 TXT buffers with any memories, every protocol control
    that locks only what it is offered, every bus (one access at a time, a pause after a command, commands
    for buffers that are not pending), all timestamps, modes and bus-off periods: the accesses
    during any number of clock cycles are a run of the core of TxCore, and the frames presented by the
    arbitrator when transmissions end successfully are exactly the ones that core sends, with metadata,
    identifier and data words; without a failure signal that core gives up nothing. *)
Theorem tx_rtl_refines_core base n rams ins d :
  (2 <= n <= 8)%nat → core_start base n rams d →
  conforms n ins (tx_init rams (d_prio d)) mon_init = true → accesses_ok ins →
  cmds_ok base d (bus_trace base ins) →
  ∃ d', dev_run base d (bus_trace base ins) d' ∧
    frame_view <$> d_sent d' = sent_frames n ins (tx_init rams (d_prio d)) ∧
    (given_up n ins (tx_init rams (d_prio d)) = false → d_failed d' = false).
Proof.
  intros Hn Hs Hco Hacc Hcmd. destruct (run_sim base n Hn ins d _ _ (start_rel _ _ Hn _ _ Hs) Hco Hacc Hcmd)
    as (d' & Hr & Hsent & Hf).
  exists d'. rewrite (cs_sent _ _ _ _ Hs) in Hsent. split_and!; [done|done|]. intros Hg. apply Hf; [done|apply Hs].
Qed.

(** ** A concrete run *)

(** As long as no command is given the buffers of an empty core stay empty. *)
Lemma empty_run base d tr d1 :
  dev_run base d tr d1 →
  Forall (λ e, match e with EvStore a _ => a ≠ base + CTUCANFD_TX_COMMAND | _ => True end) tr →
  (∀ b, 0 <= b < d_n d → d_st d b = Ety) → ∀ b, 0 <= b < d_n d1 → d_st d1 b = Ety.
Proof.
  induction 1 as [d|d d1 tr d2 Hs Hr IH|d e d1 tr d2 He Hr IH]; intros Hq Hst; [done|..].
  - apply IH; [done|]. destruct Hs as [b Hb E|b Hb _ E|b Hb E|b Hb E|b Hb E|]; simpl; intros;
      try (by rewrite Hst in E); rewrite Hst by done; done.
  - apply Forall_cons in Hq as [Hq Hqs]. apply IH; [done|].
    destruct e as [a v|a v| |]; simpl in He; [by destruct He as [-> _]| |by subst..].
    rewrite (proj2 (Z.eqb_neq _ _) Hq) in He. case_match; by subst.
Qed.

(** The cycle of an access, of a command of the protocol control, and one without either. *)
Definition sample_cycle (h : t_txtb_hw_cmd) (x : option tx_access) : cycle_in :=
  mkcycle h 0 false false false false true false false 0 (λ _, false) x.

Definition wait_cycle : cycle_in := sample_cycle no_hw_cmd None.

(** Two buffers: a frame with 2 data bytes is written to the second one, which is set ready; the arbitrator
    validates it; it is locked and sent. *)
Definition sample_run : list cycle_in :=
  (λ x, sample_cycle no_hw_cmd (Some x)) <$>
    [bus_wr 0x200 0x2; bus_wr 0x204 0x4440000; bus_wr 0x210 0xBBAA; bus_wr 0x74 0x202].

Definition sample_sending : list cycle_in :=
  sample_run ++ replicate 14 wait_cycle ++
  [sample_cycle (mkcmd true false false false false) None; wait_cycle;
   sample_cycle (mkcmd false true false false false) None; wait_cycle;
   sample_cycle no_hw_cmd (Some (bus_rd 0x70 0x48))].

Definition zero_rams : list (list Z) := replicate 2 (replicate 21 0).

Definition zero_core : txdev := mkdev 2 (λ _, Ety) 0x01 (λ _, 0) [] false None.

Lemma zero_start base : core_start base 2 zero_rams zero_core.
Proof.
  constructor; try done; [split; [done|by repeat constructor]|].
  intros i ram w x Hr Hx. apply lookup_replicate in Hr as [-> _]. by apply lookup_replicate in Hx as [-> _].
Qed.

Lemma sample_cmds base : cmds_ok base zero_core (bus_trace base sample_sending).
Proof.
  intros t1 v t2 d1 E Hr b Hb _.
  assert (Hq : Forall (λ e, match e with EvStore a _ => a ≠ base + CTUCANFD_TX_COMMAND | _ => True end) t1).
  { unfold CTUCANFD_TX_COMMAND in *. cbn in E.
    destruct t1 as [|e1 [|e2 [|e3 [|e4 t1]]]]; simplify_eq/=; repeat (apply Forall_cons; split); try lia; try done.
    all: destruct t1 as [|e5 t1]; simplify_eq/=; by destruct t1. }
  rewrite (empty_run _ _ _ _ Hr Hq) by done. done.
Qed.

Lemma tx_rtl_refines_core_witness :
  (2 <= 2 <= 8)%nat ∧
  conforms 2 sample_sending (tx_init zero_rams 0x01) mon_init = true ∧
  sent_frames 2 sample_sending (tx_init zero_rams 0x01) =
    [(mkmd 2 false false false false, 0x4440000, [0xBBAA])] ∧
  ∃ d', dev_run 0 zero_core (bus_trace 0 sample_sending) d' ∧
    d_failed d' = false ∧ length (d_sent d') = 1%nat.
Proof.
  split; [lia|]. split; [by vm_compute|]. split; [by vm_compute|].
  destruct (tx_rtl_refines_core 0 2 zero_rams sample_sending zero_core ltac:(lia) (zero_start 0)
    ltac:(by vm_compute) ltac:(repeat constructor) (sample_cmds 0)) as (d' & Hr & Hs & Hf).
  exists d'. split; [exact Hr|]. split; [apply Hf; by vm_compute|].
  rewrite <- (length_fmap frame_view), Hs. by vm_compute.
Defined.
