(* ===== verification/TxSystem.v ===== *)
(** * Order of transmission: the driver and the core together

    The transmit path of the driver ([ctucan_start_xmit] and
    [ctucan_tx_interrupt], in the form of their outcomes [xmit] and [tx_run])
    composed with the core of [TxCore]: frames leave the bus in the order in which they were
    queued, although the core only knows priorities. *)

From Stdlib Require Import ZArith Lia.
From stdpp Require Import base numbers list strings sets relations.
From S2P Require Import Prelude LinuxDefs World Kregs Base Sim RxFifo BaseTx BaseRx RoundTrip TxCore.

#[local] Open Scope Z_scope.

(** ** Slots of the ring *)

(** The buffer of the [k]-th frame of a ring of [N] buffers with tail [t]. *)
Definition slot (N t k : Z) : Z := (t + k) mod N.

Lemma slot_range N t k : 0 < N → 0 <= slot N t k < N.
Proof. apply Z.mod_pos_bound. Qed.

Lemma slot_inj N t i j : 0 <= i < N → 0 <= j < N → slot N t i = slot N t j → i = j.
Proof.
  unfold slot. intros Hi Hj E.
  assert (E' : ((t + i) - (t + j)) mod N = 0) by (rewrite Zminus_mod, E, Z.sub_diag; by apply Z.mod_0_l; lia).
  apply Z.mod_divide in E' as [c Hc]; [|lia].
  assert (c = 0) by nia. lia.
Qed.

Lemma slot_surj N t b : 0 <= b < N → ∃ k, 0 <= k < N ∧ b = slot N t k.
Proof.
  intros Hb. exists ((b - t) mod N). split; [apply Z.mod_pos_bound; lia|]. unfold slot.
  rewrite Z.add_mod_idemp_r by lia. replace (t + (b - t)) with b by lia. by rewrite Z.mod_small.
Qed.

Lemma slot_shift N t k : slot N (t + 1) k = slot N t (k + 1).
Proof. unfold slot. f_equal. lia. Qed.

Lemma slot_u32 N t k : (N | 2 ^ 32) → 0 < N → slot N (u32 t) k = slot N t k.
Proof.
  intros Hd HN. unfold slot. by rewrite <- Z.add_mod_idemp_l, u32_mod_divide, Z.add_mod_idemp_l by (done || lia).
Qed.

Lemma upd_eq {A} (f : Z → A) i x : upd f i x i = x.
Proof. unfold upd. by rewrite Z.eqb_refl. Qed.

Lemma upd_ne {A} (f : Z → A) i j x : j ≠ i → upd f i x j = f j.
Proof. intros. unfold upd. by destruct (Z.eqb_spec j i). Qed.

(** The word lies in another buffer or in none. *)
Lemma mem_frame_ext base mem mem' b :
  (∀ off, 0 <= off < 0x100 → mem' (base + ((b + 1) * 0x100 + off)) = mem (base + ((b + 1) * 0x100 + off))) →
  mem_frame base mem' b = mem_frame base mem b.
Proof.
  intros Hm. unfold mem_frame. rewrite !Hm by done. f_equal.
  apply list_fmap_ext. intros i j Hj. apply lookup_seqZ in Hj as [-> Hi].
  set (ffw := mem _) in *. pose proof (hw_payload_range ffw). pose proof (nwords_bounds (hw_payload ffw)).
  apply Hm. unfold CTUCANFD_DATA_1_4_W. destruct (ffw_fdf ffw); lia.
Qed.

(** ** The invariant of the core *)

Section Ring.
Context (base N : Z).

Implicit Types (d : txdev) (t U f : Z).

(** The frames of slots [f .. U - 1], oldest first. *)
Definition waiting t U f d : list txt_frame :=
  (λ k, mem_frame base (d_mem d) (slot N t k)) <$> seqZ f (U - f).

(** [U] buffers from [t] on are in use, the first [f] of them are finished, the
    others wait in the order of their priorities; [fin] are the frames that
    have left the ring of waiting frames: those sent, unless transmissions failed. *)
Record cinv t U f d (enq : list txt_frame) : Prop := {
  ci_n : d_n d = N;
  ci_pos : 0 < N;
  ci_used : 0 <= f <= U ∧ U <= N;
  ci_done : ∀ k, 0 <= k < f → d_st d (slot N t k) = Tok ∨ d_st d (slot N t k) = Err;
  ci_wait : ∀ k, f <= k < U →
    d_st d (slot N t k) = Rdy ∨ (k = f ∧ d_st d (slot N t k) = Tran);
  ci_free : ∀ k, U <= k < N → d_st d (slot N t k) = Ety;
  ci_order : ∀ i j, f <= i → i < j → j < U →
    prio3 (d_prio d) (slot N t j) < prio3 (d_prio d) (slot N t i);
  (** only the oldest waiting frame is ever validated *)
  ci_val : ∀ b, d_val d = Some b → b = slot N t f ∧ f < U ∧ d_st d b = Rdy;
  ci_frames : ∃ fin, enq = fin ++ waiting t U f d ∧ d_sent d `sublist_of` fin ∧
    (d_failed d = false → d_sent d = fin);
}.

Lemma waiting_cons t U f d :
  f < U → waiting t U f d = mem_frame base (d_mem d) (slot N t f) :: waiting t U (f + 1) d.
Proof.
  intros. unfold waiting. rewrite seqZ_cons by lia. csimpl. do 3 f_equal; lia.
Qed.

Lemma waiting_nil t U d : waiting t U U d = [].
Proof. unfold waiting. by rewrite Z.sub_diag. Qed.

(** The slot of a buffer that is not free, not finished. *)
Lemma cinv_pending t U f d enq b :
  cinv t U f d enq → 0 <= b < d_n d → d_st d b = Rdy ∨ d_st d b = Tran →
  ∃ k, b = slot N t k ∧ f <= k < U ∧ k < N.
Proof.
  intros [Hn HN Hu Hd Hw Hf _ _ _] Hb Hs. rewrite Hn in Hb.
  destruct (slot_surj N t b Hb) as (k & Hk & ->). exists k. split; [done|].
  destruct (Z.lt_ge_cases k f); [destruct (Hd k); [lia|destruct Hs; congruence..]|].
  destruct (Z.lt_ge_cases k U); [lia|]. rewrite (Hf k) in Hs by lia. by destruct Hs.
Qed.

Lemma cinv_tran t U f d enq b :
  cinv t U f d enq → 0 <= b < d_n d → d_st d b = Tran → b = slot N t f ∧ f < U.
Proof.
  intros Hi Hb Hs. destruct (cinv_pending _ _ _ _ _ _ Hi Hb) as (k & -> & Hk & _); [by right|].
  destruct (ci_wait _ _ _ _ _ Hi k Hk) as [?|[-> _]]; [congruence|]. split; [done|lia].
Qed.

(** The core only validates the oldest waiting buffer. *)
Lemma cinv_max t U f d enq b :
  cinv t U f d enq → 0 <= b < d_n d → d_st d b = Rdy →
  (∀ b', 0 <= b' < d_n d → d_st d b' ≠ Tran) →
  (∀ b', 0 <= b' < d_n d → d_st d b' = Rdy → prio3 (d_prio d) b' <= prio3 (d_prio d) b) →
  b = slot N t f ∧ f < U.
Proof.
  intros Hi Hb Hs Hnt Hmax.
  destruct (cinv_pending _ _ _ _ _ _ Hi Hb) as (k & -> & Hk & HkN); [by left|].
  destruct (Z.eq_dec k f) as [->|]; [split; [done|lia]|].
  assert (Hr : 0 <= slot N t f < d_n d) by (rewrite (ci_n _ _ _ _ _ Hi); apply slot_range, Hi).
  destruct (ci_wait _ _ _ _ _ Hi f) as [Hf|[_ Hf]]; [lia| |by apply Hnt in Hf].
  pose proof (Hmax _ Hr Hf). pose proof (ci_order _ _ _ _ _ Hi f k). lia.
Qed.

Lemma cinv_validate t U f d enq :
  cinv t U f d enq → f < U → d_st d (slot N t f) = Rdy →
  cinv t U f
    (mkdev (d_n d) (d_st d) (d_prio d) (d_mem d) (d_sent d) (d_failed d) (Some (slot N t f))) enq.
Proof.
  intros [Hn HN Hu Hd Hw Hf Ho Hv Hfr] Hlt Hs. constructor; simpl; try done. by intros b [= <-].
Qed.

(** A step that changes the state of the slot [f] only and keeps it pending. *)
Lemma cinv_set_pending t U f d enq st :
  cinv t U f d enq → f < U → st = Rdy ∨ st = Tran →
  cinv t U f
    (mkdev (d_n d) (upd (d_st d) (slot N t f) st) (d_prio d) (d_mem d) (d_sent d) (d_failed d) None) enq.
Proof.
  intros [Hn HN Hu Hd Hw Hf Ho Hv Hfr] Hlt Hst.
  assert (Hne : ∀ k, 0 <= k < N → k ≠ f → slot N t k ≠ slot N t f).
  { intros k Hk Hkf E. apply slot_inj in E; lia. }
  constructor; simpl; try done.
  - intros k Hk. rewrite upd_ne by (apply Hne; lia). auto.
  - intros k Hk. destruct (Z.eq_dec k f) as [->|].
    + rewrite upd_eq. destruct Hst; auto.
    + rewrite upd_ne by (apply Hne; lia). destruct (Hw k Hk) as [?|[? _]]; [by left|lia].
  - intros k Hk. rewrite upd_ne by (apply Hne; lia). auto.
Qed.

(** The slot [f] is finished. *)
Lemma cinv_finish t U f d enq st sent failed :
  cinv t U f d enq → f < U → d_st d (slot N t f) = Tran → st = Tok ∨ st = Err →
  (sent = d_sent d ++ [mem_frame base (d_mem d) (slot N t f)] ∧ failed = d_failed d) ∨
    (sent = d_sent d ∧ failed = true) →
  cinv t U (f + 1)
    (mkdev (d_n d) (upd (d_st d) (slot N t f) st) (d_prio d) (d_mem d) sent failed None) enq.
Proof.
  intros [Hn HN Hu Hd Hw Hf Ho Hv (fin & -> & Hs & Hfail)] Hlt Ht Hst Hsent.
  assert (Hne : ∀ k, 0 <= k < N → k ≠ f → slot N t k ≠ slot N t f).
  { intros k Hk Hkf E. apply slot_inj in E; lia. }
  constructor; simpl; try done.
  - lia.
  - intros k Hk. destruct (Z.eq_dec k f) as [->|]; [by rewrite upd_eq|].
    rewrite upd_ne by (apply Hne; lia). apply Hd. lia.
  - intros k Hk. rewrite upd_ne by (apply Hne; lia). destruct (Hw k) as [?|[? _]]; [lia|by left|lia].
  - intros k Hk. rewrite upd_ne by (apply Hne; lia). auto.
  - intros i j ???. apply Ho; lia.
  - exists (fin ++ [mem_frame base (d_mem d) (slot N t f)]). rewrite waiting_cons by done.
    split; [by rewrite <- app_assoc|]. destruct Hsent as [[-> ->]|[-> ->]]; split; [|naive_solver| |done].
    + by apply sublist_app.
    + by apply sublist_inserts_r.
Qed.

Lemma cinv_bus_off t U f d enq :
  cinv t U f d enq →
  cinv t U U (mkdev (d_n d) (λ b, match d_st d b with Rdy | Tran => Err | st => st end)
    (d_prio d) (d_mem d) (d_sent d) true None) enq.
Proof.
  intros [Hn HN Hu Hd Hw Hf Ho Hv (fin & -> & Hs & Hfail)].
  constructor; simpl; try done; try lia.
  - intros k Hk. destruct (Z.lt_ge_cases k f).
    + destruct (Hd k) as [-> | ->]; [lia|by left|by right].
    + right. destruct (Hw k) as [->|[_ ->]]; [lia|done|done].
  - intros k Hk. by rewrite Hf.
  - exists (fin ++ waiting t U f d). split; [|split; [by apply sublist_inserts_r|done]].
    by rewrite waiting_nil, app_nil_r.
Qed.

(** Every step of the core keeps the invariant. *)
Lemma cinv_core_step t U f d d' enq :
  core_step base d d' → cinv t U f d enq → ∃ f', f <= f' ∧ cinv t U f' d' enq.
Proof.
  intros [b Hb Hs Hnt Hmax|b Hb Hv Hs Hnt|b Hb Hs|b Hb Hs|b Hb Hs|] Hi.
  - destruct (cinv_max _ _ _ _ _ _ Hi Hb Hs Hnt Hmax) as [-> Hlt].
    exists f. split; [done|]. by apply cinv_validate.
  - destruct (ci_val _ _ _ _ _ Hi _ Hv) as (-> & Hlt & _).
    exists f. split; [done|]. apply cinv_set_pending; auto.
  - destruct (cinv_tran _ _ _ _ _ _ Hi Hb Hs) as [-> Hlt]. exists (f + 1). split; [lia|].
    apply cinv_finish; auto.
  - destruct (cinv_tran _ _ _ _ _ _ Hi Hb Hs) as [-> Hlt]. exists (f + 1). split; [lia|].
    apply cinv_finish; auto.
  - destruct (cinv_tran _ _ _ _ _ _ Hi Hb Hs) as [-> Hlt].
    exists f. split; [done|]. apply cinv_set_pending; auto.
  - exists U. split; [apply Hi|]. by eapply cinv_bus_off.
Qed.

(** *** Accesses of the registers *)

(** The address is outside of the buffers in use. *)
Definition outside t U (a : Z) : Prop :=
  ∀ k off, 0 <= k < U → 0 <= off < 0x100 → a ≠ base + ((slot N t k + 1) * 0x100 + off).

Lemma cinv_store t U f d enq a v :
  cinv t U f d enq → outside t U a →
  cinv t U f (mkdev (d_n d) (d_st d) (d_prio d) (if accessible base d a then upd (d_mem d) a v else d_mem d)
    (d_sent d) (d_failed d) (d_val d)) enq.
Proof.
  intros [Hn HN Hu Hd Hw Hf Ho Hv (fin & -> & Hs)] Ha. constructor; simpl; try done.
  case_match; [|by exists fin].
  exists fin. split; [|done]. f_equal. apply list_fmap_ext.
  intros i k Hk. apply lookup_seqZ in Hk as [-> Hi]. symmetry. apply mem_frame_ext. intros off Hoff.
  simpl. apply upd_ne. intros E. symmetry in E. revert E. apply Ha; [lia|done].
Qed.

Lemma cinv_prio t U f d enq p :
  cinv t U f d enq →
  (∀ i j, f <= i → i < j → j < U → prio3 p (slot N t j) < prio3 p (slot N t i)) →
  cinv t U f (mkdev (d_n d) (d_st d) p (d_mem d) (d_sent d) (d_failed d) (d_val d)) enq.
Proof. intros [Hn HN Hu Hd Hw Hf Ho Hv Hfr] Hp. by constructor. Qed.

(** Only the slots matter, not the tail itself. *)
Lemma cinv_ext t t' U f d enq :
  (∀ k, slot N t' k = slot N t k) → cinv t U f d enq → cinv t' U f d enq.
Proof.
  intros E [Hn HN Hu Hd Hw Hf Ho Hv (fin & -> & Hs)].
  constructor; try done; try (intros *; rewrite !E; auto).
  exists fin. split; [|done]. f_equal. apply list_fmap_ext. intros i k _. by rewrite E.
Qed.

(** A command word with one command and one buffer. *)
Lemma command_other c b b' st :
  c = TXT_CMD_SET_EMPTY ∨ c = TXT_CMD_SET_READY → 0 <= b → 0 <= b' → b ≠ b' →
  command (Z.lor c (BIT (b + 8))) b' st = st.
Proof.
  intros Hc Hb Hb' Hne. unfold command. rewrite Z.lor_spec, testbit_BIT by lia.
  replace (b' + 8 =? b + 8) with false by lia. rewrite orb_false_r.
  assert (E : Z.testbit c (b' + 8) = false); [|by rewrite E].
  unfold TXT_CMD_SET_EMPTY, TXT_CMD_SET_READY in Hc.
  apply (Z.bits_above_log2 c); destruct Hc as [-> | ->]; simpl; lia.
Qed.

Lemma command_this c b st :
  c = TXT_CMD_SET_EMPTY ∨ c = TXT_CMD_SET_READY → 0 <= b →
  command (Z.lor c (BIT (b + 8))) b st =
    match st with
    | Ety => if c =? TXT_CMD_SET_READY then Rdy else Ety
    | Tok | Err => if c =? TXT_CMD_SET_READY then Rdy else Ety
    | _ => st
    end.
Proof.
  intros Hc Hb. unfold command. rewrite !Z.lor_spec, !testbit_BIT by lia.
  rewrite Z.eqb_refl, orb_true_r. replace (1 =? b + 8) with false by lia.
  replace (0 =? b + 8) with false by lia. by destruct Hc as [-> | ->].
Qed.

(** "Set empty" for a finished oldest buffer. *)
Lemma cinv_set_empty t U f d enq :
  cinv t U f d enq → 1 <= f →
  cinv (t + 1) (U - 1) (f - 1) (mkdev (d_n d)
    (λ b, command (Z.lor TXT_CMD_SET_EMPTY (BIT (slot N t 0 + 8))) b (d_st d b))
    (d_prio d) (d_mem d) (d_sent d) (d_failed d) (d_val d)) enq.
Proof.
  intros [Hn HN Hu Hd Hw Hf Ho Hv (fin & -> & Hs)] Hf1.
  pose proof (slot_range N t 0 HN) as H0.
  assert (Hoth : ∀ k st, 0 <= k < N - 1 →
    command (Z.lor TXT_CMD_SET_EMPTY (BIT (slot N t 0 + 8))) (slot N t (k + 1)) st = st).
  { intros k st Hk. pose proof (slot_range N t (k + 1) HN). apply command_other; [by left|lia..|].
    intros E. apply slot_inj in E; lia. }
  constructor; simpl; try done; try lia.
  - intros k Hk. rewrite slot_shift, Hoth by lia. apply Hd. lia.
  - intros k Hk. rewrite slot_shift, Hoth by lia. destruct (Hw (k + 1)) as [?|[? ?]]; [lia|by left|right].
    split; [lia|done].
  - intros k Hk. rewrite slot_shift. destruct (Z.eq_dec k (N - 1)) as [->|].
    + assert (slot N t (N - 1 + 1) = slot N t 0) as ->.
      { unfold slot. rewrite Z.sub_add, Z.add_0_r. rewrite <- (Z.mod_add t 1 N) by lia. f_equal. lia. }
      rewrite command_this by (auto || lia). by destruct (Hd 0) as [-> | ->]; [lia|..].
    + rewrite Hoth by lia. apply Hf. lia.
  - intros i j ???. rewrite !slot_shift. apply Ho; lia.
  - intros b [-> [? Hs']]%Hv. rewrite slot_shift, Z.sub_add.
    pose proof (Hoth (f - 1) (d_st d (slot N t f)) ltac:(lia)) as E. rewrite Z.sub_add in E. rewrite E.
    split_and!; [done|lia|done].
  - exists fin. split; [|done]. f_equal. unfold waiting. simpl.
    replace (U - 1 - (f - 1)) with (U - f) by lia.
    replace f with (1 + (f - 1)) at 1 by lia. rewrite <- fmap_add_seqZ, <- list_fmap_compose.
    apply list_fmap_ext. intros i k _. simpl. by rewrite slot_shift, Z.add_comm.
Qed.

(** "Set ready" for the first free buffer. *)
Lemma cinv_set_ready t U f d enq :
  cinv t U f d enq → U < N →
  (∀ i, f <= i < U → prio3 (d_prio d) (slot N t U) < prio3 (d_prio d) (slot N t i)) →
  cinv t (U + 1) f (mkdev (d_n d)
    (λ b, command (Z.lor TXT_CMD_SET_READY (BIT (slot N t U + 8))) b (d_st d b))
    (d_prio d) (d_mem d) (d_sent d) (d_failed d) (d_val d))
    (enq ++ [mem_frame base (d_mem d) (slot N t U)]).
Proof.
  intros [Hn HN Hu Hd Hw Hf Ho Hv (fin & -> & Hs)] HU Hp.
  assert (Hoth : ∀ k st, 0 <= k < N → k ≠ U →
    command (Z.lor TXT_CMD_SET_READY (BIT (slot N t U + 8))) (slot N t k) st = st).
  { intros k st Hk Hne. pose proof (slot_range N t k HN). pose proof (slot_range N t U HN).
    apply command_other; [by right|lia..|]. intros E. apply slot_inj in E; lia. }
  pose proof (slot_range N t U HN).
  constructor; simpl; try done; try lia.
  - intros k Hk. rewrite Hoth by lia. by apply Hd.
  - intros k Hk. destruct (Z.eq_dec k U) as [->|]; [|rewrite Hoth by lia; apply Hw; lia].
    left. rewrite command_this by (auto || lia). by rewrite Hf by lia.
  - intros k Hk. rewrite Hoth by lia. apply Hf. lia.
  - intros i j ???. destruct (Z.eq_dec j U) as [->|]; [apply Hp|apply Ho]; lia.
  - intros b [-> [? Hs']]%Hv. rewrite Hoth by lia. split_and!; [done|lia|done].
  - exists fin. split; [|done]. rewrite <- app_assoc. f_equal. unfold waiting. simpl.
    replace (U + 1 - f) with ((U - f) + 1) by lia. rewrite seqZ_app by lia.
    rewrite fmap_app. f_equal. replace (f + (U - f)) with U by lia. done.
Qed.

(** Steps of the core between two accesses. *)
Lemma cinv_core_steps t U f d d' enq :
  dev_run base d [] d' → cinv t U f d enq →
  (∃ f', f <= f' ∧ cinv t U f' d' enq) ∧ d_prio d' = d_prio d ∧ d_mem d' = d_mem d.
Proof.
  remember [] as tr eqn:E. intros Hr. revert f. induction Hr as [d|d d1 tr d2 Hs Hr IH|]; intros f Hi;
    [|subst tr|done].
  - split; [|done]. by exists f.
  - destruct (cinv_core_step _ _ _ _ _ _ Hs Hi) as (f1 & ? & Hi1).
    destruct (IH eq_refl f1 Hi1) as ((f2 & ? & ?) & Hp & Hm).
    split; [exists f2; split; [lia|done]|]. rewrite Hp, Hm. by destruct Hs.
Qed.

End Ring.

(** ** The system *)

(** The words of a frame in a TXT buffer. *)
Definition frame_words (skb : sk_buff) : txt_frame :=
  (frame_ffw (skb_cf skb) (skb_canfd skb), frame_idw (skb_cf skb), sent_words (skb_cf skb) (skb_canfd skb)).

(** The driver and the core; the frames queued so far; and the frame that
    [ctucan_start_xmit] is inserting, with the words not written yet. *)
Record sys := mksys {
  y_net : net_device;
  y_dev : txdev;
  y_enq : list txt_frame;
  y_pend : option (sk_buff * list (Z * Z));
}.

(** The core runs at any time, and so does the interrupt handler: its events
    interleave with those of [ctucan_start_xmit] but for the parts both execute with the
    lock held.  The network layer calls [ctucan_start_xmit] for one frame at a time. *)
Inductive sys_step : sys → sys → Prop :=
  | y_core n d enq p d' :
      core_step (mem_base (priv n)) d d' → sys_step (mksys n d enq p) (mksys n d' enq p)
  (** an event of the handler or of [ctucan_start_xmit] that concerns no buffer *)
  | y_silent n d enq p e d' :
      match e with EvStore a _ => a = reg_at n CTUCANFD_INT_STAT | _ => True end →
      dev_ev (mem_base (priv n)) d e d' → sys_step (mksys n d enq p) (mksys n d' enq p)
  (** the handler completes the oldest buffer (with the lock held) *)
  | y_finish n d enq p evs n' d' :
      0 < ring_used n → tx_finish n evs n' → dev_run (mem_base (priv n)) d evs d' →
      sys_step (mksys n d enq p) (mksys n' d' enq p)
  (** [ctucan_start_xmit] reads that a buffer is free *)
  | y_begin n d enq skb v d' :
      sendable (skb_cf skb) (skb_canfd skb) → txnf v = true →
      dev_ev (mem_base (priv n)) d (EvLoad (reg_at n CTUCANFD_STATUS) v) d' →
      sys_step (mksys n d enq None)
        (mksys n d' enq (Some (skb, stores (frame_image n (skb_cf skb) (head_buf n) (skb_canfd skb)))))
  (** it writes a word of the frame *)
  | y_write n d enq skb a v l d' :
      dev_ev (mem_base (priv n)) d (EvStore a v) d' →
      sys_step (mksys n d enq (Some (skb, (a, v) :: l))) (mksys n d' enq (Some (skb, l)))
  (** it gives up because the buffer is not writable *)
  | y_refuse n d enq skb l w d' :
      dev_ev (mem_base (priv n)) d (EvLoad (reg_at n CTUCANFD_TX_STATUS) w) d' →
      txtb_writable w (head_buf n) = false →
      sys_step (mksys n d enq (Some (skb, l))) (mksys (count_drop n) d' enq None)
  (** it sets the buffer ready and moves the head (with the lock held) *)
  | y_commit n d enq skb d' :
      dev_ev (mem_base (priv n)) d
        (EvStore (reg_at n CTUCANFD_TX_COMMAND) (Z.lor TXT_CMD_SET_READY (BIT (head_buf n + 8)))) d' →
      sys_step (mksys n d enq (Some (skb, [])))
        (mksys (enqueue n) d' (enq ++ [frame_words skb]) None).

(** *** Words being written *)

Fixpoint mem_stores (l : list (Z * Z)) (mem : Z → Z) : Z → Z :=
  match l with [] => mem | (a, v) :: l' => mem_stores l' (upd mem a v) end.

Lemma mem_stores_read l mem a : mem_stores l mem a = default (mem a) (mem_read a l).
Proof.
  revert mem. induction l as [|[b v] l IH]; intros mem; simpl; [done|]. rewrite IH. unfold upd.
  destruct (mem_read a l); [done|]. by destruct (Z.eqb_spec a b).
Qed.

Definition in_buf (base b a : Z) : Prop := ∃ off, 0 <= off < 0x100 ∧ a = base + ((b + 1) * 0x100 + off).

Lemma image_in_buf n cf buf fd :
  len cf <= 64 → Forall (λ p, in_buf (mem_base (priv n)) buf (fst p)) (stores (frame_image n cf buf fd)).
Proof.
  intros Hl. pose proof (nwords_bounds (len cf)). unfold frame_image. cbn [stores].
  assert (Hoff : ∀ off, 0 <= off < 0x100 → in_buf (mem_base (priv n)) buf (txtb_at n buf off)).
  { intros off ?. by exists off. }
  do 2 (apply Forall_cons; split; [by apply Hoff|]).
  case_match; [done|]. rewrite stores_fmap. apply Forall_fmap, Forall_forall.
  intros j Hj%elem_of_seqZ. simpl. apply Hoff. unfold CTUCANFD_DATA_1_4_W. lia.
Qed.

Lemma image_frame n skb buf mem :
  sendable (skb_cf skb) (skb_canfd skb) →
  mem_frame (mem_base (priv n))
    (mem_stores (stores (frame_image n (skb_cf skb) buf (skb_canfd skb))) mem) buf = frame_words skb.
Proof.
  intros Hse. destruct (image_words n _ buf _ Hse) as (Hf & Hi & Hd).
  set (l := stores _) in *.
  assert (Hl : ∀ a w, mem_read a l = Some w → mem_stores l mem a = w).
  { intros a w E. by rewrite mem_stores_read, E. }
  clearbody l. unfold mem_frame. unfold txtb_at, reg_at in *. rewrite (Hl _ _ Hf), (Hl _ _ Hi).
  unfold frame_words, sent_words. f_equal. rewrite <- (sent_payload_ffw _ _) by done.
  apply list_fmap_ext. intros i j Hj. apply lookup_seqZ in Hj as [-> ?]. apply Hl, Hd. lia.
Qed.

(** *** The invariant *)

Lemma head_slot n :
  ring_wf n → ring_pow2 n → 0 <= ring_used n →
  head_buf n = slot (ntxbufs (priv n)) (txb_tail (priv n)) (ring_used n).
Proof.
  intros Hwf Hp Hu. unfold head_buf, slot. rewrite <- (u32_mod_divide _ (_ + _)) by done.
  unfold ring_used, s32 in *. set (h := txb_head (priv n)) in *. set (t := txb_tail (priv n)) in *.
  pose proof (u32_range (h - t)) as [? ?].
  destruct (Z.ltb_spec (u32 (h - t)) (2 ^ 31)); [|lia].
  unfold u32 at 1 2. rewrite Z.add_mod_idemp_r, Zplus_minus by done.
  f_equal. symmetry. apply u32_small, Hwf.
Qed.

Lemma ring_used_enqueue n :
  0 <= ring_used n < 8 → ring_used (enqueue n) = ring_used n + 1.
Proof.
  unfold ring_used, s32. simpl. set (h := txb_head (priv n)). set (t := txb_tail (priv n)).
  intros Hu. assert (E : u32 (u32 (h + 1) - t) = u32 (u32 (h - t) + 1)).
  { unfold u32. rewrite Zminus_mod_idemp_l, Z.add_mod_idemp_l by done. f_equal. lia. }
  rewrite E. pose proof (u32_range (h - t)) as [? ?].
  destruct (Z.ltb_spec (u32 (h - t)) (2 ^ 31)); [|lia].
  rewrite u32_small by (unfold is_u32; lia).
  by destruct (Z.ltb_spec (u32 (h - t) + 1) (2 ^ 31)); [|lia].
Qed.

Lemma nibble_prio3 p b x : nibble p b = x → 0 <= x < 8 → prio3 p b = x.
Proof.
  intros <- Hx. unfold prio3, nibble in *. set (y := Z.shiftr p (4 * b)) in *.
  change 0x7 with (Z.land 0xF 0x7). rewrite Z.land_assoc. change 0x7 with (Z.ones 3).
  rewrite Z.land_ones by done. by apply Z.mod_small.
Qed.

Definition pend_ok (n : net_device) (d : txdev) (p : option (sk_buff * list (Z * Z))) : Prop :=
  match p with
  | None => True
  | Some (skb, l) =>
      sendable (skb_cf skb) (skb_canfd skb) ∧ ring_used n < ntxbufs (priv n) ∧
      Forall (λ p, in_buf (mem_base (priv n)) (head_buf n) (fst p)) l ∧
      mem_frame (mem_base (priv n)) (mem_stores l (d_mem d)) (head_buf n) = frame_words skb
  end.

Record sinv (y : sys) : Prop := {
  si_wf : ring_wf (y_net y);
  si_pow2 : ring_pow2 (y_net y);
  si_prio : prio_inv (y_net y);
  si_dprio : d_prio (y_dev y) = txb_prio (priv (y_net y));
  si_ring : ∃ f, cinv (mem_base (priv (y_net y))) (ntxbufs (priv (y_net y)))
    (txb_tail (priv (y_net y))) (ring_used (y_net y)) f (y_dev y) (y_enq y);
  si_pend : pend_ok (y_net y) (y_dev y) (y_pend y);
}.

(** A register is no part of a buffer. *)
Lemma reg_outside base N t U r : 0 < N → r < 0x100 → outside base N t U (base + r).
Proof. intros HN Hr k off Hk Hoff. pose proof (slot_range N t k HN). lia. Qed.

(** A word of the next free buffer is no part of a buffer in use. *)
Lemma free_outside base N t U a : U < N → in_buf base (slot N t U) a → outside base N t U a.
Proof.
  intros HU (o & Ho & ->) k off Hk Hoff E.
  assert (slot N t k = slot N t U) as E' by lia. apply slot_inj in E'; lia.
Qed.

(** The next free buffer can be written. *)
Lemma free_accessible base N t U f d enq a :
  cinv base N t U f d enq → U < N → in_buf base (slot N t U) a → accessible base d a = true.
Proof.
  intros Hi HU (o & Ho & ->). unfold accessible.
  replace (base + ((slot N t U + 1) * 0x100 + o) - base) with (o + (slot N t U + 1) * 0x100) by lia.
  rewrite Z.div_add, Z.div_small, Z.add_0_l, Z.add_simpl_r by lia.
  rewrite (ci_free _ _ _ _ _ _ _ Hi) by (pose proof (ci_used _ _ _ _ _ _ _ Hi); lia).
  by rewrite andb_false_r.
Qed.

(** A word written elsewhere does not matter to the frame being written. *)
Lemma pend_ok_reg n d p a v :
  a < mem_base (priv n) + 0x100 → ring_wf n → pend_ok n d p →
  pend_ok n (mkdev (d_n d) (d_st d) (d_prio d)
    (if accessible (mem_base (priv n)) d a then upd (d_mem d) a v else d_mem d)
    (d_sent d) (d_failed d) (d_val d)) p.
Proof.
  intros Ha Hwf. destruct p as [[skb l]|]; [|done]. intros (Hse & Hu & Hl & Hfr). split_and!; try done.
  pose proof (head_buf_range _ Hwf). rewrite <- Hfr. apply mem_frame_ext. intros off Hoff. simpl.
  rewrite !mem_stores_read. case_match; [|done]. by rewrite upd_ne by lia.
Qed.

(** *** The steps keep the invariant *)

Lemma status_of_code v b c :
  Z.land (Z.shiftr v (4 * b)) 0xF = c → txtb_status v b = Z.land c 0x7.
Proof.
  intros <-. unfold txtb_status. rewrite <- Z.land_assoc, Z.mul_comm. done.
Qed.

(** After the rotation the order holds from the second slot on. *)
Lemma rotated_order n i j :
  ring_wf n → prio_inv n → 1 <= i → i < j → j < ntxbufs (priv n) →
  let s := slot (ntxbufs (priv n)) (txb_tail (priv n)) in
  let p := rotate_prio (ntxbufs (priv n)) (txb_prio (priv n)) in
  prio3 p (s j) < prio3 p (s i).
Proof.
  intros Hwf Hinv Hi Hij Hj s p. pose proof (rw_n _ Hwf) as HN.
  assert (E : ∀ k, 1 <= k < ntxbufs (priv n) → prio3 p (s k) = 8 - k).
  { intros k Hk. apply nibble_prio3; [|lia]. unfold p.
    rewrite nibble_rotate by (done || apply slot_range; lia). unfold s, slot.
    replace (txb_tail (priv n) + k) with (txb_tail (priv n) + (k - 1) + 1) by lia.
    rewrite <- mod_pred, Hinv by lia. lia. }
  rewrite !E by lia. lia.
Qed.

Lemma prio_inv_order n i :
  ring_wf n → prio_inv n → 0 <= i < ntxbufs (priv n) →
  prio3 (txb_prio (priv n)) (slot (ntxbufs (priv n)) (txb_tail (priv n)) i) = 7 - i.
Proof. intros Hwf Hinv Hi. pose proof (rw_n _ Hwf). apply nibble_prio3; [by apply Hinv|lia]. Qed.

(** The priorities are rotated: the oldest buffer stays finished. *)
Lemma rotate_run n d d1 f enq :
  ring_wf n → prio_inv n →
  cinv (mem_base (priv n)) (ntxbufs (priv n)) (txb_tail (priv n)) (ring_used n) f d enq → 1 <= f →
  dev_run (mem_base (priv n)) d
    [EvStore (reg_at n CTUCANFD_TX_PRIORITY) (rotate_prio (ntxbufs (priv n)) (txb_prio (priv n)))] d1 →
  (∃ f', f <= f' ∧ cinv (mem_base (priv n)) (ntxbufs (priv n)) (txb_tail (priv n)) (ring_used n) f' d1 enq) ∧
  d_prio d1 = rotate_prio (ntxbufs (priv n)) (txb_prio (priv n)) ∧ d_mem d1 = d_mem d.
Proof.
  intros Hwf Hinv Hi Hf Hrun.
  apply dev_run_cons_inv in Hrun as (d0 & d2 & H0 & E2 & Hrun).
  destruct (cinv_core_steps _ _ _ _ _ _ _ _ H0 Hi) as ((f1 & ? & Hi1) & _ & Hm1).
  unfold dev_ev in E2. unfold reg_at in E2.
  rewrite (proj2 (Z.eqb_neq _ _)), Z.eqb_refl in E2
    by (unfold CTUCANFD_TX_PRIORITY, CTUCANFD_TX_COMMAND; lia).
  assert (Hi2 : cinv (mem_base (priv n)) (ntxbufs (priv n)) (txb_tail (priv n)) (ring_used n) f1 d2 enq).
  { subst d2. apply cinv_prio; [done|]. intros i j ???. pose proof (ci_used _ _ _ _ _ _ _ Hi1).
    apply rotated_order; done || lia. }
  destruct (cinv_core_steps _ _ _ _ _ _ _ _ Hrun Hi2) as ((f3 & ? & Hi3) & Hp3 & Hm3).
  split_and!; [exists f3; split; [lia|done]|by rewrite Hp3, E2|]. by rewrite Hm3, E2.
Qed.

(** The two writes that release the oldest buffer. *)
Lemma release_run n d d' f enq :
  ring_wf n → ring_pow2 n → prio_inv n → 0 < ring_used n →
  cinv (mem_base (priv n)) (ntxbufs (priv n)) (txb_tail (priv n)) (ring_used n) f d enq → 1 <= f →
  dev_run (mem_base (priv n)) d (release n) d' →
  (∃ f', cinv (mem_base (priv n)) (ntxbufs (priv n)) (txb_tail (priv (advance n)))
     (ring_used (advance n)) f' d' enq) ∧
  d_prio d' = txb_prio (priv (advance n)) ∧ d_mem d' = d_mem d.
Proof.
  intros Hwf Hp Hinv Hu Hi Hf Hrun.
  apply (dev_run_app_inv _ [_] [_]) in Hrun as (d2 & H2 & Hrun).
  destruct (rotate_run _ _ _ _ _ Hwf Hinv Hi Hf H2) as ((f2 & ? & Hi2) & Hp2 & Hm2).
  apply dev_run_cons_inv in Hrun as (d3 & d4 & H3 & E4 & Hrun).
  destruct (cinv_core_steps _ _ _ _ _ _ _ _ H3 Hi2) as ((f3 & ? & Hi3) & Hp3 & Hm3).
  unfold dev_ev in E4. unfold reg_at in E4. rewrite Z.eqb_refl in E4.
  apply cinv_set_empty in Hi3; [|lia].
  assert (Hsl : slot (ntxbufs (priv n)) (txb_tail (priv n)) 0 = tail_buf n).
  { unfold slot, tail_buf. by rewrite Z.add_0_r. }
  rewrite Hsl in Hi3. rewrite <- E4 in Hi3.
  destruct (cinv_core_steps _ _ _ _ _ _ _ _ Hrun Hi3) as ((f4 & ? & Hi4) & Hp4 & Hm4).
  split_and!.
  - exists f4. rewrite ring_used_advance by done. eapply cinv_ext; [|exact Hi4].
    intros k. cbn [advance]. simpl. apply slot_u32; [done|]. pose proof (rw_n _ Hwf). lia.
  - rewrite Hp4, E4. simpl. by rewrite Hp3, Hp2.
  - rewrite Hm4, E4. simpl. by rewrite Hm3, Hm2.
Qed.

(** The status read shows a finished buffer. *)
Lemma finished_seen base N t U f d enq v b d' :
  cinv base N t U f d enq → 0 < U → b = slot N t 0 →
  dev_ev base d (EvLoad (base + CTUCANFD_TX_STATUS) v) d' →
  txtb_status v b = TXT_TOK ∨ txtb_status v b = TXT_ERR ∨ txtb_status v b = TXT_ABT →
  d' = d ∧ 1 <= f.
Proof.
  intros Hi HU -> (-> & Hst & _) Hs. split; [done|].
  assert (Hb : 0 <= slot N t 0 < d_n d) by (rewrite (ci_n _ _ _ _ _ _ _ Hi); apply slot_range, Hi).
  pose proof (status_of_code _ _ _ (Hst eq_refl _ Hb)) as E.
  destruct (Z.le_gt_cases 1 f); [done|]. pose proof (ci_used _ _ _ _ _ _ _ Hi).
  rewrite E in Hs.
  destruct (ci_wait _ _ _ _ _ _ _ Hi 0) as [Ew|[_ Ew]]; [lia|..]; rewrite Ew in Hs; by destruct Hs as [|[|]].
Qed.

(** The events of the completion before the writes: the status read shows that the buffer is finished. *)
Lemma finish_head n d d1 f enq evs n' :
  ring_wf n → 0 < ring_used n →
  cinv (mem_base (priv n)) (ntxbufs (priv n)) (txb_tail (priv n)) (ring_used n) f d enq →
  tx_finish n evs n' →
  ∃ hd, evs = hd ++ release n ∧
    Forall (λ e, match e with EvStore _ _ => False | _ => True end) hd ∧
    (dev_run (mem_base (priv n)) d hd d1 →
     ∃ f1, 1 <= f1 ∧ d_mem d1 = d_mem d ∧
       cinv (mem_base (priv n)) (ntxbufs (priv n)) (txb_tail (priv n)) (ring_used n) f1 d1 enq).
Proof.
  intros Hwf Hu Hi Hfin.
  assert (Hsl : tail_buf n = slot (ntxbufs (priv n)) (txb_tail (priv n)) 0).
  { unfold slot, tail_buf. by rewrite Z.add_0_r. }
  assert (Hstep : ∀ v tr,
    txtb_status v (tail_buf n) = TXT_TOK ∨ txtb_status v (tail_buf n) = TXT_ERR ∨
      txtb_status v (tail_buf n) = TXT_ABT →
    (∀ d2, dev_run (mem_base (priv n)) d2 tr d1 → dev_run (mem_base (priv n)) d2 [] d1) →
    dev_run (mem_base (priv n)) d (EvLoad (reg_at n CTUCANFD_TX_STATUS) v :: tr) d1 →
    ∃ f1, 1 <= f1 ∧ d_mem d1 = d_mem d ∧
      cinv (mem_base (priv n)) (ntxbufs (priv n)) (txb_tail (priv n)) (ring_used n) f1 d1 enq).
  { intros v tr Hst Hcalls Hr. apply dev_run_cons_inv in Hr as (d0 & d2 & H0 & E2 & Hr%Hcalls).
    destruct (cinv_core_steps _ _ _ _ _ _ _ _ H0 Hi) as ((f0 & ? & Hi0) & _ & Hm0).
    destruct (finished_seen _ _ _ _ _ _ _ _ _ _ Hi0 Hu Hsl E2 Hst) as [-> ?].
    destruct (cinv_core_steps _ _ _ _ _ _ _ _ Hr Hi0) as ((f1 & ? & Hi1) & _ & Hm1).
    exists f1. split_and!; [lia|congruence|done]. }
  destruct Hfin as [v l Hst|v msg r1 r2 Hst].
  - eexists [_; _]. split_and!; [done|by repeat constructor|]. apply Hstep; [by left|]. intros d2. by apply dev_run_call.
  - eexists [_; _; _]. split_and!; [done|by repeat constructor|]. apply Hstep; [by right|].
    intros d2 H2. by do 2 eapply dev_run_call.
Qed.

Lemma finish_run n d d' f enq evs n' :
  ring_wf n → ring_pow2 n → prio_inv n → 0 < ring_used n →
  cinv (mem_base (priv n)) (ntxbufs (priv n)) (txb_tail (priv n)) (ring_used n) f d enq →
  tx_finish n evs n' → dev_run (mem_base (priv n)) d evs d' →
  (∃ f', cinv (mem_base (priv n)) (ntxbufs (priv n)) (txb_tail (priv (advance n)))
     (ring_used (advance n)) f' d' enq) ∧
  d_prio d' = txb_prio (priv (advance n)) ∧ d_mem d' = d_mem d.
Proof.
  intros Hwf Hp Hinv Hu Hi Hfin Hrun.
  assert (Hadv : priv n' = priv (advance n)) by by apply (tx_finish_priv _ _ _ Hfin).
  destruct (finish_head n d d f enq evs n' Hwf Hu Hi Hfin) as (hd & -> & _ & _).
  apply dev_run_app_inv in Hrun as (d1 & H1 & H2).
  destruct (finish_head n d d1 f enq _ n' Hwf Hu Hi Hfin) as (hd' & E & _ & Hhd).
  apply app_inv_tail in E as <-. destruct (Hhd H1) as (f1 & ? & <- & Hi1). by eapply release_run.
Qed.

(** A state with the same network device and memory keeps what is being written. *)
Lemma pend_ok_mem n d d' p : d_mem d' = d_mem d → pend_ok n d p → pend_ok n d' p.
Proof. intros E. unfold pend_ok. by rewrite E. Qed.

Lemma load_same base d a v d' : dev_ev base d (EvLoad a v) d' → d' = d.
Proof. by intros [-> _]. Qed.

Lemma sinv_core n d enq p d' :
  core_step (mem_base (priv n)) d d' → sinv (mksys n d enq p) → sinv (mksys n d' enq p).
Proof.
  intros Hs [Hwf Hp Hi Hd (f & Hr) Hpend]. simpl in *.
  destruct (cinv_core_step _ _ _ _ _ _ _ _ Hs Hr) as (f' & _ & Hr').
  constructor; simpl; try done; [|by exists f'|]; [by destruct Hs|].
  eapply pend_ok_mem; [|done]. by destruct Hs.
Qed.

Lemma sinv_silent n d enq p e d' :
  match e with EvStore a _ => a = reg_at n CTUCANFD_INT_STAT | _ => True end →
  dev_ev (mem_base (priv n)) d e d' → sinv (mksys n d enq p) → sinv (mksys n d' enq p).
Proof.
  intros He Hev Hy. destruct e as [a v|a v|c r|k b]; simpl in Hev; [by destruct Hev as [-> _]| |by subst..].
  subst a. unfold reg_at in Hev. rewrite !(proj2 (Z.eqb_neq _ _)) in Hev
    by (unfold CTUCANFD_INT_STAT, CTUCANFD_TX_PRIORITY, CTUCANFD_TX_COMMAND; lia). subst d'.
  destruct Hy as [Hwf Hp Hi Hd (f & Hr) Hpend]. simpl in *. constructor; simpl; try done.
  - exists f. apply cinv_store; [done|]. by apply reg_outside; [apply Hr|].
  - apply pend_ok_reg; [|done|done]. unfold CTUCANFD_INT_STAT. lia.
Qed.

Lemma sinv_finish n d enq p evs n' d' :
  0 < ring_used n → tx_finish n evs n' → dev_run (mem_base (priv n)) d evs d' →
  sinv (mksys n d enq p) → sinv (mksys n' d' enq p).
Proof.
  intros Hu Hfin Hrun [Hwf Hp Hi Hd (f & Hr) Hpend]. simpl in *.
  destruct (finish_run _ _ _ _ _ _ _ Hwf Hp Hi Hu Hr Hfin Hrun) as ((f' & Hr') & Hd' & Hm').
  pose proof (tx_finish_priv _ _ _ Hfin) as En. pose proof (tx_finish_used _ _ _ Hfin Hu) as Eu.
  assert (Ea : ring_used n' = ring_used (advance n)) by by rewrite Eu, ring_used_advance.
  constructor; cbn [y_net y_dev y_enq y_pend].
  - by eapply tx_finish_wf.
  - unfold ring_pow2. by rewrite En.
  - unfold prio_inv. rewrite En. by apply prio_inv_advance.
  - by rewrite En.
  - exists f'. by rewrite Ea, En.
  - eapply pend_ok_mem; [exact Hm'|]. destruct p as [[skb l]|]; [|done].
    destruct Hpend as (Hse & Hlt & Hl & Hfr). unfold pend_ok, head_buf in *. rewrite Eu, En.
    simpl. split_and!; [done|lia|done|done].
Qed.

(** A free buffer exists only if the ring is not full. *)
Lemma free_not_full base N t U f d enq v d' :
  cinv base N t U f d enq → dev_ev base d (EvLoad (base + CTUCANFD_STATUS) v) d' →
  (txnf v = true ↔ U < N).
Proof.
  intros Hi (-> & _ & Hst). rewrite Hst by done. pose proof (ci_used _ _ _ _ _ _ _ Hi) as Hu.
  pose proof (ci_n _ _ _ _ _ _ _ Hi) as Hn. pose proof (ci_pos _ _ _ _ _ _ _ Hi) as HN. split.
  - intros (b & Hb & Hs). rewrite Hn in Hb. destruct (slot_surj N t b Hb) as (k & Hk & ->).
    destruct (Z.lt_ge_cases k f); [destruct (ci_done _ _ _ _ _ _ _ Hi k); [lia|congruence..]|].
    destruct (Z.lt_ge_cases k U); [|lia].
    destruct (ci_wait _ _ _ _ _ _ _ Hi k) as [|[_ ?]]; [lia|congruence..].
  - intros HU. exists (slot N t U). rewrite Hn. split; [by apply slot_range|].
    apply (ci_free _ _ _ _ _ _ _ Hi). lia.
Qed.

Lemma sinv_begin n d enq skb v d' :
  sendable (skb_cf skb) (skb_canfd skb) → txnf v = true →
  dev_ev (mem_base (priv n)) d (EvLoad (reg_at n CTUCANFD_STATUS) v) d' →
  sinv (mksys n d enq None) →
  sinv (mksys n d' enq (Some (skb, stores (frame_image n (skb_cf skb) (head_buf n) (skb_canfd skb))))).
Proof.
  intros Hse Hv Hev [Hwf Hp Hi Hd (f & Hr) _]. simpl in *. pose proof (load_same _ _ _ _ _ Hev). subst d'.
  apply (free_not_full _ _ _ _ _ _ _ _ _ Hr Hev) in Hv.
  constructor; cbn [y_net y_dev y_enq y_pend]; try done; [by exists f|]. split_and!; [done|lia| |].
  - apply image_in_buf. by apply (sent_len _ _ Hse).
  - by apply image_frame.
Qed.

Lemma sinv_write n d enq skb a v l d' :
  dev_ev (mem_base (priv n)) d (EvStore a v) d' →
  sinv (mksys n d enq (Some (skb, (a, v) :: l))) → sinv (mksys n d' enq (Some (skb, l))).
Proof.
  intros Hev [Hwf Hp Hi Hd (f & Hr) (Hse & Hu & Hl & Hfr)]. cbn [y_net y_dev y_enq y_pend] in *.
  apply Forall_cons in Hl as [Ha Hl]. cbn [fst] in Ha.
  pose proof (head_buf_range _ Hwf) as Hb. unfold dev_ev in Hev.
  assert (Hge : mem_base (priv n) + 0x100 <= a) by (destruct Ha as (off & ? & ->); lia).
  rewrite !(proj2 (Z.eqb_neq _ _)) in Hev by (unfold CTUCANFD_TX_PRIORITY, CTUCANFD_TX_COMMAND; lia).
  pose proof (ci_used _ _ _ _ _ _ _ Hr) as Hur.
  assert (Hhead : head_buf n = slot (ntxbufs (priv n)) (txb_tail (priv n)) (ring_used n))
    by (apply head_slot; done || lia).
  assert (Hacc : accessible (mem_base (priv n)) d a = true).
  { apply (free_accessible _ _ _ _ _ _ _ _ Hr); [lia|by rewrite <- Hhead]. }
  subst d'. constructor; cbn [y_net y_dev y_enq y_pend]; try done.
  - exists f. apply cinv_store; [done|]. apply free_outside; [lia|]. by rewrite <- Hhead.
  - split_and!; [done|lia|done|]. cbn [d_mem]. by rewrite Hacc.
Qed.

Lemma sinv_refuse n d enq skb l w d' :
  dev_ev (mem_base (priv n)) d (EvLoad (reg_at n CTUCANFD_TX_STATUS) w) d' →
  sinv (mksys n d enq (Some (skb, l))) → sinv (mksys (count_drop n) d' enq None).
Proof.
  intros ->%load_same [Hwf Hp Hi Hd (f & Hr) _]. constructor; try done; [|by exists f].
  by destruct Hwf.
Qed.

Lemma sinv_commit n d enq skb d' :
  dev_ev (mem_base (priv n)) d
    (EvStore (reg_at n CTUCANFD_TX_COMMAND) (Z.lor TXT_CMD_SET_READY (BIT (head_buf n + 8)))) d' →
  sinv (mksys n d enq (Some (skb, []))) →
  sinv (mksys (enqueue n) d' (enq ++ [frame_words skb]) None).
Proof.
  intros Hev [Hwf Hp Hi Hd (f & Hr) (Hse & Hu & _ & Hfr)]. cbn [y_net y_dev y_enq y_pend mem_stores] in *.
  unfold dev_ev, reg_at in Hev. rewrite Z.eqb_refl in Hev.
  pose proof (ci_used _ _ _ _ _ _ _ Hr). pose proof (rw_n _ Hwf).
  constructor; cbn [y_net y_dev y_enq y_pend]; try done.
  - destruct Hwf. constructor; simpl; try done. apply u32_range.
  - subst d'. done.
  - exists f. rewrite ring_used_enqueue, <- Hfr by lia. subst d'.
    rewrite (head_slot n) by (done || lia). apply (cinv_set_ready _ _ _ _ _ _ _ Hr); [done|].
    intros i Hi'. rewrite Hd, !prio_inv_order by (done || lia). lia.
Qed.

Lemma sinv_step y y' : sys_step y y' → sinv y → sinv y'.
Proof.
  intros []; eauto using sinv_core, sinv_silent, sinv_finish, sinv_begin, sinv_write, sinv_refuse, sinv_commit.
Qed.

Lemma sinv_steps y y' : rtc sys_step y y' → sinv y → sinv y'.
Proof. induction 1; eauto using sinv_step. Qed.

(** ** Order *)

(** After the start of the controller: the ring and all buffers are empty. *)
Record sinit (n : net_device) (d : txdev) : Prop := {
  in_wf : ring_wf n;
  in_pow2 : ring_pow2 n;
  in_prio : prio_inv n;
  in_used : ring_used n = 0;
  in_n : d_n d = ntxbufs (priv n);
  in_st : ∀ b, 0 <= b < d_n d → d_st d b = Ety;
  in_dprio : d_prio d = txb_prio (priv n);
  in_sent : d_sent d = [];
  in_failed : d_failed d = false;
  in_val : d_val d = None;
}.

Lemma sinit_sinv n d : sinit n d → sinv (mksys n d [] None).
Proof.
  intros [Hwf Hp Hi Hu Hn Hst Hd Hs Hf Hv]. constructor; simpl; try done. exists 0.
  pose proof (rw_n _ Hwf). rewrite Hu. constructor; try done; try lia.
  - intros k Hk. apply Hst. rewrite Hn. apply slot_range. lia.
  - by rewrite Hv.
  - exists []. rewrite waiting_nil, Hs. split_and!; done.
Qed.

Lemma sinv_sent y :
  sinv y → d_sent (y_dev y) `sublist_of` y_enq y ∧
    (d_failed (y_dev y) = false → d_sent (y_dev y) `prefix_of` y_enq y) ∧
    0 <= ring_used (y_net y) <= ntxbufs (priv (y_net y)).
Proof.
  intros [_ _ _ _ (f & Hr) _]. destruct (ci_frames _ _ _ _ _ _ _ Hr) as (fin & E & Hs & Hf).
  pose proof (ci_used _ _ _ _ _ _ _ Hr). rewrite E. split_and!; [|naive_solver by apply prefix_app_r|lia..].
  by apply sublist_inserts_r.
Qed.

(** C15: First in, first out.  Whatever the interleaving of [ctucan_start_xmit],
    [ctucan_tx_interrupt] and the core, the frames on the bus are those that were
    queued, in the order in which they were queued, each at most once and with the
    words that were written for it; as long as no transmission was given up
    none is missing in between.  The number of frames in the ring
    never exceeds the number of buffers. *)
Theorem tx_fifo n d y :
  sinit n d → rtc sys_step (mksys n d [] None) y →
  d_sent (y_dev y) `sublist_of` y_enq y ∧
  (d_failed (y_dev y) = false → d_sent (y_dev y) `prefix_of` y_enq y) ∧
  0 <= ring_used (y_net y) <= ntxbufs (priv (y_net y)).
Proof. intros Hin Hr. eapply sinv_sent, sinv_steps; [done|]. by apply sinit_sinv. Qed.

(** C21: A free buffer is always writable: when [ctucan_start_xmit] has seen
    TXNF, the status it then reads for buffer [head mod ntxbufs] allows the insertion,
    whatever interrupts come in between, so that its branch "TXNF set but cannot
    insert frame" is never taken. *)
Theorem tx_never_refused n d y skb l w d' :
  sinit n d → rtc sys_step (mksys n d [] None) y → y_pend y = Some (skb, l) →
  dev_ev (mem_base (priv (y_net y))) (y_dev y) (EvLoad (reg_at (y_net y) CTUCANFD_TX_STATUS) w) d' →
  txtb_writable w (head_buf (y_net y)) = true.
Proof.
  intros Hin Hr Hy (_ & Hst & _). apply sinv_steps in Hr; [|by apply sinit_sinv].
  destruct Hr as [Hwf Hp Hi Hd (f & Hr) Hpend]. rewrite Hy in Hpend.
  destruct Hpend as (Hse & Hlt & _). pose proof (ci_used _ _ _ _ _ _ _ Hr).
  rewrite head_slot by (done || lia). set (b := slot _ _ _) in *.
  assert (Hb : 0 <= b < d_n (y_dev y)).
  { rewrite (ci_n _ _ _ _ _ _ _ Hr). apply slot_range, Hr. }
  assert (Hfree : d_st (y_dev y) b = Ety) by (apply (ci_free _ _ _ _ _ _ _ Hr); lia).
  pose proof (status_of_code _ _ _ (Hst eq_refl b Hb)) as E. rewrite Hfree in E.
  unfold txtb_writable. by rewrite E.
Qed.

(** ** The functions of the driver are runs of the system *)

(** The frames handed to the core along a trace. *)
Fixpoint queued (tr : list event) : list txt_frame :=
  match tr with
  | [] => []
  | EvCall (can_put_echo_skb skb _) _ :: tr' => frame_words skb :: queued tr'
  | _ :: tr' => queued tr'
  end.

Lemma queued_app t1 t2 : queued (t1 ++ t2) = queued t1 ++ queued t2.
Proof. induction t1 as [|[| |[]|] t1 IH]; simpl; congruence. Qed.

Definition sys_silent (n : net_device) (e : event) : Prop :=
  match e with EvStore a _ => a = reg_at n CTUCANFD_INT_STAT | _ => True end.

Lemma silent_sim n tr d d' enq p :
  dev_run (mem_base (priv n)) d tr d' → Forall (sys_silent n) tr →
  rtc sys_step (mksys n d enq p) (mksys n d' enq p).
Proof.
  induction 1 as [|d d1 tr d2 Hs Hr IH|d e d1 tr d2 He Hr IH]; intros Hsil; [done|..].
  - econstructor; [by apply y_core|auto].
  - apply Forall_cons in Hsil as [Hsil1 ?]. econstructor; [by eapply y_silent|auto].
Qed.

Lemma write_sim n tr d d' enq skb l :
  dev_run (mem_base (priv n)) d tr d' →
  Forall (λ e, match e with EvStore _ _ => True | _ => False end) tr →
  rtc sys_step (mksys n d enq (Some (skb, stores tr ++ l))) (mksys n d' enq (Some (skb, l))).
Proof.
  induction 1 as [|d d1 tr d2 Hs Hr IH|d e d1 tr d2 He Hr IH]; intros Hsil; [done|..].
  - econstructor; [by apply y_core|auto].
  - apply Forall_cons in Hsil as [Hsil1 ?]. destruct e as [|a v| |]; try done. simpl.
    econstructor; [by apply y_write|auto].
Qed.

Lemma irq_sim k n tr n' d d' enq p :
  tx_run k n tr n' → dev_run (mem_base (priv n)) d tr d' →
  rtc sys_step (mksys n d enq p) (mksys n' d' enq p) ∧ mem_base (priv n') = mem_base (priv n) ∧ queued tr = [].
Proof.
  intros Hrun. revert d. induction Hrun as [n|k n e tr n' He Hr IH|k n evs n1 tr n' Hu Hf Hr IH]; intros d Hd.
  - split_and!; [|done|done]. by apply (silent_sim n []).
  - apply (dev_run_app_inv _ [e]) in Hd as (d1 & H1 & H2). destruct (IH _ H2) as (? & ? & Hq).
    split_and!; [|done|by destruct e as [| |[]|]].
    etrans; [|done]. apply (silent_sim n [e]); [done|]. apply Forall_singleton.
    by destruct e; simpl in *; try apply He.
  - apply dev_run_app_inv in Hd as (d1 & H1 & H2). pose proof (tx_finish_priv _ _ _ Hf) as En.
    assert (Eb : mem_base (priv n1) = mem_base (priv n)) by by rewrite En.
    rewrite <- Eb in H2. destruct (IH _ H2) as (? & ? & Hq). split_and!; [|congruence|].
    + econstructor; [by eapply y_finish|done].
    + rewrite queued_app, Hq. by destruct Hf.
Qed.

Lemma image_stores n cf buf fd :
  Forall (λ e, match e with EvStore _ _ => True | _ => False end) (frame_image n cf buf fd).
Proof.
  unfold frame_image. do 2 (apply Forall_cons; split; [done|]). case_match; [done|].
  apply Forall_fmap, Forall_forall. by intros.
Qed.

Lemma image_queued n cf buf fd : queued (frame_image n cf buf fd) = [].
Proof.
  pose proof (image_stores n cf buf fd) as Hs. induction Hs as [|e tr He Hs IH]; [done|].
  by destruct e.
Qed.

(** The events up to the command: the frame is written. *)
Lemma xmit_head_sim n skb v w r1 r2 d d' enq r0 :
  sendable (skb_cf skb) (skb_canfd skb) → txnf v = true →
  dev_run (mem_base (priv n)) d
    ([EvCall (can_dev_dropped_skb skb) r0; EvLoad (reg_at n CTUCANFD_STATUS) v;
      EvLoad (reg_at n CTUCANFD_TX_STATUS) w] ++
     frame_image n (skb_cf skb) (head_buf n) (skb_canfd skb) ++
     [EvCall (can_put_echo_skb skb (head_buf n)) r1; EvCall spin_lock_irqsave r2]) d' →
  rtc sys_step (mksys n d enq None) (mksys n d' enq (Some (skb, []))).
Proof.
  intros Hse Hv Hd. apply dev_run_app_inv in Hd as (dA & HA & Hd). apply dev_run_app_inv in Hd as (dB & HB & Hd).
  apply dev_run_call in HA. apply dev_run_cons_inv in HA as (d1 & d2 & H1 & E2 & HA).
  do 2 apply dev_run_call in Hd.
  etrans; [by apply (silent_sim n [])|]. econstructor; [by eapply y_begin|].
  etrans; [by eapply silent_sim, Forall_singleton; [exact HA|]|].
  rewrite <- (app_nil_r (stores _)). etrans; [by eapply write_sim, image_stores; exact HB|].
  by apply (silent_sim n []).
Qed.

(** The trace of a call that queues a frame, split at the command. *)
Lemma sent_split (t1 t2 : list event) c1 c2 cmd ld rest :
  t1 ++ t2 ++ [c1; c2; cmd; ld] ++ rest = (t1 ++ t2 ++ [c1; c2]) ++ [cmd] ++ ld :: rest.
Proof. by rewrite <- !app_assoc. Qed.

Lemma xmit_sim n skb tr n' r d d' enq :
  sendable (skb_cf skb) (skb_canfd skb) →
  xmit n skb tr n' r → dev_run (mem_base (priv n)) d tr d' →
  rtc sys_step (mksys n d enq None) (mksys n' d' (enq ++ queued tr) None) ∧
  mem_base (priv n') = mem_base (priv n).
Proof.
  intros Hse Hx Hd. split; [|by destruct Hx].
  destruct Hx as [r0 ?|v msg r1 r2 Hv|v w msg r1 r2 Hv Hw|v w v' r1 r2 stop r3 Hv Hw Hl Hstop].
  - rewrite app_nil_r. eapply silent_sim; [done|]. by repeat constructor.
  - rewrite app_nil_r. eapply silent_sim; [done|]. by repeat constructor.
  - rewrite app_nil_r. apply andb_false_iff in Hw as [Hw|Hw]; [|pose proof (sent_len _ _ Hse); lia].
    apply dev_run_call in Hd. apply dev_run_cons_inv in Hd as (d1 & d2 & H1 & E2 & Hd).
    apply dev_run_cons_inv in Hd as (d3 & d4 & H3 & E4 & Hd). do 2 apply dev_run_call in Hd.
    etrans; [by apply (silent_sim n [])|]. econstructor; [by eapply y_begin|].
    etrans; [by apply (silent_sim n [])|]. econstructor; [by eapply y_refuse|].
    by apply (silent_sim (count_drop n) []).
  - rewrite sent_split in Hd. apply dev_run_app_inv in Hd as (d3 & HA & Hd).
    etrans; [by eapply xmit_head_sim|].
    apply dev_run_cons_inv in Hd as (d4 & d5 & H4 & E5 & Hd).
    etrans; [by apply (silent_sim n [])|].
    econstructor; [by apply y_commit|].
    assert (Eq : queued stop = []) by by destruct Hstop as [[-> _]|[[? ->] _]].
    rewrite !queued_app, image_queued, Eq. cbn [queued app]. eapply (silent_sim (enqueue n)); [exact Hd|].
    apply Forall_cons; split; [done|]. by destruct Hstop as [[-> _]|[[? ->] _]]; repeat constructor.
Qed.

Inductive tx_op := op_xmit (skb : sk_buff) | op_irq.

Definition op_ok (o : tx_op) : Prop :=
  match o with op_xmit skb => sendable (skb_cf skb) (skb_canfd skb) | op_irq => True end.

Section Code.
Context {W : Type} `{World W}.
Implicit Types (s : st net_device W).

(** The calls of the two entry points, in any order. *)
Fixpoint run_ops (ops : list tx_op) : M net_device W unit :=
  match ops with
  | [] => mret tt
  | op_xmit skb :: ops' => ctucan_start_xmit skb;; run_ops ops'
  | op_irq :: ops' => ctucan_tx_interrupt;; run_ops ops'
  end.

(** The events of the code are a run of the system with every core. *)
Definition code_sim s s' : Prop :=
  ∃ tr, trace s' = trace s ++ tr ∧ le_dev (drv s') ∧ ring_wf (drv s') ∧
    mem_base (priv (drv s')) = mem_base (priv (drv s)) ∧
    ∀ d d' enq, dev_run (mem_base (priv (drv s))) d tr d' →
      rtc sys_step (mksys (drv s) d enq None) (mksys (drv s') d' (enq ++ queued tr) None).

Lemma code_sim_trans s s1 s2 : code_sim s s1 → code_sim s1 s2 → code_sim s s2.
Proof.
  intros (t1 & E1 & _ & _ & Hb1 & H1) (t2 & E2 & ? & ? & Hb2 & H2). exists (t1 ++ t2).
  split_and!; [by rewrite E2, E1, app_assoc|done|done|congruence|].
  intros d d' enq (d1 & Hd1 & Hd2)%dev_run_app_inv. rewrite queued_app, app_assoc.
  etrans; [by apply H1|]. apply H2. by rewrite Hb1.
Qed.

Lemma xmit_code_sim skb s :
  le_dev (drv s) → ring_wf (drv s) → sendable (skb_cf skb) (skb_canfd skb) →
  wp (ctucan_start_xmit skb) s (λ _, code_sim s).
Proof.
  intros Hle Hwf Hse. eapply wp_mono; [by apply start_xmit_wp, Hse|].
  intros r s' (tr & Ht & Hx). exists tr. split_and!; [done| |by eapply xmit_wf|by destruct Hx|].
  - by destruct Hx.
  - intros d d' enq Hd. by eapply xmit_sim.
Qed.

Lemma irq_code_sim s :
  le_dev (drv s) → ring_wf (drv s) → wp ctucan_tx_interrupt s (λ _, code_sim s).
Proof.
  intros Hle Hwf. eapply wp_mono; [by apply tx_interrupt_wp|].
  intros _ s' (k & tr & Ht & Hrun & _ & _ & Hwf1 & Hle1 & Hb & _). exists tr. split_and!; try done.
  intros d d' enq Hd. destruct (irq_sim _ _ _ _ _ _ enq None Hrun Hd) as (? & _ & ->). by rewrite app_nil_r.
Qed.

Lemma run_ops_sim ops s :
  le_dev (drv s) → ring_wf (drv s) → Forall op_ok ops → wp (run_ops ops) s (λ _, code_sim s).
Proof.
  revert s. induction ops as [|o ops IH]; intros s Hle Hwf Hok.
  { apply wp_ret. exists []. rewrite app_nil_r. split_and!; try done. intros d d' enq Hd.
    rewrite app_nil_r. by apply (silent_sim _ []). }
  apply Forall_cons in Hok as [Ho Hok].
  assert (Hrest : ∀ s1, code_sim s s1 → wp (run_ops ops) s1 (λ _, code_sim s)).
  { intros s1 Hs1. pose proof Hs1 as (_ & _ & ? & ? & _). eapply wp_mono; [by apply IH|].
    intros [] s2. by apply code_sim_trans. }
  destruct o as [skb|]; simpl; apply wp_bind; (eapply wp_mono; [|intros ? ?; apply Hrest]).
  - by apply xmit_code_sim.
  - by apply irq_code_sim.
Qed.

(** C1: First in, first out, for the code.  Every sequence of calls of
    [ctucan_start_xmit] (with frames that can be sent) and [ctucan_tx_interrupt], in every
    world, terminates without undefined behaviour, and if the recorded
    accesses are ones that a core in its initial state can answer (with
    transmissions at any moment in between) then the frames that the core sent are
    the queued ones in the same order, without gaps as long as no
    transmission was given up; and no more are in flight than there are buffers. *)
Theorem tx_code_fifo ops s d :
  le_dev (drv s) → sinit (drv s) d → Forall op_ok ops →
  wp (run_ops ops) s (λ _ s', ∃ tr, trace s' = trace s ++ tr ∧
    ∀ d', dev_run (mem_base (priv (drv s))) d tr d' →
      d_sent d' `sublist_of` queued tr ∧
      (d_failed d' = false → d_sent d' `prefix_of` queued tr) ∧
      0 <= ring_used (drv s') <= ntxbufs (priv (drv s'))).
Proof.
  intros Hle Hin Hok. eapply wp_mono; [apply run_ops_sim; [done|apply Hin|done]|].
  intros _ s' (tr & Ht & _ & _ & _ & Hsim). exists tr. split; [done|]. intros d' Hd.
  apply (sinv_sent (mksys (drv s') d' (queued tr) None)). eapply sinv_steps; [by apply (Hsim d d' [])|].
  by apply sinit_sinv.
Qed.

End Code.

(** ** A concrete run *)

Definition sample_core : txdev := mkdev 4 (λ _, Ety) 0x01234567 (λ _, 0) [] false None.

Lemma sample_sinit : sinit sample_dev sample_core.
Proof.
  constructor; [exact (busy_ring_wf 0 ltac:(done))|exact (busy_pow2 0)|exact (busy_prio 0)|done..].
Qed.

(** The loads of a call of each entry point: one frame is sent in between. *)
Definition fifo_st : st net_device script := sample_st [0x4; 0x8888; 0x4; 0x8884; 0x4].

Lemma four_cases (P : Z → Prop) : P 0 → P 1 → P 2 → P 3 → ∀ b, 0 <= b < 4 → P b.
Proof.
  intros H0 H1 H2 H3 b Hb. assert (Hc : b = 0 ∨ b = 1 ∨ b = 2 ∨ b = 3) by lia.
  by destruct Hc as [->|[->|[->| ->]]].
Qed.

(** Keep the state of the core reduced along a run. *)
Ltac run_reduce :=
  lazymatch goal with
  | |- dev_run _ ?d _ _ => let d' := eval lazy -[command upd mem_frame] in d in change d with d'
  end.

(** One access of the run, checked by computation. *)
Ltac run_access free :=
  eapply dr_ev;
  [first
    [ reflexivity
    | split; [reflexivity|split];
      [ first [ by intros [=]
              | intros _; cbn [d_n]; apply four_cases; vm_compute; reflexivity ]
      | first [ by intros [=]
              | intros _; split; [intros _; exists free; vm_compute; intuition congruence
                                 |intros _; vm_compute; reflexivity ] ] ] ]|];
  run_reduce.

Ltac sample_bufs := cbn [d_n]; refine (four_cases _ _ _ _ _); by vm_compute.

(** The core picks buffer 0 and sends it. *)
Ltac run_send :=
  eapply dr_core; [apply (core_validate _ _ 0); [done|by vm_compute|sample_bufs..]|run_reduce];
  eapply dr_core; [apply (core_lock _ _ 0); [done|done|by vm_compute|sample_bufs]|run_reduce];
  eapply dr_core; [by apply (core_valid _ _ 0)|run_reduce].

Lemma fifo_core_run :
  wp (run_ops [op_xmit sample_skb; op_irq]) fifo_st (λ _ s', ∃ d',
    dev_run 0x43C30000 sample_core (trace s') d' ∧ d_sent d' = [frame_words sample_skb] ∧
    d_failed d' = false ∧ queued (trace s') = [frame_words sample_skb]).
Proof.
  unfold wp. set (r := run_ops _ _). vm_compute in r. subst r. cbv beta iota. cbn [trace].
  eexists. split.
  - do 13 run_access 1. run_send. do 13 run_access 1. apply dr_nil.
  - split_and!; by vm_compute.
Qed.

Lemma fifo_ops_ok : Forall op_ok [op_xmit sample_skb; op_irq].
Proof. repeat (constructor; [done || exact sample_sendable|]). constructor. Qed.

Lemma tx_code_fifo_witness :
  ∃ tr d', wp (run_ops [op_xmit sample_skb; op_irq]) fifo_st (λ _ s', trace s' = tr) ∧
    dev_run 0x43C30000 sample_core tr d' ∧ d_sent d' = [frame_words sample_skb] ∧
    d_sent d' `prefix_of` queued tr.
Proof.
  pose proof (tx_code_fifo [op_xmit sample_skb; op_irq] fifo_st sample_core (conj eq_refl eq_refl)
    sample_sinit fifo_ops_ok) as Hth.
  destruct (proj1 (wp_iff _ _ _) (wp_and _ _ _ _ fifo_core_run Hth)) as (a & s' & Hrun & (d' & Hd & Hs & Hf & _) & (tr & Htr & Hall)).
  exists (trace s'), d'. rewrite app_nil_l in Htr. rewrite Htr in Hd |- *.
  destruct (Hall d' Hd) as (_ & Hp & _). split_and!; [|done|done|by apply Hp].
  refine (proj2 (wp_iff _ _ _) _). exists a, s'. split; [exact Hrun|exact Htr].
Defined.

(** The same in the interleaved system: the frame is queued and sent. *)
Lemma fifo_run : ∃ y, rtc sys_step (mksys sample_dev sample_core [] None) y ∧
  d_sent (y_dev y) = [frame_words sample_skb] ∧ y_enq y = [frame_words sample_skb].
Proof.
  assert (Hs : wp (run_ops [op_xmit sample_skb; op_irq]) fifo_st (λ _, code_sim fifo_st)).
  { apply run_ops_sim; [done|apply sample_sinit|exact fifo_ops_ok]. }
  destruct (proj1 (wp_iff _ _ _) (wp_and _ _ _ _ fifo_core_run Hs)) as (a & s' & Hrun & (d' & Hd & He & _ & Hq) & (tr & Htr & _ & _ & _ & Hsim)).
  rewrite app_nil_l in Htr. subst tr. exists (mksys (drv s') d' (queued (trace s')) None).
  split_and!; [|done|done]. by apply (Hsim _ _ []).
Qed.

Lemma tx_fifo_witness :
  ∃ y, rtc sys_step (mksys sample_dev sample_core [] None) y ∧
    d_sent (y_dev y) = [frame_words sample_skb] ∧ d_sent (y_dev y) `sublist_of` y_enq y.
Proof.
  destruct fifo_run as (y & Hr & Hs & _). exists y. split_and!; [done|done|].
  by destruct (tx_fifo sample_dev sample_core y sample_sinit Hr).
Defined.

Lemma tx_never_refused_witness :
  ∃ y, rtc sys_step (mksys sample_dev sample_core [] None) y ∧ y_pend y ≠ None ∧
    txtb_writable 0x8888 (head_buf (y_net y)) = true.
Proof.
  set (l := stores (frame_image sample_dev sample_cf (head_buf sample_dev) true)).
  set (y := mksys sample_dev sample_core [] (Some (sample_skb, l))).
  assert (Hst : dev_ev 0x43C30000 sample_core (EvLoad 0x43C30008 0x4) sample_core).
  { split; [done|split; [by intros [=]|]]. intros _. split; [|done]. intros _. by exists 1. }
  assert (Hr : rtc sys_step (mksys sample_dev sample_core [] None) y).
  { apply rtc_once. exact (y_begin sample_dev sample_core [] sample_skb 0x4 sample_core sample_sendable eq_refl Hst). }
  exists y. split_and!; [done|done|].
  apply (tx_never_refused sample_dev sample_core y sample_skb l 0x8888 sample_core sample_sinit Hr eq_refl).
  split; [done|split; [|by intros [=]]]. intros _. cbn [d_n]. refine (four_cases _ _ _ _ _); by vm_compute.
Defined.
