(* ===== verification/TxOnRtl.v ===== *)
(** * The transmit path of the driver on the design of the core

    TxSystem proves the order of transmission for the driver with the abstract core, TxRefine that the
    design of the core, cycle by cycle, is such a core as long as the software keeps to its rules.  Here the
    driver is shown to keep to them (no command for a pending buffer, no abort, accesses within the buffers),
    and both theorems are put together: first in, first out, from the C functions down to the registers of
    the TXT buffers and their arbitrator. *)

From Stdlib Require Import ZArith Lia.
From stdpp Require Import base numbers list strings sets relations.
From S2P Require Import Prelude LinuxDefs World Kregs Base Sim RxFifo BaseTx BaseRx RoundTrip TxCore TxtBuf TxArb TxPrio TxFsm TxInv TxRefine TxSystem.

#[local] Open Scope Z_scope.

(** ** The accesses of the driver *)

(** A store within the registers of the core or the words of its buffers, without an abort. *)
Definition store_ok (base : Z) (e : event) : Prop :=
  match e with EvStore a v => access_ok (bus_wr (a - base) v) = true | _ => True end.

(** An event of a trace that the bus sees. *)
Definition on_bus (e : event) : bool :=
  match e with EvLoad _ _ | EvStore _ _ => true | _ => false end.

Lemma store_ok_reg n r v :
  r mod 4 = 0 → r < 0x100 → (r = CTUCANFD_TX_COMMAND → Z.testbit v 2 = false) →
  store_ok (mem_base (priv n)) (EvStore (reg_at n r) v).
Proof.
  intros H4 Hr Hc. unfold store_ok, reg_at. replace (mem_base (priv n) + r - mem_base (priv n)) with r by lia.
  unfold access_ok. rewrite !andb_true_iff, negb_true_iff. split_and!; [by rewrite H4|lia|].
  destruct (Z.eqb_spec r TX_COMMAND_ADR) as [->|]; [|done]. by rewrite Hc.
Qed.

Lemma store_ok_buf n b off v :
  0 <= b → off mod 4 = 0 → 0 <= off < 0x54 → store_ok (mem_base (priv n)) (EvStore (txtb_at n b off) v).
Proof.
  intros Hb H4 Hoff. unfold store_ok, txtb_at, reg_at.
  replace (mem_base (priv n) + ((b + 1) * 0x100 + off) - mem_base (priv n)) with (off + (b + 1) * 0x100) by lia.
  unfold access_ok. replace ((off + (b + 1) * 0x100) mod 4) with 0.
  - rewrite Z_mod_plus_full, (Z.mod_small off) by lia. replace (off <? 0x54) with true by lia.
    replace (off + (b + 1) * 0x100 =? TX_COMMAND_ADR) with false by (unfold TX_COMMAND_ADR; lia).
    by rewrite orb_true_r.
  - replace (off + (b + 1) * 0x100) with (off + ((b + 1) * 0x40) * 4) by lia. by rewrite Z_mod_plus_full.
Qed.

(** A command word for one buffer. *)
Lemma command_bit c b k :
  c = TXT_CMD_SET_EMPTY ∨ c = TXT_CMD_SET_READY → 0 <= b → 0 <= k → 
  Z.testbit (Z.lor c (BIT (b + 8))) (k + 8) = (k =? b).
Proof.
  intros Hc Hb Hk. rewrite Z.lor_spec, testbit_BIT by lia.
  replace (Z.testbit c (k + 8)) with false; [simpl; lia|].
  symmetry. unfold TXT_CMD_SET_EMPTY, TXT_CMD_SET_READY in Hc.
  apply (Z.bits_above_log2 c); destruct Hc as [-> | ->]; simpl; lia.
Qed.

Lemma command_no_abort c b :
  c = TXT_CMD_SET_EMPTY ∨ c = TXT_CMD_SET_READY → 0 <= b → Z.testbit (Z.lor c (BIT (b + 8))) 2 = false.
Proof.
  intros Hc Hb. rewrite Z.lor_spec, testbit_BIT by lia. replace (2 =? b + 8) with false by lia.
  by destruct Hc as [-> | ->].
Qed.

Lemma image_ok n cf b fd :
  0 <= b → len cf <= 64 → Forall (store_ok (mem_base (priv n))) (frame_image n cf b fd).
Proof.
  intros Hb Hl. pose proof (nwords_bounds (len cf)). unfold frame_image.
  do 2 (apply Forall_cons; split; [by apply store_ok_buf|]).
  case_match; [done|]. apply Forall_fmap, Forall_forall. intros j Hj%elem_of_seqZ. simpl.
  apply store_ok_buf; unfold CTUCANFD_DATA_1_4_W; [done| |lia].
  replace (0x10 + 4 * j) with ((4 + j) * 4) by lia. apply Z.mod_mul. lia.
Qed.

Lemma xmit_stores n skb tr n' r :
  ring_wf n → sendable (skb_cf skb) (skb_canfd skb) → xmit n skb tr n' r →
  Forall (store_ok (mem_base (priv n))) tr.
Proof.
  intros Hwf Hse Hx. pose proof (head_buf_range _ Hwf). pose proof (sent_len _ _ Hse).
  destruct Hx as [| | |v w v' r1 r2 stop r3 _ _ _ Hstop]; [by repeat constructor..|].
  rewrite !Forall_app. split_and!; [by repeat constructor|by apply image_ok; lia| | |by repeat constructor].
  - apply Forall_cons; split; [done|]. apply Forall_cons; split; [done|].
    apply Forall_cons; split; [|by repeat constructor].
    apply store_ok_reg; [done|done|]. intros _. apply command_no_abort; [by right|lia].
  - by destruct Hstop as [[-> _]|[[? ->] _]]; repeat constructor.
Qed.

Lemma release_stores n : ring_wf n → Forall (store_ok (mem_base (priv n))) (release n).
Proof.
  intros Hwf. unfold release. apply Forall_cons; split; [by apply store_ok_reg|].
  apply Forall_singleton, store_ok_reg; [done..|]. intros _. apply command_no_abort; [by left|].
  unfold tail_buf. pose proof (rw_n _ Hwf). apply Z.mod_pos_bound. lia.
Qed.

Lemma irq_stores k n tr n' :
  ring_wf n → tx_run k n tr n' → Forall (store_ok (mem_base (priv n))) tr.
Proof.
  intros Hwf Hr. induction Hr as [n|k n e tr n' He Hr IH|k n evs n1 tr n' Hu Hf Hr IH]; [done|..].
  - apply Forall_cons; split; [|auto]. destruct e as [|a v| |]; try done. destruct He as [-> _].
    by apply store_ok_reg.
  - pose proof (tx_finish_priv _ _ _ Hf) as En. apply Forall_app. split.
    + destruct Hf; repeat (apply Forall_cons; split; [done|]); by apply release_stores.
    + assert (Eb : mem_base (priv n1) = mem_base (priv n)) by by rewrite En.
      rewrite <- Eb. apply IH. by eapply tx_finish_wf.
Qed.

(** ** Its commands *)

Abbreviation no_store := (Forall (λ e, match e with EvStore _ _ => False | _ => True end)).

Lemma no_store_cmds base d tr : no_store tr → cmds_ok base d tr.
Proof. intros Hq. apply cmds_ok_quiet. eapply Forall_impl; [done|]. by intros []. Qed.

(** One command, given when the core has answered the accesses before. *)
Lemma cmds_ok_cmd base d v tr :
  (∀ d1, dev_run base d [] d1 → cmd_target d1 v) → no_store tr →
  cmds_ok base d (EvStore (base + CTUCANFD_TX_COMMAND) v :: tr).
Proof.
  intros Hv Hq. apply (cmds_ok_app base [_]); [|by intros; apply no_store_cmds].
  intros t1 w t2 d1 E Hr. destruct t1 as [|e t1]; [|by destruct t1].
  injection E as <- <-. by apply Hv.
Qed.

Lemma target_slot base N t U f d enq c k :
  cinv base N t U f d enq → c = TXT_CMD_SET_EMPTY ∨ c = TXT_CMD_SET_READY → 0 <= k < N →
  d_st d (slot N t k) ≠ Rdy ∧ d_st d (slot N t k) ≠ Tran → cmd_target d (Z.lor c (BIT (slot N t k + 8))).
Proof.
  intros Hi Hc Hk Hs b Hb Hbit. pose proof (slot_range N t k (ci_pos _ _ _ _ _ _ _ Hi)).
  rewrite command_bit in Hbit by (done || lia). by apply Z.eqb_eq in Hbit as ->.
Qed.

Lemma image_quiet n cf b fd :
  0 <= b → Forall (λ e, match e with EvStore a _ => a ≠ mem_base (priv n) + CTUCANFD_TX_COMMAND | _ => True end)
    (frame_image n cf b fd).
Proof.
  intros Hb. unfold frame_image, txtb_at, reg_at, CTUCANFD_TX_COMMAND, CTUCANFD_FRAME_FORMAT_W,
    CTUCANFD_IDENTIFIER_W. do 2 (apply Forall_cons; split; [lia|]).
  case_match; [done|]. apply Forall_fmap, Forall_forall. intros j Hj%elem_of_seqZ. simpl.
  unfold CTUCANFD_DATA_1_4_W. lia.
Qed.

(** [ctucan_start_xmit] gives its command to the free buffer. *)
Lemma xmit_cmds n skb tr n' r d enq :
  sendable (skb_cf skb) (skb_canfd skb) → xmit n skb tr n' r → sinv (mksys n d enq None) →
  cmds_ok (mem_base (priv n)) d tr.
Proof.
  intros Hse Hx Hinv.
  destruct Hx as [| | |v w v' r1 r2 stop r3 Hv Hw Hl Hstop]; [by apply no_store_cmds; repeat constructor..|].
  pose proof (head_buf_range _ (si_wf _ Hinv)) as Hb. cbn [y_net] in Hb.
  rewrite sent_split. apply cmds_ok_app.
  - apply cmds_ok_quiet. rewrite !Forall_app. split_and!; [by repeat constructor| |by repeat constructor].
    apply image_quiet. lia.
  - intros d1 H1. apply cmds_ok_cmd.
    + intros d2 H2. pose proof (xmit_head_sim _ _ _ _ _ _ _ _ enq _ Hse Hv H1) as Hsim.
      pose proof (silent_sim _ _ _ _ enq (Some (skb, [])) H2 ltac:(done)) as Hsim2.
      apply (sinv_steps _ _ Hsim), (sinv_steps _ _ Hsim2) in Hinv.
      destruct Hinv as [Hwf Hp Hpr Hdp (f & Hc) (_ & Hu & _)]. cbn [y_net y_dev y_enq] in *.
      pose proof (ci_used _ _ _ _ _ _ _ Hc). rewrite (head_slot n) by (done || lia).
      eapply target_slot; [done|by right|lia|]. by rewrite (ci_free _ _ _ _ _ _ _ Hc) by lia.
    + apply Forall_cons; split; [done|]. by destruct Hstop as [[-> _]|[[? ->] _]]; repeat constructor.
Qed.

(** The handler gives its commands to buffers that are finished. *)
Lemma finish_cmds n evs n' d enq p :
  0 < ring_used n → tx_finish n evs n' → sinv (mksys n d enq p) → cmds_ok (mem_base (priv n)) d evs.
Proof.
  intros Hu Hfin [Hwf Hp Hpr Hdp (f & Hc) _]. cbn [y_net y_dev y_enq] in *.
  destruct (finish_head n d d f enq evs n' Hwf Hu Hc Hfin) as (hd & -> & Hq & _).
  apply cmds_ok_app; [by apply no_store_cmds|]. intros d1 H1.
  destruct (finish_head n d d1 f enq _ n' Hwf Hu Hc Hfin) as (hd' & E & _ & Hhd).
  apply app_inv_tail in E as <-. destruct (Hhd H1) as (f1 & Hf1 & _ & Hc1).
  apply (cmds_ok_app _ [_] [_]).
  - apply cmds_ok_quiet, Forall_singleton. unfold reg_at, CTUCANFD_TX_PRIORITY, CTUCANFD_TX_COMMAND. lia.
  - intros d2 H2. destruct (rotate_run _ _ _ _ _ Hwf Hpr Hc1 Hf1 H2) as ((f2 & Hf2 & Hc2) & _).
    apply cmds_ok_cmd; [|done]. intros d3 H3.
    destruct (cinv_core_steps _ _ _ _ _ _ _ _ H3 Hc2) as ((f3 & Hf3 & Hc3) & _).
    replace (tail_buf n) with (slot (ntxbufs (priv n)) (txb_tail (priv n)) 0)
      by (unfold slot, tail_buf; by rewrite Z.add_0_r).
    eapply target_slot; [done|by left|pose proof (ci_pos _ _ _ _ _ _ _ Hc3); lia|].
    destruct (ci_done _ _ _ _ _ _ _ Hc3 0) as [-> | ->]; [lia|done..].
Qed.

Lemma irq_cmds k n tr n' d enq p :
  tx_run k n tr n' → sinv (mksys n d enq p) → cmds_ok (mem_base (priv n)) d tr.
Proof.
  intros Hr. revert d. induction Hr as [n|k n e tr n' He Hr IH|k n evs n1 tr n' Hu Hf Hr IH]; intros d Hinv.
  - apply cmds_ok_nil.
  - apply (cmds_ok_app _ [e]).
    + apply cmds_ok_quiet, Forall_singleton. destruct e as [|a v| |]; try done. destruct He as [-> _].
      unfold reg_at, CTUCANFD_INT_STAT, CTUCANFD_TX_COMMAND. lia.
    + intros d1 H1. apply IH. eapply sinv_steps; [|exact Hinv]. apply (silent_sim n [e]); [done|].
      apply Forall_singleton. by destruct e; simpl in *; try apply He.
  - pose proof (tx_finish_priv _ _ _ Hf) as En.
    assert (Eb : mem_base (priv n1) = mem_base (priv n)) by by rewrite En.
    apply cmds_ok_app; [by eapply finish_cmds|]. intros d1 H1. rewrite <- Eb. apply IH.
    eapply sinv_step; [|exact Hinv]. by eapply y_finish.
Qed.

(** ** Sequences of calls *)

Section Code.
Context {W : Type} `{World W}.
Implicit Types (s : st net_device W).

(** The accesses of the code keep to the rules. *)
Definition code_ok s s' : Prop :=
  ∃ tr, trace s' = trace s ++ tr ∧ Forall (store_ok (mem_base (priv (drv s)))) tr ∧
    ∀ d enq, sinv (mksys (drv s) d enq None) → cmds_ok (mem_base (priv (drv s))) d tr.

Lemma code_ok_trans s s1 s2 :
  code_sim s s1 → code_ok s s1 → code_sim s1 s2 → code_ok s1 s2 → code_ok s s2.
Proof.
  intros (t1 & E1 & _ & _ & Hb1 & H1) (t1' & E1' & Hs1 & Hc1) _ (t2 & E2 & Hs2 & Hc2).
  rewrite E1 in E1'. apply app_inv_head in E1' as <-. rewrite Hb1 in *. exists (t1 ++ t2).
  split_and!; [by rewrite E2, E1, app_assoc|by apply Forall_app|].
  intros d enq Hinv. apply cmds_ok_app; [by eapply Hc1|]. intros d1 Hd1. apply (Hc2 d1 (enq ++ queued t1)).
  eapply sinv_steps; [by apply H1|done].
Qed.

Lemma run_ops_ok ops s :
  le_dev (drv s) → ring_wf (drv s) → Forall op_ok ops →
  wp (run_ops ops) s (λ _ s', code_sim s s' ∧ code_ok s s').
Proof.
  revert s. induction ops as [|o ops IH]; intros s Hle Hwf Hok.
  { apply wp_and; [by apply run_ops_sim|]. apply wp_ret. exists []. rewrite app_nil_r.
    split_and!; [done|done|]. intros. apply cmds_ok_nil. }
  apply Forall_cons in Hok as [Ho Hok].
  assert (Hrest : ∀ s1, code_sim s s1 ∧ code_ok s s1 → wp (run_ops ops) s1 (λ _ s2, code_sim s s2 ∧ code_ok s s2)).
  { intros s1 [Hs1 Hc1]. pose proof Hs1 as (_ & _ & ? & ? & _). eapply wp_mono; [by apply IH|].
    intros [] s2 [? ?]. split; [by eapply code_sim_trans|by eapply code_ok_trans]. }
  destruct o as [skb|]; simpl; apply wp_bind; (eapply wp_mono; [|intros ? ?; apply Hrest]); apply wp_and.
  - by apply xmit_code_sim.
  - eapply wp_mono; [by apply start_xmit_wp, Ho|]. intros r s' (tr & Ht & Hx). exists tr.
    split_and!; [done|by eapply xmit_stores|]. intros d enq. by eapply xmit_cmds.
  - by apply irq_code_sim.
  - eapply wp_mono; [by apply tx_interrupt_wp|]. intros _ s' (k & tr & Ht & Hrun & _). exists tr.
    split_and!; [done|by eapply irq_stores|]. intros d enq. by eapply irq_cmds.
Qed.

End Code.

(** ** The bus *)

(** Calls do not reach the core. *)
Lemma bus_run base tr d d' : dev_run base d (filter on_bus tr) d' → dev_run base d tr d'.
Proof.
  revert d. induction tr as [|e tr IH]; intros d Hr; [done|]. rewrite filter_cons in Hr.
  destruct e as [a v|a v|c r|k b]; simpl in Hr.
  - apply dev_run_cons_inv in Hr as (d0 & d1 & H0 & E & H1).
    eapply (dev_run_app base []); [done|]. by eapply dr_ev; [|apply IH].
  - apply dev_run_cons_inv in Hr as (d0 & d1 & H0 & E & H1).
    eapply (dev_run_app base []); [done|]. by eapply dr_ev; [|apply IH].
  - by eapply dr_ev; [|apply IH].
  - by eapply dr_ev; [|apply IH].
Qed.

Lemma bus_prefix tr t1 e t2 :
  filter on_bus tr = t1 ++ e :: t2 → ∃ u1 u2, tr = u1 ++ e :: u2 ∧ t1 = filter on_bus u1.
Proof.
  revert t1. induction tr as [|x tr IH]; intros t1 E; [by destruct t1|].
  rewrite filter_cons in E. destruct (decide (on_bus x)) as [Hx|Hx].
  - destruct t1 as [|y t1].
    + injection E as -> _. by exists [], tr.
    + injection E as -> E. destruct (IH _ E) as (u1 & u2 & -> & ->). exists (y :: u1), u2. split; [done|].
      rewrite filter_cons. by destruct (decide (on_bus y)).
  - destruct (IH _ E) as (u1 & u2 & -> & ->). exists (x :: u1), u2. split; [done|].
    rewrite filter_cons. by destruct (decide (on_bus x)).
Qed.

Lemma bus_cmds base d tr : cmds_ok base d tr → cmds_ok base d (filter on_bus tr).
Proof.
  intros Hc t1 v t2 d1 E Hr. apply bus_prefix in E as (u1 & u2 & -> & ->).
  eapply (Hc u1 v u2); [done|]. by apply bus_run.
Qed.

(** The accesses of the cycles are those of the trace. *)
Lemma bus_accesses base ins tr :
  bus_trace base ins = filter on_bus tr → Forall (store_ok base) tr → accesses_ok ins.
Proof.
  intros E Hs. assert (Hb : Forall (store_ok base) (bus_trace base ins)).
  { rewrite E. apply Forall_forall. intros x [_ Hx]%list_elem_of_filter. by apply (proj1 (Forall_forall _ _) Hs). }
  clear E Hs. induction ins as [|c ins IH]; [constructor|].
  unfold bus_trace in Hb. cbn [mbind list_bind] in Hb. apply Forall_app in Hb as [Hc Hb].
  constructor; [|by apply IH]. unfold cycle_trace in Hc. destruct (ci_bus c) as [[a v|a v]|]; try done.
  apply Forall_cons in Hc as [Hc _]. change (access_ok (bus_wr (base + a - base) v) = true) in Hc.
  by rewrite Z.add_simpl_l in Hc.
Qed.

(** C2: First in, first out, from the code to the registers.  Every sequence of calls of
    [ctucan_start_xmit] and [ctucan_tx_interrupt] terminates without undefined behaviour, and
    whenever its accesses are those of a run of the TXT buffers and the TX arbitrator, cycle by
    cycle, with any protocol control that locks what it is offered, any spacing of the accesses, any
    timestamps, transmission results and bus-off periods: the frames that the arbitrator presents when
    transmissions end successfully, with format, identifier and data words, are frames that
    [ctucan_start_xmit] queued, in the same order, and none is missing in between unless a transmission was
    given up. *)
Theorem tx_code_on_rtl {W : Type} `{World W} ops (s : st net_device W) n rams d :
  le_dev (drv s) → sinit (drv s) d → Forall op_ok ops →
  (2 <= n <= 8)%nat → core_start (mem_base (priv (drv s))) n rams d →
  wp (run_ops ops) s (λ _ s', ∃ tr, trace s' = trace s ++ tr ∧
    ∀ ins, bus_trace (mem_base (priv (drv s))) ins = filter on_bus tr →
      conforms n ins (tx_init rams (d_prio d)) mon_init = true →
      sent_frames n ins (tx_init rams (d_prio d)) `sublist_of` (frame_view <$> queued tr) ∧
      (given_up n ins (tx_init rams (d_prio d)) = false →
       sent_frames n ins (tx_init rams (d_prio d)) `prefix_of` (frame_view <$> queued tr))).
Proof.
  intros Hle Hin Hops Hn Hstart. eapply wp_mono; [by apply run_ops_ok; [|apply Hin|]|].
  intros _ s' [(tr & Ht & _ & _ & _ & Hsim) (tr' & Ht' & Hs & Hc)]. rewrite Ht in Ht'.
  apply app_inv_head in Ht' as <-. exists tr. split; [done|]. intros ins Hbus Hco.
  pose proof (sinit_sinv _ _ Hin) as Hinv.
  destruct (run_sim _ n Hn ins d _ _ (start_rel _ _ Hn _ _ Hstart) Hco (bus_accesses _ _ _ Hbus Hs))
    as (d' & Hr & Hsent & Hf).
  { unfold cmd_event. simpl. rewrite Hbus. apply bus_cmds. by eapply Hc. }
  unfold cmd_event in Hr. simpl in Hr. rewrite Hbus in Hr. apply bus_run in Hr.
  rewrite (cs_sent _ _ _ _ Hstart) in Hsent. simpl in Hsent. rewrite <- Hsent.
  destruct (sinv_sent (mksys (drv s') d' (queued tr) None)) as (Hsub & Hpre & _).
  { eapply sinv_steps; [by apply (Hsim d d' [])|done]. }
  cbn [y_dev y_enq] in *. split; [by apply fmap_sublist|]. intros Hg.
  destruct (Hpre (Hf Hg (cs_failed _ _ _ _ Hstart))) as [k ->]. rewrite fmap_app. by apply prefix_app_r.
Qed.

(** ** A concrete run *)

(** The accesses of a call of each entry point, and the cycles: the accesses of [ctucan_start_xmit], 15 cycles
    of validation, the transmission, the accesses of [ctucan_tx_interrupt]. *)
Definition fifo_bus : list event := filter on_bus (trace (run_ops [op_xmit sample_skb; op_irq] fifo_st).2).

Definition access_cycles (base : Z) (e : event) : list cycle_in :=
  match e with
  | EvLoad a v => [sample_cycle no_hw_cmd (Some (bus_rd (a - base) v)); wait_cycle]
  | EvStore a v => [sample_cycle no_hw_cmd (Some (bus_wr (a - base) v)); wait_cycle]
  | _ => []
  end.

Definition fifo_cycles : list cycle_in :=
  (take 8 fifo_bus ≫= access_cycles 0x43C30000) ++ replicate 15 wait_cycle ++
  [sample_cycle (mkcmd true false false false false) None; wait_cycle;
   sample_cycle (mkcmd false true false false false) None] ++
  (drop 8 fifo_bus ≫= access_cycles 0x43C30000).

Definition fifo_rams : list (list Z) := replicate 4 (replicate 21 0).

Lemma fifo_start : core_start 0x43C30000 4 fifo_rams sample_core.
Proof.
  constructor; try done; [split; [done|by repeat constructor]|].
  intros i ram w x Hr Hx. apply lookup_replicate in Hr as [-> _]. by apply lookup_replicate in Hx as [-> _].
Qed.

Lemma tx_code_on_rtl_witness :
  conforms 4 fifo_cycles (tx_init fifo_rams 0x01234567) mon_init = true ∧
  sent_frames 4 fifo_cycles (tx_init fifo_rams 0x01234567) = [frame_view (frame_words sample_skb)] ∧
  wp (run_ops [op_xmit sample_skb; op_irq]) fifo_st (λ _ s', ∃ tr, trace s' = tr ∧
    bus_trace 0x43C30000 fifo_cycles = filter on_bus tr ∧
    sent_frames 4 fifo_cycles (tx_init fifo_rams 0x01234567) `prefix_of` (frame_view <$> queued tr)).
Proof.
  assert (Hco : conforms 4 fifo_cycles (tx_init fifo_rams 0x01234567) mon_init = true) by by vm_compute.
  split; [exact Hco|]. split; [by vm_compute|].
  pose proof (tx_code_on_rtl [op_xmit sample_skb; op_irq] fifo_st 4 fifo_rams sample_core
    (conj eq_refl eq_refl) sample_sinit fifo_ops_ok ltac:(lia) fifo_start) as Hth.
  destruct (proj1 (wp_iff _ _ _) Hth) as (a & s' & Hrun & tr & Htr & Hall).
  refine (proj2 (wp_iff _ _ _) _). exists a, s'. split; [exact Hrun|]. exists tr. split; [exact Htr|].
  assert (Hbus : bus_trace 0x43C30000 fifo_cycles = filter on_bus tr).
  { assert (Es : s' = (run_ops [op_xmit sample_skb; op_irq] fifo_st).2) by by rewrite Hrun.
    rewrite app_nil_l in Htr. rewrite <- Htr, Es. by vm_compute. }
  split; [exact Hbus|]. apply (Hall fifo_cycles Hbus Hco). by vm_compute.
Defined.
