(* ===== verification/IntMan.v ===== *)
(** * The interrupt manager of the core, cycle by cycle

    [src/src/interrupt_manager/]: [int_module.vhd], one per interrupt, and [int_manager.vhd], with the
    registers through which software reaches them (the strobes of [memory_reg_os.vhd] for INT_STAT,
    INT_ENA_SET, INT_ENA_CLR, INT_MASK_SET and INT_MASK_CLR).  [int_tick] is one rising edge of
    [clk_sys]; the asynchronous reset (the soft reset of MODE.RST) is sampled at the edge. *)

From Stdlib Require Import ZArith Lia.
From stdpp Require Import base numbers list.
From S2P Require Import Prelude TxArb.

#[local] Open Scope Z_scope.

(** ** One interrupt *)

Record int_module := mkim { int_status : bool; int_mask_i : bool; int_ena_i : bool }.

Record int_module_in := mkimin {
  int_status_set : bool; int_status_clear : bool;
  int_mask_set : bool; int_mask_clear : bool;
  int_ena_set : bool; int_ena_clear : bool }.

Definition int_mask_load (i : int_module_in) : bool := int_mask_set i || int_mask_clear i.
Definition int_mask_next (i : int_module_in) : bool := int_mask_set i.

Definition int_module_reset : int_module := mkim false false false.

(** [int_stat_proc], [int_mask_proc] and [int_ena_proc]: setting has priority over clearing. *)
Definition int_module_tick (i : int_module_in) (m : int_module) : int_module :=
  {| int_status :=
       if int_status_set i && negb (int_mask_i m) then true
       else if int_status_clear i then false
       else int_status m;
     int_mask_i := if int_mask_load i then int_mask_next i else int_mask_i m;
     int_ena_i :=
       if int_ena_set i then true
       else if int_ena_clear i then false
       else int_ena_i m |}.

(** ** The manager *)

Definition C_INT_COUNT : nat := 12.

(** The interrupt sources. *)
Record int_sources := mksources {
  so_err_detected : bool; so_fcs_changed : bool; so_err_warning_limit_pulse : bool;
  so_arbitration_lost : bool; so_tran_valid : bool; so_br_shifted : bool; so_rx_data_overrun : bool;
  so_rec_valid : bool; so_rx_full : bool; so_rx_empty : bool; so_txtb_hw_cmd_int : list bool;
  so_is_overload : bool }.

(** The indices [*_IND] of the register map. *)
Definition int_input_active (x : int_sources) (i : nat) : bool :=
  match i with
  | 0%nat => so_rec_valid x
  | 1%nat => so_tran_valid x
  | 2%nat => so_err_warning_limit_pulse x
  | 3%nat => so_rx_data_overrun x
  | 4%nat => so_fcs_changed x
  | 5%nat => so_arbitration_lost x
  | 6%nat => so_err_detected x
  | 7%nat => so_is_overload x
  | 8%nat => so_rx_full x
  | 9%nat => so_br_shifted x
  | 10%nat => negb (so_rx_empty x)
  | 11%nat => existsb (λ b, b) (so_txtb_hw_cmd_int x)
  | _ => false
  end.

Definition INT_STAT_ADR : Z := 0x10.
Definition INT_ENA_SET_ADR : Z := 0x14.
Definition INT_ENA_CLR_ADR : Z := 0x18.
Definition INT_MASK_SET_ADR : Z := 0x1C.
Definition INT_MASK_CLR_ADR : Z := 0x20.

(** The inputs of a cycle: reset, sources, the access of the bus. *)
Record int_cycle := mkicycle { ic_reset : bool; ic_src : int_sources; ic_bus : option tx_access }.

(** The bits of a write to an address, in the cycle of the write. *)
Definition strobe (c : int_cycle) (adr : Z) (i : nat) : bool :=
  match ic_bus c with
  | Some (bus_wr a v) => (a =? adr) && Z.testbit v (Z.of_nat i)
  | _ => false
  end.

(** The registers: the modules and the registered output [int]. *)
Record int_regs := mkiregs { int_modules : list int_module; int_q : bool }.

Definition int_reset : int_regs := mkiregs (replicate C_INT_COUNT int_module_reset) false.

(** [int_module_inst] *)
Definition int_ports (c : int_cycle) (i : nat) : int_module_in :=
  {| int_status_set := int_input_active (ic_src c) i; int_status_clear := strobe c INT_STAT_ADR i;
     int_mask_set := strobe c INT_MASK_SET_ADR i; int_mask_clear := strobe c INT_MASK_CLR_ADR i;
     int_ena_set := strobe c INT_ENA_SET_ADR i; int_ena_clear := strobe c INT_ENA_CLR_ADR i |}.

(** Some pending interrupt is enabled. *)
Definition int_i (s : int_regs) : bool := existsb (λ m, int_status m && int_ena_i m) (int_modules s).

Definition int_tick (c : int_cycle) (s : int_regs) : int_regs :=
  if ic_reset c then int_reset
  else {| int_modules := imap (λ i m, int_module_tick (int_ports c i) m) (int_modules s); int_q := int_i s |}.

Fixpoint int_cycles (cs : list int_cycle) (s : int_regs) : int_regs :=
  match cs with
  | [] => s
  | c :: cs => int_cycles cs (int_tick c s)
  end.

(** What loads of INT_STAT, INT_ENA_SET and INT_MASK_SET return. *)
Definition bits_word (bs : list bool) : Z := foldr (λ b w, Z.b2z b + 2 * w) 0 bs.

Definition int_stat_word (s : int_regs) : Z := bits_word (int_status <$> int_modules s).
Definition int_ena_word (s : int_regs) : Z := bits_word (int_ena_i <$> int_modules s).
Definition int_mask_word (s : int_regs) : Z := bits_word (int_mask_i <$> int_modules s).

(** ** Interrupt [i] *)

Definition int_of (s : int_regs) (i : nat) : int_module := default int_module_reset (int_modules s !! i).

Lemma int_of_tick c s i : length (int_modules s) = C_INT_COUNT → (i < C_INT_COUNT)%nat →
  int_of (int_tick c s) i =
    if ic_reset c then int_module_reset else int_module_tick (int_ports c i) (int_of s i).
Proof.
  intros Hlen Hi. unfold int_of, int_tick. destruct (ic_reset c).
  - cbn [int_modules int_reset]. by rewrite lookup_replicate_2.
  - cbn [int_modules]. rewrite list_lookup_imap. by destruct (lookup_lt_is_Some_2 (int_modules s) i) as [m ->]; [lia|].
Qed.

Lemma int_tick_length c s :
  length (int_modules s) = C_INT_COUNT → length (int_modules (int_tick c s)) = C_INT_COUNT.
Proof. intros Hlen. unfold int_tick. case_match; [done|]. cbn [int_modules]. by rewrite length_imap. Qed.

Lemma int_cycles_length cs s :
  length (int_modules s) = C_INT_COUNT → length (int_modules (int_cycles cs s)) = C_INT_COUNT.
Proof. revert s. induction cs as [|c cs IH]; intros s Hlen; [done|]. simpl. by apply IH, int_tick_length. Qed.

Lemma int_cycles_app cs1 cs2 s : int_cycles (cs1 ++ cs2) s = int_cycles cs2 (int_cycles cs1 s).
Proof. revert s. induction cs1 as [|c cs1 IH]; intros s; [done|]. apply IH. Qed.

Lemma int_i_of s i : (i < length (int_modules s))%nat →
  int_status (int_of s i) = true → int_ena_i (int_of s i) = true → int_i s = true.
Proof.
  intros Hi Hs He. destruct (lookup_lt_is_Some_2 (int_modules s) i Hi) as [m Hm].
  unfold int_of in *. rewrite Hm in *. simpl in *. unfold int_i. apply existsb_exists. exists m.
  split; [by eapply list_elem_of_In, list_elem_of_lookup_2|by rewrite Hs, He].
Qed.

Lemma testbit_bits_word bs i : Z.testbit (bits_word bs) (Z.of_nat i) = default false (bs !! i).
Proof.
  revert i. induction bs as [|b bs IH]; intros i; cbn [bits_word foldr].
  - by rewrite Z.testbit_0_l.
  - change (foldr _ 0 bs) with (bits_word bs). replace (Z.b2z b + 2 * bits_word bs) with (2 * bits_word bs + Z.b2z b) by lia.
    destruct i as [|i].
    + by rewrite Z.testbit_0_r.
    + rewrite Nat2Z.inj_succ, Z.testbit_succ_r by lia. apply IH.
Qed.

Lemma testbit_int_stat_word s i : Z.testbit (int_stat_word s) (Z.of_nat i) = int_status (int_of s i).
Proof.
  unfold int_stat_word, int_of. rewrite testbit_bits_word, list_lookup_fmap. by destruct (int_modules s !! i).
Qed.
