(* ===== verification/BaseErr.v ===== *)
(** * Error handling in the kernel driver

    [ctucan_state_to_str], [ctucan_read_fault_state], [ctucan_get_rec_tec] and
    [ctucan_err_interrupt] of [ctucanfd_base.c]. *)

From Stdlib Require Import ZArith Lia.
From stdpp Require Import base numbers list strings sets.
From S2P Require Import Prelude LinuxDefs World Kregs Base Sim BaseRx.

#[local] Open Scope Z_scope.

(** ** The functions *)

Definition ctucan_state_to_str (state : can_state) : string :=
  match state with
  | CAN_STATE_ERROR_ACTIVE => "CAN_STATE_ERROR_ACTIVE"
  | CAN_STATE_ERROR_WARNING => "CAN_STATE_ERROR_WARNING"
  | CAN_STATE_ERROR_PASSIVE => "CAN_STATE_ERROR_PASSIVE"
  | CAN_STATE_BUS_OFF => "CAN_STATE_BUS_OFF"
  | CAN_STATE_STOPPED => "CAN_STATE_STOPPED"
  | CAN_STATE_SLEEPING => "CAN_STATE_SLEEPING"
  end.

Section Err.
Context {W : Type} `{World W}.
Abbreviation MB := (M net_device W).

Definition ctucan_read_fault_state : MB can_state :=
  fs ← ctucan_read32 CTUCANFD_EWL;
  rec_tec ← ctucan_read32 CTUCANFD_REC;
  let ewl := FIELD_GET REG_EWL_EW_LIMIT fs in
  if nz (FIELD_GET REG_EWL_ERA fs) then
    if (FIELD_GET REG_REC_REC_VAL rec_tec <? ewl) && (FIELD_GET REG_REC_TEC_VAL rec_tec <? ewl)
    then mret CAN_STATE_ERROR_ACTIVE
    else mret CAN_STATE_ERROR_WARNING
  else if nz (FIELD_GET REG_EWL_ERP fs) then mret CAN_STATE_ERROR_PASSIVE
  else if nz (FIELD_GET REG_EWL_BOF fs) then mret CAN_STATE_BUS_OFF
  else
    call_ (netdev_msg "Invalid error state");;
    mret CAN_STATE_ERROR_PASSIVE.

Definition ctucan_get_rec_tec : MB can_berr_counter :=
  err_ctrs ← ctucan_read32 CTUCANFD_REC;
  mret {| rxerr := u16 (FIELD_GET REG_REC_REC_VAL err_ctrs);
          txerr := u16 (FIELD_GET REG_REC_TEC_VAL err_ctrs) |}.

(** [cf->data[i] = v] *)
Definition set_byte (i : nat) (v : Z) (cf : canfd_frame) : MB canfd_frame :=
  if decide (i < length (data cf))%nat then mret (set_data (<[i := u8 v]> (data cf)) cf)
  else undefined OutOfBounds.

Definition or_id (v : Z) (cf : canfd_frame) : canfd_frame := set_can_id (Z.lor (can_id cf) v) cf.

(** [if (skb) { .. cf .. }] and an access to [*cf] without the test. *)
Definition if_skb (skb : option canfd_frame) (f : canfd_frame → MB canfd_frame) : MB (option canfd_frame) :=
  match skb with
  | Some cf => cf ← f cf; mret (Some cf)
  | None => mret None
  end.

Definition deref_cf (skb : option canfd_frame) (f : canfd_frame → MB canfd_frame) :
    MB (option canfd_frame) :=
  match skb with
  | Some cf => cf ← f cf; mret (Some cf)
  | None => undefined NullDeref
  end.

(** The [switch (state)] of [ctucan_err_interrupt]. *)
Definition err_switch (state : can_state) (bec : can_berr_counter) (skb : option canfd_frame) :
    MB (option canfd_frame) :=
  match state with
  | CAN_STATE_BUS_OFF =>
      modify (upd_can_stats (λ r, set_bus_off (incr32 (bus_off r)) r));;
      call_ can_bus_off;;
      if_skb skb (λ cf, mret (or_id CAN_ERR_BUSOFF cf))
  | CAN_STATE_ERROR_PASSIVE =>
      modify (upd_can_stats (λ r, set_error_passive (incr32 (error_passive r)) r));;
      if_skb skb (λ cf,
        let cf := or_id (Z.lor CAN_ERR_CRTL CAN_ERR_CNT) cf in
        cf ← set_byte 1 (if 127 <? rxerr bec then CAN_ERR_CRTL_RX_PASSIVE
                         else CAN_ERR_CRTL_TX_PASSIVE) cf;
        cf ← set_byte 6 (txerr bec) cf;
        set_byte 7 (rxerr bec) cf)
  | CAN_STATE_ERROR_WARNING =>
      modify (upd_can_stats (λ r, set_error_warning (incr32 (error_warning r)) r));;
      if_skb skb (λ cf,
        let cf := or_id (Z.lor CAN_ERR_CRTL CAN_ERR_CNT) cf in
        cf ← or_data 1 (if rxerr bec <? txerr bec then CAN_ERR_CRTL_TX_WARNING
                        else CAN_ERR_CRTL_RX_WARNING) cf;
        cf ← set_byte 6 (txerr bec) cf;
        set_byte 7 (rxerr bec) cf)
  | CAN_STATE_ERROR_ACTIVE =>
      deref_cf skb (λ cf,
        let cf := or_id CAN_ERR_CNT cf in
        cf ← set_byte 1 CAN_ERR_CRTL_ACTIVE cf;
        cf ← set_byte 6 (txerr bec) cf;
        set_byte 7 (rxerr bec) cf)
  | _ =>
      call_ (netdev_msg "unhandled error state!\n");;
      mret skb
  end.

Definition ctucan_err_interrupt (isr : Z) : MB unit :=
  dologerr ← call net_ratelimit;
  bec ← ctucan_get_rec_tec;
  state ← ctucan_read_fault_state;
  err_capt_alc ← ctucan_read32 CTUCANFD_ERR_CAPT;
  when (nz dologerr) (call_ (netdev_msg "ISR, rxerr, txerr, error type, pos, ALC\n"));;
  skb ← alloc alloc_can_err_skb;
  skb ←
    (if nz (FIELD_GET REG_INT_STAT_FCSI isr) || nz (FIELD_GET REG_INT_STAT_EWLI isr) then
       call_ (netdev_msg "state changes\n");;
       old ← gets (λ n, Base.state (can (priv n)));
       when (bool_decide (old = state))
         (call_ (netdev_msg "current and previous state is the same! (missed interrupt?)\n"));;
       modify (upd_can (set_state state));;
       err_switch state bec skb
     else mret skb);
  skb ←
    (if nz (FIELD_GET REG_INT_STAT_ALI isr) then
       when (nz dologerr) (call_ (netdev_msg "arbitration lost\n"));;
       modify (upd_can_stats (λ r, set_arbitration_lost (incr32 (arbitration_lost r)) r));;
       if_skb skb (λ cf, set_byte 0 CAN_ERR_LOSTARB_UNSPEC (or_id CAN_ERR_LOSTARB cf))
     else mret skb);
  skb ←
    (if nz (FIELD_GET REG_INT_STAT_BEI isr) then
       call_ (netdev_msg "bus error\n");;
       modify (upd_can_stats (λ r, set_bus_error (incr32 (bus_error r)) r));;
       modify (upd_stats (λ r, set_rx_errors (incr64 (rx_errors r)) r));;
       if_skb skb (λ cf,
         let cf := or_id (Z.lor CAN_ERR_PROT CAN_ERR_BUSERROR) cf in
         cf ← set_byte 2 CAN_ERR_PROT_UNSPEC cf;
         set_byte 3 CAN_ERR_PROT_LOC_UNSPEC cf)
     else mret skb);
  match skb with
  | Some cf =>
      modify (upd_stats (λ r, set_rx_packets (incr64 (rx_packets r)) r));;
      modify (upd_stats (λ r, set_rx_bytes (u64 (rx_bytes r + len cf)) r));;
      call_ (netif_rx cf)
  | None => mret tt
  end.

End Err.

(** ** What the handler reports *)

(** The fault confinement state in the words of EWL and REC. *)
Definition fault_state (fs rec_tec : Z) : can_state :=
  let ewl := FIELD_GET REG_EWL_EW_LIMIT fs in
  if Z.testbit fs 16 then
    if (FIELD_GET REG_REC_REC_VAL rec_tec <? ewl) && (FIELD_GET REG_REC_TEC_VAL rec_tec <? ewl)
    then CAN_STATE_ERROR_ACTIVE else CAN_STATE_ERROR_WARNING
  else if Z.testbit fs 17 then CAN_STATE_ERROR_PASSIVE
  else if Z.testbit fs 18 then CAN_STATE_BUS_OFF
  else CAN_STATE_ERROR_PASSIVE.

Definition berr_of (rec_tec : Z) : can_berr_counter :=
  {| rxerr := FIELD_GET REG_REC_REC_VAL rec_tec; txerr := FIELD_GET REG_REC_TEC_VAL rec_tec |}.

(** The interrupts that report a change of the state. *)
Definition state_irq (isr : Z) : bool :=
  nz (FIELD_GET REG_INT_STAT_FCSI isr) || nz (FIELD_GET REG_INT_STAT_EWLI isr).

Definition put (i : nat) (v : Z) (cf : canfd_frame) : canfd_frame :=
  set_data (<[i := u8 v]> (data cf)) cf.

(** The error frame for a new state, and for all the interrupts. *)
Definition state_frame (st : can_state) (bec : can_berr_counter) (cf : canfd_frame) : canfd_frame :=
  let counters cf := put 7 (rxerr bec) (put 6 (txerr bec) cf) in
  match st with
  | CAN_STATE_BUS_OFF => or_id CAN_ERR_BUSOFF cf
  | CAN_STATE_ERROR_PASSIVE =>
      counters (put 1 (if 127 <? rxerr bec then CAN_ERR_CRTL_RX_PASSIVE else CAN_ERR_CRTL_TX_PASSIVE)
        (or_id (Z.lor CAN_ERR_CRTL CAN_ERR_CNT) cf))
  | CAN_STATE_ERROR_WARNING =>
      let w := if rxerr bec <? txerr bec then CAN_ERR_CRTL_TX_WARNING else CAN_ERR_CRTL_RX_WARNING in
      counters (set_data (alter (λ b, Z.lor b w) 1%nat (data cf))
        (or_id (Z.lor CAN_ERR_CRTL CAN_ERR_CNT) cf))
  | CAN_STATE_ERROR_ACTIVE => counters (put 1 CAN_ERR_CRTL_ACTIVE (or_id CAN_ERR_CNT cf))
  | _ => cf
  end.

Definition err_frame (isr : Z) (st : can_state) (bec : can_berr_counter) (cf : canfd_frame) : canfd_frame :=
  let cf := if state_irq isr then state_frame st bec cf else cf in
  let cf := if nz (FIELD_GET REG_INT_STAT_ALI isr)
            then put 0 CAN_ERR_LOSTARB_UNSPEC (or_id CAN_ERR_LOSTARB cf) else cf in
  if nz (FIELD_GET REG_INT_STAT_BEI isr)
  then put 3 CAN_ERR_PROT_LOC_UNSPEC
         (put 2 CAN_ERR_PROT_UNSPEC (or_id (Z.lor CAN_ERR_PROT CAN_ERR_BUSERROR) cf))
  else cf.

(** The state and the counters after the handler. *)
Definition state_count (st : can_state) (n : net_device) : net_device :=
  let n := upd_can (set_state st) n in
  match st with
  | CAN_STATE_BUS_OFF => upd_can_stats (λ r, set_bus_off (incr32 (bus_off r)) r) n
  | CAN_STATE_ERROR_PASSIVE => upd_can_stats (λ r, set_error_passive (incr32 (error_passive r)) r) n
  | CAN_STATE_ERROR_WARNING => upd_can_stats (λ r, set_error_warning (incr32 (error_warning r)) r) n
  | _ => n
  end.

Definition err_count (isr : Z) (st : can_state) (n : net_device) : net_device :=
  let n := if state_irq isr then state_count st n else n in
  let n := if nz (FIELD_GET REG_INT_STAT_ALI isr)
           then upd_can_stats (λ r, set_arbitration_lost (incr32 (arbitration_lost r)) r) n else n in
  if nz (FIELD_GET REG_INT_STAT_BEI isr)
  then upd_stats (λ r, set_rx_errors (incr64 (rx_errors r)) r)
         (upd_can_stats (λ r, set_bus_error (incr32 (bus_error r)) r) n)
  else n.

Definition count_rx (cf : canfd_frame) (n : net_device) : net_device :=
  upd_stats (λ r, set_rx_bytes (u64 (rx_bytes r + len cf)) (set_rx_packets (incr64 (rx_packets r)) r)) n.

(** What the rest of the kernel sees: allocations (with their success), error
    frames and the bus-off notification. *)
Inductive err_obs := obs_alloc (ok : bool) | obs_frame (cf : canfd_frame) | obs_bus_off.

Fixpoint err_calls (tr : list event) : list err_obs :=
  match tr with
  | [] => []
  | EvAlloc _ ok :: tr' => obs_alloc ok :: err_calls tr'
  | EvCall (netif_rx cf) _ :: tr' => obs_frame cf :: err_calls tr'
  | EvCall can_bus_off _ :: tr' => obs_bus_off :: err_calls tr'
  | _ :: tr' => err_calls tr'
  end.

Lemma err_calls_app t1 t2 : err_calls (t1 ++ t2) = err_calls t1 ++ err_calls t2.
Proof. induction t1 as [|[| |[]|] t1 IH]; simpl; congruence. Qed.

(** The notification for a new state. *)
Definition bus_off_obs (b : bool) (st : can_state) : list err_obs :=
  if b && bool_decide (st = CAN_STATE_BUS_OFF) then [obs_bus_off] else [].

Section ErrProofs.
Context {W : Type} `{World W} `{!AllocOk W}.
Implicit Types (s : st net_device W).

(** From [s] to [s'] the device became [n], nothing was written, and the loads and
    calls that matter are [L] and [C]. *)
Definition ran s s' (n : net_device) (L : list (Z * Z)) (C : list err_obs) : Prop :=
  drv s' = n ∧ ∃ tr, trace s' = trace s ++ tr ∧ stores tr = [] ∧ loads tr = L ∧ err_calls tr = C.

Lemma ran_trans s s1 s2 n1 n2 L1 L2 C1 C2 :
  ran s s1 n1 L1 C1 → ran s1 s2 n2 L2 C2 → ran s s2 n2 (L1 ++ L2) (C1 ++ C2).
Proof.
  intros (_ & t1 & H1 & S1 & <- & <-) (Hd & t2 & H2 & S2 & <- & <-). split; [done|].
  exists (t1 ++ t2). by rewrite H2, H1, app_assoc, stores_app, S1, S2, loads_app, err_calls_app.
Qed.

Ltac ran_done :=
  split; [done|]; tr_norm;
  first [by exists []; rewrite app_nil_r | eexists; split_and!; [reflexivity|done..]].

Lemma FIELD_GET_u16 m x : mask_ok m = true → mask_width m <= 16 → u16 (FIELD_GET m x) = FIELD_GET m x.
Proof.
  intros Hm Hw. apply Z.mod_small. pose proof (FIELD_GET_mask_range m x Hm) as [? ?].
  split; [done|]. eapply Z.lt_le_trans; [done|]. by apply Z.pow_le_mono_r.
Qed.

Lemma get_rec_tec_wp s :
  le_dev (drv s) → wp ctucan_get_rec_tec s (λ bec s', ∃ v, bec = berr_of v ∧
    ran s s' (drv s) [(reg_at (drv s) CTUCANFD_REC, v)] []).
Proof.
  intros Hle. unfold ctucan_get_rec_tec. bsteps. eexists. split; [|ran_done].
  unfold berr_of. rewrite !FIELD_GET_u16; done.
Qed.

Lemma read_fault_state_wp s :
  le_dev (drv s) → wp ctucan_read_fault_state s (λ st s', ∃ fs rt, st = fault_state fs rt ∧
    ran s s' (drv s) [(reg_at (drv s) CTUCANFD_EWL, fs); (reg_at (drv s) CTUCANFD_REC, rt)] []).
Proof.
  intros Hle. unfold ctucan_read_fault_state. bsteps.
  unfold REG_EWL_ERA, REG_EWL_ERP, REG_EWL_BOF. rewrite !nz_FIELD_GET_BIT by done.
  repeat (apply wp_if; intros ?); bsteps; eexists _, _; (split; [|ran_done]); unfold fault_state;
    repeat match goal with H : _ = _ |- _ => rewrite H; clear H end; done.
Qed.

Lemma wp_set_byte i v cf s Q :
  (i < length (data cf))%nat → Q (put i v cf) s → wp (set_byte i v cf) s Q.
Proof. intros Hi HQ. unfold set_byte. by rewrite decide_True. Qed.

Lemma length_put i v cf : length (data (put i v cf)) = length (data cf).
Proof. apply length_insert. Qed.

Lemma length_or_id v cf : length (data (or_id v cf)) = length (data cf).
Proof. done. Qed.

Lemma state_frame_length st bec cf : length (data (state_frame st bec cf)) = length (data cf).
Proof.
  destruct st; simpl; rewrite ?length_insert, ?length_alter; done.
Qed.

(** The effect of the [switch] when there is a buffer, and when there is none. *)
Lemma err_switch_some st bec cf n s :
  length (data cf) = 8%nat → drv s = upd_can (set_state st) n →
  wp (err_switch st bec (Some cf)) s (λ o s', o = Some (state_frame st bec cf) ∧
    ran s s' (state_count st n) [] (bus_off_obs true st)).
Proof.
  intros Hl Hd. destruct st; unfold err_switch, if_skb, deref_cf; bsteps;
    repeat first [apply wp_set_byte; [rewrite ?length_put; simpl; lia|] | bstep].
  all: try (split; [reflexivity|]; rewrite ?Hd; ran_done).
  - unfold or_data. bsteps. simpl.
    destruct (data cf) as [|b0 [|b1 d]] eqn:Ed; simpl in Hl; try lia.
    eapply wp_some_or; [done|]. bsteps.
    repeat first [apply wp_set_byte; [rewrite ?length_put; simpl; lia|] | bstep].
    split; [unfold state_frame, put, or_id, set_data; cbn [data can_id len flags set_can_id]; reflexivity|]. rewrite Hd. ran_done.
Qed.

Lemma err_switch_none st bec n s :
  drv s = upd_can (set_state st) n → st ≠ CAN_STATE_ERROR_ACTIVE →
  wp (err_switch st bec None) s (λ o s', o = None ∧
    ran s s' (state_count st n) [] (bus_off_obs true st)).
Proof.
  intros Hd Ha. destruct st; [done|..]; unfold err_switch, if_skb; bsteps; (split; [done|]);
    rewrite ?Hd; ran_done.
Qed.

(** The reads of the handler: counters, state (limits and counters), capture. *)
Definition err_reads (n : net_device) (rt fs rt2 cap : Z) : list (Z * Z) :=
  [(reg_at n CTUCANFD_REC, rt); (reg_at n CTUCANFD_EWL, fs); (reg_at n CTUCANFD_REC, rt2);
   (reg_at n CTUCANFD_ERR_CAPT, cap)].

(** The part of the handler before the frame is filled in. *)
Lemma err_prefix_wp s (K : option canfd_frame → can_state → can_berr_counter → Z → M net_device W unit) Q N :
  le_dev (drv s) →
  (∀ skb rt fs rt2 cap r s1,
    ran s s1 (drv s) (err_reads (drv s) rt fs rt2 cap) [obs_alloc (bool_decide (is_Some skb))] →
    (∀ cf, skb = Some cf → length (data cf) = 8%nat) →
    outcome (K skb (fault_state fs rt2) (berr_of rt) r) s1 Q N) →
  outcome (dologerr ← call net_ratelimit;
    bec ← ctucan_get_rec_tec;
    state ← ctucan_read_fault_state;
    err_capt_alc ← ctucan_read32 CTUCANFD_ERR_CAPT;
    when (nz dologerr) (call_ (netdev_msg "ISR, rxerr, txerr, error type, pos, ALC\n"));;
    skb ← alloc alloc_can_err_skb;
    K skb state bec dologerr) s Q N.
Proof.
  intros Hle HK. apply outcome_bind, outcome_wp. bsteps.
  apply outcome_bind, outcome_wp. eapply wp_mono; [apply get_rec_tec_wp; by_le|].
  intros bec s1 (rt & -> & Hr1). assert (Hle1 : le_dev (drv s1)) by (by destruct Hr1 as [-> _]).
  apply outcome_bind, outcome_wp. eapply wp_mono; [by apply read_fault_state_wp|].
  intros st s2 (fs & rt2 & -> & Hr2). assert (Hle2 : le_dev (drv s2)) by (by destruct Hr2 as [-> _]).
  pose proof (ran_trans _ _ _ _ _ _ _ _ _ Hr1 Hr2) as Hr. simpl in Hr.
  apply outcome_bind, outcome_wp. bstep. apply outcome_bind, outcome_wp.
  assert (Hend : ∀ tr w, stores tr = [] → loads tr = [] → err_calls tr = [] →
    outcome (skb ← alloc alloc_can_err_skb; K skb (fault_state fs rt2) (berr_of rt) r)
      (mkst (drv s2) w ((trace s2 ++ [EvLoad (reg_at (drv s2) CTUCANFD_ERR_CAPT) (u32 v)]) ++ tr)) Q N).
  { intros tr w Hst Hld Hec. apply outcome_bind, outcome_wp, wp_alloc. intros o w2 Ho.
    eapply HK; [|intros cf ->; by rewrite (alloc_capacity _ _ _ _ Ho)].
    destruct Hr as (Hd & t0 & Ht0 & Hs0 & Hl0 & Hc0). destruct Hr1 as [Hd1 _].
    split; [simpl; by rewrite Hd, Hd1|]. cbn [drv trace] in *. rewrite Ht0.
    exists (EvCall net_ratelimit r :: t0 ++ EvLoad (reg_at (drv s2) CTUCANFD_ERR_CAPT) (u32 v) :: tr ++
            [EvAlloc alloc_can_err_skb (bool_decide (is_Some o))]).
    split; [by rewrite <- !app_assoc|].
    cbn [stores loads err_calls]. rewrite !stores_app, !loads_app, !err_calls_app, Hs0, Hl0, Hc0. simpl.
    rewrite stores_app, loads_app, err_calls_app, Hst, Hld, Hec, Hd, Hd1. done. }
  apply wp_when; intros _; bsteps.
  - by apply (Hend [EvCall (netdev_msg _) _]).
  - rewrite <- (app_nil_r (_ ++ [_])). by apply Hend.
Qed.

(** The three parts that fill the frame in. *)
Definition skb_ok (skb : option canfd_frame) : Prop :=
  ∀ cf, skb = Some cf → length (data cf) = 8%nat.

Lemma seg_state_wp isr st bec skb s :
  skb_ok skb →
  outcome (if nz (FIELD_GET REG_INT_STAT_FCSI isr) || nz (FIELD_GET REG_INT_STAT_EWLI isr) then
       call_ (netdev_msg "state changes\n");;
       old ← gets (λ n, Base.state (can (priv n)));
       when (bool_decide (old = st))
         (call_ (netdev_msg "current and previous state is the same! (missed interrupt?)\n"));;
       modify (upd_can (set_state st));;
       err_switch st bec skb
     else mret skb) s
    (λ o s', o = (λ cf, if state_irq isr then state_frame st bec cf else cf) <$> skb ∧
       ran s s' (if state_irq isr then state_count st (drv s) else drv s) [] (bus_off_obs (state_irq isr) st))
    (λ s', skb = None ∧ state_irq isr = true ∧ st = CAN_STATE_ERROR_ACTIVE ∧
       ran s s' (upd_can (set_state st) (drv s)) [] []).
Proof.
  intros Hok. fold (state_irq isr). destruct (state_irq isr).
  2: { apply outcome_wp. bsteps. split; [by destruct skb|ran_done]. }
  assert (Hsw : ∀ s1, ran s s1 (upd_can (set_state st) (drv s)) [] [] →
    outcome (err_switch st bec skb) s1 (λ o s', o = (λ cf, state_frame st bec cf) <$> skb ∧
       ran s s' (state_count st (drv s)) [] (bus_off_obs true st))
      (λ s', skb = None ∧ true = true ∧ st = CAN_STATE_ERROR_ACTIVE ∧
       ran s s' (upd_can (set_state st) (drv s)) [] [])).
  { intros s1 Hr. pose proof Hr as [Hd _]. destruct skb as [cf|].
    - apply outcome_wp. eapply wp_mono; [apply err_switch_some; [by apply Hok|exact Hd]|].
      intros o s2 (-> & Hr2). split; [done|]. by apply (ran_trans _ _ _ _ _ _ _ _ _ Hr Hr2).
    - destruct (decide (st = CAN_STATE_ERROR_ACTIVE)) as [->|].
      + by apply outcome_null.
      + apply outcome_wp. eapply wp_mono; [by apply err_switch_none|].
        intros o s2 (-> & Hr2). split; [done|]. by apply (ran_trans _ _ _ _ _ _ _ _ _ Hr Hr2). }
  apply outcome_bind, outcome_wp. bsteps. apply outcome_bind, outcome_wp. bsteps.
  apply outcome_bind, outcome_wp. apply wp_when; intros _; bsteps;
    apply outcome_bind, outcome_wp; bsteps; apply Hsw; ran_done.
Qed.

Lemma seg_ali_wp isr skb s (b : bool) :
  skb_ok skb →
  wp (if nz (FIELD_GET REG_INT_STAT_ALI isr) then
       when b (call_ (netdev_msg "arbitration lost\n"));;
       modify (upd_can_stats (λ r, set_arbitration_lost (incr32 (arbitration_lost r)) r));;
       if_skb skb (λ cf, set_byte 0 CAN_ERR_LOSTARB_UNSPEC (or_id CAN_ERR_LOSTARB cf))
     else mret skb) s
    (λ o s', o = (λ cf, if nz (FIELD_GET REG_INT_STAT_ALI isr)
                        then put 0 CAN_ERR_LOSTARB_UNSPEC (or_id CAN_ERR_LOSTARB cf) else cf) <$> skb ∧
       ran s s' (if nz (FIELD_GET REG_INT_STAT_ALI isr)
           then upd_can_stats (λ r, set_arbitration_lost (incr32 (arbitration_lost r)) r) (drv s)
           else drv s) [] []).
Proof.
  intros Hok. destruct (nz _); [|bsteps; split; [by destruct skb|ran_done]].
  bstep. apply wp_when; intros _; bsteps; destruct skb as [cf|]; unfold if_skb; bsteps;
    try (apply wp_set_byte; [simpl; rewrite Hok by done; lia|]; bsteps); (split; [done|ran_done]).
Qed.

Lemma seg_bei_wp isr skb s :
  skb_ok skb →
  wp (if nz (FIELD_GET REG_INT_STAT_BEI isr) then
       call_ (netdev_msg "bus error\n");;
       modify (upd_can_stats (λ r, set_bus_error (incr32 (bus_error r)) r));;
       modify (upd_stats (λ r, set_rx_errors (incr64 (rx_errors r)) r));;
       if_skb skb (λ cf,
         let cf := or_id (Z.lor CAN_ERR_PROT CAN_ERR_BUSERROR) cf in
         cf ← set_byte 2 CAN_ERR_PROT_UNSPEC cf;
         set_byte 3 CAN_ERR_PROT_LOC_UNSPEC cf)
     else mret skb) s
    (λ o s', o = (λ cf, if nz (FIELD_GET REG_INT_STAT_BEI isr)
         then put 3 CAN_ERR_PROT_LOC_UNSPEC
                (put 2 CAN_ERR_PROT_UNSPEC (or_id (Z.lor CAN_ERR_PROT CAN_ERR_BUSERROR) cf))
         else cf) <$> skb ∧
       ran s s' (if nz (FIELD_GET REG_INT_STAT_BEI isr)
           then upd_stats (λ r, set_rx_errors (incr64 (rx_errors r)) r)
                  (upd_can_stats (λ r, set_bus_error (incr32 (bus_error r)) r) (drv s))
           else drv s) [] []).
Proof.
  intros Hok. destruct (nz _); [|bsteps; split; [by destruct skb|ran_done]].
  bsteps. destruct skb as [cf|]; unfold if_skb; bsteps; [|split; [done|ran_done]].
  apply wp_set_byte; [simpl; rewrite Hok by done; lia|]. bsteps.
  apply wp_set_byte; [rewrite length_put; simpl; rewrite Hok by done; lia|]. bsteps.
  split; [done|ran_done].
Qed.

(** What the handler leaves, when it returns and when it does not. *)
Definition err_done (isr : Z) s s' : Prop :=
  ∃ rt fs rt2 cap skb, skb_ok skb ∧
    let st := fault_state fs rt2 in
    let frame := err_frame isr st (berr_of rt) in
    ran s s'
      (match skb with
       | Some cf => count_rx (frame cf) (err_count isr st (drv s))
       | None => err_count isr st (drv s)
       end)
      (err_reads (drv s) rt fs rt2 cap)
      (obs_alloc (bool_decide (is_Some skb)) :: bus_off_obs (state_irq isr) st ++
       match skb with Some cf => [obs_frame (frame cf)] | None => [] end).

Definition err_null (isr : Z) s s' : Prop :=
  state_irq isr = true ∧ ∃ rt fs rt2 cap, fault_state fs rt2 = CAN_STATE_ERROR_ACTIVE ∧
    ran s s' (upd_can (set_state CAN_STATE_ERROR_ACTIVE) (drv s))
      (err_reads (drv s) rt fs rt2 cap) [obs_alloc false].

Lemma err_interrupt_outcome isr s :
  le_dev (drv s) →
  outcome (ctucan_err_interrupt isr) s (λ _, err_done isr s) (err_null isr s).
Proof.
  intros Hle. unfold ctucan_err_interrupt. eapply err_prefix_wp; [done|].
  intros skb rt fs rt2 cap r s1 Hr1 Hok. pose proof Hr1 as [Hd1 _]. cbv beta.
  apply outcome_bind. eapply outcome_mono; [by apply seg_state_wp| |].
  2: { intros s2 (-> & Hi & Hst & Hr2). split; [done|]. exists rt, fs, rt2, cap. split; [done|].
       rewrite Hst, Hd1 in Hr2. by apply (ran_trans _ _ _ _ _ _ _ _ _ Hr1 Hr2). }
  intros skb2 s2 [-> Hr2]. rewrite Hd1 in Hr2. pose proof Hr2 as [Hd2 _].
  apply outcome_bind, outcome_wp. eapply wp_mono; [apply seg_ali_wp|].
  { intros cf'. destruct skb as [cf|]; [|done]. intros [= <-].
    destruct (state_irq isr); [rewrite state_frame_length|]; by apply Hok. }
  intros skb3 s3 [-> Hr3]. rewrite Hd2 in Hr3. pose proof Hr3 as [Hd3 _].
  apply outcome_bind, outcome_wp. eapply wp_mono; [apply seg_bei_wp|].
  { intros cf'. destruct skb as [cf|]; [|done]. intros [= <-].
    destruct (nz _); rewrite ?length_put, ?length_or_id;
      destruct (state_irq isr); rewrite ?state_frame_length; by apply Hok. }
  intros skb4 s4 [-> Hr4]. rewrite Hd3 in Hr4. pose proof Hr4 as [Hd4 _]. apply outcome_wp.
  pose proof (ran_trans _ _ _ _ _ _ _ _ _ Hr1 Hr2) as Ha.
  pose proof (ran_trans _ _ _ _ _ _ _ _ _ Ha Hr3) as Hb.
  pose proof (ran_trans _ _ _ _ _ _ _ _ _ Hb Hr4) as Hc. rewrite !app_nil_r in Hc. clear Ha Hb Hr1 Hr2 Hr3 Hr4.
  destruct skb as [cf|]; csimpl; bsteps; exists rt, fs, rt2, cap.
  - exists (Some cf). split; [done|].
    destruct Hc as (Hd & tr & Ht & Hs & Hl & Ho). split; [simpl; by rewrite Hd|]. cbn [trace]. rewrite Ht.
    eexists. rewrite <- app_assoc. split; [done|].
    rewrite stores_app, loads_app, err_calls_app, Hs, Hl, Ho. by rewrite app_nil_r, <- app_assoc.
  - exists None. split; [done|]. cbv zeta. by rewrite app_nil_r.
Qed.

(** C20: [ctucan_err_interrupt], for every world whose error frames have 8 data
    bytes.  It writes no register and reads the counters, the fault state and
    the error capture once each.  When it returns, the state (if
    a state interrupt is pending) and the counters are those of [err_count], the
    kernel is told of bus-off exactly when that state was entered, and one error
    frame, the one of [err_frame], is delivered if one could be allocated.  It fails
    in one way only, by an access through the null frame pointer: when
    the allocation failed and a state interrupt reports the error-active state. *)
Theorem ctucan_err_interrupt_spec isr s :
  le_dev (drv s) →
  outcome (ctucan_err_interrupt isr) s (λ _, err_done isr s) (err_null isr s).
Proof. apply err_interrupt_outcome. Qed.

End ErrProofs.

(** ** Concrete runs *)

(** A return to error-active with limit 96 and counters 5 and 6. *)
Definition active_reads : list Z := [0x00060005; 0x00018060; 0x00060005; 0].

Definition err_st (allocs : list bool) : st net_device script :=
  mkst sample_dev (mkscript active_reads [] allocs) [].

Lemma ctucan_err_interrupt_witness :
  outcome (ctucan_err_interrupt REG_INT_STAT_FCSI) (err_st [true])
    (λ _, err_done REG_INT_STAT_FCSI (err_st [true])) (err_null REG_INT_STAT_FCSI (err_st [true])).
Proof.
  exact (ctucan_err_interrupt_spec REG_INT_STAT_FCSI (err_st [true]) (conj eq_refl eq_refl)).
Defined.

(** With a buffer the counters are reported ... *)
Example err_active_run :
  wp (ctucan_err_interrupt REG_INT_STAT_FCSI) (err_st [true]) (λ _ s',
    Base.state (can (priv (drv s'))) = CAN_STATE_ERROR_ACTIVE ∧
    err_calls (trace s') = [obs_alloc true; obs_frame {| can_id := Z.lor CAN_ERR_FLAG CAN_ERR_CNT;
      len := 8; flags := 0; data := [0; CAN_ERR_CRTL_ACTIVE; 0; 0; 0; 0; 6; 5] |}]).
Proof. by vm_compute. Qed.

(** ... and without one the handler accesses the frame through a null pointer: the
    failing case of the specification above does happen. *)
Theorem err_interrupt_null_deref :
  fst (ctucan_err_interrupt REG_INT_STAT_FCSI (err_st [false])) = Ub NullDeref.
Proof. by vm_compute. Qed.
