(* ===== verification/BaseIrq.v ===== *)
(** * The interrupt handler of the kernel driver

    [ctucan_interrupt] and [ctucan_chip_stop] of [ctucanfd_base.c]. *)

From Stdlib Require Import ZArith Lia.
From stdpp Require Import base numbers list strings sets.
From S2P Require Import Prelude LinuxDefs World Kregs Base Sim BaseTx BaseRx BaseErr.

#[local] Open Scope Z_scope.

Inductive irqreturn := IRQ_NONE | IRQ_HANDLED.

(** ** The functions *)

Section Irq.
Context {W : Type} `{World W}.
Abbreviation MB := (M net_device W).

(** One iteration of the [for] loop of [ctucan_interrupt], for [isr] not 0. *)
Definition irq_body (isr : Z) : MB unit :=
  when (nz (FIELD_GET REG_INT_STAT_RBNEI isr))
    (let icr := REG_INT_STAT_RBNEI in
     ctucan_write32 CTUCANFD_INT_MASK_SET icr;;
     ctucan_write32 CTUCANFD_INT_STAT icr;;
     call_ napi_schedule);;
  when (nz (FIELD_GET REG_INT_STAT_TXBHCI isr)) ctucan_tx_interrupt;;
  when (nz (FIELD_GET REG_INT_STAT_EWLI isr) || nz (FIELD_GET REG_INT_STAT_FCSI isr) ||
        nz (FIELD_GET REG_INT_STAT_ALI isr))
    (let icr := Z.land isr (Z.lor (Z.lor REG_INT_STAT_EWLI REG_INT_STAT_FCSI) REG_INT_STAT_ALI) in
     ctucan_write32 CTUCANFD_INT_STAT icr;;
     ctucan_err_interrupt isr).

(** The loop with [n] iterations left: the result of the [return] inside, or the
    last [isr] when the iterations are used up. *)
Fixpoint irq_loop (n : nat) (irq_loops isr : Z) : MB (irqreturn + Z) :=
  match n with
  | O => mret (inr isr)
  | S n' =>
      isr ← ctucan_read32 CTUCANFD_INT_STAT;
      if isr =? 0 then mret (inl (if irq_loops =? 0 then IRQ_NONE else IRQ_HANDLED))
      else irq_body isr;; irq_loop n' (irq_loops + 1) isr
  end.

(** The dump of the buffer states, [n] buffers from index [i]. *)
Fixpoint irq_dump (n : nat) (i : Z) : MB unit :=
  match n with
  | O => mret tt
  | S n' =>
      status ← ctucan_get_tx_status (u8 i);
      call_ (netdev_msg "txb status\n");;
      irq_dump n' (i + 1)
  end.

Definition ctucan_interrupt : MB irqreturn :=
  r ← irq_loop (Z.to_nat 10000) 0 0;
  match r with
  | inl ret => mret ret
  | inr isr =>
      call_ (netdev_msg "stuck interrupt, stopping\n");;
      when (nz (FIELD_GET REG_INT_STAT_TXBHCI isr))
        (call_ (netdev_msg "txb_head txb_tail\n");;
         n ← gets (λ n, ntxbufs (priv n));
         irq_dump (Z.to_nat n) 0);;
      let imask := 0xffffffff in
      ctucan_write32 CTUCANFD_INT_ENA_CLR imask;;
      ctucan_write32 CTUCANFD_INT_MASK_SET imask;;
      mret IRQ_HANDLED
  end.

Definition ctucan_chip_stop : MB unit :=
  let mask := 0xffffffff in
  ctucan_write32 CTUCANFD_INT_ENA_CLR mask;;
  ctucan_write32 CTUCANFD_INT_MASK_SET mask;;
  mode ← ctucan_read32 CTUCANFD_MODE;
  ctucan_write32 CTUCANFD_MODE (Z.land mode (Z.lnot REG_MODE_ENA));;
  modify (upd_can (set_state CAN_STATE_STOPPED)).

End Irq.

(** ** What an interrupt does *)

Definition err_irq (isr : Z) : bool :=
  nz (FIELD_GET REG_INT_STAT_EWLI isr) || nz (FIELD_GET REG_INT_STAT_FCSI isr) ||
  nz (FIELD_GET REG_INT_STAT_ALI isr).

Definition err_icr (isr : Z) : Z :=
  Z.land isr (Z.lor (Z.lor REG_INT_STAT_EWLI REG_INT_STAT_FCSI) REG_INT_STAT_ALI).

(** The fields of the device that the transmission and the register access use. *)
Definition same_ring (n n' : net_device) : Prop :=
  mem_base (priv n') = mem_base (priv n) ∧ read_reg (priv n') = read_reg (priv n) ∧
  write_reg (priv n') = write_reg (priv n) ∧ txb_head (priv n') = txb_head (priv n) ∧
  txb_tail (priv n') = txb_tail (priv n) ∧ txb_prio (priv n') = txb_prio (priv n) ∧
  ntxbufs (priv n') = ntxbufs (priv n).

(** The events of the receive interrupt: mask, then clear, then schedule the poll. *)
Definition rx_irq_events (n : net_device) (isr r : Z) : list event :=
  if nz (FIELD_GET REG_INT_STAT_RBNEI isr) then
    [EvStore (reg_at n CTUCANFD_INT_MASK_SET) REG_INT_STAT_RBNEI;
     EvStore (reg_at n CTUCANFD_INT_STAT) REG_INT_STAT_RBNEI; EvCall napi_schedule r]
  else [].

(** One iteration for the status [isr]: reception, transmission, errors. *)
Definition irq_iter (isr : Z) (n : net_device) (tr : list event) (n' : net_device) : Prop :=
  ∃ r tr2 n2 tr3,
    tr = rx_irq_events n isr r ++ tr2 ++ tr3 ∧
    (if nz (FIELD_GET REG_INT_STAT_TXBHCI isr)
     then ∃ k, tx_run k n tr2 n2 ∧ lock_disc n false tr2 = Some false ∧
            (ring_used n2 <= 0 ∨ tail_seen_busy n2 tr2)
     else tr2 = [] ∧ n2 = n) ∧
    (if err_irq isr
     then ∃ terr, tr3 = EvStore (reg_at n CTUCANFD_INT_STAT) (err_icr isr) :: terr ∧
            stores terr = [] ∧ same_ring n2 n'
     else tr3 = [] ∧ n' = n2).

(** The iterations of one interrupt. *)
Inductive irq_run : list Z → net_device → list event → net_device → Prop :=
  | irq_run_nil n : irq_run [] n [] n
  | irq_run_snoc isrs n tr n1 isr tr1 n2 :
      irq_run isrs n tr n1 → isr ≠ 0 → irq_iter isr n1 tr1 n2 →
      irq_run (isrs ++ [isr]) n (tr ++ EvLoad (reg_at n CTUCANFD_INT_STAT) isr :: tr1) n2.

(** *** What is kept *)

Lemma same_ring_wf n n' : same_ring n n' → ring_wf n → ring_wf n'.
Proof. intros (? & ? & ? & ? & ? & ? & ?) []. constructor; congruence. Qed.

Lemma same_ring_le n n' : same_ring n n' → le_dev n → le_dev n'.
Proof. intros (? & ? & ? & _) []. split; congruence. Qed.

Lemma same_ring_base n n' : same_ring n n' → mem_base (priv n') = mem_base (priv n).
Proof. by intros (? & _). Qed.

Lemma err_count_ring isr st n : same_ring n (err_count isr st n).
Proof.
  unfold err_count. repeat split; repeat case_match; try done; by destruct st.
Qed.

Lemma count_rx_ring cf n : same_ring n (count_rx cf n).
Proof. done. Qed.

Lemma same_ring_trans n1 n2 n3 : same_ring n1 n2 → same_ring n2 n3 → same_ring n1 n3.
Proof. unfold same_ring. intuition congruence. Qed.

Lemma state_ring st n : same_ring n (upd_can (set_state st) n).
Proof. done. Qed.

Lemma tx_run_base k n tr n' :
  tx_run k n tr n' → mem_base (priv n') = mem_base (priv n).
Proof.
  induction 1 as [|k n e tr n' He Hr IH|k n evs n1 tr n' Hu Hf Hr IH]; [done|done|].
  rewrite IH. by rewrite (tx_finish_priv _ _ _ Hf).
Qed.

Section IrqProofs.
Context {W : Type} `{World W} `{!AllocOk W}.
Implicit Types (s : st net_device W).

Definition irq_ok (n : net_device) : Prop := le_dev n ∧ ring_wf n.

(** The run ended at an access through the null frame pointer after a failed allocation. *)
Definition irq_null s s' : Prop :=
  ∃ tr, trace s' = trace s ++ tr ∧ last (err_calls tr) = Some (obs_alloc false).

Lemma irq_null_app s s1 s' tr :
  trace s1 = trace s ++ tr → irq_null s1 s' → irq_null s s'.
Proof.
  intros Ht (tr' & Ht' & Hl). exists (tr ++ tr'). split; [by rewrite Ht', Ht, app_assoc|].
  by rewrite err_calls_app, last_app, Hl.
Qed.

Lemma err_icr_u32 isr : is_u32 (err_icr isr).
Proof. unfold err_icr. auto with u32. Qed.

(** The error part of an iteration. *)
Lemma irq_err_outcome isr s :
  le_dev (drv s) →
  outcome (ctucan_write32 CTUCANFD_INT_STAT (err_icr isr);; ctucan_err_interrupt isr) s
    (λ _ s', same_ring (drv s) (drv s') ∧ ∃ terr, stores terr = [] ∧
       trace s' = trace s ++ EvStore (reg_at (drv s) CTUCANFD_INT_STAT) (err_icr isr) :: terr)
    (irq_null s).
Proof.
  intros Hle. apply outcome_bind, outcome_wp. bstep. rewrite u32_small by apply err_icr_u32.
  eapply outcome_mono; [by apply err_interrupt_outcome|..].
  - intros [] s2 (rt & fs & rt2 & cap & skb & _ & (Hd & terr & Ht & Hs & _)). cbn [drv trace] in *.
    split.
    + rewrite Hd. destruct skb; [|apply err_count_ring].
      eapply same_ring_trans; [apply err_count_ring|apply count_rx_ring].
    + exists terr. split; [done|]. rewrite Ht. by tr_norm.
  - intros s2 (_ & rt & fs & rt2 & cap & _ & (_ & tr & Ht & _ & _ & Hc)). cbn [trace] in Ht.
    exists (EvStore (reg_at (drv s) CTUCANFD_INT_STAT) (err_icr isr) :: tr).
    split; [rewrite Ht; by tr_norm|]. simpl. by rewrite Hc.
Qed.

(** What an iteration started in [s] leaves. *)
Definition iter_post (isr : Z) s s' : Prop :=
  irq_ok (drv s') ∧ mem_base (priv (drv s')) = mem_base (priv (drv s)) ∧
  ∃ tr, trace s' = trace s ++ tr ∧ irq_iter isr (drv s) tr (drv s').

(** The transmission part was done with the events [tr2]. *)
Definition tx_part (isr : Z) (n : net_device) (tr2 : list event) (n2 : net_device) : Prop :=
  if nz (FIELD_GET REG_INT_STAT_TXBHCI isr)
  then ∃ k, tx_run k n tr2 n2 ∧ lock_disc n false tr2 = Some false ∧
         (ring_used n2 <= 0 ∨ tail_seen_busy n2 tr2)
  else tr2 = [] ∧ n2 = n.

Lemma irq_tail_outcome isr s s2 r tr2 :
  irq_ok (drv s2) → mem_base (priv (drv s2)) = mem_base (priv (drv s)) →
  trace s2 = trace s ++ rx_irq_events (drv s) isr r ++ tr2 → tx_part isr (drv s) tr2 (drv s2) →
  outcome (when (err_irq isr) (ctucan_write32 CTUCANFD_INT_STAT (err_icr isr);; ctucan_err_interrupt isr)) s2
    (λ _, iter_post isr s) (irq_null s).
Proof.
  intros Hok2 Hb2 Ht2 Hrun. unfold when. destruct (err_irq isr) eqn:Ee.
  - eapply outcome_mono; [apply irq_err_outcome, Hok2|..].
    + intros [] s3 (Hsr & terr & Hst & Ht3). destruct Hok2.
      split; [split; [by eapply same_ring_le|by eapply same_ring_wf]|].
      split; [by rewrite (same_ring_base _ _ Hsr)|].
      eexists. split; [rewrite Ht3, Ht2, <- !app_assoc; reflexivity|].
      exists r, tr2, (drv s2), (EvStore (reg_at (drv s) CTUCANFD_INT_STAT) (err_icr isr) :: terr).
      unfold reg_at. rewrite Ee, Hb2. split; [done|]. split; [done|]. by exists terr.
    + intros s3. by apply irq_null_app with (rx_irq_events (drv s) isr r ++ tr2).
  - apply outcome_wp, wp_ret. split; [done|]. split; [done|].
    eexists. split; [exact Ht2|]. exists r, tr2, (drv s2), []. by rewrite Ee, app_nil_r.
Qed.

Lemma irq_body_outcome isr s :
  irq_ok (drv s) → outcome (irq_body isr) s (λ _, iter_post isr s) (irq_null s).
Proof.
  intros [Hle Hwf]. unfold irq_body. cbv zeta. fold (err_irq isr) (err_icr isr).
  apply outcome_bind, outcome_wp.
  assert (Hrx : ∀ s1 r, drv s1 = drv s → trace s1 = trace s ++ rx_irq_events (drv s) isr r →
    outcome (when (nz (FIELD_GET REG_INT_STAT_TXBHCI isr)) ctucan_tx_interrupt;;
      when (err_irq isr) (ctucan_write32 CTUCANFD_INT_STAT (err_icr isr);; ctucan_err_interrupt isr)) s1
    (λ _, iter_post isr s) (irq_null s)).
  { intros s1 r Hd1 Ht1. apply outcome_bind, outcome_wp.
    destruct (nz (FIELD_GET REG_INT_STAT_TXBHCI isr)) eqn:Et; simpl.
    - eapply wp_mono; [apply tx_interrupt_wp; by rewrite Hd1|].
      intros [] s2 (k & tr & Ht & Hrun & Hl & Hu & Hwf2 & Hle2 & Hb & Hstop & _). rewrite Hd1 in *.
      apply (irq_tail_outcome isr s s2 r tr); try done; [by rewrite Ht, Ht1, app_assoc|].
      unfold tx_part. rewrite Et. by exists k.
    - apply wp_ret, (irq_tail_outcome isr s s1 r []); rewrite ?Hd1, ?app_nil_r; try done.
      unfold tx_part. by rewrite Et. }
  unfold rx_irq_events in Hrx. apply wp_when; intros Er; rewrite Er in Hrx; bsteps.
  - by apply (Hrx _ r); tr_norm.
  - apply (Hrx _ 0); [done|by rewrite app_nil_r].
Qed.

(** The loop, after the iterations [isrs]. *)
Lemma irq_loop_outcome n isrs tr0 isr0 s s1 :
  irq_ok (drv s1) → mem_base (priv (drv s1)) = mem_base (priv (drv s)) →
  irq_run isrs (drv s) tr0 (drv s1) → trace s1 = trace s ++ tr0 →
  outcome (irq_loop n (Z.of_nat (length isrs)) isr0) s1
    (λ r s', ∃ isrs' tr, irq_run isrs' (drv s) tr (drv s') ∧ irq_ok (drv s') ∧
       mem_base (priv (drv s')) = mem_base (priv (drv s)) ∧
       match r with
       | inl ret => (length isrs' < length isrs + n)%nat ∧
           ret = (if bool_decide (isrs' = []) then IRQ_NONE else IRQ_HANDLED) ∧
           trace s' = trace s ++ tr ++ [EvLoad (reg_at (drv s) CTUCANFD_INT_STAT) 0]
       | inr isr => length isrs' = (length isrs + n)%nat ∧ trace s' = trace s ++ tr
       end)
    (irq_null s).
Proof.
  revert isrs tr0 isr0 s1. induction n as [|n IH]; intros isrs tr0 isr0 s1 Hok Hb Hrun Ht; cbn [irq_loop].
  { apply outcome_wp, wp_ret. exists isrs, tr0. split_and!; try done; lia. }
  pose proof Hok as [Hle _]. apply outcome_bind, outcome_wp. bstep.
  assert (Hreg : reg_at (drv s1) CTUCANFD_INT_STAT = reg_at (drv s) CTUCANFD_INT_STAT)
    by (unfold reg_at; congruence).
  destruct (Z.eqb_spec (u32 v) 0) as [E|Hne].
  - apply outcome_wp, wp_ret. exists isrs, tr0. split_and!; try done; [lia|..].
    + destruct isrs; [done|]. by rewrite bool_decide_false.
    + cbn [trace]. by rewrite Ht, E, Hreg, app_assoc.
  - apply outcome_bind. set (s2 := mkst _ _ _).
    eapply outcome_mono; [by apply irq_body_outcome|..].
    + intros [] s3 (Hok3 & Hb3 & tr & Ht3 & Hiter). cbn [drv trace s2] in *.
      replace (Z.of_nat (length isrs) + 1) with (Z.of_nat (length (isrs ++ [u32 v])))
        by (rewrite length_app; simpl; lia).
      eapply outcome_mono; [apply (IH (isrs ++ [u32 v])
        (tr0 ++ EvLoad (reg_at (drv s) CTUCANFD_INT_STAT) (u32 v) :: tr))|..].
      * done.
      * congruence.
      * by econstructor.
      * unfold s2 in Ht3. cbn [trace] in Ht3. rewrite Ht3, Ht, Hreg. by rewrite <- !app_assoc.
      * intros r s' (isrs' & tr' & Hr & Hok' & Hb' & Hm). exists isrs', tr'. split_and!; try done.
        rewrite length_app in Hm. simpl in Hm. destruct r; split_and!; try apply Hm; lia.
      * done.
    + intros s3. eapply (irq_null_app s s2). unfold s2. cbn [trace]. by rewrite Ht, <- app_assoc.
Qed.

Lemma irq_dump_wp n i s :
  le_dev (drv s) → 0 <= i → i + Z.of_nat n <= 8 →
  wp (irq_dump n i) s (λ _ s', drv s' = drv s ∧ ∃ tr, trace s' = trace s ++ tr ∧ stores tr = []).
Proof.
  revert i s. induction n as [|n IH]; intros i s Hle Hi Hn; cbn [irq_dump].
  { bsteps. split; [done|]. exists []. by rewrite app_nil_r. }
  bstep. rewrite u8_small by lia. eapply wp_mono; [apply get_tx_status_wp; [done|lia]|].
  intros st s1 (Hd1 & v & _ & _ & Ht1). bsteps.
  eapply wp_mono; [apply IH; [by rewrite Hd1|lia|lia]|].
  intros [] s2 (Hd2 & tr & Ht2 & Hs). cbn [drv trace] in *. split; [congruence|].
  eexists. split; [rewrite Ht2, Ht1, <- !app_assoc; reflexivity|]. done.
Qed.

(** All interrupts disabled and masked. *)
Definition irq_off (n : net_device) : list event :=
  [EvStore (reg_at n CTUCANFD_INT_ENA_CLR) 0xffffffff; EvStore (reg_at n CTUCANFD_INT_MASK_SET) 0xffffffff].

Lemma irq_off_wp (ret : irqreturn) s :
  le_dev (drv s) →
  wp (ctucan_write32 CTUCANFD_INT_ENA_CLR 0xffffffff;;
      ctucan_write32 CTUCANFD_INT_MASK_SET 0xffffffff;; mret ret) s
    (λ r s', r = ret ∧ drv s' = drv s ∧ trace s' = trace s ++ irq_off (drv s)).
Proof. intros Hle. bsteps. split_and!; [done|done|]. by rewrite <- app_assoc. Qed.

Definition irq_post s (r : irqreturn) s' : Prop :=
  ∃ isrs tr, irq_run isrs (drv s) tr (drv s') ∧ irq_ok (drv s') ∧
    ((Z.of_nat (length isrs) < 10000 ∧ r = (if bool_decide (isrs = []) then IRQ_NONE else IRQ_HANDLED) ∧
      trace s' = trace s ++ tr ++ [EvLoad (reg_at (drv s) CTUCANFD_INT_STAT) 0]) ∨
     (Z.of_nat (length isrs) = 10000 ∧ r = IRQ_HANDLED ∧
      ∃ dump, stores dump = [] ∧ trace s' = trace s ++ tr ++ dump ++ irq_off (drv s))).

Lemma interrupt_outcome s :
  irq_ok (drv s) → outcome ctucan_interrupt s (irq_post s) (irq_null s).
Proof.
  intros Hok. unfold ctucan_interrupt. apply outcome_bind. cbv zeta.
  eapply outcome_mono; [apply (irq_loop_outcome (Z.to_nat 10000) [] [] 0 s s)|..]; try done.
  { constructor. }
  { by rewrite app_nil_r. }
  intros r s1 (isrs & tr & Hrun & Hok1 & Hb1 & Hm). destruct r as [ret|isr].
  { destruct Hm as (Hlen & -> & Ht). apply outcome_wp, wp_ret. exists isrs, tr.
    split_and!; [done|done|]. left. split_and!; [simpl length in Hlen; lia|done|done]. }
  destruct Hm as (Hlen & Ht). apply outcome_wp. pose proof Hok1 as [Hle1 [Hn1 _ _ _]].
  assert (Hoff : ∀ s2 dump, drv s2 = drv s1 → stores dump = [] → trace s2 = trace s1 ++ dump →
    wp (ctucan_write32 CTUCANFD_INT_ENA_CLR 0xffffffff;;
        ctucan_write32 CTUCANFD_INT_MASK_SET 0xffffffff;; mret IRQ_HANDLED) s2 (irq_post s)).
  { intros s2 dump Hd2 Hdump Ht2. eapply wp_mono; [apply irq_off_wp; by rewrite Hd2|].
    intros r s3 (-> & Hd3 & Ht3). rewrite Hd2 in Hd3. exists isrs, tr. rewrite Hd3.
    split_and!; [done|done|]. right. simpl length in Hlen. split_and!; [lia|done|]. exists dump.
    split; [done|]. rewrite Ht3, Ht2, Ht, Hd2, <- !app_assoc. unfold irq_off, reg_at. by rewrite Hb1. }
  bstep. bstep. bstep. apply wp_when; intros _.
  - bsteps. eapply wp_mono; [apply irq_dump_wp; [done|lia|cbn [drv]; lia]|].
    intros [] s2 (Hd2 & dump & Ht2 & Hs2). cbn [drv trace] in *.
    rewrite <- !app_assoc in Ht2. by apply (Hoff s2 ([EvCall (netdev_msg "stuck interrupt, stopping\n") r] ++
      [EvCall (netdev_msg "txb_head txb_tail\n") r0] ++ dump)).
  - by eapply (Hoff _ [EvCall (netdev_msg _) _]).
Qed.

(** C19: [ctucan_interrupt] terminates.  It reads the interrupt status and handles
    each non-zero status as [irq_iter] says: the receive interrupt is masked, then
    cleared, then the poll is scheduled; finished transmissions are completed;
    pending error interrupts, exactly the ones read, are cleared before they
    are handled.  It returns when the status reads 0, with IRQ_NONE exactly if the first
    status was 0 (the comment of the function says: if the device is in sleep mode, which the driver does not have);
    after 10000 non-zero readings it disables and masks all interrupts and returns IRQ_HANDLED.  The only failure is the null access of [ctucan_err_interrupt]. *)
Theorem ctucan_interrupt_spec s :
  irq_ok (drv s) → outcome ctucan_interrupt s (irq_post s) (irq_null s).
Proof. apply interrupt_outcome. Qed.

(** [ctucan_chip_stop] disables and masks all interrupts, then clears the
    enable bit of MODE and no other bit, and marks the device as stopped. *)
Theorem ctucan_chip_stop_spec s :
  le_dev (drv s) →
  wp ctucan_chip_stop s (λ _ s', drv s' = upd_can (set_state CAN_STATE_STOPPED) (drv s) ∧
    ∃ m m', trace s' = trace s ++ irq_off (drv s) ++
        [EvLoad (reg_at (drv s) CTUCANFD_MODE) m; EvStore (reg_at (drv s) CTUCANFD_MODE) m'] ∧
      ∀ i, 0 <= i → Z.testbit m' i = Z.testbit m i && negb (i =? 22)).
Proof.
  intros Hle. unfold ctucan_chip_stop. bsteps. split; [done|]. tr_norm. eexists _, _. split; [done|].
  intros i Hi. rewrite u32_small by (rewrite Z.land_comm; auto with u32).
  by apply testbit_clear.
Qed.

End IrqProofs.

(** ** A pending bus error alone *)

Section BusError.
Context {W : Type} `{World W}.
Context (s0 : st net_device W).
Abbreviation isr_addr := (reg_at (drv s0) CTUCANFD_INT_STAT).

(** The core keeps reporting a bus error and nothing else. *)
Context (Hbei : ∀ w : W, fst (w_load32 isr_addr w) = REG_INT_STAT_BEI).

Lemma bei_body s Q : Q tt s → wp (irq_body REG_INT_STAT_BEI) s Q.
Proof. done. Qed.

Lemma bei_loop n k isr s :
  le_dev (drv s0) → drv s = drv s0 → 0 <= k →
  wp (irq_loop n k isr) s (λ r s', drv s' = drv s0 ∧
    r = inr (if decide (n = 0%nat) then isr else REG_INT_STAT_BEI) ∧
    trace s' = trace s ++ replicate n (EvLoad isr_addr REG_INT_STAT_BEI)).
Proof.
  intros Hle. revert k isr s. induction n as [|n IH]; intros k isr s Hd Hk; cbn [irq_loop].
  { bsteps. by rewrite app_nil_r. }
  bstep. apply wp_read32; [by rewrite Hd|]. intros v w' Hv. rewrite Hd in *.
  assert (v = REG_INT_STAT_BEI) as -> by (by rewrite <- (Hbei (world s)), Hv).
  change (u32 REG_INT_STAT_BEI) with REG_INT_STAT_BEI.
  change (REG_INT_STAT_BEI =? 0) with false. cbv iota. bstep. apply bei_body.
  eapply wp_mono; [apply IH; [done|lia]|]. intros r s' (Hd' & -> & Ht). split; [done|].
  split; [by destruct n|]. rewrite Ht. cbn [trace]. by rewrite <- app_assoc.
Qed.

(** A pending bus error interrupt alone (it is enabled for the control mode
    "bus error reporting") is neither cleared nor handled: the handler
    reads the status 10000 times, writes nothing in between, and then
    disables and masks all interrupts of the core. *)
Theorem bei_only_disables_irqs :
  le_dev (drv s0) →
  wp ctucan_interrupt s0 (λ r s', r = IRQ_HANDLED ∧ drv s' = drv s0 ∧ ∃ m,
    trace s' = trace s0 ++ replicate (Z.to_nat 10000) (EvLoad isr_addr REG_INT_STAT_BEI) ++
      [EvCall (netdev_msg "stuck interrupt, stopping\n") m] ++ irq_off (drv s0)).
Proof.
  intros Hle. unfold ctucan_interrupt. bstep.
  eapply wp_mono; [by apply (bei_loop (Z.to_nat 10000) 0 0 s0)|].
  intros r s1 (Hd1 & -> & Ht1). rewrite decide_False by lia. cbv zeta. do 2 bstep.
  assert (Hle1 : le_dev (drv s1)) by by rewrite Hd1.
  change (nz (FIELD_GET REG_INT_STAT_TXBHCI REG_INT_STAT_BEI)) with false. bsteps.
  { discriminate. }
  split_and!; [done|done|]. rewrite Ht1, Hd1. eexists. rewrite <- !app_assoc. reflexivity.
Qed.

End BusError.

(** ** Concrete runs *)

(** A world in which every register reads as a pending bus error. *)
#[local] Instance bei_world : World unit := {
  w_load32 _ w := (REG_INT_STAT_BEI, w);
  w_store32 _ _ w := w;
  w_call _ w := (0, w);
  w_alloc _ w := (None, w);
}.

Lemma bei_only_witness :
  wp ctucan_interrupt (mkst sample_dev tt []) (λ r s', r = IRQ_HANDLED ∧ drv s' = sample_dev).
Proof.
  eapply wp_mono; [exact (bei_only_disables_irqs (mkst sample_dev tt [])
    (λ w, eq_refl) (conj eq_refl eq_refl))|].
  by intros r s' (-> & -> & _).
Defined.

(** A receive interrupt together with a finished transmission. *)
Definition irq_reads : list Z := [Z.lor REG_INT_STAT_RBNEI REG_INT_STAT_TXBHCI; 0x4; 0; 0; 0].

Lemma busy_irq_ok ls : irq_ok (drv (busy_st 1 ls)).
Proof. split; [done|]. by apply busy_ring_wf. Qed.

Lemma ctucan_interrupt_witness :
  outcome ctucan_interrupt (busy_st 1 irq_reads) (irq_post (busy_st 1 irq_reads)) (irq_null (busy_st 1 irq_reads)).
Proof. exact (ctucan_interrupt_spec (busy_st 1 irq_reads) (busy_irq_ok irq_reads)). Defined.

Example interrupt_run :
  wp ctucan_interrupt (busy_st 1 irq_reads) (λ r s', r = IRQ_HANDLED ∧
    txb_tail (priv (drv s')) = 1 ∧ tx_packets (stats (drv s')) = 1).
Proof. by vm_compute. Qed.

Lemma ctucan_chip_stop_witness :
  wp ctucan_chip_stop (sample_st [0x00400010]) (λ _ s',
    Base.state (can (priv (drv s'))) = CAN_STATE_STOPPED).
Proof.
  eapply wp_mono; [exact (ctucan_chip_stop_spec (sample_st [0x00400010]) (conj eq_refl eq_refl))|].
  by intros [] s' (-> & _).
Defined.
