(* ===== verification/Resources.v ===== *)
(** * Kernel resources

    What the functions of the drivers take from the kernel and give back, counted on
    the trace of events, and computations that neither take nor release anything. *)

From Stdlib Require Import ZArith Lia.
From stdpp Require Import base numbers list strings.
From S2P Require Import Prelude LinuxDefs World Base.

#[local] Open Scope Z_scope.

(** ** Resources *)

(** The last seven belong to a PCI board: the enabled device, its regions, message-signalled
    interrupts, bus mastering, the mapping at an address, the board data and the
    registered network devices. *)
Inductive resource :=
  | R_pm | R_pm_enable | R_irq | R_open | R_napi | R_candev
  | R_pci | R_regions | R_msi | R_master | R_map (addr : Z) | R_bdata | R_registered.

(** The effect of an event on the count of a resource.  A failing
    [pm_runtime_get_sync] counts as well. *)
Definition ev_bal (r : resource) (e : event) : Z :=
  match e, r with
  | EvCall pm_runtime_get_sync _, R_pm => 1
  | EvCall (pm_runtime_put | pm_runtime_put_noidle) _, R_pm => -1
  | EvCall pm_runtime_enable _, R_pm_enable => 1
  | EvCall pm_runtime_disable _, R_pm_enable => -1
  | EvCall (request_irq _) ret, R_irq => if ret <? 0 then 0 else 1
  | EvCall free_irq _, R_irq => -1
  | EvCall open_candev ret, R_open => if ret =? 0 then 1 else 0
  | EvCall close_candev _, R_open => -1
  | EvCall napi_enable _, R_napi => 1
  | EvCall napi_disable _, R_napi => -1
  | EvCall (alloc_candev _) ret, R_candev => if ret =? 0 then 0 else 1
  | EvCall (free_candev _) _, R_candev => -1
  | EvCall (register_candev _) ret, R_registered => if ret =? 0 then 1 else 0
  | EvCall (unregister_candev _) _, R_registered => -1
  | EvCall pci_enable_device ret, R_pci => if ret =? 0 then 1 else 0
  | EvCall pci_disable_device _, R_pci => -1
  | EvCall pci_request_regions ret, R_regions => if ret =? 0 then 1 else 0
  | EvCall pci_release_regions _, R_regions => -1
  | EvCall pci_enable_msi ret, R_msi => if ret =? 0 then 1 else 0
  | EvCall pci_disable_msi _, R_msi => -1
  | EvCall pci_set_master _, R_master => 1
  | EvCall pci_clear_master _, R_master => -1
  | EvCall (pci_iomap _) ret, R_map a => if ret =? 0 then 0 else if ret =? a then 1 else 0
  | EvCall (pci_iounmap b) _, R_map a => if b =? a then -1 else 0
  | EvCall kzalloc ret, R_bdata => if ret =? 0 then 0 else 1
  | EvCall kfree _, R_bdata => -1
  | _, _ => 0
  end.

Fixpoint bal (r : resource) (tr : list event) : Z :=
  match tr with
  | [] => 0
  | e :: tr' => ev_bal r e + bal r tr'
  end.

Lemma bal_app r t1 t2 : bal r (t1 ++ t2) = bal r t1 + bal r t2.
Proof. induction t1 as [|e t1 IH]; simpl; [done|]. rewrite IH. lia. Qed.

(** ** Computations that take and release nothing

    For both register accessors, in contrast to the theorems on the single functions. *)

Section Quiet.
Context {D W : Type} `{World W}.
Implicit Types (s : st D W).

Definition quiet {A} (P : A → D → D → Prop) (m : M D W A) : Prop :=
  ∀ s, wp m s (λ a s', P a (drv s) (drv s') ∧ ∃ tr, trace s' = trace s ++ tr ∧ ∀ r, bal r tr = 0).

Definition anything {A} : A → D → D → Prop := λ _ _ _, True.

Lemma quiet_ret {A} (a : A) : quiet (λ _ n n', n' = n) (mret a).
Proof. intros s. apply wp_ret. split; [done|]. exists []. by rewrite app_nil_r. Qed.

Lemma quiet_bind {A B} P (m : M D W A) (Q : B → D → D → Prop) (k : A → M D W B) :
  quiet P m → (∀ a n n', P a n n' → ∀ s, drv s = n' →
    wp (k a) s (λ b s', Q b n (drv s') ∧ ∃ tr, trace s' = trace s ++ tr ∧ ∀ r, bal r tr = 0)) →
  quiet Q (m ≫= k).
Proof.
  intros Hm Hk s. apply wp_bind. eapply wp_mono; [apply Hm|].
  intros a s1 (HP & t1 & Ht1 & Hb1). eapply wp_mono; [by eapply Hk|].
  intros b s2 (HQ & t2 & Ht2 & Hb2). split; [done|]. exists (t1 ++ t2).
  split; [by rewrite Ht2, Ht1, app_assoc|]. intros r. rewrite bal_app, Hb1, Hb2. done.
Qed.

Lemma quiet_seq {A B} (m : M D W A) (k : A → M D W B) :
  quiet anything m → (∀ a, quiet anything (k a)) → quiet anything (m ≫= k).
Proof.
  intros Hm Hk. eapply quiet_bind; [done|]. intros a n n' _ s Hs. eapply wp_mono; [apply Hk|].
  intros b s' [_ ?]. done.
Qed.

(** A first step that leaves the device as it is. *)
Lemma quiet_then {A B} (m : M D W A) Q (k : A → M D W B) :
  quiet (λ _ n n', n' = n) m → (∀ a, quiet Q (k a)) → quiet Q (m ≫= k).
Proof.
  intros Hm Hk. eapply quiet_bind; [done|]. intros a n n' -> s Hs. eapply wp_mono; [apply Hk|].
  intros b s' [? ?]. by rewrite Hs in *.
Qed.

Lemma quiet_mono {A} P Q (m : M D W A) :
  quiet P m → (∀ a n n', P a n n' → Q a n n') → quiet Q m.
Proof. intros Hm HPQ s. eapply wp_mono; [apply Hm|]. intros a s' [? ?]. auto. Qed.

Lemma quiet_weaken {A} P (m : M D W A) : quiet P m → quiet anything m.
Proof. intros Hm s. eapply wp_mono; [apply Hm|]. by intros a s' [_ ?]. Qed.

Lemma quiet_call c :
  (∀ r ret, ev_bal r (EvCall c ret) = 0) → quiet (λ _ n n', n' = n) (call_ c).
Proof.
  intros Hc s. wp_step. split; [done|]. eexists. split; [reflexivity|].
  intros r'. cbn [bal]. by rewrite Hc.
Qed.

Lemma quiet_gets {A} (f : D → A) : quiet (λ _ n n', n' = n) (gets f).
Proof. intros s. wp_step. split; [done|]. exists []. by rewrite app_nil_r. Qed.

Lemma quiet_modify f : quiet (λ _ n n', n' = f n) (modify f).
Proof. intros s. wp_step. split; [done|]. exists []. by rewrite app_nil_r. Qed.

(** ** Balance *)

(** From [s] to [s'] the balance of each resource changed by [f]. *)
Definition balanced s s' (f : resource → Z) : Prop :=
  ∃ tr, trace s' = trace s ++ tr ∧ ∀ r, bal r tr = f r.

Lemma balanced_app s s1 s2 f g h :
  balanced s s1 f → balanced s1 s2 g → (∀ r, f r + g r = h r) → balanced s s2 h.
Proof.
  intros (t1 & H1 & B1) (t2 & H2 & B2) Hh. exists (t1 ++ t2).
  split; [by rewrite H2, H1, app_assoc|]. intros r. by rewrite bal_app, B1, B2.
Qed.

Lemma wp_quiet {A} P (m : M D W A) s s0 f Q :
  quiet P m → balanced s0 s f →
  (∀ a s', P a (drv s) (drv s') → balanced s0 s' f → Q a s') → wp m s Q.
Proof.
  intros Hm Hb HQ. eapply wp_mono; [apply Hm|]. intros a s' (HP & Ht). apply HQ; [done|].
  eapply balanced_app; [done|exact Ht|]. intros r. simpl. lia.
Qed.

Lemma wp_bal_call c s s0 f Q :
  balanced s0 s f →
  (∀ ret s', drv s' = drv s → balanced s0 s' (λ r, f r + ev_bal r (EvCall c ret)) → Q ret s') →
  wp (call c) s Q.
Proof.
  intros Hb HQ. apply wp_call_any. intros ret w'. apply HQ; [done|].
  eapply balanced_app; [done|eexists; split; [reflexivity|reflexivity]|].
  intros r. cbn [bal]. lia.
Qed.

Lemma wp_bal_call_ c s s0 f Q :
  balanced s0 s f →
  (∀ ret s', drv s' = drv s → balanced s0 s' (λ r, f r + ev_bal r (EvCall c ret)) → Q tt s') →
  wp (call_ c) s Q.
Proof.
  intros Hb HQ. unfold call_. apply wp_bind. eapply wp_bal_call; [done|].
  intros ret s' Hd Hb'. apply wp_ret. by eapply HQ.
Qed.

Lemma balanced_refl s : balanced s s (λ _, 0).
Proof. exists []. by rewrite app_nil_r. Qed.

Lemma balanced_ext s s' f g : balanced s s' f → (∀ r, f r = g r) → balanced s s' g.
Proof. intros (tr & ? & Hf) Hg. exists tr. split; [done|]. intros r. by rewrite Hf. Qed.

Lemma balanced_modify s s' f g :
  balanced s s' f → balanced s (mkst (g (drv s')) (world s') (trace s')) f.
Proof. done. Qed.

End Quiet.

Section QuietAccess.
Context {W : Type} `{World W}.

Lemma quiet_read reg : quiet (λ _ n n', n' = n) (ctucan_read32 reg).
Proof.
  intros s. unfold ctucan_read32. wp_step. wp_step.
  destruct (read_reg (priv (drv s))); unfold ctucan_read32_le, ctucan_read32_be, ioread32be;
    repeat wp_step; (split; [done|]); eexists; (split; [reflexivity|]); by intros [].
Qed.

Lemma quiet_write reg v : quiet (λ _ n n', n' = n) (ctucan_write32 reg v).
Proof.
  intros s. unfold ctucan_write32. wp_step. wp_step.
  destruct (write_reg (priv (drv s))); unfold ctucan_write32_le, ctucan_write32_be, iowrite32be;
    repeat wp_step; (split; [done|]); eexists; (split; [reflexivity|]); by intros [].
Qed.

End QuietAccess.

Ltac quiet_step :=
  lazymatch goal with
  | |- quiet anything (mbind _ _) => apply quiet_seq; [|intros ?]
  | |- quiet anything (mret _) => eapply quiet_weaken, quiet_ret
  | |- quiet anything (ctucan_read32 _) => eapply quiet_weaken, quiet_read
  | |- quiet anything (ctucan_write32 _ _) => eapply quiet_weaken, quiet_write
  | |- quiet anything (call_ _) => eapply quiet_weaken, quiet_call; by intros []
  | |- quiet anything (gets _) => eapply quiet_weaken, quiet_gets
  | |- quiet anything (modify _) => eapply quiet_weaken, quiet_modify
  | |- quiet anything (if ?b then _ else _) => destruct b
  | |- quiet anything (when ?b _) => destruct b; unfold when
  end; cbv beta zeta.

(** Symbolic execution that keeps the balance. *)
Ltac bal_step :=
  lazymatch goal with
  | Hb : balanced _ ?s _ |- wp (call_ _) ?s _ =>
      eapply wp_bal_call_; [exact Hb|]; clear Hb; intros ? ? ? Hb
  | Hb : balanced _ ?s _ |- wp (call _) ?s _ =>
      eapply wp_bal_call; [exact Hb|]; clear Hb; intros ? ? ? Hb
  | Hb : balanced _ ?s _ |- wp (modify ?g) ?s _ =>
      apply wp_modify; eapply (balanced_modify _ _ _ g) in Hb
  | |- wp (gets _) _ _ => apply wp_gets
  | |- wp (mbind _ _) _ _ => apply wp_bind
  | |- wp (mret _) _ _ => apply wp_ret
  end; cbn beta iota.

(** Case analysis on the [if] at the head of the computation. *)
Ltac if_split E :=
  lazymatch goal with |- wp (if ?b then _ else _) _ _ => destruct b eqn:E end.

(** The balance at a [return]: one equation for each resource. *)
Ltac bal_done :=
  eapply balanced_ext; [eassumption|]; intros []; cbn;
  unfold nz, ETIMEDOUT, ENODEV, ENOMEM in *;
  repeat match goal with |- context [if ?b then _ else _] => destruct b eqn:? end; lia.
