(* ===== verification/BaseDev.v ===== *)
(** * Life cycle of a device of the kernel driver

    [ctucan_open], [ctucan_close] and [ctucan_get_berr_counter] of [ctucanfd_base.c]:
    which kernel resources are taken and released on every path. *)

From Stdlib Require Import ZArith Lia.
From stdpp Require Import base numbers list strings sets.
From S2P Require Import Prelude LinuxDefs World Kregs Base Sim BaseCfg BaseTx BaseRx BaseErr BaseIrq Resources.

#[local] Open Scope Z_scope.

(** ** The functions *)

Section Dev.
Context {W : Type} `{World W}.
Abbreviation MB := (M net_device W).

(** The labels at the end of [ctucan_open]. *)
Definition open_err_reset (ret : Z) : MB Z := call_ pm_runtime_put;; mret ret.

Definition open_err_irq (ret : Z) : MB Z := call_ close_candev;; open_err_reset ret.

Definition open_err_chip_start (ret : Z) : MB Z := call_ free_irq;; open_err_irq ret.

Definition ctucan_open : MB Z :=
  ret ← call pm_runtime_get_sync;
  if ret <? 0 then
    call_ (netdev_msg "pm_runtime_get failed\n");;
    call_ pm_runtime_put_noidle;;
    mret ret
  else
  ret ← ctucan_reset;
  if ret <? 0 then open_err_reset ret else
  ret ← call open_candev;
  if nz ret then
    call_ (netdev_msg "open_candev failed!\n");;
    open_err_reset ret
  else
  fl ← gets (λ n, irq_flags (priv n));
  ret ← call (request_irq fl);
  if ret <? 0 then
    call_ (netdev_msg "irq allocation for CAN failed\n");;
    open_err_irq ret
  else
  ret ← ctucan_chip_start;
  if ret <? 0 then
    call_ (netdev_msg "ctucan_chip_start failed!\n");;
    open_err_chip_start ret
  else
  call_ (netdev_msg "ctu_can_fd device registered\n");;
  call_ napi_enable;;
  call_ netif_start_queue;;
  mret 0.

Definition ctucan_close : MB Z :=
  call_ netif_stop_queue;;
  call_ napi_disable;;
  ctucan_chip_stop;;
  call_ free_irq;;
  call_ close_candev;;
  call_ pm_runtime_put;;
  mret 0.

(** Returns the error code, and the counters when it is 0. *)
Definition ctucan_get_berr_counter : MB (Z * option can_berr_counter) :=
  ret ← call pm_runtime_get_sync;
  if ret <? 0 then
    call_ (netdev_msg "pm_runtime_get failed\n");;
    call_ pm_runtime_put_noidle;;
    mret (ret, None)
  else
  bec ← ctucan_get_rec_tec;
  call_ pm_runtime_put;;
  mret (0, Some bec).

End Dev.

(** The resources an open interface holds. *)
Definition opened (r : resource) : Z :=
  match r with R_pm | R_irq | R_open | R_napi => 1 | _ => 0 end.

Section DevProofs.
Context {W : Type} `{World W}.
Implicit Types (s : st net_device W).

Lemma quiet_chip_start : quiet (W:=W) anything ctucan_chip_start.
Proof.
  unfold ctucan_chip_start, ctucan_set_bittiming, ctucan_set_data_bittiming,
    ctucan_set_secondary_sample_point, ctucan_set_mode, ctucan_set_btr, CTU_CAN_FD_ENABLED.
  repeat quiet_step.
Qed.

Lemma quiet_chip_stop : quiet (W:=W) anything ctucan_chip_stop.
Proof. unfold ctucan_chip_stop. repeat quiet_step. Qed.

(** The results of the reset. *)
Definition reset_result (r : Z) : Prop := r = 0 ∨ r = - ETIMEDOUT.

Lemma quiet_reset_loop fuel i :
  0 <= i < Z.of_nat fuel →
  quiet (W:=W) (λ r n n', reset_result r ∧ n' = n) (ctucan_reset_loop fuel i).
Proof.
  revert i. induction fuel as [|fuel IH]; intros i Hi; [lia|]. cbn [ctucan_reset_loop].
  assert (Hret : ∀ r, reset_result r → quiet (W:=W) (λ r (n n' : net_device), reset_result r ∧ n' = n) (mret r)).
  { intros r Hr s. by eapply wp_ret; (split; [done|]); exists []; rewrite app_nil_r. }
  apply quiet_then; [apply quiet_read|]. intros v. cbv zeta.
  destruct (_ =? 0xCAFD); [by apply Hret; left|destruct (Z.eqb_spec i 0)].
  - apply quiet_then; [apply quiet_call; by intros []|]. intros _. by apply Hret; right.
  - apply quiet_then; [apply quiet_call; by intros []|]. intros _. apply IH. lia.
Qed.

Definition clear_ffw (n : net_device) : net_device :=
  upd_priv (λ p, set_drv_flags (clear_bit CTUCANFD_FLAG_RX_FFW_BUFFERED (drv_flags p)) p) n.

Lemma quiet_reset : quiet (W:=W) (λ r n n', reset_result r ∧ n' = clear_ffw n) ctucan_reset.
Proof.
  unfold ctucan_reset. apply quiet_then; [apply quiet_write|]. intros _.
  eapply quiet_bind; [apply quiet_modify|]. intros _ n n' -> s Hs.
  eapply wp_mono; [apply quiet_reset_loop; lia|]. intros r s' [[Hr ->] ?]. by rewrite Hs.
Qed.

End DevProofs.

Section DevTheorems.
Context {W : Type} `{World W}.
Implicit Types (s : st net_device W).

Lemma open_balance s :
  wp ctucan_open s (λ ret s', balanced s s' (λ r, if ret =? 0 then opened r else 0)).
Proof.
  pose proof (balanced_refl s) as Hb. unfold ctucan_open, open_err_chip_start, open_err_irq, open_err_reset.
  repeat bal_step. if_split Epm; [repeat bal_step; bal_done|].
  bal_step. eapply (wp_quiet _ _ _ _ _ _ quiet_reset Hb). clear Hb. intros r1 s1 [Hr _] Hb.
  destruct Hr as [-> | ->]; simpl; [|repeat bal_step; bal_done].
  repeat bal_step. if_split Eop; [repeat bal_step; bal_done|].
  repeat bal_step. if_split Eirq; [repeat bal_step; bal_done|].
  bal_step. eapply (wp_quiet _ _ _ _ _ _ quiet_chip_start Hb). clear Hb. intros r2 s2 _ Hb.
  if_split Est; repeat bal_step; bal_done.
Qed.

(** [ctucan_open], in every world and for both byte orders of the registers,
    returns; with result 0 it holds one runtime-PM reference, the interrupt, the opened CAN
    device and the enabled NAPI context, and with any other result
    everything that was taken has been released again. *)
Theorem ctucan_open_balance s :
  wp ctucan_open s (λ ret s', balanced s s' (λ r, if ret =? 0 then opened r else 0)).
Proof. apply open_balance. Qed.

(** [ctucan_close] returns 0 and releases exactly what a successful
    [ctucan_open] holds. *)
Theorem ctucan_close_balance s :
  wp ctucan_close s (λ ret s', ret = 0 ∧ balanced s s' (λ r, - opened r)).
Proof.
  pose proof (balanced_refl s) as Hb. unfold ctucan_close. repeat bal_step.
  eapply (wp_quiet _ _ _ _ _ _ quiet_chip_stop Hb). clear Hb. intros [] s1 _ Hb.
  repeat bal_step. split; [done|]. bal_done.
Qed.

(** [ctucan_get_berr_counter] leaves no runtime-PM reference behind, also when
    the device cannot be resumed, and fails exactly then. *)
Theorem ctucan_get_berr_counter_balance s :
  wp ctucan_get_berr_counter s (λ rb s', balanced s s' (λ _, 0) ∧
    (snd rb = None ↔ fst rb < 0)).
Proof.
  pose proof (balanced_refl s) as Hb. unfold ctucan_get_berr_counter. repeat bal_step.
  if_split Epm.
  - repeat bal_step. split; [bal_done|]. simpl. split; [lia|done].
  - bal_step. unfold ctucan_get_rec_tec. bal_step.
    eapply (wp_quiet _ _ _ _ _ _ (quiet_read _) Hb). clear Hb. intros v s1 _ Hb.
    repeat bal_step. split; [bal_done|]. simpl. split; [done|lia].
Qed.

End DevTheorems.
