(* ===== verification/Host.v ===== *)
(** * The devices of a bus device

    The glue of the platform and PCI buses owns network devices through pointers: the
    driver data of the bus device, the list of the devices of a PCI board, and the
    allocated devices themselves.  An access through a pointer to a device that was freed
    is undefined behaviour. *)

From Stdlib Require Import ZArith Lia.
From stdpp Require Import base numbers list strings gmap.
From S2P Require Import Prelude LinuxDefs World Base Resources.

#[local] Open Scope Z_scope.

(** What [dev_set_drvdata] stored: nothing, a network device, or the data of a board. *)
Inductive drvdata := DrvNull | DrvNdev (ndev : Z) | DrvBoard.

(** [struct ctucan_pci_board_data]; the list holds pointers to network devices. *)
Record ctucan_pci_board_data := mkboard {
  bar0_base : Z;
  cra_base : Z;
  bar1_base : Z;
  ndev_list_head : list Z;
  bd_use_msi : Z;
}.

(** The driver data, the allocated board data and the allocated network devices. *)
Record host := mkhost {
  h_drvdata : drvdata;
  h_board : option ctucan_pci_board_data;
  h_ndevs : gmap Z net_device;
}.

(** ** Assignments *)

Definition set_h_drvdata (d : drvdata) (h : host) : host := mkhost d (h_board h) (h_ndevs h).
Definition set_h_board (b : option ctucan_pci_board_data) (h : host) : host :=
  mkhost (h_drvdata h) b (h_ndevs h).
Definition put_ndev (p : Z) (n : net_device) (h : host) : host :=
  mkhost (h_drvdata h) (h_board h) (<[p := n]> (h_ndevs h)).
Definition del_ndev (p : Z) (h : host) : host :=
  mkhost (h_drvdata h) (h_board h) (delete p (h_ndevs h)).

Definition set_ndev_list (l : list Z) (b : ctucan_pci_board_data) : ctucan_pci_board_data :=
  mkboard (bar0_base b) (cra_base b) (bar1_base b) l (bd_use_msi b).

(** The list entry of a device is unlinked; one that is in no list stays so. *)
Definition del_peer (p : Z) (h : host) : host :=
  set_h_board ((λ b, set_ndev_list (filter (.≠ p) (ndev_list_head b)) b) <$> h_board h) h.

Definition add_peer (p : Z) (h : host) : host :=
  set_h_board ((λ b, set_ndev_list (p :: ndev_list_head b) b) <$> h_board h) h.

(** A pointer that no allocated device has. *)
Definition fresh_ndev (h : host) : Z := fresh (dom (h_ndevs h) : gset Z).

Section Ops.
Context {W : Type} `{World W}.
Abbreviation MH := (M host W).

(** A function on the device that [p] points to. *)
Definition on_ndev {A} (p : Z) (m : M net_device W A) : MH A := λ s,
  match h_ndevs (drv s) !! p with
  | None => (Ub UseAfterFree, s)
  | Some n =>
      let '(r, s1) := m (mkst n (world s) (trace s)) in
      (r, mkst (put_ndev p (drv s1) (drv s)) (world s1) (trace s1))
  end.

(** [list_del_init(&priv->peers_on_pdev)] *)
Definition list_del_init (p : Z) : MH unit :=
  on_ndev p (mret tt);; modify (del_peer p).

(** [free_candev(ndev)] *)
Definition free_ndev (p : Z) : MH unit :=
  on_ndev p (mret tt);; call_ (free_candev p);; modify (del_ndev p).

(** [*dev_get_drvdata(dev)] as a network device *)
Definition dev_get_ndev : MH Z :=
  d ← gets h_drvdata;
  match d with
  | DrvNdev p => mret p
  | DrvNull => undefined NullDeref
  | DrvBoard => undefined WrongType
  end.

End Ops.

(** ** Laws *)

Lemma fresh_ndev_none h : h_ndevs h !! fresh_ndev h = None.
Proof. apply (not_elem_of_dom (D:=gset Z)). unfold fresh_ndev. apply is_fresh. Qed.

Lemma put_put p n n' h : put_ndev p n' (put_ndev p n h) = put_ndev p n' h.
Proof. unfold put_ndev. cbn. by rewrite insert_insert_eq. Qed.

Lemma del_put p n h : h_ndevs h !! p = None → del_ndev p (put_ndev p n h) = h.
Proof.
  intros Hp. unfold del_ndev, put_ndev. cbn. rewrite delete_insert_id by done. by destruct h.
Qed.

Lemma lookup_put p n h : h_ndevs (put_ndev p n h) !! p = Some n.
Proof. apply lookup_insert_eq. Qed.

Lemma put_same p n h : h_ndevs h !! p = Some n → put_ndev p n h = h.
Proof. intros Hp. unfold put_ndev. rewrite insert_id by done. by destruct h. Qed.

Lemma filter_ne_id (l : list Z) p : p ∉ l → filter (.≠ p) l = l.
Proof.
  induction l as [|x l IH]; intros Hp; [done|]. rewrite elem_of_cons in Hp.
  rewrite filter_cons_True by (intros ->; tauto). f_equal. tauto.
Qed.

Lemma add_peer_put p q n h : add_peer p (put_ndev q n h) = put_ndev q n (add_peer p h).
Proof. done. Qed.

(** A new entry that is unlinked again leaves the list as it was. *)
Lemma del_add_peer p h :
  (∀ b, h_board h = Some b → p ∉ ndev_list_head b) → del_peer p (add_peer p h) = h.
Proof.
  destruct h as [d [b|] m]; intros Hp; [|done]. unfold del_peer, add_peer, set_h_board.
  cbn [h_board h_drvdata h_ndevs fmap option_fmap option_map ndev_list_head set_ndev_list].
  rewrite filter_cons_False, filter_ne_id by (by apply Hp || tauto). by destruct b.
Qed.

Section Rules.
Context {W : Type} `{World W}.
Implicit Types (s : st host W).

Lemma wp_on_ndev {A} p n (m : M net_device W A) s Q :
  h_ndevs (drv s) !! p = Some n →
  wp m (mkst n (world s) (trace s)) (λ a (s1 : st net_device W),
    Q a (mkst (put_ndev p (drv s1) (drv s)) (world s1) (trace s1))) →
  wp (on_ndev p m) s Q.
Proof.
  intros Hp Hm. unfold wp, on_ndev in *. rewrite Hp.
  by destruct (m (mkst n (world s) (trace s))) as [[a|u|] s1].
Qed.

(** A quiet function on one device keeps the balance and the other devices. *)
Lemma wp_on_quiet {A} P p n (m : M net_device W A) s s0 f h0 Q :
  quiet P m → balanced s0 s f → drv s = put_ndev p n h0 →
  (∀ a n' s', P a n n' → drv s' = put_ndev p n' h0 → balanced s0 s' f → Q a s') →
  wp (on_ndev p m) s Q.
Proof.
  intros Hm Hb Hd HQ. eapply wp_on_ndev; [rewrite Hd; apply lookup_put|].
  eapply wp_mono; [apply Hm|]. cbn [drv trace]. intros a s1 [HP (tr & Htr & Hbal)].
  apply (HQ a (drv s1)); [done|cbn; by rewrite Hd, put_put|].
  eapply balanced_app; [done| |intros r; apply Z.add_0_r]. exists tr. auto.
Qed.

Lemma wp_dev_get_ndev p s Q : h_drvdata (drv s) = DrvNdev p → Q p s → wp dev_get_ndev s Q.
Proof. intros Hd HQ. unfold dev_get_ndev. wp_step. wp_step. by rewrite Hd. Qed.

(** Since [s0] the balance changed by [f], and the state is [h]. *)
Definition at_host s0 (h : host) (f : resource → Z) s : Prop := balanced s0 s f ∧ drv s = h.

Lemma wp_at_call c s0 h f s Q :
  at_host s0 h f s →
  (∀ ret s', at_host s0 h (λ r, f r + ev_bal r (EvCall c ret)) s' → Q ret s') → wp (call c) s Q.
Proof.
  intros [Hb Hd] HQ. eapply wp_bal_call; [done|]. intros ret s' Hs Hb'. apply HQ. split; [done|].
  by rewrite Hs.
Qed.

Lemma wp_at_call_ c s0 h f s Q :
  at_host s0 h f s →
  (∀ ret s', at_host s0 h (λ r, f r + ev_bal r (EvCall c ret)) s' → Q tt s') → wp (call_ c) s Q.
Proof. intros Ht HQ. unfold call_. wp_step. eapply wp_at_call; [done|]. intros ret s' Ht'. wp_step. by eapply HQ. Qed.

Lemma wp_at_modify g s0 h f s Q :
  at_host s0 h f s → (∀ s', at_host s0 (g h) f s' → Q tt s') → wp (modify g) s Q.
Proof. intros [Hb Hd] HQ. apply wp_modify, HQ. split; [done|]. cbn. by rewrite Hd. Qed.

Lemma wp_at_load a s0 h f s Q :
  at_host s0 h f s → (∀ v s', at_host s0 h f s' → Q v s') → wp (ioread32 a) s Q.
Proof.
  intros [Hb Hd] HQ. wp_step. apply HQ. split; [|done]. eapply balanced_app; [exact Hb| |intros r; apply Z.add_0_r].
  eexists. split; [reflexivity|]. by intros [].
Qed.

Lemma wp_at_store v a s0 h f s Q :
  at_host s0 h f s → (∀ s', at_host s0 h f s' → Q tt s') → wp (iowrite32 v a) s Q.
Proof.
  intros [Hb Hd] HQ. wp_step. apply HQ. split; [|done]. eapply balanced_app; [exact Hb| |intros r; apply Z.add_0_r].
  eexists. split; [reflexivity|]. by intros [].
Qed.

End Rules.

(** Symbolic execution between accesses to devices. *)
Ltac at_step :=
  lazymatch goal with
  | Ht : at_host _ _ _ ?s |- wp (call_ _) ?s _ =>
      eapply wp_at_call_; [exact Ht|]; clear Ht; intros ? ? Ht
  | Ht : at_host _ _ _ ?s |- wp (call _) ?s _ =>
      eapply wp_at_call; [exact Ht|]; clear Ht; intros ? ? Ht
  | Ht : at_host _ _ _ ?s |- wp (modify _) ?s _ =>
      eapply wp_at_modify; [exact Ht|]; clear Ht; intros ? Ht
  | Ht : at_host _ _ _ ?s |- wp (ioread32 _) ?s _ =>
      eapply wp_at_load; [exact Ht|]; clear Ht; intros ? ? Ht
  | Ht : at_host _ _ _ ?s |- wp (iowrite32 _ _) ?s _ =>
      eapply wp_at_store; [exact Ht|]; clear Ht; intros ? Ht
  | |- wp (mbind _ _) _ _ => apply wp_bind
  | |- wp (mret _) _ _ => apply wp_ret
  end; cbn beta iota.
