(* ===== verification/Probe.v ===== *)
(** * Probing, suspend and resume

    [ctucan_probe_common], [ctucan_suspend] and [ctucan_resume] of [ctucanfd_base.c], which
    the glue of the buses calls with a bus device.  What the callback
    [set_drvdata_fnc] of the glue promises is the class [DrvdataFnc]. *)

From Stdlib Require Import ZArith Lia.
From stdpp Require Import base numbers list strings gmap.
From S2P Require Import Prelude LinuxDefs World Kregs Base BaseCfg BaseRx Resources BaseDev Host.

#[local] Open Scope Z_scope.

(** ** The functions *)

(** A device as [alloc_candev] returns it: zeroed, in state STOPPED. *)
Definition zero_bt : can_bittiming := {|
  bitrate := 0; sample_point := 0; tq := 0; prop_seg := 0; phase_seg1 := 0; phase_seg2 := 0;
  sjw := 0; brp := 0 |}.

Definition zero_btc : can_bittiming_const := {|
  tseg1_min := 0; tseg1_max := 0; tseg2_min := 0; tseg2_max := 0; sjw_max := 0; brp_min := 0;
  brp_max := 0; brp_inc := 0 |}.

Definition new_candev : net_device := {|
  priv := {|
    can := {| state := CAN_STATE_STOPPED;
              can_stats := {| bus_error := 0; error_warning := 0; error_passive := 0; bus_off := 0;
                              arbitration_lost := 0; restarts := 0 |};
              bittiming := zero_bt; data_bittiming := zero_bt; bittiming_const := zero_btc;
              data_bittiming_const := zero_btc; ctrlmode := 0; ctrlmode_supported := 0;
              clock_freq := 0 |};
    mem_base := 0; read_reg := acc_le; write_reg := acc_le; txb_head := 0; txb_tail := 0;
    txb_prio := 0; ntxbufs := 0; irq_flags := 0; drv_flags := 0; rxfrm_first_word := 0 |};
  stats := {| rx_packets := 0; tx_packets := 0; rx_bytes := 0; tx_bytes := 0; rx_errors := 0;
              tx_dropped := 0; rx_over_errors := 0 |} |}.

Definition probe_ctrlmodes : Z :=
  Z.lor (Z.lor (Z.lor (Z.lor (Z.lor (Z.lor CAN_CTRLMODE_LOOPBACK CAN_CTRLMODE_LISTENONLY)
    CAN_CTRLMODE_FD) CAN_CTRLMODE_PRESUME_ACK) CAN_CTRLMODE_BERR_REPORTING)
    CAN_CTRLMODE_FD_NON_ISO) CAN_CTRLMODE_ONE_SHOT.

(** The assignments after [alloc_candev]. *)
Definition probe_init (addr ntxb : Z) (n : net_device) : net_device :=
  let n := upd_priv (set_ntxbufs ntxb) n in
  let n := upd_can (set_bittiming_const ctu_can_fd_bit_timing_max) n in
  let n := upd_can (set_data_bittiming_const ctu_can_fd_bit_timing_data_max) n in
  let n := upd_can (set_ctrlmode_supported probe_ctrlmodes) n in
  upd_priv (set_mem_base addr) n.

Section Dev.
Context {W : Type} `{World W}.
Abbreviation MB := (M net_device W).
Abbreviation MH := (M host W).

Definition ctucan_suspend : MH Z :=
  ndev ← dev_get_ndev;
  running ← call netif_running;
  when (nz running) (call_ netif_stop_queue;; call_ netif_device_detach);;
  on_ndev ndev (modify (upd_can (set_state CAN_STATE_SLEEPING)));;
  mret 0.

Definition ctucan_resume : MH Z :=
  ndev ← dev_get_ndev;
  on_ndev ndev (modify (upd_can (set_state CAN_STATE_ERROR_ACTIVE)));;
  running ← call netif_running;
  when (nz running) (call_ netif_device_attach;; call_ netif_start_queue);;
  mret 0.

(** The check of the signature: [false] when it is found with neither accessor. *)
Definition probe_endian : MB bool :=
  v ← ctucan_read32 CTUCANFD_DEVICE_ID;
  if negb (Z.land v 0xFFFF =? CTUCANFD_ID) then
    modify (upd_priv (set_write_reg acc_be));;
    modify (upd_priv (set_read_reg acc_be));;
    v ← ctucan_read32 CTUCANFD_DEVICE_ID;
    mret (Z.land v 0xFFFF =? CTUCANFD_ID)
  else mret true.

(** The labels at the end of [ctucan_probe_common]. *)
Definition probe_err_free (ndev ret : Z) : MH Z :=
  list_del_init ndev;; free_ndev ndev;; mret ret.

Definition probe_err_pmdisable (pm_enable_call : bool) (ndev ret : Z) : MH Z :=
  when pm_enable_call (call_ pm_runtime_disable);; probe_err_free ndev ret.

Definition probe_err_deviceoff (pm_enable_call : bool) (ndev ret : Z) : MH Z :=
  call_ pm_runtime_put;; probe_err_pmdisable pm_enable_call ndev ret.

(** The part after the clock is known. *)
Definition probe_device (ndev can_clk_rate : Z) (pm_enable_call : bool) : MH Z :=
  on_ndev ndev (modify (upd_priv (set_write_reg acc_le)));;
  on_ndev ndev (modify (upd_priv (set_read_reg acc_le)));;
  when pm_enable_call (call_ pm_runtime_enable);;
  ret ← call pm_runtime_get_sync;
  if ret <? 0 then
    call_ (netdev_msg "pm_runtime_get failed\n");;
    call_ pm_runtime_put_noidle;;
    probe_err_pmdisable pm_enable_call ndev ret
  else
  found ← on_ndev ndev probe_endian;
  if negb found then
    call_ (netdev_msg "CTU_CAN_FD signature not found\n");;
    probe_err_deviceoff pm_enable_call ndev (- ENODEV)
  else
  ret ← on_ndev ndev ctucan_reset;
  if ret <? 0 then probe_err_deviceoff pm_enable_call ndev ret else
  on_ndev ndev (modify (upd_can (set_clock_freq (u32 can_clk_rate))));;
  call_ (netif_napi_add ndev);;
  ret ← call (register_candev ndev);
  if nz ret then
    call_ (netdev_msg "fail to register failed\n");;
    probe_err_deviceoff pm_enable_call ndev ret
  else
  call_ pm_runtime_put;;
  mret 0.

Definition ctucan_probe_common (addr ntxb can_clk_rate : Z) (pm_enable_call : bool)
    (set_drvdata_fnc : option (Z → MH unit)) : MH Z :=
  ok ← call (alloc_candev ntxb);
  if negb (nz ok) then mret (- ENOMEM) else
  ndev ← gets fresh_ndev;
  modify (put_ndev ndev (probe_init addr ntxb new_candev));;
  (match set_drvdata_fnc with Some f => f ndev | None => mret tt end);;
  if negb (nz can_clk_rate) then
    clk ← call devm_clk_get;
    if clk <? 0 then
      call_ (netdev_msg "Device clock not found.\n");;
      probe_err_free ndev clk
    else
      rate ← call clk_get_rate;
      probe_device ndev rate pm_enable_call
  else probe_device ndev can_clk_rate pm_enable_call.

End Dev.

(** ** The interface of the glue *)

(** The callback stores the pointer somewhere in the state of the bus device and may set
    the interrupt flags of the new device; nothing else. *)
Class DrvdataFnc {W : Type} `{World W} (f : Z → M host W unit) := {
  df_pre : host → Prop;
  df_host : Z → host → host;
  df_irq_flags : Z;
  df_ndevs : ∀ p h, h_ndevs (df_host p h) = h_ndevs h;
  df_spec : ∀ p n h (s : st host W), df_pre h → drv s = put_ndev p n h → irq_flags (priv n) = 0 →
    wp (f p) s (λ _ s', trace s' = trace s ∧
      drv s' = put_ndev p (upd_priv (set_irq_flags df_irq_flags) n) (df_host p h));
}.

(** The resources a probed device holds. *)
Definition probed (pm_enable_call : bool) (r : resource) : Z :=
  match r with
  | R_candev | R_registered => 1
  | R_pm_enable => if pm_enable_call then 1 else 0
  | _ => 0
  end.

(** Only the allocated device. *)
Definition candev_only (r : resource) : Z := match r with R_candev => 1 | _ => 0 end.

(** The device through the steps that leave it alone. *)
Ltac drv_simpl :=
  repeat (cbn [drv] in *; match goal with H : drv ?s = _ |- context [drv ?s] => rewrite H end).

Section ProbeProofs.
Context {W : Type} `{World W}.
Implicit Types (s : st host W).

(** A device after a successful probe. *)
Definition probe_ok (addr ntxb rate : Z) (n : net_device) : Prop :=
  mem_base (priv n) = addr ∧ ntxbufs (priv n) = ntxb ∧ txb_head (priv n) = 0 ∧
  txb_tail (priv n) = 0 ∧ read_reg (priv n) = write_reg (priv n) ∧
  bittiming_const (can (priv n)) = ctu_can_fd_bit_timing_max ∧
  data_bittiming_const (can (priv n)) = ctu_can_fd_bit_timing_data_max ∧
  clock_freq (can (priv n)) = u32 rate ∧ state (can (priv n)) = CAN_STATE_STOPPED.

Lemma quiet_probe_endian :
  quiet (W:=W) (λ _ n n', n' = n ∨ n' = with_acc acc_be n) probe_endian.
Proof.
  unfold probe_endian. apply quiet_then; [apply quiet_read|]. intros v. destruct (negb _).
  - eapply quiet_bind; [apply quiet_modify|]. intros _ n n1 -> s Hs.
    eapply wp_mono; [eapply (quiet_bind _ _ (λ _ m m', m' = upd_priv (set_read_reg acc_be) m));
      [apply quiet_modify|]|].
    + intros _ m m' -> s1 Hs1. eapply wp_mono; [apply (quiet_then _ (λ _ m m', m' = m)); [apply quiet_read|]|].
      * intros v'. apply quiet_ret.
      * intros b s2 [-> ?]. by rewrite Hs1.
    + intros b s2 [-> ?]. rewrite Hs. split; [by right|done].
  - eapply quiet_mono; [apply quiet_ret|]. intros b n n' ->. by left.
Qed.

Lemma del_peer_put p n h : del_peer p (put_ndev p n h) = put_ndev p n (del_peer p h).
Proof. done. Qed.

(** Since [s0] the balance changed by [f], and [p] points to [n] in the otherwise
    known state [h]. *)
Definition tracked s0 (p : Z) (n : net_device) (h : host) (f : resource → Z) s : Prop :=
  balanced s0 s f ∧ drv s = put_ndev p n h.

Lemma wp_tr_call c s0 p n h f s Q :
  tracked s0 p n h f s →
  (∀ ret s', tracked s0 p n h (λ r, f r + ev_bal r (EvCall c ret)) s' → Q ret s') → wp (call c) s Q.
Proof.
  intros [Hb Hd] HQ. eapply wp_bal_call; [done|]. intros ret s' Hs Hb'. apply HQ. split; [done|].
  by rewrite Hs.
Qed.

Lemma wp_tr_call_ c s0 p n h f s Q :
  tracked s0 p n h f s →
  (∀ ret s', tracked s0 p n h (λ r, f r + ev_bal r (EvCall c ret)) s' → Q tt s') → wp (call_ c) s Q.
Proof. intros Ht HQ. unfold call_. wp_step. eapply wp_tr_call; [done|]. intros ret s' Ht'. by eapply HQ. Qed.

Lemma wp_tr_on {A} P (m : M net_device W A) s0 p n h f s Q :
  quiet P m → tracked s0 p n h f s →
  (∀ a n' s', P a n n' → tracked s0 p n' h f s' → Q a s') → wp (on_ndev p m) s Q.
Proof.
  intros Hm [Hb Hd] HQ. eapply wp_on_quiet; [exact Hm|exact Hb|exact Hd|]. intros a n' s' HP Hd' Hb'.
  by eapply HQ.
Qed.

(** A change of the state around the device. *)
Lemma wp_tr_modify g s0 p n h f s Q :
  tracked s0 p n h f s → g (put_ndev p n h) = put_ndev p n (g h) →
  (∀ s', tracked s0 p n (g h) f s' → Q tt s') → wp (modify g) s Q.
Proof. intros [Hb Hd] Hg HQ. apply wp_modify, HQ. split; [done|]. cbn. by rewrite Hd. Qed.

End ProbeProofs.

(** Symbolic execution of the glue. *)
Ltac tr_step :=
  lazymatch goal with
  | Ht : tracked _ _ _ _ _ ?s |- wp (call_ _) ?s _ =>
      eapply wp_tr_call_; [exact Ht|]; clear Ht; intros ? ? Ht
  | Ht : tracked _ _ _ _ _ ?s |- wp (call _) ?s _ =>
      eapply wp_tr_call; [exact Ht|]; clear Ht; intros ? ? Ht
  | Ht : tracked _ _ _ _ _ ?s |- wp (on_ndev _ (modify _)) ?s _ =>
      eapply wp_tr_on; [apply quiet_modify|exact Ht|]; clear Ht; intros ? ? ? -> Ht
  | Ht : tracked _ _ _ _ _ ?s |- wp (on_ndev _ (mret _)) ?s _ =>
      eapply wp_tr_on; [apply quiet_ret|exact Ht|]; clear Ht; intros ? ? ? -> Ht
  | |- wp (mbind _ _) _ _ => apply wp_bind
  | |- wp (mret _) _ _ => apply wp_ret
  end; cbn beta iota.

Section ProbeTheorems.
Context {W : Type} `{World W}.
Implicit Types (s : st host W).

(** A failed probe: the error code, nothing held, the entry unlinked. *)
Definition probe_failed s0 (p : Z) (h : host) (ret : Z) s : Prop :=
  ret ≠ 0 ∧ balanced s0 s (λ _, 0) ∧ drv s = del_peer p h.

(** Unlinking and freeing a device. *)
Lemma unlink_free_wp p n h f s s0 Q :
  tracked s0 p n h f s → h_ndevs h !! p = None →
  (∀ s', balanced s0 s' (λ r, f r - candev_only r) → drv s' = del_peer p h → Q tt s') →
  wp (list_del_init p;; free_ndev p) s Q.
Proof.
  intros Ht Hp HQ. unfold list_del_init, free_ndev. repeat tr_step.
  eapply wp_tr_modify; [exact Ht|done|]. clear Ht. intros s1 Ht. repeat tr_step.
  wp_step. destruct Ht as [Hb Hd]. apply HQ; [|cbn [drv]; by rewrite Hd, del_put].
  eapply (balanced_modify _ _ _ (del_ndev p)), balanced_ext; [exact Hb|].
  intros []; cbn; lia.
Qed.

Lemma probe_err_free_wp p n h f ret s s0 :
  tracked s0 p n h f s → (∀ r, f r = candev_only r) → h_ndevs h !! p = None → ret ≠ 0 →
  wp (probe_err_free p ret) s (probe_failed s0 p h).
Proof.
  intros Ht Hf Hp Hr. unfold probe_err_free. apply (wp_bind_assoc (list_del_init p)).
  wp_step. eapply unlink_free_wp; [exact Ht|done|]. intros s' Hb Hd. wp_step. split; [done|]. split; [|done].
  eapply balanced_ext; [exact Hb|]. intros r. cbv beta. rewrite Hf. lia.
Qed.

Lemma probe_err_pmdisable_wp (pm : bool) p n h f ret s s0 :
  tracked s0 p n h f s → (∀ r, f r = candev_only r + (if pm then ev_bal r (EvCall pm_runtime_enable 0) else 0)) →
  h_ndevs h !! p = None → ret ≠ 0 → wp (probe_err_pmdisable pm p ret) s (probe_failed s0 p h).
Proof.
  intros Ht Hf Hp Hr. unfold probe_err_pmdisable, when. destruct pm; repeat tr_step.
  - eapply probe_err_free_wp; [exact Ht| |done|done]. intros r. cbv beta. rewrite Hf. destruct r; done.
  - eapply probe_err_free_wp; [exact Ht| |done|done]. intros r. cbv beta. rewrite Hf. lia.
Qed.

Lemma probe_err_deviceoff_wp (pm : bool) p n h f ret s s0 :
  tracked s0 p n h f s →
  (∀ r, f r = candev_only r + (if pm then ev_bal r (EvCall pm_runtime_enable 0) else 0) +
              ev_bal r (EvCall pm_runtime_get_sync 0)) →
  h_ndevs h !! p = None → ret ≠ 0 → wp (probe_err_deviceoff pm p ret) s (probe_failed s0 p h).
Proof.
  intros Ht Hf Hp Hr. unfold probe_err_deviceoff. repeat tr_step.
  eapply probe_err_pmdisable_wp; [exact Ht| |done|done]. intros r. cbv beta. rewrite Hf. destruct r, pm; done.
Qed.

(** A device [n0] that was initialised for [probe_device]. *)
Definition probe_started (addr ntxb flags : Z) (n0 : net_device) : Prop :=
  n0 = upd_priv (set_irq_flags flags) (probe_init addr ntxb new_candev).

Definition probe_succeeded s0 (pm : bool) (p addr ntxb rate flags : Z) (h : host) (ret : Z) s : Prop :=
  ret = 0 ∧ balanced s0 s (probed pm) ∧
  ∃ n, drv s = put_ndev p n h ∧ probe_ok addr ntxb rate n ∧ irq_flags (priv n) = flags.

Lemma probe_device_wp rate addr ntxb flags (pm : bool) p n0 h f s s0 :
  tracked s0 p n0 h f s → (∀ r, f r = candev_only r) → probe_started addr ntxb flags n0 →
  h_ndevs h !! p = None →
  wp (probe_device p rate pm) s (λ ret s',
    probe_succeeded s0 pm p addr ntxb rate flags h ret s' ∨ probe_failed s0 p h ret s').
Proof.
  intros Ht Hf Hn Hp. unfold probe_device. repeat tr_step.
  assert (Hen : ∀ s1, tracked s0 p (with_acc acc_le n0) h f s1 →
    wp (when pm (call_ pm_runtime_enable)) s1 (λ _ s2, ∃ f', tracked s0 p (with_acc acc_le n0) h f' s2 ∧
      ∀ r, f' r = candev_only r + (if pm then ev_bal r (EvCall pm_runtime_enable 0) else 0))).
  { intros s1 Ht1. destruct pm; unfold when; tr_step; eexists; (split; [exact Ht1|]); intros r; cbv beta; rewrite Hf; cbn; lia. }
  eapply wp_mono; [by apply Hen|]. clear Ht Hf Hen. intros _ s2 (f' & Ht & Hf). repeat tr_step.
  if_split Epm.
  { repeat tr_step. eapply wp_mono; [eapply probe_err_pmdisable_wp; [exact Ht| |done|lia]|by intros; right].
    intros r. cbv beta. rewrite Hf. destruct r; cbn; lia. }
  assert (Hoff : ∀ ret n1 f1 s1, tracked s0 p n1 h f1 s1 → ret ≠ 0 →
    (∀ r, f1 r = f' r + ev_bal r (EvCall pm_runtime_get_sync 0)) →
    wp (probe_err_deviceoff pm p ret) s1 (λ ret s',
      probe_succeeded s0 pm p addr ntxb rate flags h ret s' ∨ probe_failed s0 p h ret s')).
  { intros ret' n1 f1 s1 Ht1 Hr Hf1. eapply wp_mono; [eapply probe_err_deviceoff_wp; [exact Ht1| |done|done]|by intros; right].
    intros r. by rewrite Hf1, Hf. }
  tr_step. eapply wp_tr_on; [apply quiet_probe_endian|exact Ht|]. clear Ht. intros found n1 s1 Hacc Ht.
  if_split Efound; [repeat tr_step; eapply Hoff; [exact Ht|unfold ENODEV, ETIMEDOUT; lia|intros []; cbn; lia]|].
  tr_step. eapply wp_tr_on; [apply quiet_reset|exact Ht|]. clear Ht. intros r1 n2 s3 [Hr ->] Ht.
  destruct Hr as [-> | ->]; [|eapply Hoff; [exact Ht|unfold ENODEV, ETIMEDOUT; lia|intros []; cbn; lia]].
  change (0 <? 0) with false. cbv iota. repeat tr_step.
  if_split Ereg; [apply nz_true in Ereg; repeat tr_step; eapply Hoff; [exact Ht|done|intros []; cbn; repeat case_match; lia]|].
  repeat tr_step. destruct Ht as [Hb Hd]. left. split; [done|]. split.
  { eapply balanced_ext; [exact Hb|]. apply nz_false in Ereg. subst. intros []; cbn; rewrite Hf; destruct pm; done. }
  eexists. split; [exact Hd|]. unfold probe_started in Hn. destruct Hacc as [-> | ->]; subst n0; by split_and!.
Qed.

(** What [ctucan_probe_common] with the callback [f] does to the state [h]. *)
Definition probe_outcome (f : Z → M host W unit) `{!DrvdataFnc f} (addr ntxb rate : Z) (pm : bool)
    s (ret : Z) (s' : st host W) : Prop :=
  ∃ p, h_ndevs (drv s) !! p = None ∧
    ((ret = 0 ∧ balanced s s' (probed pm) ∧ ∃ n rate', (rate ≠ 0 → rate' = rate) ∧
        drv s' = put_ndev p n (df_host p (drv s)) ∧ probe_ok addr ntxb rate' n ∧
        irq_flags (priv n) = df_irq_flags) ∨
     (ret ≠ 0 ∧ balanced s s' (λ _, 0) ∧
        (drv s' = drv s ∨ drv s' = del_peer p (df_host p (drv s))))).

Lemma probe_common_wp f `{!DrvdataFnc f} addr ntxb rate pm s :
  df_pre (drv s) →
  wp (ctucan_probe_common addr ntxb rate pm (Some f)) s (probe_outcome f addr ntxb rate pm s).
Proof.
  intros Hpre. set (p := fresh_ndev (drv s)). pose proof (fresh_ndev_none (drv s)) as Hp. fold p in Hp.
  assert (Hp' : h_ndevs (df_host p (drv s)) !! p = None) by by rewrite df_ndevs.
  unfold ctucan_probe_common. wp_step. eapply wp_bal_call; [apply balanced_refl|]. intros ok s1 Hd1 Hb1.
  if_split Eok.
  { wp_step. exists p. split; [done|]. right. split; [done|]. split; [|by left].
    eapply balanced_ext; [exact Hb1|]. apply negb_true_iff, nz_false in Eok. subst. by intros []. }
  apply negb_false_iff, nz_true in Eok. wp_step. wp_step. wp_step. wp_step. wp_step. rewrite Hd1. fold p.
  set (s2 := mkst _ _ _). eapply wp_mono; [apply (df_spec p (probe_init addr ntxb new_candev) (drv s)); by subst s2|].
  intros _ s3 [Htr3 Hd3].
  set (n0 := upd_priv _ _) in Hd3.
  assert (Ht : ∃ f0, tracked s p n0 (df_host p (drv s)) f0 s3 ∧ ∀ r, f0 r = candev_only r).
  { exists (λ r, 0 + ev_bal r (EvCall (alloc_candev ntxb) ok)). split; [split; [|exact Hd3]|].
    - destruct Hb1 as (tr & E & Hbal). exists tr. split; [by rewrite Htr3|exact Hbal].
    - intros []; cbn; repeat case_match; lia. }
  destruct Ht as (f0 & Ht & Hf0).
  assert (Hout : ∀ rate' f1 s4, (rate ≠ 0 → rate' = rate) → tracked s p n0 (df_host p (drv s)) f1 s4 →
    (∀ r, f1 r = candev_only r) → wp (probe_device p rate' pm) s4 (probe_outcome f addr ntxb rate pm s)).
  { intros rate' f1 s4 Hrate Ht4 Hf1. eapply wp_mono; [by eapply probe_device_wp|].
    intros ret s5 [(Hr & Hb & n & Hd & Hok & Hirq)|(Hr & Hb & Hd)]; exists p; (split; [done|]).
    - left. split; [done|]. split; [done|]. by exists n, rate'.
    - right. split; [done|]. split; [done|]. by right. }
  if_split Eclk; [|eapply Hout; [done|exact Ht|done]].
  apply negb_true_iff, nz_false in Eclk. repeat tr_step. if_split Eget.
  - repeat tr_step. eapply wp_mono; [eapply probe_err_free_wp; [exact Ht| |done|lia]|].
    + intros []; cbn; rewrite Hf0; done.
    + intros ret' s5 (Hr & Hb & Hd). exists p. split; [done|]. right. split; [done|]. split; [done|]. by right.
  - repeat tr_step. eapply Hout; [lia|exact Ht|]. intros []; cbn; rewrite Hf0; done.
Qed.

(** C32: [ctucan_probe_common], in every world and for every callback that keeps the
    interface [DrvdataFnc], returns.  On success one new device exists; it holds its CAN device, its registration
    and (if asked for) enabled runtime PM but no PM reference, its ring is empty, both
    accessors use one byte order, and the bit timing limits and the clock are set.  On any
    failure (of the allocation, the clock, PM, the signature, the reset or the
    registration) everything taken has been released, the new device is gone and its
    list entry unlinked.  No freed device is accessed. *)
Theorem ctucan_probe_common_spec f `{!DrvdataFnc f} addr ntxb rate pm s :
  df_pre (drv s) →
  wp (ctucan_probe_common addr ntxb rate pm (Some f)) s (probe_outcome f addr ntxb rate pm s).
Proof. apply probe_common_wp. Qed.

(** Suspend and resume of a bus device whose driver data is a network device set the
    state of just this device to SLEEPING and ERROR_ACTIVE, and detach (attach) it
    and stop (start) its queue exactly if it is running; for a board of several
    devices the driver data is not a network device and both are undefined. *)
Theorem ctucan_suspend_resume_spec (suspend : bool) s :
  match h_drvdata (drv s) with
  | DrvNdev p => ∀ n, h_ndevs (drv s) !! p = Some n →
      wp (if suspend then ctucan_suspend else ctucan_resume) s (λ ret s', ret = 0 ∧
        drv s' = put_ndev p (upd_can (set_state (if suspend then CAN_STATE_SLEEPING else CAN_STATE_ERROR_ACTIVE)) n) (drv s) ∧
        ∃ running r1 r2, trace s' = trace s ++ EvCall netif_running running ::
          if running =? 0 then [] else
          if suspend then [EvCall netif_stop_queue r1; EvCall netif_device_detach r2]
          else [EvCall netif_device_attach r1; EvCall netif_start_queue r2])
  | DrvBoard => fst ((if suspend then ctucan_suspend else ctucan_resume) s) = Ub WrongType
  | DrvNull => fst ((if suspend then ctucan_suspend else ctucan_resume) s) = Ub NullDeref
  end.
Proof.
  destruct (h_drvdata (drv s)) as [|p|] eqn:Ed.
  - destruct suspend; unfold ctucan_suspend, ctucan_resume, dev_get_ndev, mbind, M_bind, gets; by rewrite Ed.
  - intros n Hn. destruct suspend; unfold ctucan_suspend, ctucan_resume.
    all: wp_step; apply (wp_dev_get_ndev p); [done|]; wp_step.
    + wp_step. rename r into running. wp_step. eapply wp_mono.
      { instantiate (1 := λ _ s1, drv s1 = drv s ∧ ∃ r1 r2, trace s1 = trace s ++ EvCall netif_running running ::
          if running =? 0 then [] else [EvCall netif_stop_queue r1; EvCall netif_device_detach r2]).
        unfold when, nz. destruct (running =? 0); cbn [negb]; repeat wp_step; (split; [done|]);
          [by exists 0, 0|do 2 eexists; tr_norm; reflexivity]. }
      intros _ s1 (Hd & r1 & r2 & Htr). wp_step. eapply wp_on_ndev; [by rewrite Hd|]. wp_step. wp_step.
      split; [done|]. rewrite Hd. split; [done|]. by exists running, r1, r2.
    + eapply wp_on_ndev; [done|]. wp_step. wp_step. wp_step. rename r into running. unfold when, nz.
      wp_step. destruct (running =? 0) eqn:Er; cbn [negb]; repeat wp_step; (split; [done|]); (split; [done|]).
      * exists running, 0, 0. by rewrite Er.
      * exists running. do 2 eexists. rewrite Er. tr_norm. reflexivity.
  - destruct suspend; unfold ctucan_suspend, ctucan_resume, dev_get_ndev, mbind, M_bind, gets; by rewrite Ed.
Qed.

End ProbeTheorems.
