(* ===== verification/Platform.v ===== *)
(** * The platform bus

    [ctucanfd_platform.c]: probing and removal of a device of the platform bus, whose
    driver data is the one network device. *)

From Stdlib Require Import ZArith Lia.
From stdpp Require Import base numbers list strings gmap.
From S2P Require Import Prelude LinuxDefs World Kregs Base Sim BaseCfg Resources BaseDev Host Probe.

#[local] Open Scope Z_scope.

Section Platform.
Context {W : Type} `{World W}.
Abbreviation MH := (M host W).

Definition ctucan_platform_set_drvdata (ndev : Z) : MH unit :=
  modify (set_h_drvdata (DrvNdev ndev)).

(** An error pointer is a negative number, as in the other functions. *)
Definition ctucan_platform_probe : MH Z :=
  addr ← call (devm_platform_ioremap_resource 0);
  if addr <? 0 then
    call_ (netdev_msg "Cannot remap address.\n");;
    mret addr
  else
  irq ← call (platform_get_irq 0);
  if irq <? 0 then
    call_ (netdev_msg "Cannot find interrupt.\n");;
    mret irq
  else
  let ntxb := 4 in
  ret ← ctucan_probe_common addr ntxb 0 true (Some ctucan_platform_set_drvdata);
  when (ret <? 0) (modify (set_h_drvdata DrvNull));;
  mret ret.

Definition ctucan_platform_remove : MH Z :=
  ndev ← dev_get_ndev;
  call_ (netdev_msg "ctucan_remove");;
  call_ (unregister_candev ndev);;
  call_ pm_runtime_disable;;
  on_ndev ndev (mret tt);;
  call_ (netif_napi_del ndev);;
  free_ndev ndev;;
  mret 0.

(** The callback of the platform bus keeps the interface. *)
#[export] Instance platform_drvdata : DrvdataFnc ctucan_platform_set_drvdata.
Proof.
  refine {| df_pre := (λ _, True); df_host := (λ p, set_h_drvdata (DrvNdev p)); df_irq_flags := 0 |}; [done|].
  intros p n h s _ Hd Hirq. unfold ctucan_platform_set_drvdata. wp_step. split; [done|]. rewrite Hd.
  destruct n as [[] ]. cbn in *. by subst.
Defined.

Implicit Types (s : st host W).

(** The state after [ctucan_platform_probe]. *)
Definition platform_probed s (ret : Z) (s' : st host W) : Prop :=
  (ret = 0 ∧ balanced s s' (probed true) ∧ ∃ p n, h_ndevs (drv s) !! p = None ∧
     drv s' = put_ndev p n (set_h_drvdata (DrvNdev p) (drv s)) ∧
     ntxbufs (priv n) = 4 ∧ txb_head (priv n) = txb_tail (priv n) ∧ read_reg (priv n) = write_reg (priv n)) ∨
  (ret ≠ 0 ∧ balanced s s' (λ _, 0) ∧ h_ndevs (drv s') = h_ndevs (drv s) ∧
     (ret < 0 → h_drvdata (drv s) = DrvNull → h_drvdata (drv s') = DrvNull)).

Lemma platform_probe_wp s : wp ctucan_platform_probe s (platform_probed s).
Proof.
  unfold ctucan_platform_probe, platform_probed. pose proof (balanced_refl s) as Hbal.
  bal_step. eapply wp_bal_call; [exact Hbal|]. clear Hbal. intros addr s1 Hd1 Hbal. if_split Ea.
  { repeat bal_step. right. drv_simpl. split; [lia|]. split; [bal_done|done]. }
  bal_step. eapply wp_bal_call; [exact Hbal|]. clear Hbal. intros irq s2 Hd2 Hbal. if_split Ei.
  { repeat bal_step. right. drv_simpl. split; [lia|]. split; [bal_done|done]. }
  bal_step. eapply wp_mono; [by apply probe_common_wp|]. intros ret' s3 (p & Hp & Hout).
  unfold probe_outcome in Hout. rewrite Hd2, Hd1 in Hp, Hout.
  unfold when. destruct Hout as [(-> & Hb & n & rate' & _ & Hd & Hok & _)|(Hr & Hb & Hd)].
  - repeat bal_step. left. split; [done|]. split.
    { eapply balanced_app; [exact Hbal|exact Hb|]. by intros []. }
    exists p, n. destruct Hok as (_ & ? & ? & ? & ? & _). split_and!; [done|done|done|congruence|done].
  - assert (Hz : balanced s s3 (λ _, 0)) by (eapply balanced_app; [exact Hbal|exact Hb|]; by intros []).
    assert (Hnd : h_ndevs (drv s3) = h_ndevs (drv s)) by (destruct Hd as [-> | ->]; done).
    destruct (Z.ltb_spec ret' 0); repeat wp_step; right; (split; [done|]); (split; [done|]); (split; [done|]).
    + done.
    + intros. lia.
Qed.

(** Removal of a bound device gives back what the probe took. *)
Lemma platform_remove_wp p n h s :
  drv s = put_ndev p n h → h_drvdata h = DrvNdev p → h_ndevs h !! p = None →
  wp ctucan_platform_remove s (λ ret s', ret = 0 ∧ balanced s s' (λ r, - probed true r) ∧ drv s' = h).
Proof.
  intros Hd Hdd Hp. unfold ctucan_platform_remove, free_ndev.
  assert (Ht : tracked s p n h (λ _, 0) s) by (split; [apply balanced_refl|done]).
  wp_step. apply (wp_dev_get_ndev p); [by rewrite Hd|]. repeat tr_step. wp_step. tr_step.
  destruct Ht as [Hb Hd']. split; [done|]. cbn [drv]. rewrite Hd', del_put by done. split; [|done].
  eapply (balanced_modify _ _ _ (del_ndev p)), balanced_ext; [exact Hb|]. by intros [].
Qed.

(** Binding a platform device and unbinding it again, in every world: the probe gets one
    network device with four buffers, an empty ring and matching accessors, or fails with everything
    released and, for a negative code, no dangling driver data; removal after a successful
    probe releases exactly what the probe took.  In all cases every count of resources
    and the set of allocated devices end as they began, and no freed device is
    accessed. *)
Theorem ctucan_platform_lifecycle s :
  wp ctucan_platform_probe s (platform_probed s) ∧
  wp (ret ← ctucan_platform_probe; if ret =? 0 then ctucan_platform_remove else mret ret) s (λ ret s',
    balanced s s' (λ _, 0) ∧ h_ndevs (drv s') = h_ndevs (drv s) ∧
    (ret < 0 → h_drvdata (drv s) = DrvNull → h_drvdata (drv s') = DrvNull)).
Proof.
  split; [apply platform_probe_wp|]. wp_step. eapply wp_mono; [apply platform_probe_wp|].
  intros ret s1 [(-> & Hb & p & n & Hp & Hd & _)|(Hr & Hb & Hrest)].
  - change (0 =? 0) with true. cbv iota. eapply wp_mono; [by eapply platform_remove_wp|].
    intros ret s2 (-> & Hb2 & Hd2). rewrite Hd2. split; [|done].
    eapply balanced_app; [exact Hb|exact Hb2|]. intros r. lia.
  - destruct (Z.eqb_spec ret 0); [done|]. by wp_step.
Qed.

End Platform.

(** ** A concrete run *)

(** A device that answers with the signature, with a clock of 100 MHz. *)
Definition platform_st : st host script :=
  mkst (mkhost DrvNull None ∅) (mkscript [0xCAFD; 0xCAFD] [1; 5; 100000000] []) [].

Lemma ctucan_probe_common_witness :
  wp (ctucan_probe_common 0x1000 4 0 true (Some ctucan_platform_set_drvdata)) platform_st (λ ret s',
    ret = 0 ∧ balanced platform_st s' (probed true) ∧ h_drvdata (drv s') = DrvNdev 0 ∧
    (λ n, clock_freq (can (priv n))) <$> (h_ndevs (drv s') !! 0) = Some 100000000).
Proof.
  eapply wp_mono; [apply wp_and; [exact (ctucan_probe_common_spec ctucan_platform_set_drvdata 0x1000 4 0 true platform_st I)|]|].
  - instantiate (1 := λ ret s', ret = 0 ∧ h_drvdata (drv s') = DrvNdev 0 ∧
      (λ n, clock_freq (can (priv n))) <$> (h_ndevs (drv s') !! 0) = Some 100000000).
    vm_compute. repeat split.
  - intros ret s' [(p & _ & [(_ & Hb & _)|(Hne & _)]) (Hret & Hx & Hy)]; [|destruct (Hne Hret)].
    split; [exact Hret|]. split; [exact Hb|]. split; [exact Hx|exact Hy].
Defined.
