(* ===== verification/Pci.v ===== *)
(** * The PCI bus

    [ctucanfd_pci.c]: probing and removal of a board with up to fifteen cores behind one
    interrupt.  The driver data is the board data, which links the network devices. *)

From Stdlib Require Import ZArith Lia.
From stdpp Require Import base numbers list strings gmap.
From S2P Require Import Prelude LinuxDefs World Kregs Base Sim BaseCfg Resources BaseDev Host Probe.

#[local] Open Scope Z_scope.

Definition CTUCAN_BAR0_CTUCAN_ID : Z := 0x0000.
Definition CTUCAN_BAR0_CRA_BASE : Z := 0x4000.
Definition CYCLONE_IV_CRA_A2P_IE : Z := 0x0050.

Definition CTUCAN_WITHOUT_CTUCAN_ID : Z := 0.
Definition CTUCAN_WITH_CTUCAN_ID : Z := 1.

(** The flag of [request_irq] for an interrupt with several handlers. *)
Definition IRQF_SHARED : Z := 0x80.

Section Pci.
Context {W : Type} `{World W}.
Abbreviation MH := (M host W).

(** [*ctucan_pci_get_bdata(pdev)] *)
Definition ctucan_pci_get_bdata : MH ctucan_pci_board_data :=
  d ← gets h_drvdata;
  match d with
  | DrvBoard => b ← gets h_board; some_or UseAfterFree b
  | DrvNull => undefined NullDeref
  | DrvNdev _ => undefined WrongType
  end.

Definition ctucan_pci_set_drvdata (ndev : Z) : MH unit :=
  _ ← ctucan_pci_get_bdata;
  on_ndev ndev (mret tt);;
  modify (add_peer ndev);;
  on_ndev ndev (modify (upd_priv (set_irq_flags IRQF_SHARED))).

(** The labels at the end of [ctucan_pci_probe]. *)
Definition pci_err_disable_device (ret : Z) : MH Z := call_ pci_disable_device;; mret ret.

Definition pci_err_release_regions (msi_ok ret : Z) : MH Z :=
  when (nz msi_ok) (call_ pci_disable_msi;; call_ pci_clear_master);;
  call_ pci_release_regions;;
  pci_err_disable_device ret.

Definition pci_err_iounmap_bar1 (msi_ok addr ret : Z) : MH Z :=
  call_ (pci_iounmap addr);; pci_err_release_regions msi_ok ret.

Definition pci_err_iounmap_bar0 (msi_ok addr cra_addr ret : Z) : MH Z :=
  call_ (pci_iounmap cra_addr);; pci_err_iounmap_bar1 msi_ok addr ret.

Definition pci_err_free_board (msi_ok addr cra_addr ret : Z) : MH Z :=
  modify (set_h_drvdata DrvNull);;
  call_ kfree;;
  modify (set_h_board None);;
  pci_err_iounmap_bar0 msi_ok addr cra_addr ret.

(** The loop over the further cores, from [core_i]. *)
Fixpoint pci_cores (fuel : nat) (pci_use_second : bool) (num_cores core_i addr : Z) : MH unit :=
  if pci_use_second && (core_i <? num_cores) then
    match fuel with
    | O => no_fuel
    | S fuel' =>
        let addr := addr + 0x4000 in
        ret ← ctucan_probe_common addr 4 100000000 false (Some ctucan_pci_set_drvdata);
        if ret <? 0 then call_ (netdev_msg "CTU CAN FD core %d initialization failed\n")
        else pci_cores fuel' pci_use_second num_cores (core_i + 1) addr
    end
  else mret tt.

(** The choice between the two kinds of boards: [cra_addr] and [num_cores]. *)
Definition pci_identify (driver_data bar0 : Z) : MH (Z * Z) :=
  if driver_data =? CTUCAN_WITHOUT_CTUCAN_ID then mret (bar0, 2)
  else
    ctucan_id ← ioread32 (bar0 + CTUCAN_BAR0_CTUCAN_ID);
    call_ (netdev_msg "ctucan_id 0x%08lx\n");;
    mret (bar0 + CTUCAN_BAR0_CRA_BASE, Z.land ctucan_id 0xf).

(** The part of [ctucan_pci_probe] that enables message-signalled interrupts: [msi_ok]. *)
Definition pci_try_msi (use_msi : bool) : MH Z :=
  if use_msi then
    ret ← call pci_enable_msi;
    if negb (nz ret) then
      call_ (netdev_msg "MSI enabled\n");; call_ pci_set_master;; mret 1
    else mret 0
  else mret 0.

(** The interrupt enable register of the bridge. *)
Definition pci_enable_a2p (cra_addr : Z) : MH unit :=
  cra_a2p_ie ← ioread32 (cra_addr + CYCLONE_IV_CRA_A2P_IE);
  call_ (netdev_msg "cra_a2p_ie 0x%08x\n");;
  iowrite32 (Z.lor cra_a2p_ie 1) (cra_addr + CYCLONE_IV_CRA_A2P_IE);;
  cra_a2p_ie ← ioread32 (cra_addr + CYCLONE_IV_CRA_A2P_IE);
  call_ (netdev_msg "cra_a2p_ie 0x%08x\n").

Definition ctucan_pci_probe (use_msi pci_use_second : bool) (driver_data : Z) : MH Z :=
  ret ← call pci_enable_device;
  if nz ret then call_ (netdev_msg "pci_enable_device FAILED\n");; mret ret else
  ret ← call pci_request_regions;
  if nz ret then call_ (netdev_msg "pci_request_regions FAILED\n");; pci_err_disable_device ret else
  msi_ok ← pci_try_msi use_msi;
  call_ (netdev_msg "ctucan BAR0 0x%08llx 0x%08llx\n");;
  call_ (netdev_msg "ctucan BAR1 0x%08llx 0x%08llx\n");;
  addr ← call (pci_iomap 1);
  if negb (nz addr) then
    call_ (netdev_msg "PCI BAR 1 cannot be mapped\n");; pci_err_release_regions msi_ok (- ENOMEM)
  else
  bar0 ← call (pci_iomap 0);
  if negb (nz bar0) then
    call_ (netdev_msg "PCI BAR 0 cannot be mapped\n");; pci_err_iounmap_bar1 msi_ok addr (- EIO)
  else
  r ← pci_identify driver_data bar0;
  let cra_addr := fst r in
  let num_cores := snd r in
  bdata ← call kzalloc;
  if negb (nz bdata) then pci_err_iounmap_bar0 msi_ok addr cra_addr (- ENOMEM) else
  modify (set_h_board (Some (mkboard bar0 cra_addr addr [] msi_ok)));;
  modify (set_h_drvdata DrvBoard);;
  ret ← ctucan_probe_common addr 4 100000000 false (Some ctucan_pci_set_drvdata);
  if ret <? 0 then pci_err_free_board msi_ok addr cra_addr ret else
  pci_cores (Z.to_nat num_cores) pci_use_second num_cores 1 addr;;
  pci_enable_a2p cra_addr;;
  mret 0.

(** The loop of [ctucan_pci_remove] over the linked devices. *)
Fixpoint pci_remove_loop (fuel : nat) : MH unit :=
  bdata ← ctucan_pci_get_bdata;
  match ndev_list_head bdata with
  | [] => mret tt
  | ndev :: _ =>
      match fuel with
      | O => no_fuel
      | S fuel' =>
          on_ndev ndev (mret tt);;
          call_ (unregister_candev ndev);;
          on_ndev ndev (mret tt);;
          call_ (netif_napi_del ndev);;
          list_del_init ndev;;
          free_ndev ndev;;
          pci_remove_loop fuel'
      end
  end.

Definition ctucan_pci_remove : MH unit :=
  call_ (netdev_msg "ctucan_remove");;
  d ← gets h_drvdata;
  if (match d with DrvNull => true | _ => false end) then call_ (netdev_msg "%s: no list of devices\n")
  else
  bdata ← ctucan_pci_get_bdata;
  when (nz (cra_base bdata)) (iowrite32 0 (cra_base bdata + CYCLONE_IV_CRA_A2P_IE));;
  pci_remove_loop (length (ndev_list_head bdata));;
  call_ (pci_iounmap (bar1_base bdata));;
  when (nz (bd_use_msi bdata)) (call_ pci_disable_msi;; call_ pci_clear_master);;
  call_ pci_release_regions;;
  call_ pci_disable_device;;
  call_ (pci_iounmap (bar0_base bdata));;
  modify (set_h_drvdata DrvNull);;
  call_ kfree;;
  modify (set_h_board None).

(** The callback keeps the interface while the board data exists. *)
#[export] Instance pci_drvdata : DrvdataFnc ctucan_pci_set_drvdata.
Proof.
  refine {| df_pre := (λ h, h_drvdata h = DrvBoard ∧ is_Some (h_board h)); df_host := add_peer;
            df_irq_flags := IRQF_SHARED |}; [done|].
  intros p n h s [Hd [b Hb]] Hs _. unfold ctucan_pci_set_drvdata, ctucan_pci_get_bdata.
  wp_step. wp_step. wp_step. rewrite Hs. cbn [h_drvdata put_ndev]. rewrite Hd. wp_step. wp_step.
  eapply wp_some_or; [rewrite Hs; exact Hb|]. wp_step. eapply wp_on_ndev; [rewrite Hs; apply lookup_put|]. wp_step.
  wp_step. wp_step. eapply wp_on_ndev; [exact (lookup_put p n (add_peer p (drv s)))|]. wp_step. cbn [drv trace world].
  split; [done|]. by rewrite Hs, !put_put, !add_peer_put, !put_put.
Defined.

End Pci.

(** ** The state of a bound board *)

(** The devices of a board, the newest first, on top of the other devices. *)
Definition with_devs (devs : list (Z * net_device)) (m : gmap Z net_device) : gmap Z net_device :=
  foldr (λ pn, <[pn.1 := pn.2]>) m devs.

Definition bound (b : ctucan_pci_board_data) (devs : list (Z * net_device)) (m : gmap Z net_device) : host :=
  mkhost DrvBoard (Some (set_ndev_list devs.*1 b)) (with_devs devs m).

(** The pointers are different from each other and from those of other devices. *)
Definition devs_wf (devs : list (Z * net_device)) (m : gmap Z net_device) : Prop :=
  NoDup devs.*1 ∧ ∀ p, p ∈ devs.*1 → m !! p = None.

(** Each device is a core at its own place in the second BAR, after the places of the
    older ones. *)
Fixpoint cores_ok (bar1 hi : Z) (devs : list (Z * net_device)) : Prop :=
  match devs with
  | [] => True
  | (_, n) :: devs' => ∃ k, 0 <= k < hi ∧ probe_ok (bar1 + 0x4000 * k) 4 100000000 n ∧
      irq_flags (priv n) = IRQF_SHARED ∧ cores_ok bar1 k devs'
  end.

Lemma cores_ok_mono bar1 hi hi' devs : cores_ok bar1 hi devs → hi <= hi' → cores_ok bar1 hi' devs.
Proof. destruct devs as [|[p n] devs]; [done|]. intros (k & Hk & ?) Hle. exists k. split; [lia|done]. Qed.

Lemma with_devs_none devs m p : with_devs devs m !! p = None → (p ∉ devs.*1) ∧ m !! p = None.
Proof.
  induction devs as [|[q n] devs IH]; cbn; intros Hp; [split; [apply not_elem_of_nil|done]|].
  apply lookup_insert_None in Hp as [Hp Hq]. destruct (IH Hp). split; [|done].
  rewrite elem_of_cons. intros [->|]; done.
Qed.

Lemma with_devs_notin devs m p : p ∉ devs.*1 → m !! p = None → with_devs devs m !! p = None.
Proof.
  induction devs as [|[q n] devs IH]; cbn; intros Hp Hm; [done|]. rewrite elem_of_cons in Hp.
  rewrite lookup_insert_ne by (intros ->; tauto). tauto.
Qed.

Lemma devs_wf_cons p n devs m : devs_wf devs m → with_devs devs m !! p = None → devs_wf ((p, n) :: devs) m.
Proof.
  intros [Hnd Hm] Hp. apply with_devs_none in Hp as [Hp Hpm]. split; [by apply NoDup_cons|].
  intros q. cbn. rewrite elem_of_cons. intros [->|Hq]; auto.
Qed.

Lemma devs_wf_inv p n devs m :
  devs_wf ((p, n) :: devs) m → devs_wf devs m ∧ (p ∉ devs.*1) ∧ with_devs devs m !! p = None.
Proof.
  intros [Hnd Hm]. cbn in Hnd. apply NoDup_cons in Hnd as [Hp Hnd].
  split; [split; [done|]; intros q Hq; apply Hm; cbn; rewrite elem_of_cons; auto|]. split; [done|].
  apply with_devs_notin; [done|]. apply Hm. cbn. rewrite elem_of_cons. auto.
Qed.

Lemma bound_add b devs m p n : put_ndev p n (add_peer p (bound b devs m)) = bound b ((p, n) :: devs) m.
Proof. done. Qed.

Lemma bound_del b devs m p : p ∉ devs.*1 → del_peer p (add_peer p (bound b devs m)) = bound b devs m.
Proof. intros Hp. apply del_add_peer. intros b' [= <-]. done. Qed.

Section PciProofs.
Context {W : Type} `{World W}.
Implicit Types (s : st host W).

(** [k] registered devices. *)
Definition ndevs_held (k : Z) (r : resource) : Z :=
  match r with R_candev | R_registered => k | _ => 0 end.

(** One more core. *)
Lemma pci_probe_core_wp b devs m addr s :
  drv s = bound b devs m → devs_wf devs m →
  wp (ctucan_probe_common addr 4 100000000 false (Some ctucan_pci_set_drvdata)) s (λ ret s',
    (ret = 0 ∧ balanced s s' (ndevs_held 1) ∧ ∃ p n, drv s' = bound b ((p, n) :: devs) m ∧
       devs_wf ((p, n) :: devs) m ∧ probe_ok addr 4 100000000 n ∧ irq_flags (priv n) = IRQF_SHARED) ∨
    (ret ≠ 0 ∧ balanced s s' (λ _, 0) ∧ drv s' = bound b devs m)).
Proof.
  intros Hd Hwf. eapply wp_mono.
  { apply probe_common_wp. rewrite Hd. split; [done|]. eexists. reflexivity. }
  intros ret s' (p & Hp & Hout). rewrite Hd in Hp, Hout. cbn [h_ndevs bound] in Hp.
  destruct Hout as [(Hr & Hb & n & rate' & Hrate & Hd' & Hok & Hirq)|(Hr & Hb & Hd')].
  - left. split; [done|]. split; [eapply balanced_ext; [exact Hb|by intros []]|]. exists p, n.
    rewrite Hrate in Hok by done. split; [by rewrite Hd'|]. split; [by apply devs_wf_cons|]. done.
  - right. split; [done|]. split; [done|]. apply with_devs_none in Hp as [Hp _].
    destruct Hd' as [-> | ->]; [done|by apply bound_del].
Qed.

Lemma pci_cores_done b devs m bar1 core num (second : bool) f g s0 s :
  drv s = bound b devs m → devs_wf devs m → cores_ok bar1 core devs → balanced s0 s f →
  (∀ r, f r = g r + ndevs_held (Z.of_nat (length devs)) r) →
  ∃ devs', drv s = bound b devs' m ∧ devs_wf devs' m ∧ cores_ok bar1 (if second then Z.max core num else core) devs' ∧
    balanced s0 s (λ r, g r + ndevs_held (Z.of_nat (length devs')) r).
Proof.
  intros Hd Hwf Hok Hb Hf. exists devs. split; [done|]. split; [done|].
  split; [eapply cores_ok_mono; [done|destruct second; lia]|by eapply balanced_ext].
Qed.

(** The further cores. *)
Lemma pci_cores_wp fuel second num b devs m core bar1 s s0 f g :
  drv s = bound b devs m → devs_wf devs m → cores_ok bar1 core devs →
  balanced s0 s f → (∀ r, f r = g r + ndevs_held (Z.of_nat (length devs)) r) →
  0 < core → num - core < Z.of_nat fuel → 
  wp (pci_cores fuel second num core (bar1 + 0x4000 * (core - 1))) s (λ _ s', ∃ devs',
    drv s' = bound b devs' m ∧ devs_wf devs' m ∧ cores_ok bar1 (if second then Z.max core num else core) devs' ∧
    balanced s0 s' (λ r, g r + ndevs_held (Z.of_nat (length devs')) r)).
Proof.
  revert devs core s f. induction fuel as [|fuel IH]; intros devs core s f Hd Hwf Hok Hb Hf Hc Hfuel;
    cbn [pci_cores]; destruct (second && (core <? num)) eqn:E.
  - apply andb_true_iff in E as [_ E]. lia.
  - by wp_step; eapply pci_cores_done.
  - wp_step. cbv zeta. eapply wp_mono; [by eapply pci_probe_core_wp|].
    replace (bar1 + 0x4000 * (core - 1) + 0x4000) with (bar1 + 0x4000 * core) by lia.
    apply andb_true_iff in E as [-> E]. replace (Z.max core num) with (Z.max (core + 1) num) by lia.
    intros ret s1 [(-> & Hb1 & p & n & Hd1 & Hwf1 & Hok1 & Hirq)|(Hr & Hb1 & Hd1)].
    + change (0 <? 0) with false. cbv iota. replace (bar1 + 0x4000 * core) with (bar1 + 0x4000 * (core + 1 - 1)) by lia.
      eapply (IH ((p, n) :: devs)); [done|done| | |intros r; reflexivity|lia|lia].
      * exists core. split; [lia|]. done.
      * eapply balanced_app; [exact Hb|exact Hb1|]. intros []; rewrite Hf; cbn; lia.
    + assert (Hb2 : balanced s0 s1 f) by (eapply balanced_app; [exact Hb|exact Hb1|]; intros r; apply Z.add_0_r).
      assert (Hok1 : cores_ok bar1 (core + 1) devs) by (eapply cores_ok_mono; [done|lia]).
      if_split Eneg.
      * eapply wp_bal_call_; [exact Hb2|]. intros ret' s2 Hd2 Hb3. eapply (pci_cores_done _ _ _ _ (core + 1) num true _ g); [by rewrite Hd2|done|done|exact Hb3|].
        intros r. rewrite <- Hf. by destruct r; cbn; rewrite Z.add_0_r.
      * replace (bar1 + 0x4000 * core) with (bar1 + 0x4000 * (core + 1 - 1)) by lia.
        eapply IH; [done|done|done|exact Hb2|done|lia|lia].
  - by wp_step; eapply pci_cores_done.
Qed.

(** The resources of a bound board with [k] devices. *)
Definition board_held (b : ctucan_pci_board_data) (k : Z) (r : resource) : Z :=
  match r with
  | R_pci | R_regions | R_bdata => 1
  | R_msi | R_master => bd_use_msi b
  | R_map a => (if bar0_base b =? a then 1 else 0) + (if bar1_base b =? a then 1 else 0)
  | R_candev | R_registered => k
  | _ => 0
  end.

(** What a failing probe leaves behind: it unmaps [cra] instead of [bar0]. *)
Definition unmap_error (bar0 cra : Z) (r : resource) : Z :=
  match r with
  | R_map a => (if bar0 =? a then 1 else 0) - (if cra =? a then 1 else 0)
  | _ => 0
  end.

Lemma err_disable_wp ret s0 h f s Q :
  at_host s0 h f s → (∀ s', at_host s0 h (λ r, f r - match r with R_pci => 1 | _ => 0 end) s' → Q ret s') →
  wp (pci_err_disable_device ret) s Q.
Proof.
  intros Ht HQ. unfold pci_err_disable_device. repeat at_step. apply HQ. destruct Ht as [Hb Hd].
  split; [|done]. eapply balanced_ext; [exact Hb|]. intros []; cbn; lia.
Qed.

Definition msi_held (msi_ok : Z) (r : resource) : Z :=
  match r with
  | R_pci | R_regions => 1
  | R_msi | R_master => msi_ok
  | _ => 0
  end.

Lemma err_regions_wp msi_ok ret s0 h f s Q :
  at_host s0 h f s → msi_ok = 0 ∨ msi_ok = 1 →
  (∀ s', at_host s0 h (λ r, f r - msi_held msi_ok r) s' → Q ret s') →
  wp (pci_err_release_regions msi_ok ret) s Q.
Proof.
  intros Ht Hm HQ. unfold pci_err_release_regions, when.
  destruct Hm as [-> | ->]; cbn [nz Z.eqb negb]; repeat at_step; (eapply err_disable_wp; [exact Ht|]);
    intros s2 [Hb Hd]; apply HQ; (split; [|done]); (eapply balanced_ext; [exact Hb|]); intros []; cbn; lia.
Qed.

Lemma err_bar0_wp msi_ok addr cra ret s0 h f s Q :
  at_host s0 h f s → msi_ok = 0 ∨ msi_ok = 1 →
  (∀ s', at_host s0 h (λ r, f r - msi_held msi_ok r -
     match r with R_map a => (if addr =? a then 1 else 0) + (if cra =? a then 1 else 0) | _ => 0 end) s' → Q ret s') →
  wp (pci_err_iounmap_bar0 msi_ok addr cra ret) s Q.
Proof.
  intros Ht Hm HQ. unfold pci_err_iounmap_bar0, pci_err_iounmap_bar1. repeat at_step.
  eapply err_regions_wp; [exact Ht|done|]. intros s2 [Hb Hd]. apply HQ. split; [|done].
  eapply balanced_ext; [exact Hb|]. intros []; cbn -[Z.eqb]; repeat case_match; lia.
Qed.

Lemma try_msi_wp use_msi s0 h f s Q :
  at_host s0 h f s →
  (∀ msi_ok s', msi_ok = 0 ∨ msi_ok = 1 →
    at_host s0 h (λ r, f r + match r with R_msi | R_master => msi_ok | _ => 0 end) s' → Q msi_ok s') →
  wp (pci_try_msi use_msi) s Q.
Proof.
  intros Ht HQ. unfold pci_try_msi.
  assert (Hno : ∀ s' g, at_host s0 h g s' → (∀ r, g r = f r) → Q 0 s').
  { intros s' g [Hb Hd] Hg. apply HQ; [by left|]. split; [|done]. eapply balanced_ext; [exact Hb|].
    intros r. rewrite Hg. destruct r; lia. }
  destruct use_msi; [|at_step; by eapply Hno]. repeat at_step. if_split Em.
  - apply negb_true_iff, nz_false in Em. subst. repeat at_step. apply HQ; [by right|]. destruct Ht as [Hb Hd].
    split; [|done]. eapply balanced_ext; [exact Hb|]. intros []; cbn; lia.
  - apply negb_false_iff, nz_true in Em. at_step. eapply Hno; [exact Ht|]. intros []; cbn -[Z.eqb]; repeat case_match; lia.
Qed.

Lemma identify_wp driver_data bar0 s0 h f s Q :
  at_host s0 h f s →
  (∀ cra num s', at_host s0 h f s' → 0 <= num <= 15 →
    cra = (if driver_data =? CTUCAN_WITHOUT_CTUCAN_ID then bar0 else bar0 + CTUCAN_BAR0_CRA_BASE) → Q (cra, num) s') →
  wp (pci_identify driver_data bar0) s Q.
Proof.
  intros Ht HQ. unfold pci_identify. destruct (driver_data =? _); repeat at_step.
  - apply HQ; [done|lia|done].
  - apply HQ; [| |done].
    + destruct Ht as [Hb Hd]. split; [|done]. eapply balanced_ext; [exact Hb|]. intros []; cbn; lia.
    + pose proof (Z.land_ones v 4 ltac:(lia)) as E. change (Z.ones 4) with 15 in E. rewrite E.
      pose proof (Z.mod_pos_bound v (2 ^ 4) ltac:(lia)). lia.
Qed.

(** The outcome of [ctucan_pci_probe] for an unbound board. *)
Definition pci_probed (driver_data : Z) (second : bool) s (ret : Z) (s' : st host W) : Prop :=
  (ret = 0 ∧ ∃ b devs num, drv s' = bound b devs (h_ndevs (drv s)) ∧ devs_wf devs (h_ndevs (drv s)) ∧
     0 <= num <= 15 ∧ cores_ok (bar1_base b) (if second then Z.max 1 num else 1) devs ∧
     (bd_use_msi b = 0 ∨ bd_use_msi b = 1) ∧
     balanced s s' (board_held b (Z.of_nat (length devs)))) ∨
  (ret ≠ 0 ∧ drv s' = drv s ∧ (balanced s s' (λ _, 0) ∨ ∃ bar0,
     balanced s s' (unmap_error bar0
       (if driver_data =? CTUCAN_WITHOUT_CTUCAN_ID then bar0 else bar0 + CTUCAN_BAR0_CRA_BASE)))).

Lemma pci_failed driver_data second ret s s' h f :
  at_host s h f s' → ret ≠ 0 → h = drv s → (∀ r, f r = 0) → pci_probed driver_data second s ret s'.
Proof.
  intros [Hb Hd] Hr -> Hf. right. split; [done|]. split; [done|]. left. by eapply balanced_ext.
Qed.

(** The end of the probe, from the loop on. *)
Lemma pci_tail_wp devs driver_data second b num cra f s s1 :
  let m := h_ndevs (drv s) in
  drv s1 = bound b devs m → devs_wf devs m → cores_ok (bar1_base b) 1 devs → 0 <= num <= 15 →
  bd_use_msi b = 0 ∨ bd_use_msi b = 1 →
  balanced s s1 f → (∀ r, f r = board_held b (Z.of_nat (length devs)) r) →
  wp (pci_cores (Z.to_nat num) second num 1 (bar1_base b);; pci_enable_a2p cra;; mret 0) s1
    (pci_probed driver_data second s).
Proof.
  intros m Hd Hwf Hok Hnum Hm Hb Hf. wp_step.
  replace (bar1_base b) with (bar1_base b + 0x4000 * (1 - 1)) at 1 by lia.
  eapply wp_mono; [eapply (pci_cores_wp _ _ _ b devs m 1 _ _ s f (board_held b 0)); [done|done|done|exact Hb| |lia|lia]|].
  { intros []; rewrite Hf; cbn -[Z.eqb]; lia. }
  intros _ s2 (devs' & Hd2 & Hwf2 & Hok2 & Hb2). unfold pci_enable_a2p.
  assert (Ht : at_host s (bound b devs' m) (board_held b (Z.of_nat (length devs'))) s2).
  { split; [|done]. eapply balanced_ext; [exact Hb2|]. intros []; cbn -[Z.eqb]; lia. }
  repeat at_step. destruct Ht as [Hb3 Hd3]. left. split; [done|]. exists b, devs', num. split_and!; try done; try lia.
  eapply balanced_ext; [exact Hb3|]. intros []; cbn -[Z.eqb]; lia.
Qed.

Lemma pci_probe_wp use_msi second driver_data s :
  h_drvdata (drv s) = DrvNull → h_board (drv s) = None →
  wp (ctucan_pci_probe use_msi second driver_data) s (pci_probed driver_data second s).
Proof.
  intros Hdd Hbd. unfold ctucan_pci_probe.
  assert (Ht : at_host s (drv s) (λ _, 0) s) by (split; [apply balanced_refl|done]).
  repeat at_step. if_split E1.
  { apply nz_true in E1. repeat at_step. eapply pci_failed; [exact Ht|done|done|].
    intros []; cbn -[Z.eqb]; repeat case_match; lia. }
  apply nz_false in E1. subst. repeat at_step. if_split E2.
  { apply nz_true in E2. repeat at_step. eapply err_disable_wp; [exact Ht|]. clear Ht. intros s2 Ht.
    eapply pci_failed; [exact Ht|done|done|]. intros []; cbn -[Z.eqb]; repeat case_match; lia. }
  apply nz_false in E2. subst. at_step. eapply try_msi_wp; [exact Ht|]. clear Ht. intros msi_ok s2 Hm Ht.
  do 5 at_step. eapply wp_at_call; [exact Ht|]. clear Ht. intros addr s3 Ht. if_split E3.
  { apply negb_true_iff, nz_false in E3. subst. at_step. at_step. eapply err_regions_wp; [exact Ht|done|].
    clear Ht. intros s5 Ht. eapply pci_failed; [exact Ht|done|done|]. intros []; cbn -[Z.eqb]; repeat case_match; lia. }
  apply negb_false_iff, nz_true in E3. at_step. eapply wp_at_call; [exact Ht|]. clear Ht. intros bar0 s4 Ht.
  assert (E3' : (addr =? 0) = false) by lia.
  if_split E4.
  { apply negb_true_iff, nz_false in E4. subst. at_step. at_step. unfold pci_err_iounmap_bar1. repeat at_step.
    eapply err_regions_wp; [exact Ht|done|]. clear Ht. intros s6 Ht.
    eapply pci_failed; [exact Ht|done|done|]. intros []; cbn -[Z.eqb]; rewrite ?E3'; repeat case_match; lia. }
  apply negb_false_iff, nz_true in E4. assert (E4' : (bar0 =? 0) = false) by lia.
  at_step. eapply identify_wp; [exact Ht|]. clear Ht. intros cra num s5 Ht Hnum Hcra. cbn [fst snd].
  at_step. eapply wp_at_call; [exact Ht|]. clear Ht. intros bdata s6 Ht. if_split E5.
  { apply negb_true_iff, nz_false in E5. subst bdata. eapply err_bar0_wp; [exact Ht|done|]. clear Ht. intros s7 [Hb Hd].
    right. split; [done|]. split; [done|]. right. exists bar0. rewrite <- Hcra. eapply balanced_ext; [exact Hb|].
    intros []; cbn -[Z.eqb]; rewrite ?E3', ?E4'; repeat case_match; lia. }
  apply negb_false_iff, nz_true in E5. assert (E5' : (bdata =? 0) = false) by lia.
  set (b := mkboard bar0 cra addr [] msi_ok). set (m := h_ndevs (drv s)).
  at_step. eapply wp_at_modify; [exact Ht|]. clear Ht. intros s7 Ht.
  at_step. eapply wp_at_modify; [exact Ht|]. clear Ht. intros s8 Ht. at_step.
  match type of Ht with at_host _ _ ?f _ => set (F := f) in Ht end. destruct Ht as [Hb8 Hd8].
  assert (HF : ∀ r, F r = board_held b 0 r).
  { intros []; unfold F, b; cbn -[Z.eqb]; rewrite ?E3', ?E4', ?E5'; repeat case_match; lia. }
  change (drv s8 = bound b [] m) in Hd8. clearbody F.
  eapply wp_mono; [apply (pci_probe_core_wp b [] m); [done|split; [apply NoDup_nil_2|intros p Hp; by apply not_elem_of_nil in Hp]]|].
  intros q s9 [(-> & Hb9 & p & n & Hd9 & Hwf & Hok & Hirq)|(Hr & Hb9 & Hd9)].
  - change (0 <? 0) with false. cbv iota. eapply (pci_tail_wp [(p, n)] _ _ b); [done|done| |exact Hnum|done| |].
    + exists 0. rewrite Z.mul_0_r, Z.add_0_r. split; [lia|]. done.
    + eapply balanced_app; [exact Hb8|exact Hb9|]. intros r. rewrite HF. reflexivity.
    + intros []; cbn; lia.
  - assert (Hb : balanced s s9 F) by (eapply balanced_app; [exact Hb8|exact Hb9|]; intros r; apply Z.add_0_r).
    if_split E6.
    + unfold pci_err_free_board. assert (Ht : at_host s (bound b [] m) F s9) by done. repeat at_step.
      eapply err_bar0_wp; [exact Ht|done|]. clear Ht. intros s10 [Hb10 Hd10].
      right. split; [done|]. split.
      { rewrite Hd10. unfold bound, m. cbn. rewrite <- Hdd, <- Hbd. by destruct (drv s). }
      right. exists bar0. rewrite <- Hcra. eapply balanced_ext; [exact Hb10|].
      intros []; cbn -[Z.eqb]; rewrite HF; unfold b; cbn -[Z.eqb]; repeat case_match; lia.
    + eapply (pci_tail_wp [] _ _ b); [done|split; [apply NoDup_nil_2|intros p Hp; by apply not_elem_of_nil in Hp]|done|exact Hnum|done|exact Hb|].
      intros r. rewrite HF. done.
Qed.

(** *** Removal *)

Lemma wp_get_bdata b devs m s Q :
  drv s = bound b devs m → Q (set_ndev_list devs.*1 b) s → wp ctucan_pci_get_bdata s Q.
Proof.
  intros Hd HQ. unfold ctucan_pci_get_bdata. wp_step. wp_step. rewrite Hd. cbn. wp_step. wp_step. by rewrite Hd.
Qed.

Lemma pci_remove_loop_wp devs b m s :
  drv s = bound b devs m → devs_wf devs m →
  wp (pci_remove_loop (length devs)) s (λ _ s',
    balanced s s' (λ r, - ndevs_held (Z.of_nat (length devs)) r) ∧ drv s' = bound b [] m).
Proof.
  revert s. induction devs as [|[p n] devs IH]; intros s Hd Hwf; cbn [pci_remove_loop length];
    wp_step; (eapply wp_get_bdata; [exact Hd|]); cbn [ndev_list_head set_ndev_list fmap list_fmap fst].
  { wp_step. split; [|done]. eapply balanced_ext; [apply balanced_refl|]. by intros []. }
  destruct (devs_wf_inv _ _ _ _ Hwf) as (Hwf' & Hp & Hnone).
  assert (Ht : tracked s p n (add_peer p (bound b devs m)) (λ _, 0) s) by (split; [apply balanced_refl|done]).
  repeat tr_step. apply wp_unbind, wp_bind_assoc. wp_step. eapply unlink_free_wp; [exact Ht|done|]. clear Ht.
  intros s1 Hb Hd1. rewrite bound_del in Hd1 by done.
  eapply wp_mono; [by apply IH|]. intros _ s2 [Hb2 Hd2]. split; [|done].
  eapply balanced_app; [exact Hb|exact Hb2|]. intros []; cbn; lia.
Qed.

Lemma pci_remove_wp devs b m s :
  drv s = bound b devs m → devs_wf devs m → bd_use_msi b = 0 ∨ bd_use_msi b = 1 →
  wp ctucan_pci_remove s (λ _ s',
    balanced s s' (λ r, - board_held b (Z.of_nat (length devs)) r) ∧ drv s' = mkhost DrvNull None m).
Proof.
  intros Hd Hwf Hm. unfold ctucan_pci_remove.
  assert (Ht : at_host s (bound b devs m) (λ _, 0) s) by (split; [apply balanced_refl|done]).
  do 2 at_step. wp_step. wp_step. rewrite (proj2 Ht). cbn [h_drvdata bound]. wp_step.
  eapply wp_get_bdata; [exact (proj2 Ht)|]. cbn [cra_base set_ndev_list ndev_list_head bar1_base bd_use_msi bar0_base].
  wp_step. assert (Hw : ∃ F, at_host s (bound b devs m) F s' ∧ ∀ r, F r = 0) by (eexists; split; [exact Ht|by intros []]).
  clear Ht. destruct Hw as (F & Ht & HF).
  eapply (wp_mono _ _ (λ _ s2, at_host s (bound b devs m) F s2)).
  { unfold when. destruct (nz (cra_base b)); at_step; done. }
  clear Ht. intros _ s2 Ht. wp_step. rewrite length_fmap.
  eapply wp_mono; [by apply (pci_remove_loop_wp devs b m); [exact (proj2 Ht)|]|]. intros _ s3 [Hb3 Hd3].
  destruct Ht as [Hb Hd2]. assert (Hb4 := balanced_app _ _ _ _ _ _ Hb Hb3 (λ r, eq_refl)).
  assert (Ht : at_host s (bound b [] m) _ s3) by (split; [exact Hb4|exact Hd3]). clear Hb4 Hb3 Hd3.
  unfold when. destruct Hm as [Em|Em]; rewrite Em; cbn [nz Z.eqb negb]; repeat at_step;
    destruct Ht as [Hb5 Hd5]; (split; [|by rewrite Hd5]); (eapply balanced_ext; [exact Hb5|]);
    intros []; cbn -[Z.eqb]; rewrite ?HF, ?Em; cbn -[Z.eqb]; repeat case_match; lia.
Qed.

(** C33: Binding a PCI board and unbinding it again, in every world.  A successful probe leaves
    a board whose list links exactly the devices of the cores found, each allocated, at its own place of
    the BAR and on the shared interrupt; a failing one leaves the state as it was and releases
    everything, except that after the mapping of BAR 0 it unmaps the address of the
    control registers, which is not the one it mapped when the board has an
    identifier.  Removal after a successful probe visits every device once and
    releases exactly what the probe took; no freed device or board is accessed. *)
Theorem ctucan_pci_lifecycle use_msi second driver_data s :
  h_drvdata (drv s) = DrvNull → h_board (drv s) = None →
  wp (ctucan_pci_probe use_msi second driver_data) s (pci_probed driver_data second s) ∧
  wp (ret ← ctucan_pci_probe use_msi second driver_data;
      if ret =? 0 then ctucan_pci_remove;; mret 0 else mret ret) s (λ ret s',
    drv s' = drv s ∧ (ret = 0 ∨ driver_data = CTUCAN_WITHOUT_CTUCAN_ID → balanced s s' (λ _, 0))).
Proof.
  intros Hdd Hbd. split; [by apply pci_probe_wp|]. wp_step. eapply wp_mono; [by apply pci_probe_wp|].
  intros ret s1 [(-> & b & devs & num & Hd & Hwf & _ & _ & Hm & Hb)|(Hr & Hd & Hb)].
  - change (0 =? 0) with true. cbv iota. wp_step. eapply wp_mono; [by eapply pci_remove_wp|].
    intros _ s2 [Hb2 Hd2]. wp_step. split.
    + rewrite Hd2, <- Hdd, <- Hbd. by destruct (drv s).
    + intros _. eapply balanced_app; [exact Hb|exact Hb2|]. intros r. lia.
  - destruct (Z.eqb_spec ret 0); [done|]. wp_step. split; [done|]. intros [?|Hid]; [done|].
    destruct Hb as [Hb|[bar0 Hb]]; [done|]. rewrite Hid, Z.eqb_refl in Hb. eapply balanced_ext; [exact Hb|].
    intros []; cbn -[Z.eqb]; lia.
Qed.

End PciProofs.

(** ** Concrete runs *)

(** A board without devices, in the world that answers with the given loads and calls. *)
Definition unbound_st (ls cs : list Z) : st host script :=
  mkst (mkhost DrvNull None ∅) (mkscript ls cs []) [].

(** A board with an identifier: two cores are found, each answers the signature check and the
    reset. *)
Definition two_cores : st host script :=
  unbound_st ([2] ++ replicate 4 0xCAFD ++ [0; 1])
    ([0; 0; 0; 0; 0; 0; 0; 0x50000; 0x40000; 0; 1] ++ [1; 0; 0; 0] ++ [0] ++ [1]).

Lemma ctucan_pci_lifecycle_witness :
  wp (ctucan_pci_probe true true CTUCAN_WITH_CTUCAN_ID) two_cores (λ ret s',
    ret = 0 ∧ ∃ b devs hi, drv s' = bound b devs ∅ ∧ length devs = 2%nat ∧ cores_ok 0x50000 hi devs) ∧
  wp (ret ← ctucan_pci_probe true true CTUCAN_WITH_CTUCAN_ID;
      if ret =? 0 then ctucan_pci_remove;; mret 0 else mret ret) two_cores (λ ret s',
    ret = 0 ∧ drv s' = drv two_cores ∧ balanced two_cores s' (λ _, 0)).
Proof.
  destruct (ctucan_pci_lifecycle true true CTUCAN_WITH_CTUCAN_ID two_cores eq_refl eq_refl) as [Hp Hr]. split.
  - eapply wp_mono; [apply wp_and; [exact Hp|]|].
    + instantiate (1 := λ ret s', ret = 0 ∧
        ((λ b, (length (ndev_list_head b), bar1_base b)) <$> h_board (drv s')) = Some (2%nat, 0x50000)).
      vm_compute. split; reflexivity.
    + clear Hp Hr. intros ret s' [Hout (Hret & Hb)]. split; [exact Hret|].
      destruct Hout as [(_ & b & devs & num & Hd & _ & Hn & Hok & _)|(Hne & _)]; [|destruct (Hne Hret)].
      exists b, devs, (Z.max 1 num). rewrite Hd in Hb. injection Hb as Hlen Hbar.
      cbn in Hlen, Hbar. rewrite length_fmap in Hlen. split; [exact Hd|]. split; [exact Hlen|].
      rewrite Hbar in Hok. exact Hok.
  - eapply wp_mono; [apply wp_and; [exact Hr|]|].
    + instantiate (1 := λ ret _, ret = 0). vm_compute. reflexivity.
    + clear Hp Hr. intros ret s' [[Hd Hb] Hret]. split; [exact Hret|]. split; [exact Hd|]. exact (Hb (or_introl Hret)).
Defined.

(** When the board data cannot be allocated, BAR 0 stays mapped and an address that was
    never mapped is unmapped. *)
Lemma pci_probe_unmaps_wrong :
  wp (ctucan_pci_probe true true CTUCAN_WITH_CTUCAN_ID)
    (unbound_st [2] [0; 0; 0; 0; 0; 0; 0; 0x50000; 0x40000; 0; 0]) (λ ret s',
    ret = - ENOMEM ∧ bal (R_map 0x40000) (trace s') = 1 ∧ bal (R_map 0x44000) (trace s') = -1).
Proof. vm_compute. repeat split. Qed.
