(* ===== verification/Endian.v ===== *)
(** * Big-endian registers

    A device whose registers are big-endian, used through the big-endian accessors,
    behaves as a little-endian one in the world with swapped words: the same results,
    the same calls, the same changes of the driver's state, and the same
    accesses with the bytes of each word swapped.  So what the other files
    show for little-endian accessors holds for both. *)

From Stdlib Require Import ZArith Lia.
From stdpp Require Import base numbers list strings.
From S2P Require Import Prelude LinuxDefs World Kregs Base BaseCfg BaseTx BaseRx BaseErr BaseIrq BaseDev.

#[local] Open Scope Z_scope.

(** ** Swapping *)

Lemma byte_field_u32 x k : 0 <= k <= 24 → Z.land (Z.shiftr (u32 x) k) 0xFF = Z.land (Z.shiftr x k) 0xFF.
Proof.
  intros Hk. apply Z.bits_inj'. intros i Hi. rewrite !testbit_byte_field, testbit_u32 by lia.
  destruct (Z.ltb_spec i 8); rewrite ?andb_false_r, ?andb_true_r; [|done].
  replace (i + k <? 32) with true by lia. by rewrite andb_true_r.
Qed.

Lemma swab32_u32_in x : swab32 (u32 x) = swab32 x.
Proof.
  unfold swab32. rewrite !byte_field_u32 by lia. f_equal.
  pose proof (byte_field_u32 x 0 ltac:(lia)) as E. by rewrite !Z.shiftr_0_r in E.
Qed.

Lemma is_byte_field x : is_byte (Z.land x 0xFF).
Proof. unfold is_byte. change 0xFF with (Z.ones 8). rewrite Z.land_ones by done. by apply Z.mod_pos_bound. Qed.

Lemma swab32_range x : is_u32 (swab32 x).
Proof. apply bytes_le32_u32; apply is_byte_field. Qed.

Lemma swab32_involutive x : is_u32 x → swab32 (swab32 x) = x.
Proof.
  intros Hx. unfold swab32 at 2.
  set (b3 := Z.land (Z.shiftr x 24) 0xFF). set (b2 := Z.land (Z.shiftr x 16) 0xFF).
  set (b1 := Z.land (Z.shiftr x 8) 0xFF). set (b0 := Z.land x 0xFF).
  pose proof (le32_bytes_of_bytes b3 b2 b1 b0 (is_byte_field _) (is_byte_field _) (is_byte_field _) (is_byte_field _)) as E.
  unfold le32_bytes in E. injection E as E0 E1 E2 E3. unfold swab32. rewrite E0, E1, E2, E3.
  by apply bytes_le32_of_word.
Qed.

(** ** The world with swapped words *)

Record swapped (W : Type) := swap { unswap : W }.
Arguments swap {W}.
Arguments unswap {W}.

#[export] Instance swapped_world W `{World W} : World (swapped W) := {
  w_load32 a w := let '(v, w') := w_load32 a (unswap w) in (swab32 v, swap w');
  w_store32 a v w := swap (w_store32 a (swab32 v) (unswap w));
  w_call c w := let '(r, w') := w_call c (unswap w) in (r, swap w');
  w_alloc k w := let '(o, w') := w_alloc k (unswap w) in (o, swap w');
}.

Definition ev_swab (e : event) : event :=
  match e with
  | EvLoad a v => EvLoad a (swab32 v)
  | EvStore a v => EvStore a (swab32 v)
  | _ => e
  end.

Section Endian.
Context {W : Type} `{World W}.

(** The big-endian state for a little-endian one. *)
Definition be_of (s : st net_device (swapped W)) : st net_device W :=
  mkst (with_acc acc_be (drv s)) (unswap (world s)) (ev_swab <$> trace s).

(** The run of [m1] on the big-endian device is that of [m2] on the little-endian one. *)
Definition same_be {A} (m1 : M net_device W A) (m2 : M net_device (swapped W) A) : Prop :=
  ∀ s, le_dev (drv s) → m1 (be_of s) = (fst (m2 s), be_of (snd (m2 s))) ∧ le_dev (drv (snd (m2 s))).

Lemma same_be_ret {A} (a : A) : same_be (mret a) (mret a).
Proof. done. Qed.

Lemma same_be_bind {A B} (m1 : M net_device W A) m2 (k1 : A → M net_device W B) k2 :
  same_be m1 m2 → (∀ a, same_be (k1 a) (k2 a)) → same_be (m1 ≫= k1) (m2 ≫= k2).
Proof.
  intros Hm Hk s Hs. destruct (Hm s Hs) as [E Hle]. unfold mbind, M_bind. rewrite E.
  destruct (m2 s) as [[a|u|] s1]; cbn [fst snd] in *; [by apply Hk|done|done].
Qed.

Lemma same_be_gets {A} (f : net_device → A) :
  (∀ n, f (with_acc acc_be n) = f n) → same_be (gets f) (gets f).
Proof. intros Hf s Hs. unfold gets. cbn. by rewrite Hf. Qed.

Lemma same_be_modify f :
  (∀ n, f (with_acc acc_be n) = with_acc acc_be (f n)) → (∀ n, le_dev n → le_dev (f n)) →
  same_be (modify f) (modify f).
Proof. intros Hf Hle s Hs. unfold modify, be_of. cbn. rewrite Hf. auto. Qed.

Lemma same_be_read reg : same_be (ctucan_read32 reg) (ctucan_read32 reg).
Proof.
  intros s Hs. pose proof Hs as [Hr _]. unfold ctucan_read32, gets, mbind, M_bind. cbn. rewrite Hr.
  unfold ctucan_read32_be, ctucan_read32_le, gets, ioread32be, ioread32, mbind, M_bind, mret, M_ret. cbn.
  destruct (w_load32 _ (unswap (world s))) as [v w']. cbn [fst snd drv]. split; [|done].
  unfold be_of. cbn [drv world trace unswap]. rewrite fmap_app. cbn [fmap list_fmap ev_swab].
  rewrite swab32_u32_in, (u32_small (swab32 v)) by apply swab32_range.
  rewrite <- (swab32_u32_in v), swab32_involutive by apply u32_range. done.
Qed.

Lemma same_be_write reg val : same_be (ctucan_write32 reg val) (ctucan_write32 reg val).
Proof.
  intros s Hs. pose proof Hs as [_ Hw]. unfold ctucan_write32, gets, mbind, M_bind. cbn. rewrite Hw.
  unfold ctucan_write32_be, ctucan_write32_le, gets, iowrite32be, iowrite32, mbind, M_bind. cbn.
  split; [|done]. unfold be_of. cbn [drv world trace unswap]. rewrite fmap_app. cbn [fmap list_fmap ev_swab].
  by rewrite !swab32_u32_in, !u32_small by apply swab32_range.
Qed.

Lemma same_be_call c : same_be (call c) (call c).
Proof.
  intros s Hs. unfold call. cbn. destruct (w_call c (unswap (world s))) as [v w']. cbn. split; [|done].
  unfold be_of. cbn. by rewrite fmap_app.
Qed.

Lemma same_be_call_ c : same_be (call_ c) (call_ c).
Proof. apply same_be_bind; [apply same_be_call|]. intros _. apply same_be_ret. Qed.

Lemma same_be_alloc k : same_be (alloc k) (alloc k).
Proof.
  intros s Hs. unfold alloc. cbn. destruct (w_alloc k (unswap (world s))) as [v w']. cbn. split; [|done].
  unfold be_of. cbn. by rewrite fmap_app.
Qed.

Lemma same_be_undefined {A} u : same_be (undefined (A:=A) u) (undefined u).
Proof. done. Qed.

Lemma same_be_no_fuel {A} : same_be (no_fuel (A:=A)) no_fuel.
Proof. done. Qed.

Lemma same_be_if_skb skb f f' :
  (∀ cf, same_be (f cf) (f' cf)) → same_be (if_skb skb f) (if_skb skb f').
Proof.
  intros Hf. destruct skb as [cf|]; [|apply same_be_ret]. apply same_be_bind; [apply Hf|]. intros ?. apply same_be_ret.
Qed.

Lemma same_be_deref_cf skb f f' :
  (∀ cf, same_be (f cf) (f' cf)) → same_be (deref_cf skb f) (deref_cf skb f').
Proof.
  intros Hf. destruct skb as [cf|]; [|apply same_be_undefined].
  apply same_be_bind; [apply Hf|]. intros ?. apply same_be_ret.
Qed.

End Endian.

Create HintDb be.

(** Walking through a function. *)
Ltac be_step :=
  lazymatch goal with
  | |- same_be (mbind _ _) (mbind _ _) => apply same_be_bind; [|intros ?]
  | |- same_be (mret _) _ => apply same_be_ret
  | |- same_be (gets _) _ => apply same_be_gets; reflexivity
  | |- same_be (modify _) _ => apply same_be_modify; [reflexivity|intros ? ?; assumption]
  | |- same_be (ctucan_read32 _) _ => apply same_be_read
  | |- same_be (ctucan_write32 _ _) _ => apply same_be_write
  | |- same_be (ctucan_write_txt_buf _ _ _) _ => apply same_be_write
  | |- same_be (call_ _) _ => apply same_be_call_
  | |- same_be (call _) _ => apply same_be_call
  | |- same_be (alloc _) _ => apply same_be_alloc
  | |- same_be (undefined _) _ => apply same_be_undefined
  | |- same_be no_fuel _ => apply same_be_no_fuel
  | |- same_be (some_or _ ?o) _ => unfold some_or
  | |- same_be (umod _ _) _ => unfold umod
  | |- same_be (shr32 _ _) _ => unfold shr32
  | |- same_be (bit32 _) _ => unfold bit32
  | |- same_be (when _ _) _ => unfold when
  | |- same_be (match ?x with _ => _ end) _ => destruct x
  | |- same_be (if_skb _ _) _ => apply same_be_if_skb; intros ?
  | |- same_be (deref_cf _ _) _ => apply same_be_deref_cf; intros ?
  | |- same_be (let _ := _ in _) _ => cbv zeta
  | _ => solve [eauto 2 with be]
  end; cbv beta.

Ltac be_run := repeat be_step.

(** ** The functions of the driver *)

Section Functions.
Context {W : Type} `{World W}.
Abbreviation same_be := (same_be (W:=W)).

Lemma be_reset_loop fuel i : same_be (ctucan_reset_loop fuel i) (ctucan_reset_loop fuel i).
Proof. revert i. induction fuel as [|fuel IH]; intros i; cbn [ctucan_reset_loop]; be_run. Qed.
#[local] Hint Resolve be_reset_loop : be.

Lemma be_ctucan_reset : same_be ctucan_reset ctucan_reset.
Proof. unfold ctucan_reset. be_run. Qed.
#[local] Hint Resolve be_ctucan_reset : be.

Lemma be_CTU_CAN_FD_ENABLED : same_be CTU_CAN_FD_ENABLED CTU_CAN_FD_ENABLED.
Proof. unfold CTU_CAN_FD_ENABLED. be_run. Qed.
#[local] Hint Resolve be_CTU_CAN_FD_ENABLED : be.

Lemma be_CTU_CAN_FD_TXTNF : same_be CTU_CAN_FD_TXTNF CTU_CAN_FD_TXTNF.
Proof. unfold CTU_CAN_FD_TXTNF. be_run. Qed.
#[local] Hint Resolve be_CTU_CAN_FD_TXTNF : be.

Lemma be_ctucan_set_btr bt nominal : same_be (ctucan_set_btr bt nominal) (ctucan_set_btr bt nominal).
Proof. unfold ctucan_set_btr. be_run. Qed.
#[local] Hint Resolve be_ctucan_set_btr : be.

Lemma be_ctucan_set_bittiming : same_be ctucan_set_bittiming ctucan_set_bittiming.
Proof. unfold ctucan_set_bittiming. be_run. Qed.
#[local] Hint Resolve be_ctucan_set_bittiming : be.

Lemma be_ctucan_set_data_bittiming : same_be ctucan_set_data_bittiming ctucan_set_data_bittiming.
Proof. unfold ctucan_set_data_bittiming. be_run. Qed.
#[local] Hint Resolve be_ctucan_set_data_bittiming : be.

Lemma be_ctucan_set_secondary_sample_point : same_be ctucan_set_secondary_sample_point ctucan_set_secondary_sample_point.
Proof. unfold ctucan_set_secondary_sample_point. be_run. Qed.
#[local] Hint Resolve be_ctucan_set_secondary_sample_point : be.

Lemma be_ctucan_set_mode mode : same_be (ctucan_set_mode mode) (ctucan_set_mode mode).
Proof. unfold ctucan_set_mode. be_run. Qed.
#[local] Hint Resolve be_ctucan_set_mode : be.

Lemma be_ctucan_chip_start : same_be ctucan_chip_start ctucan_chip_start.
Proof. unfold ctucan_chip_start. be_run. Qed.
#[local] Hint Resolve be_ctucan_chip_start : be.

Lemma be_ctucan_do_set_mode mode : same_be (ctucan_do_set_mode mode) (ctucan_do_set_mode mode).
Proof. unfold ctucan_do_set_mode. be_run. Qed.
#[local] Hint Resolve be_ctucan_do_set_mode : be.

Lemma be_ctucan_get_tx_status buf : same_be (ctucan_get_tx_status buf) (ctucan_get_tx_status buf).
Proof. unfold ctucan_get_tx_status. be_run. Qed.
#[local] Hint Resolve be_ctucan_get_tx_status : be.

Lemma be_ctucan_is_txt_buf_writable buf : same_be (ctucan_is_txt_buf_writable buf) (ctucan_is_txt_buf_writable buf).
Proof. unfold ctucan_is_txt_buf_writable. be_run. Qed.
#[local] Hint Resolve be_ctucan_is_txt_buf_writable : be.

Lemma be_insert_data fuel cf buf_base i : same_be (insert_data fuel cf buf_base i) (insert_data fuel cf buf_base i).
Proof. revert cf buf_base i. induction fuel as [|fuel IH]; intros cf buf_base i; cbn [insert_data]; be_run. Qed.
#[local] Hint Resolve be_insert_data : be.

Lemma be_ctucan_insert_frame cf buf isfdf : same_be (ctucan_insert_frame cf buf isfdf) (ctucan_insert_frame cf buf isfdf).
Proof. unfold ctucan_insert_frame. be_run. Qed.
#[local] Hint Resolve be_ctucan_insert_frame : be.

Lemma be_ctucan_give_txtb_cmd cmd buf : same_be (ctucan_give_txtb_cmd cmd buf) (ctucan_give_txtb_cmd cmd buf).
Proof. unfold ctucan_give_txtb_cmd. be_run. Qed.
#[local] Hint Resolve be_ctucan_give_txtb_cmd : be.

Lemma be_ctucan_start_xmit skb : same_be (ctucan_start_xmit skb) (ctucan_start_xmit skb).
Proof. unfold ctucan_start_xmit. be_run. Qed.
#[local] Hint Resolve be_ctucan_start_xmit : be.

Lemma be_ctucan_rotate_txb_prio : same_be ctucan_rotate_txb_prio ctucan_rotate_txb_prio.
Proof. unfold ctucan_rotate_txb_prio. be_run. Qed.
#[local] Hint Resolve be_ctucan_rotate_txb_prio : be.

Lemma be_tx_switch id status : same_be (tx_switch id status) (tx_switch id status).
Proof. unfold tx_switch. be_run. Qed.
#[local] Hint Resolve be_tx_switch : be.

Lemma be_tx_release id : same_be (tx_release id) (tx_release id).
Proof. unfold tx_release. be_run. Qed.
#[local] Hint Resolve be_tx_release : be.

Lemma be_tx_while fuel first some : same_be (tx_while fuel first some) (tx_while fuel first some).
Proof. revert first some. induction fuel as [|fuel IH]; intros first some; cbn [tx_while]; be_run. Qed.
#[local] Hint Resolve be_tx_while : be.

Lemma be_tx_do_while fuel first : same_be (tx_do_while fuel first) (tx_do_while fuel first).
Proof. revert first. induction fuel as [|fuel IH]; intros first; cbn [tx_do_while]; be_run. Qed.
#[local] Hint Resolve be_tx_do_while : be.

Lemma be_ctucan_tx_interrupt : same_be ctucan_tx_interrupt ctucan_tx_interrupt.
Proof. unfold ctucan_tx_interrupt. be_run. Qed.
#[local] Hint Resolve be_ctucan_tx_interrupt : be.

Lemma be_rx_data_loop fuel cf len i : same_be (rx_data_loop fuel cf len i) (rx_data_loop fuel cf len i).
Proof. revert cf len i. induction fuel as [|fuel IH]; intros cf len i; cbn [rx_data_loop]; be_run. Qed.
#[local] Hint Resolve be_rx_data_loop : be.

Lemma be_rx_skip_loop fuel wc4 i : same_be (rx_skip_loop fuel wc4 i) (rx_skip_loop fuel wc4 i).
Proof. revert wc4 i. induction fuel as [|fuel IH]; intros wc4 i; cbn [rx_skip_loop]; be_run. Qed.
#[local] Hint Resolve be_rx_skip_loop : be.

Lemma be_ctucan_read_rx_frame cf ffw : same_be (ctucan_read_rx_frame cf ffw) (ctucan_read_rx_frame cf ffw).
Proof. unfold ctucan_read_rx_frame. be_run. Qed.
#[local] Hint Resolve be_ctucan_read_rx_frame : be.

Lemma be_ctucan_rx : same_be ctucan_rx ctucan_rx.
Proof. unfold ctucan_rx. be_run. Qed.
#[local] Hint Resolve be_ctucan_rx : be.

Lemma be_or_data i v cf : same_be (or_data i v cf) (or_data i v cf).
Proof. unfold or_data. be_run. Qed.
#[local] Hint Resolve be_or_data : be.

Lemma be_read_framecnt : same_be read_framecnt read_framecnt.
Proof. unfold read_framecnt. be_run. Qed.
#[local] Hint Resolve be_read_framecnt : be.

Lemma be_rx_poll_loop fuel quota framecnt work_done res : same_be (rx_poll_loop fuel quota framecnt work_done res) (rx_poll_loop fuel quota framecnt work_done res).
Proof. revert quota framecnt work_done res. induction fuel as [|fuel IH]; intros quota framecnt work_done res; cbn [rx_poll_loop]; be_run. Qed.
#[local] Hint Resolve be_rx_poll_loop : be.

Lemma be_rx_overflow : same_be rx_overflow rx_overflow.
Proof. unfold rx_overflow. be_run. Qed.
#[local] Hint Resolve be_rx_overflow : be.

Lemma be_ctucan_rx_poll quota : same_be (ctucan_rx_poll quota) (ctucan_rx_poll quota).
Proof. unfold ctucan_rx_poll. be_run. Qed.
#[local] Hint Resolve be_ctucan_rx_poll : be.

Lemma be_ctucan_read_fault_state : same_be ctucan_read_fault_state ctucan_read_fault_state.
Proof. unfold ctucan_read_fault_state. be_run. Qed.
#[local] Hint Resolve be_ctucan_read_fault_state : be.

Lemma be_ctucan_get_rec_tec : same_be ctucan_get_rec_tec ctucan_get_rec_tec.
Proof. unfold ctucan_get_rec_tec. be_run. Qed.
#[local] Hint Resolve be_ctucan_get_rec_tec : be.

Lemma be_set_byte i v cf : same_be (set_byte i v cf) (set_byte i v cf).
Proof. unfold set_byte. be_run. Qed.
#[local] Hint Resolve be_set_byte : be.

Lemma be_err_switch state bec skb : same_be (err_switch state bec skb) (err_switch state bec skb).
Proof. unfold err_switch. be_run. Qed.
#[local] Hint Resolve be_err_switch : be.

Lemma be_ctucan_err_interrupt isr : same_be (ctucan_err_interrupt isr) (ctucan_err_interrupt isr).
Proof. unfold ctucan_err_interrupt. be_run. Qed.
#[local] Hint Resolve be_ctucan_err_interrupt : be.

Lemma be_irq_body isr : same_be (irq_body isr) (irq_body isr).
Proof. unfold irq_body. be_run. Qed.
#[local] Hint Resolve be_irq_body : be.

Lemma be_irq_loop fuel irq_loops isr : same_be (irq_loop fuel irq_loops isr) (irq_loop fuel irq_loops isr).
Proof. revert irq_loops isr. induction fuel as [|fuel IH]; intros irq_loops isr; cbn [irq_loop]; be_run. Qed.
#[local] Hint Resolve be_irq_loop : be.

Lemma be_irq_dump fuel i : same_be (irq_dump fuel i) (irq_dump fuel i).
Proof. revert i. induction fuel as [|fuel IH]; intros i; cbn [irq_dump]; be_run. Qed.
#[local] Hint Resolve be_irq_dump : be.

Lemma be_ctucan_interrupt : same_be ctucan_interrupt ctucan_interrupt.
Proof. unfold ctucan_interrupt. be_run. Qed.
#[local] Hint Resolve be_ctucan_interrupt : be.

Lemma be_ctucan_chip_stop : same_be ctucan_chip_stop ctucan_chip_stop.
Proof. unfold ctucan_chip_stop. be_run. Qed.
#[local] Hint Resolve be_ctucan_chip_stop : be.

Lemma be_ctucan_open : same_be ctucan_open ctucan_open.
Proof. unfold ctucan_open, open_err_chip_start, open_err_irq, open_err_reset. be_run. Qed.
#[local] Hint Resolve be_ctucan_open : be.

Lemma be_ctucan_close : same_be ctucan_close ctucan_close.
Proof. unfold ctucan_close. be_run. Qed.
#[local] Hint Resolve be_ctucan_close : be.

Lemma be_ctucan_get_berr_counter : same_be ctucan_get_berr_counter ctucan_get_berr_counter.
Proof. unfold ctucan_get_berr_counter. be_run. Qed.
#[local] Hint Resolve be_ctucan_get_berr_counter : be.

(** What the kernel calls of the driver. *)
Inductive entry :=
  | E_open
  | E_close
  | E_get_berr_counter
  | E_set_bittiming
  | E_set_data_bittiming
  | E_set_mode (mode : can_mode)
  | E_start_xmit (skb : sk_buff)
  | E_interrupt
  | E_rx_poll (quota : Z).

Inductive entry_result :=
  | Ret_int (ret : Z)
  | Ret_xmit (ret : netdev_tx)
  | Ret_irq (ret : irqreturn)
  | Ret_berr (ret : Z * option can_berr_counter).

Definition run_entry {V} `{World V} (e : entry) : M net_device V entry_result :=
  match e with
  | E_open => r ← ctucan_open; mret (Ret_int r)
  | E_close => r ← ctucan_close; mret (Ret_int r)
  | E_get_berr_counter => r ← ctucan_get_berr_counter; mret (Ret_berr r)
  | E_set_bittiming => r ← ctucan_set_bittiming; mret (Ret_int r)
  | E_set_data_bittiming => r ← ctucan_set_data_bittiming; mret (Ret_int r)
  | E_set_mode mode => r ← ctucan_do_set_mode mode; mret (Ret_int r)
  | E_start_xmit skb => r ← ctucan_start_xmit skb; mret (Ret_xmit r)
  | E_interrupt => r ← ctucan_interrupt; mret (Ret_irq r)
  | E_rx_poll quota => r ← ctucan_rx_poll quota; mret (Ret_int r)
  end.

Fixpoint run_entries {V} `{World V} (es : list entry) : M net_device V (list entry_result) :=
  match es with
  | [] => mret []
  | e :: es' => r ← run_entry e; rs ← run_entries es'; mret (r :: rs)
  end.

Lemma be_run_entry e : same_be (run_entry e) (run_entry e).
Proof. destruct e; unfold run_entry; be_run. Qed.
#[local] Hint Resolve be_run_entry : be.

(** C34: Every sequence of calls of the driver on a big-endian core, through the big-endian
    accessors, has the results, the calls of the kernel and the effect on the driver's
    state of the same sequence on a little-endian core in the world with
    swapped words, undefined behaviour and exhausted fuel included, and
    its trace is the same up to the byte order of each word. *)
Theorem big_endian_equiv es : same_be (run_entries es) (run_entries es).
Proof. induction es as [|e es IH]; cbn [run_entries]; be_run. Qed.

(** So a specification of a function for a little-endian device holds for a big-endian one. *)
Lemma be_wp {A} (m1 : M net_device W A) (m2 : M net_device (swapped W) A) s Q :
  same_be m1 m2 → le_dev (drv s) → wp m2 s Q →
  wp m1 (be_of s) (λ a s', ∃ s2, s' = be_of s2 ∧ Q a s2).
Proof.
  intros Hm Hs HQ. destruct (Hm s Hs) as [E _]. unfold wp in *. rewrite E.
  destruct (m2 s) as [[a|u|] s2]; cbn [fst snd]; [by exists s2|done|done].
Qed.

End Functions.
