(* ===== verification/Session.v ===== *)
(** * The kernel driver as a whole

    Every sequence of calls that the kernel may make of one device: the interface is opened and
    closed, frames are sent, interrupts and polls come while it is open, the bit timing is set while
    it is closed, in any order and number and with any results.  An invariant of the
    device, the RX FIFO and the resources is kept by all of them.

    [keeps I m]: every run of [m] relates its first to its last state by [I], however it ends. *)

From Stdlib Require Import ZArith Lia.
From stdpp Require Import base numbers list strings sets.
From S2P Require Import Prelude LinuxDefs World Kregs Base Sim BaseCfg BaseTx RxFifo BaseRx BaseErr BaseIrq Resources BaseDev Endian.

#[local] Open Scope Z_scope.

(** ** Properties of all runs *)

Section Keeps.
Context {D W : Type} `{World W} (I : st D W → st D W → Prop) `{!PreOrder I}.

Definition keeps {A} (m : M D W A) : Prop := ∀ s, I s (snd (m s)).

Lemma keeps_ret {A} (a : A) : keeps (mret a).
Proof. intros s. reflexivity. Qed.

Lemma keeps_bind {A B} (m : M D W A) (k : A → M D W B) :
  keeps m → (∀ a, keeps (k a)) → keeps (m ≫= k).
Proof.
  intros Hm Hk s. specialize (Hm s). unfold mbind, M_bind. destruct (m s) as [[a|u|] s1]; [|done..].
  etransitivity; [exact Hm|apply Hk].
Qed.

Lemma keeps_gets {A} (f : D → A) : keeps (gets f).
Proof. intros s. reflexivity. Qed.

Lemma keeps_undefined {A} u : keeps (undefined (A:=A) u).
Proof. intros s. reflexivity. Qed.

Lemma keeps_no_fuel {A} : keeps (no_fuel (A:=A)).
Proof. intros s. reflexivity. Qed.

Lemma keeps_wp {A} (m : M D W A) s Q : keeps m → wp m s Q → wp m s (λ a s', Q a s' ∧ I s s').
Proof. intros Hm. specialize (Hm s). unfold wp. by destruct (m s) as [[a|u|] s1]. Qed.

Lemma keeps_outcome {A} (m : M D W A) s Q N :
  keeps m → outcome m s Q N → outcome m s (λ a s', Q a s' ∧ I s s') N.
Proof. intros Hm. specialize (Hm s). unfold outcome. by destruct (m s) as [[a|[]|] s1]. Qed.

End Keeps.

(** ** The core

    In addition to the interface of the RX FIFO: a reset empties it, any other write of MODE
    keeps or empties it. *)
Class RxCore (W : Type) `{World W} (base : Z) (fifo : W → list Z) `{!RxDevice W base fifo} := {
  rxc_reset w : fifo (w_store32 (base + CTUCANFD_MODE) REG_MODE_RST w) = [];
  rxc_mode v w :
    grows (fifo w) (fifo (w_store32 (base + CTUCANFD_MODE) v w)) ∨
    grows [] (fifo (w_store32 (base + CTUCANFD_MODE) v w));
}.

(** What a computation may do to the FIFO: leave it to the core, write MODE as well, or anything. *)
Inductive fifo_mode := fm_grow | fm_flush | fm_any.

Definition fifo_rel (m : fifo_mode) (l l' : list Z) : Prop :=
  match m with
  | fm_grow => grows l l'
  | fm_flush => grows l l' ∨ grows [] l'
  | fm_any => True
  end.

#[export] Instance fifo_rel_preorder m : PreOrder (fifo_rel m).
Proof.
  split.
  - intros l. destruct m; [apply grows_refl|left; apply grows_refl|done].
  - intros l1 l2 l3. destruct m; simpl; [apply grows_trans| |done].
    intros [H1|H1] [H2|H2]; eauto using grows_trans.
Qed.

Lemma grows_fifo_rel m l l' : grows l l' → fifo_rel m l l'.
Proof. destruct m; simpl; auto. Qed.

Section Calm.
Context {W : Type} `{World W} (base : Z) (fifo : W → list Z) `{!RxDevice W base fifo} `{!RxCore W base fifo}.
Implicit Types (s : st net_device W).

Definition dev_ok (n : net_device) : Prop := irq_ok n ∧ mem_base (priv n) = base.

(** No received frame is delivered. *)
Definition silent s s' : Prop := ∃ tr, trace s' = trace s ++ tr ∧ delivered tr = [].

#[export] Instance silent_preorder : PreOrder silent.
Proof.
  split.
  - intros s. exists []. by rewrite app_nil_r.
  - intros s1 s2 s3 (t1 & H1 & D1) (t2 & H2 & D2). exists (t1 ++ t2).
    by rewrite H2, H1, app_assoc, delivered_app, D1, D2.
Qed.

(** The device stays well-formed, the kept first word stays and nothing is delivered (unless anything may
    happen to the reception), the FIFO changes as [m] says and, if [b], no resource is taken or released. *)
Definition calm (m : fifo_mode) (b : bool) s s' : Prop :=
  dev_ok (drv s) →
  dev_ok (drv s') ∧ (m = fm_any ∨ (kept_word (drv s') = kept_word (drv s) ∧ silent s s')) ∧
  fifo_rel m (fifo (world s)) (fifo (world s')) ∧ (b = true → balanced s s' (λ _, 0)).

#[export] Instance calm_preorder m b : PreOrder (calm m b).
Proof.
  split.
  - intros s Hs. split_and!; [done|right; by split|reflexivity|]. intros _. apply balanced_refl.
  - intros s1 s2 s3 H12 H23 H1. destruct (H12 H1) as (H2 & K2 & F2 & B2). destruct (H23 H2) as (H3 & K3 & F3 & B3).
    split_and!; [done|destruct K2 as [|[]], K3 as [|[]]; [by left..|right; split; [congruence|by etransitivity]]|by etransitivity|].
    intros Hb. eapply balanced_app; [by apply B2|by apply B3|]. done.
Qed.

(** A computation without undefined behaviour. *)
Lemma calm_wp {A} m b (c : M net_device W A) :
  (∀ s, dev_ok (drv s) → wp c s (λ _ s',
    dev_ok (drv s') ∧ (m = fm_any ∨ (kept_word (drv s') = kept_word (drv s) ∧ silent s s')) ∧
    fifo_rel m (fifo (world s)) (fifo (world s')) ∧ (b = true → balanced s s' (λ _, 0)))) →
  keeps (calm m b) c.
Proof. intros Hc s Hs. specialize (Hc s Hs). unfold wp in Hc. by destruct (c s) as [[a|u|] s1]. Qed.

Lemma balanced_one s n w' e : (∀ r, ev_bal r e = 0) → balanced s (mkst n w' (trace s ++ [e])) (λ _, 0).
Proof. intros He. exists [e]. split; [done|]. intros r. simpl. by rewrite He. Qed.

Lemma calm_call m b c :
  m = fm_any ∨ (∀ ret, delivered [EvCall c ret] = []) →
  b = false ∨ (∀ r ret, ev_bal r (EvCall c ret) = 0) → keeps (calm m b) (call c).
Proof.
  intros Hd Hc. apply calm_wp. intros s Hs. apply wp_call. intros r w' Hw. cbn [drv world].
  split_and!; [done|destruct Hd; [by left|right; split; [done|by eexists]]|by eapply grows_fifo_rel, rxd_call|]. intros ->. destruct Hc as [|Hc]; [done|].
  by apply balanced_one.
Qed.

Lemma calm_call_ m b c :
  m = fm_any ∨ (∀ ret, delivered [EvCall c ret] = []) →
  b = false ∨ (∀ r ret, ev_bal r (EvCall c ret) = 0) → keeps (calm m b) (call_ c).
Proof. intros Hd Hc. unfold call_. apply keeps_bind; [apply _|by apply calm_call|]. intros _. apply keeps_ret, _. Qed.

Lemma calm_alloc m b k : keeps (calm m b) (alloc k).
Proof.
  apply calm_wp. intros s Hs. apply wp_alloc. intros o w' Hw. cbn [drv world].
  split_and!; [done|right; split; [done|by eexists]|by eapply grows_fifo_rel, rxd_alloc|]. intros _. by apply balanced_one.
Qed.

Lemma calm_modify m b f :
  (∀ n, dev_ok n → dev_ok (f n)) → m = fm_any ∨ (∀ n, kept_word (f n) = kept_word n) → keeps (calm m b) (modify f).
Proof.
  intros Hf Hk. apply calm_wp. intros s Hs. apply wp_modify. cbn [drv world].
  split_and!; [by apply Hf|destruct Hk; [by left|right; split; [done|exists []; by rewrite app_nil_r]]|reflexivity|]. intros _. by exists []; rewrite app_nil_r.
Qed.

Lemma calm_read m b reg : m = fm_any ∨ reg ≠ CTUCANFD_RX_DATA → keeps (calm m b) (ctucan_read32 reg).
Proof.
  intros Hr. apply calm_wp. intros s Hs. pose proof Hs as [[Hle _] Hb]. apply wp_read32; [done|]. intros v w' Hv. cbn [drv world].
  unfold reg_at in Hv. rewrite Hb in Hv. split_and!; [done|right; split; [done|by eexists]| |intros _; by apply balanced_one].
  destruct Hr as [-> | Hr]; [done|]. eapply grows_fifo_rel, (rxd_load (base + reg)); [lia|exact Hv].
Qed.

Lemma calm_write m b reg val :
  m = fm_any ∨ (m = fm_flush ∧ reg = CTUCANFD_MODE) ∨
    (reg ≠ CTUCANFD_MODE ∧ (reg ≠ CTUCANFD_COMMAND ∨ val = REG_COMMAND_CDO)) →
  keeps (calm m b) (ctucan_write32 reg val).
Proof.
  intros Hr. apply calm_wp. intros s Hs. pose proof Hs as [[Hle _] Hb]. apply wp_write32; [done|]. cbn [drv world].
  unfold reg_at. rewrite Hb. split_and!; [done|right; split; [done|by eexists]| |intros _; by apply balanced_one].
  destruct Hr as [-> | [[-> ->]|[Hm Hc]]]; [done|apply rxc_mode|].
  apply grows_fifo_rel, rxd_store; [lia|]. destruct Hc as [Hc| ->]; [left; lia|by right].
Qed.

End Calm.

Create HintDb calm.

(** An assignment keeps the device well-formed. *)
Ltac calm_fields :=
  intros ? [[[? ?] [? ? ? ?]] ?]; (split; [split; [split|constructor]|]); cbn; first [assumption|apply u32_range|done].

(** Walking through a function. *)
Ltac calm_step :=
  lazymatch goal with
  | |- keeps _ (mbind _ _) => apply keeps_bind; [apply _| |intros ?]
  | |- keeps _ (mret _) => apply keeps_ret, _
  | |- keeps _ (gets _) => apply keeps_gets, _
  | |- keeps _ (undefined _) => apply keeps_undefined, _
  | |- keeps _ no_fuel => apply keeps_no_fuel, _
  | |- keeps _ (modify _) => apply calm_modify; [calm_fields|first [by left|right; reflexivity]]
  | |- keeps _ (ctucan_read32 _) => apply calm_read; [apply _|first [by left|by right]]
  | |- keeps _ (ctucan_write32 _ _) =>
      refine (calm_write _ _ _ _ _ _ _); first [by left|right; left; done|right; right; split; [done|by (left + right)]]
  | |- keeps _ (call_ _) => apply calm_call_; [apply _|by (left + right)|first [by left|right; by intros []]]
  | |- keeps _ (call _) => apply calm_call; [apply _|by (left + right)|first [by left|right; by intros []]]
  | |- keeps _ (alloc _) => apply calm_alloc, _
  | |- keeps _ (some_or _ _) => unfold some_or
  | |- keeps _ (umod _ _) => unfold umod
  | |- keeps _ (shr32 _ _) => unfold shr32
  | |- keeps _ (bit32 _) => unfold bit32
  | |- keeps _ (when _ _) => unfold when
  | |- keeps _ (if_skb _ _) => unfold if_skb
  | |- keeps _ (deref_cf _ _) => unfold deref_cf
  | |- keeps _ (match ?x with _ => _ end) => destruct x
  | |- keeps _ (let _ := _ in _) => cbv zeta
  | _ => solve [eauto 2 with calm]
  end; cbv beta.

Ltac calm_run := repeat calm_step.

(** ** The functions of the driver *)

Section Functions.
Context {W : Type} `{World W} (base : Z) (fifo : W → list Z) `{!RxDevice W base fifo} `{!RxCore W base fifo}.
Abbreviation calm m b := (keeps (W:=W) (calm base fifo m b)).

Lemma calm_TXTNF m b : calm m b CTU_CAN_FD_TXTNF.
Proof. unfold CTU_CAN_FD_TXTNF. calm_run. Qed.
#[local] Hint Resolve calm_TXTNF : calm.

Lemma calm_ENABLED m b : calm m b CTU_CAN_FD_ENABLED.
Proof. unfold CTU_CAN_FD_ENABLED. calm_run. Qed.
#[local] Hint Resolve calm_ENABLED : calm.

Lemma calm_set_btr m b bt nominal : calm m b (ctucan_set_btr bt nominal).
Proof. unfold ctucan_set_btr. calm_run. Qed.
#[local] Hint Resolve calm_set_btr : calm.

Lemma calm_set_bittiming m b : calm m b ctucan_set_bittiming.
Proof. unfold ctucan_set_bittiming. calm_run. Qed.
#[local] Hint Resolve calm_set_bittiming : calm.

Lemma calm_set_data_bittiming m b : calm m b ctucan_set_data_bittiming.
Proof. unfold ctucan_set_data_bittiming. calm_run. Qed.
#[local] Hint Resolve calm_set_data_bittiming : calm.

Lemma calm_set_ssp m b : calm m b ctucan_set_secondary_sample_point.
Proof. unfold ctucan_set_secondary_sample_point. calm_run. Qed.
#[local] Hint Resolve calm_set_ssp : calm.

Lemma calm_set_mode b mode : calm fm_flush b (ctucan_set_mode mode).
Proof. unfold ctucan_set_mode. calm_run. Qed.
#[local] Hint Resolve calm_set_mode : calm.

Lemma calm_chip_start b : calm fm_flush b ctucan_chip_start.
Proof. unfold ctucan_chip_start. calm_run. Qed.
#[local] Hint Resolve calm_chip_start : calm.

Lemma calm_chip_stop b : calm fm_flush b ctucan_chip_stop.
Proof. unfold ctucan_chip_stop. calm_run. Qed.
#[local] Hint Resolve calm_chip_stop : calm.

Lemma calm_get_tx_status m b buf : calm m b (ctucan_get_tx_status buf).
Proof. unfold ctucan_get_tx_status. calm_run. Qed.
#[local] Hint Resolve calm_get_tx_status : calm.

Lemma calm_is_txt_buf_writable m b buf : calm m b (ctucan_is_txt_buf_writable buf).
Proof. unfold ctucan_is_txt_buf_writable. calm_run. Qed.
#[local] Hint Resolve calm_is_txt_buf_writable : calm.

(** The words of a TXT buffer are behind the registers. *)
Lemma calm_write_txt_buf m b buf_base off val :
  0x100 <= buf_base → 0 <= off → calm m b (ctucan_write_txt_buf buf_base off val).
Proof.
  intros Hb Ho. unfold ctucan_write_txt_buf. refine (calm_write _ _ _ _ _ _ _). right. right.
  unfold CTUCANFD_MODE, CTUCANFD_COMMAND. split; [lia|left; lia].
Qed.

Lemma calm_insert_data m b fuel cf buf_base i :
  0x100 <= buf_base → 0 <= i → calm m b (insert_data fuel cf buf_base i).
Proof.
  intros Hb. revert i. induction fuel as [|fuel IH]; intros i Hi; cbn [insert_data]; calm_run.
  - apply calm_write_txt_buf; [done|]. unfold CTUCANFD_DATA_1_4_W. lia.
  - apply IH. lia.
Qed.

Lemma calm_insert_frame m b cf buf isfdf : 0 <= buf → calm m b (ctucan_insert_frame cf buf isfdf).
Proof.
  intros Hb. unfold ctucan_insert_frame. calm_run.
  - apply calm_write_txt_buf; [lia|done].
  - apply calm_write_txt_buf; [lia|done].
  - apply calm_insert_data; lia.
Qed.

Lemma calm_give_txtb_cmd m b cmd buf : calm m b (ctucan_give_txtb_cmd cmd buf).
Proof. unfold ctucan_give_txtb_cmd. calm_run. Qed.
#[local] Hint Resolve calm_give_txtb_cmd : calm.

Lemma calm_start_xmit m b skb : calm m b (ctucan_start_xmit skb).
Proof.
  unfold ctucan_start_xmit. calm_run.
  apply calm_insert_frame. unfold u8. apply Z.mod_pos_bound. lia.
Qed.

Lemma calm_rotate_txb_prio m b : calm m b ctucan_rotate_txb_prio.
Proof. unfold ctucan_rotate_txb_prio. calm_run. Qed.
#[local] Hint Resolve calm_rotate_txb_prio : calm.

Lemma calm_tx_switch m b id status : calm m b (tx_switch id status).
Proof. unfold tx_switch. calm_run. Qed.
#[local] Hint Resolve calm_tx_switch : calm.

Lemma calm_tx_release m b id : calm m b (tx_release id).
Proof. unfold tx_release. calm_run. Qed.
#[local] Hint Resolve calm_tx_release : calm.

Lemma calm_tx_while m b fuel first some : calm m b (tx_while fuel first some).
Proof. revert first some. induction fuel as [|fuel IH]; intros first some; cbn [tx_while]; calm_run. Qed.
#[local] Hint Resolve calm_tx_while : calm.

Lemma calm_tx_do_while m b fuel first : calm m b (tx_do_while fuel first).
Proof. revert first. induction fuel as [|fuel IH]; intros first; cbn [tx_do_while]; calm_run. Qed.
#[local] Hint Resolve calm_tx_do_while : calm.

Lemma calm_tx_interrupt m b : calm m b ctucan_tx_interrupt.
Proof. unfold ctucan_tx_interrupt. calm_run. Qed.
#[local] Hint Resolve calm_tx_interrupt : calm.

Lemma calm_read_fault_state m b : calm m b ctucan_read_fault_state.
Proof. unfold ctucan_read_fault_state. calm_run. Qed.
#[local] Hint Resolve calm_read_fault_state : calm.

Lemma calm_get_rec_tec m b : calm m b ctucan_get_rec_tec.
Proof. unfold ctucan_get_rec_tec. calm_run. Qed.
#[local] Hint Resolve calm_get_rec_tec : calm.

Lemma calm_or_data m b i v cf : calm m b (or_data i v cf).
Proof. unfold or_data. calm_run. Qed.
#[local] Hint Resolve calm_or_data : calm.

Lemma calm_set_byte m b i v cf : calm m b (set_byte i v cf).
Proof. unfold set_byte. calm_run. Qed.
#[local] Hint Resolve calm_set_byte : calm.

Lemma calm_err_switch m b state bec skb : calm m b (err_switch state bec skb).
Proof. unfold err_switch. calm_run. Qed.
#[local] Hint Resolve calm_err_switch : calm.

Lemma calm_err_interrupt m b isr : calm m b (ctucan_err_interrupt isr).
Proof. unfold ctucan_err_interrupt. calm_run. Qed.
#[local] Hint Resolve calm_err_interrupt : calm.

Lemma calm_irq_body m b isr : calm m b (irq_body isr).
Proof. unfold irq_body. calm_run. Qed.
#[local] Hint Resolve calm_irq_body : calm.

Lemma calm_irq_loop m b fuel irq_loops isr : calm m b (irq_loop fuel irq_loops isr).
Proof. revert irq_loops isr. induction fuel as [|fuel IH]; intros irq_loops isr; cbn [irq_loop]; calm_run. Qed.
#[local] Hint Resolve calm_irq_loop : calm.

Lemma calm_irq_dump m b fuel i : calm m b (irq_dump fuel i).
Proof. revert i. induction fuel as [|fuel IH]; intros i; cbn [irq_dump]; calm_run. Qed.
#[local] Hint Resolve calm_irq_dump : calm.

Lemma calm_interrupt m b : calm m b ctucan_interrupt.
Proof. unfold ctucan_interrupt. calm_run. Qed.

(** The reception, whose effect on the FIFO is the subject of [BaseRx]. *)

Lemma calm_rx_data_loop b fuel cf len i : calm fm_any b (rx_data_loop fuel cf len i).
Proof. revert cf i. induction fuel as [|fuel IH]; intros cf i; cbn [rx_data_loop]; calm_run. Qed.
#[local] Hint Resolve calm_rx_data_loop : calm.

Lemma calm_rx_skip_loop b fuel wc4 i : calm fm_any b (rx_skip_loop fuel wc4 i).
Proof. revert i. induction fuel as [|fuel IH]; intros i; cbn [rx_skip_loop]; calm_run. Qed.
#[local] Hint Resolve calm_rx_skip_loop : calm.

Lemma calm_read_rx_frame b cf ffw : calm fm_any b (ctucan_read_rx_frame cf ffw).
Proof. unfold ctucan_read_rx_frame. calm_run. Qed.
#[local] Hint Resolve calm_read_rx_frame : calm.

Lemma calm_rx b : calm fm_any b ctucan_rx.
Proof. unfold ctucan_rx. calm_run. Qed.
#[local] Hint Resolve calm_rx : calm.

Lemma calm_read_framecnt b : calm fm_any b read_framecnt.
Proof. unfold read_framecnt. calm_run. Qed.
#[local] Hint Resolve calm_read_framecnt : calm.

Lemma calm_rx_poll_loop b fuel quota framecnt work_done res : calm fm_any b (rx_poll_loop fuel quota framecnt work_done res).
Proof.
  revert framecnt work_done res. induction fuel as [|fuel IH]; intros framecnt work_done res; cbn [rx_poll_loop]; calm_run.
Qed.
#[local] Hint Resolve calm_rx_poll_loop : calm.

Lemma calm_rx_overflow b : calm fm_any b rx_overflow.
Proof. unfold rx_overflow. calm_run. Qed.
#[local] Hint Resolve calm_rx_overflow : calm.

Lemma calm_rx_poll b quota : calm fm_any b (ctucan_rx_poll quota).
Proof. unfold ctucan_rx_poll. calm_run. Qed.

(** The functions that take and release resources. *)

Lemma calm_reset_loop m b fuel i : calm m b (ctucan_reset_loop fuel i).
Proof. revert i. induction fuel as [|fuel IH]; intros i; cbn [ctucan_reset_loop]; calm_run. Qed.
#[local] Hint Resolve calm_reset_loop : calm.

Lemma calm_reset b : calm fm_any b ctucan_reset.
Proof. unfold ctucan_reset. calm_run. Qed.

Lemma calm_close : calm fm_flush false ctucan_close.
Proof. unfold ctucan_close. calm_run. Qed.

Lemma calm_get_berr_counter m : calm m false ctucan_get_berr_counter.
Proof. unfold ctucan_get_berr_counter. calm_run. Qed.

End Functions.

(** ** Sessions *)

(** The calls the kernel makes: an interface is opened only when it is closed, the bit timing is
    set only then, and only an open interface is closed, restarted, given frames, polled and
    interrupted. *)
Definition allowed (up : bool) (e : entry) : bool :=
  match e with
  | E_open | E_set_bittiming | E_set_data_bittiming => negb up
  | E_get_berr_counter => true
  | _ => up
  end.

(** Whether the interface is open after a call. *)
Definition next_up (up : bool) (e : entry) (r : entry_result) : bool :=
  match e, r with
  | E_open, Ret_int ret => ret =? 0
  | E_close, _ => false
  | _, _ => up
  end.

(** The kernel makes those of the calls [es] that are allowed, and ends with the interface open or closed. *)
Fixpoint kernel_run {W} `{World W} (up : bool) (es : list entry) : M net_device W bool :=
  match es with
  | [] => mret up
  | e :: es' =>
      if allowed up e then r ← run_entry e; kernel_run (next_up up e r) es'
      else kernel_run up es'
  end.

(** The network layer hands over frames as it promises. *)
Definition entry_wf (e : entry) : Prop :=
  match e with E_start_xmit skb => frame_wf (skb_cf skb) | _ => True end.

Section SessionProofs.
Context {W : Type} `{World W} `{!AllocOk W} (base : Z) (fifo : W → list Z).
Context `{!RxDevice W base fifo} `{!RxCore W base fifo}.
Implicit Types (s : st net_device W).

(** Every frame delivered from [s0] to [s] is the decoding of a whole frame of the core. *)
Definition deliveries_ok s0 s : Prop :=
  ∃ tr got, trace s = trace s0 ++ tr ∧ Forall hw_frame got ∧ Forall2 is_decode got (delivered tr).

(** The device is well-formed; an open interface has only whole frames in its queue (the kept word and the
    FIFO) and holds the resources of [ctucan_open], a closed one holds none. *)
Definition session_inv (up : bool) s0 s : Prop :=
  dev_ok base (drv s) ∧ (up = true → ∃ frames, rx_queue fifo s frames) ∧
  balanced s0 s (λ r, if up then opened r else 0) ∧ deliveries_ok s0 s.

(** After a reset. *)
Definition clean s : Prop := kept_word (drv s) = [] ∧ grows [] (fifo (world s)).

Lemma clean_queue s : clean s → ∃ frames, rx_queue fifo s frames.
Proof. intros [Hk (new & Hn & Hf)]. exists new. split; [done|]. by rewrite Hk, Hf. Qed.

Lemma clean_calm s s' b : dev_ok base (drv s) → calm base fifo fm_flush b s s' → clean s → dev_ok base (drv s') ∧ clean s' ∧ silent s s'.
Proof.
  intros Hs Hc [Hk Hf]. destruct (Hc Hs) as (Hs' & [?|[Hk' Hsil]] & Hr & _); [done|]. split; [done|].
  split; [|done]. split; [congruence|]. destruct Hr as [Hr|Hr]; [by eapply grows_trans|done].
Qed.

Lemma reset_clean s : dev_ok base (drv s) → wp ctucan_reset s (λ _ s', dev_ok base (drv s') ∧ clean s' ∧ silent s s').
Proof.
  intros Hs. pose proof Hs as [[Hle [? ? ? ?]] Hb].
  unfold ctucan_reset. apply wp_bind, wp_write32; [done|]. wp_step. apply wp_modify.
  match goal with |- wp _ ?s1 _ => set (s2 := s1) end.
  assert (Hd : dev_ok base (drv s2)) by (split; [split; [done|by constructor]|done]).
  assert (Hc : clean s2).
  { split; [unfold kept_word; cbn; by rewrite test_clear_bit|]. cbn [world s2]. unfold reg_at. rewrite Hb.
    rewrite u32_small by by_compute. rewrite rxc_reset. apply grows_refl. }
  eapply wp_mono; [eapply (keeps_wp (calm base fifo fm_flush false)); [by apply calm_reset_loop|]|].
  - eapply wp_mono; [apply (quiet_reset_loop 101 100); lia|done].
  - intros r s' [_ Hcalm]. destruct (clean_calm _ _ _ Hd Hcalm Hc) as (? & ? & ?). split_and!; [done..|].
    transitivity s2; [by eexists|done].
Qed.

(** The rest of a function that is known to return. *)
Lemma calm_rest {A} m (c : M net_device W A) s Q :
  keeps (calm base fifo m false) c → dev_ok base (drv s) → wp c s Q →
  wp c s (λ a s', Q a s' ∧ dev_ok base (drv s') ∧ (m = fm_any ∨ (kept_word (drv s') = kept_word (drv s) ∧ silent s s')) ∧
    fifo_rel m (fifo (world s)) (fifo (world s'))).
Proof.
  intros Hc Hs Hw. eapply wp_mono; [by eapply (keeps_wp (calm base fifo m false))|].
  intros a s' [HQ Hcalm]. destruct (Hcalm Hs) as (? & ? & ? & _). done.
Qed.

Lemma clean_rest {A} (c : M net_device W A) s Q :
  keeps (calm base fifo fm_flush false) c → dev_ok base (drv s) → clean s → wp c s Q →
  wp c s (λ a s', Q a s' ∧ dev_ok base (drv s') ∧ clean s' ∧ silent s s').
Proof.
  intros Hc Hs Hcl Hw. eapply wp_mono; [by eapply (keeps_wp (calm base fifo fm_flush false))|].
  intros a s' [HQ Hcalm]. split; [done|]. by eapply clean_calm.
Qed.

(** Opening: the reset comes first, and what follows it does not touch the queue. *)
Lemma open_clean s :
  dev_ok base (drv s) →
  wp ctucan_open s (λ ret s', balanced s s' (λ r, if ret =? 0 then opened r else 0) ∧
    dev_ok base (drv s') ∧ (ret = 0 → clean s') ∧ silent s s').
Proof.
  intros Hs. pose proof (open_balance s) as Hw. unfold ctucan_open in *. apply wp_unbind in Hw. apply wp_bind.
  eapply wp_mono; [apply (calm_rest fm_grow); [by calm_run|done|exact Hw]|]. clear Hw.
  intros r1 s1 (Hw & Hs1 & [?|[_ H1]] & _); [done|]. destruct (Z.ltb_spec r1 0).
  - eapply wp_mono; [apply (calm_rest fm_grow _ _ (λ r s', balanced s s' (λ q, if r =? 0 then opened q else 0) ∧ r = r1)); [by calm_run|done|]|].
    { apply wp_and; [exact Hw|]. apply wp_bind, wp_call_. intros ? ? _. apply wp_bind, wp_call_. intros ? ? _.
      by apply wp_ret. }
    intros r2 s2 ((Hb & ->) & Hs2 & [?|[_ H2]] & _); [done|].
    split_and!; [done..|lia|by transitivity s1].
  - apply wp_unbind in Hw. apply wp_bind. eapply wp_mono; [apply wp_and; [exact Hw|by apply reset_clean]|]. clear Hw.
    intros r2 s2 (Hw & Hs2 & Hc2 & H2). eapply wp_mono; [apply clean_rest; [|done|done|exact Hw]|].
    + destruct (r2 <? 0); unfold open_err_chip_start, open_err_irq, open_err_reset; calm_run; by apply (calm_chip_start base fifo).
    + intros r3 s3 (Hb & Hs3 & Hc3 & H3). split_and!; [done..|]. by transitivity s1; [|transitivity s2].
Qed.

(** Restarting after bus-off. *)
Lemma do_set_mode_clean mode s frames :
  dev_ok base (drv s) → rx_queue fifo s frames →
  wp (ctucan_do_set_mode mode) s (λ _ s', balanced s s' (λ _, 0) ∧
    dev_ok base (drv s') ∧ (∃ frames, rx_queue fifo s' frames) ∧ silent s s').
Proof.
  intros Hs Hq. destruct mode; unfold ctucan_do_set_mode;
    try (apply wp_ret; split_and!; [apply balanced_refl|done|by exists frames|reflexivity]).
  assert (Hw : quiet (W:=W) anything (ctucan_do_set_mode CAN_MODE_START)).
  { unfold ctucan_do_set_mode. apply quiet_seq; [eapply quiet_weaken, quiet_reset|]. intros r.
    repeat first [apply quiet_chip_start|quiet_step]. }
  specialize (Hw s). apply wp_unbind in Hw. apply wp_bind.
  eapply wp_mono; [apply wp_and; [exact Hw|by apply reset_clean]|]. clear Hw. intros r1 s1 (Hw & Hs1 & Hc1 & H1).
  eapply wp_mono; [apply clean_rest; [|done|done|exact Hw]|].
  - destruct (r1 <? 0); calm_run; by apply (calm_chip_start base fifo).
  - intros r2 s2 ((_ & Hb) & Hs2 & Hc2 & H2). split_and!; [exact Hb|done|by apply clean_queue|by transitivity s1].
Qed.

(** One call *)

Lemma deliveries_silent s0 s s' : deliveries_ok s0 s → silent s s' → deliveries_ok s0 s'.
Proof.
  intros (t1 & got & H1 & Hg & D1) (t2 & H2 & D2). exists (t1 ++ t2), got.
  by rewrite H2, H1, app_assoc, delivered_app, D2, app_nil_r.
Qed.

Lemma session_inv_calm up s0 s s' : session_inv up s0 s → calm base fifo fm_grow true s s' → session_inv up s0 s'.
Proof.
  intros (Hs & Hq & Hb & Hdel) Hc. destruct (Hc Hs) as (Hs' & [?|[Hk Hsil]] & Hf & Hb'); [done|]. split_and!.
  - done.
  - intros Hup. destruct (Hq Hup) as [frames Hfr]. destruct (rx_queue_grows fifo _ _ _ Hfr Hk Hf) as (new & _ & ?).
    by eexists.
  - eapply balanced_app; [exact Hb|by apply Hb'|]. intros r. simpl. lia.
  - by eapply deliveries_silent.
Qed.

(** The calls that leave the queue to the core. *)
Lemma session_calm {A} (c : M net_device W A) up s0 s Q P N :
  session_inv up s0 s → keeps (calm base fifo fm_grow true) c → outcome c s Q N →
  (∀ a s', session_inv up s0 s' → P a s') → outcome c s P N.
Proof.
  intros Hi Hc Hw HP. eapply outcome_mono; [by eapply (keeps_outcome (calm base fifo fm_grow true))| |done].
  intros a s' [_ Hcalm]. by eapply HP, session_inv_calm.
Qed.

Lemma session_poll quota s0 s :
  session_inv true s0 s → wp (ctucan_rx_poll quota) s (λ _ s', session_inv true s0 s').
Proof.
  intros (Hs & Hq & Hb & Hdel). destruct (Hq eq_refl) as [frames Hfr]. pose proof Hs as [[Hle _] Hba].
  eapply wp_mono; [eapply (keeps_wp (calm base fifo fm_any true)); [by apply (calm_rx_poll base fifo)|]|].
  { apply (rx_poll_wp base fifo quota frames); [by split|done]. }
  intros wd s' [(got & lft & c & ovf & (Hrx & tr & new & Hn & Ht & E & Hlq & Hd & _) & _) Hcalm].
  destruct (Hcalm Hs) as (Hs' & _ & _ & Hb'). split_and!; [done|by exists lft| |].
  - eapply balanced_app; [exact Hb|by apply Hb'|]. intros r. simpl. lia.
  - destruct Hdel as (t0 & g0 & H0 & Hg0 & D0). exists (t0 ++ tr), (g0 ++ got).
    split; [by rewrite Ht, H0, app_assoc|]. split.
    + apply Forall_app. split; [done|]. assert (Forall hw_frame (got ++ lft)) as [? _]%Forall_app; [|done].
      rewrite <- E. apply Forall_app. by split; [destruct Hfr|].
    + rewrite delivered_app. by apply Forall2_app.
Qed.

Lemma session_close s0 s :
  session_inv true s0 s → wp ctucan_close s (λ _ s', session_inv false s0 s').
Proof.
  intros (Hs & _ & Hb & Hdel). eapply wp_mono; [apply (calm_rest fm_flush); [by apply (calm_close base fifo)|done|]|].
  { apply ctucan_close_balance. }
  intros r s' ([_ Hb'] & Hs' & [?|[_ Hsil]] & _); [done|]. split_and!; [done|done| |by eapply deliveries_silent].
  eapply balanced_app; [exact Hb|exact Hb'|]. intros q. simpl. lia.
Qed.

Lemma session_berr up s0 s :
  session_inv up s0 s → wp ctucan_get_berr_counter s (λ _ s', session_inv up s0 s').
Proof.
  intros Hi. pose proof Hi as (Hs & _).
  eapply wp_mono; [apply (calm_rest fm_grow); [by apply (calm_get_berr_counter base fifo)|done|]|].
  { apply ctucan_get_berr_counter_balance. }
  intros r s' ([Hb' _] & Hs' & Hk & Hf). eapply session_inv_calm; [exact Hi|]. intros _. by split_and!.
Qed.

Lemma session_open s0 s :
  session_inv false s0 s → wp ctucan_open s (λ ret s', session_inv (ret =? 0) s0 s').
Proof.
  intros (Hs & _ & Hb & Hdel). eapply wp_mono; [by apply open_clean|]. intros ret s' (Hb' & Hs' & Hc & Hsil).
  split_and!; [done| | |by eapply deliveries_silent].
  - intros ?%Z.eqb_eq. by apply clean_queue, Hc.
  - eapply balanced_app; [exact Hb|exact Hb'|]. intros q. simpl. lia.
Qed.

Lemma session_set_mode mode s0 s :
  session_inv true s0 s → wp (ctucan_do_set_mode mode) s (λ _ s', session_inv true s0 s').
Proof.
  intros (Hs & Hq & Hb & Hdel). destruct (Hq eq_refl) as [frames Hfr].
  eapply wp_mono; [by eapply do_set_mode_clean|]. intros r s' (Hb' & Hs' & Hq' & Hsil).
  split_and!; [done|done| |by eapply deliveries_silent].
  eapply balanced_app; [exact Hb|exact Hb'|]. intros q. simpl. lia.
Qed.

Lemma session_entry e up s0 s :
  session_inv up s0 s → allowed up e = true → entry_wf e →
  outcome (run_entry e) s (λ r s', session_inv (next_up up e r) s0 s') (irq_null s).
Proof.
  intros Hi Ha Hwf. pose proof Hi as ([Hok _] & _). pose proof Hok as [Hle Hring].
  destruct e; simpl in Ha; try (apply negb_true_iff in Ha); try subst up; unfold run_entry; apply outcome_bind.
  - by apply outcome_wp, session_open.
  - by apply outcome_wp, session_close.
  - apply outcome_wp. by eapply wp_mono; [apply session_berr|].
  - eapply (session_calm ctucan_set_bittiming); [done|by apply (calm_set_bittiming base fifo)|apply outcome_wp, set_bittiming_wp|]; done.
  - eapply (session_calm ctucan_set_data_bittiming); [done|by apply (calm_set_data_bittiming base fifo)|apply outcome_wp, set_data_bittiming_wp|]; done.
  - by apply outcome_wp, session_set_mode.
  - eapply (session_calm (ctucan_start_xmit skb)); [done|by apply (calm_start_xmit base fifo)|apply outcome_wp, start_xmit_wp|]; done.
  - eapply (session_calm ctucan_interrupt); [done|by apply (calm_interrupt base fifo)|apply interrupt_outcome|]; done.
  - by apply outcome_wp, session_poll.
Qed.

(** C8: The driver as a whole.  For every sequence of calls that the kernel may make (opening
    and closing, transmissions, interrupts, polls, restarts, bit timing, in any order, with any results of
    the kernel and any behaviour of the core within its interface), the driver
    never gets stuck and never leaves the bounds of its data: each call returns, or
    the run ends at the known null access after a failed allocation of an error frame.  After every
    call the device is well-formed, a closed interface
    holds no resource and an open one exactly those of [ctucan_open], an open interface has only
    whole frames before it (stale words do not survive a reset), and every frame
    delivered so far is the decoding of a whole frame of the core. *)
Theorem driver_session_safe es up s0 s :
  session_inv up s0 s → Forall entry_wf es →
  outcome (kernel_run up es) s (λ up' s', session_inv up' s0 s') (irq_null s0).
Proof.
  revert up s. induction es as [|e es IH]; intros up s Hi Hes; cbn [kernel_run]; [done|].
  apply Forall_cons in Hes as [He Hes]. destruct (allowed up e) eqn:Ha; [|by apply IH].
  apply outcome_bind. eapply outcome_mono; [by apply session_entry|by intros r s' ?; apply IH|].
  intros s'. destruct Hi as (_ & _ & _ & tr & got & Ht & _). by eapply irq_null_app.
Qed.

End SessionProofs.

(** ** A session *)

(** The FIFO world with a core that a reset empties, on a bus where the frames of [sample_rx] arrive as soon
    as the interface is up. *)
Record bus_world := on_bus { bus : fifo_world }.

Definition bus_fifo (w : bus_world) : list Z := q_fifo (bus w).

Definition bus_set (l : list Z) (w : bus_world) : bus_world :=
  on_bus {| q_fifo := l; q_script := q_script (bus w) |}.

#[export] Instance bus_world_world : World bus_world := {
  w_load32 a w := let '(v, q) := w_load32 a (bus w) in (v, on_bus q);
  w_store32 a v w :=
    if (a =? sample_base + CTUCANFD_MODE) && (v =? REG_MODE_RST) then bus_set [] w else w;
  w_call c w :=
    let '(r, q) := w_call c (bus w) in
    let w' := on_bus q in
    (r, match c with netif_start_queue => bus_set (bus_fifo w' ++ concat sample_rx) w' | _ => w' end);
  w_alloc k w := let '(o, q) := w_alloc k (bus w) in (o, on_bus q);
}.

#[export] Instance bus_world_alloc_ok : AllocOk bus_world.
Proof.
  intros k [q] cf w'. unfold w_alloc, bus_world_world; cbn [bus].
  destruct (w_alloc k q) as [o q'] eqn:E. intros [= -> _]. by eapply fifo_world_alloc_ok.
Qed.

#[export] Instance bus_world_rx : RxDevice bus_world sample_base bus_fifo.
Proof.
  split.
  - intros [q] v w'. unfold w_load32, bus_world_world, bus_fifo; cbn [bus].
    destruct (fifo_world_world.(w_load32) _ q) as [v1 q1] eqn:E. intros [= <- <-]. by apply (rxd_pop (fifo:=q_fifo)) in E.
  - intros a [q] v w' Ha. unfold w_load32, bus_world_world, bus_fifo; cbn [bus].
    destruct (fifo_world_world.(w_load32) _ q) as [v1 q1] eqn:E. intros [= <- <-]. by eapply (rxd_load (fifo:=q_fifo)) in E.
  - intros [q] v w'. unfold w_load32, bus_world_world, bus_fifo; cbn [bus].
    destruct (fifo_world_world.(w_load32) _ q) as [v1 q1] eqn:E. intros [= <- <-]. by apply (rxd_count (fifo:=q_fifo)) in E.
  - intros a v w Ha _. unfold w_store32, bus_world_world.
    destruct (Z.eqb_spec a (sample_base + CTUCANFD_MODE)); [done|]. apply grows_refl.
  - intros c [q] r w'. unfold w_call, bus_world_world, bus_fifo; cbn [bus].
    destruct (fifo_world_world.(w_call) c q) as [r1 q1] eqn:E. apply (rxd_call (fifo:=q_fifo)) in E. intros [= <- <-].
    assert (grows (q_fifo q) (q_fifo q1 ++ concat sample_rx)).
    { eapply grows_trans; [exact E|]. eexists. split; [apply sample_rx_hw|done]. }
    by destruct c.
  - intros k [q] o w'. unfold w_alloc, bus_world_world, bus_fifo; cbn [bus].
    destruct (fifo_world_world.(w_alloc) k q) as [o1 q1] eqn:E. intros [= <- <-]. by apply (rxd_alloc (fifo:=q_fifo)) in E.
Qed.

#[export] Instance bus_world_core : RxCore bus_world sample_base bus_fifo.
Proof.
  split.
  - intros w. unfold w_store32, bus_world_world. by rewrite !Z.eqb_refl.
  - intros v w. unfold w_store32, bus_world_world. destruct (_ && _); [right|left]; apply grows_refl.
Qed.

(** Words of an earlier use are in the FIFO when the interface is opened. *)
Definition session_st : st net_device bus_world :=
  mkst sample_dev (on_bus {| q_fifo := [0xDEAD; 0xBEEF]; q_script := mkscript [0; 0xCAFD] [] [true; true] |}) [].

Definition sample_session : list entry :=
  [E_set_bittiming; E_rx_poll 1; E_open; E_open; E_start_xmit sample_skb; E_rx_poll 16; E_close; E_interrupt].

Lemma driver_session_witness :
  outcome (kernel_run false sample_session) session_st
    (λ up s', session_inv sample_base bus_fifo up session_st s') (irq_null session_st).
Proof.
  apply (driver_session_safe sample_base bus_fifo sample_session false session_st session_st).
  - split_and!; [split; [split; [done|]|done]|done|by exists []|by exists [], []].
    by constructor.
  - repeat (apply Forall_cons; split; [done || apply sample_frame_wf|]). done.
Defined.

(** The session with the two frames of the bus delivered, the stale words lost, nothing held at the end. *)
Example driver_session_run :
  wp (kernel_run false sample_session) session_st (λ up s', up = false ∧
    (can_id <$> delivered (trace s')) = [0x123; Z.lor CAN_RTR_FLAG 0x123] ∧ bus_fifo (world s') = [] ∧
    bal R_pm (trace s') = 0 ∧ bal R_irq (trace s') = 0).
Proof. by vm_compute. Qed.
