(* ===== verification/RxIrq.v ===== *)
(** * The receive interrupt in the traces of the driver

    The interrupt handler masks the receive interrupt (RBNEI), acknowledges it and schedules the poll; the
    poll completes, acknowledges and unmasks it.  Here this protocol is read off the code: every event is given its
    meaning for the receive interrupt ([act]), the two handlers are automata over these actions, and every run of
    [ctucan_interrupt] and [ctucan_rx_poll], in every world and however it ends, is accepted by its automaton.  The
    other functions called while the interface is up do nothing of the kind ([plain]).

    [follows next p m Q]: started in the state [p] of the automaton [next], every run of [m] is accepted, and
    a result [a] comes with a state that satisfies [Q a]. *)

From Stdlib Require Import ZArith Lia.
From stdpp Require Import base numbers list strings sets.
From S2P Require Import Prelude LinuxDefs World Kregs Base BaseCfg BaseTx RxFifo BaseRx BaseErr BaseIrq Resources BaseDev Endian Session.

#[local] Open Scope Z_scope.

(** ** Actions *)

(** Set or clear the mask, acknowledge, disable the interrupt; schedule the poll, complete it ([again] if the
    kernel will poll again), switch polling on or off. *)
Inductive rx_act := ra_none | ra_mask | ra_unmask | ra_ack | ra_off | ra_sched | ra_done (again : bool) | ra_switch.

(** The state of the handlers between their actions. *)
Inductive isr_pc := I_rest | I_masked | I_acked | I_off.
(** A poll: not running, running and not completed, completed (then acknowledging and unmasking), over. *)
Inductive poll_pc := P_idle | P_open | P_done | P_acked | P_over.

#[export] Instance poll_pc_eq_dec : EqDecision poll_pc.
Proof. solve_decision. Defined.

Definition isr_next (p : isr_pc) (a : rx_act) : option isr_pc :=
  match p, a with
  | I_rest, ra_none => Some I_rest
  | I_rest, ra_mask => Some I_masked
  | I_masked, ra_ack => Some I_acked
  | I_acked, ra_sched => Some I_rest
  | I_rest, ra_off => Some I_off
  | I_off, (ra_none | ra_mask) => Some I_off
  | _, _ => None
  end.

Definition poll_next (p : poll_pc) (a : rx_act) : option poll_pc :=
  match p, a with
  | P_open, ra_none => Some P_open
  | P_open, ra_done true => Some P_over
  | P_open, ra_done false => Some P_done
  | P_done, ra_ack => Some P_acked
  | P_acked, ra_unmask => Some P_over
  | _, _ => None
  end.

Section Acts.
Context (base : Z).

(** Only the bit RBNEI of a word matters. *)
Definition act (e : event) : rx_act :=
  match e with
  | EvStore a v =>
      if negb (Z.testbit v 10) then ra_none
      else if a =? base + CTUCANFD_INT_MASK_SET then ra_mask
      else if a =? base + CTUCANFD_INT_MASK_CLR then ra_unmask
      else if a =? base + CTUCANFD_INT_STAT then ra_ack
      else if a =? base + CTUCANFD_INT_ENA_CLR then ra_off
      else ra_none
  | EvCall napi_schedule _ => ra_sched
  | EvCall (napi_complete_done _) r => ra_done (r =? 0)
  | EvCall napi_enable _ | EvCall napi_disable _ => ra_switch
  | _ => ra_none
  end.

(** Running an automaton over a trace. *)
Fixpoint accept {P} (next : P → rx_act → option P) (p : P) (tr : list event) : option P :=
  match tr with
  | [] => Some p
  | e :: tr => p' ← next p (act e); accept next p' tr
  end.

Lemma accept_app {P} (next : P → rx_act → option P) p tr1 tr2 :
  accept next p (tr1 ++ tr2) = (p' ← accept next p tr1; accept next p' tr2).
Proof.
  revert p. induction tr1 as [|e tr1 IH]; intros p; [done|]. cbn [accept app].
  destruct (next p (act e)) as [p'|]; [|done]. apply IH.
Qed.

Lemma accept_plain {P} (next : P → rx_act → option P) p tr :
  next p ra_none = Some p → Forall (λ e, act e = ra_none) tr → accept next p tr = Some p.
Proof. intros Hp. induction 1 as [|e tr He _ IH]; [done|]. cbn [accept]. by rewrite He, Hp. Qed.

Definition wk_dev (n : net_device) : Prop := le_dev n ∧ mem_base (priv n) = base.

(** ** Functions without such actions *)

Section Plain.
Context {W : Type} `{World W}.
Implicit Types (s : st net_device W).

Definition plain s s' : Prop :=
  wk_dev (drv s) → wk_dev (drv s') ∧ ∃ tr, trace s' = trace s ++ tr ∧ Forall (λ e, act e = ra_none) tr.

#[export] Instance plain_preorder : PreOrder plain.
Proof.
  split.
  - intros s Hs. split; [done|]. exists []. by rewrite app_nil_r.
  - intros s1 s2 s3 H12 H23 H1. destruct (H12 H1) as (H2 & t1 & T1 & A1). destruct (H23 H2) as (H3 & t2 & T2 & A2).
    split; [done|]. exists (t1 ++ t2). rewrite T2, T1, app_assoc. split; [done|]. by apply Forall_app.
Qed.

Lemma plain_event n w w' tr e : act e = ra_none → plain (mkst n w tr) (mkst n w' (tr ++ [e])).
Proof. intros He Hs. split; [done|]. exists [e]. split; [done|]. by constructor. Qed.

Lemma plain_call c : (∀ r, act (EvCall c r) = ra_none) → keeps plain (call c).
Proof. intros Hc [n w tr]. unfold call. destruct (w_call c _) as [r w']. by apply plain_event. Qed.

Lemma plain_call_ c : (∀ r, act (EvCall c r) = ra_none) → keeps plain (call_ c).
Proof. intros Hc. unfold call_. apply keeps_bind; [apply _|by apply plain_call|]. intros _. apply keeps_ret, _. Qed.

Lemma plain_alloc k : keeps plain (alloc k).
Proof. intros [n w tr]. unfold alloc. destruct (w_alloc k _) as [o w']. by apply plain_event. Qed.

Lemma plain_modify f : (∀ n, wk_dev n → wk_dev (f n)) → keeps plain (modify f).
Proof. intros Hf s Hs. split; [by apply Hf|]. exists []. by rewrite app_nil_r. Qed.

(** A register access, whatever the accessor does to the order. *)
Lemma plain_wp {A} (m : M net_device W A) : (∀ s, wk_dev (drv s) → wp m s (λ _ s', plain s s')) → keeps plain m.
Proof.
  intros Hm s Hs. specialize (Hm s Hs). unfold wp in Hm. destruct (m s) as [[a|u|] s']; try done.
  by apply Hm.
Qed.

Lemma plain_read reg : keeps plain (ctucan_read32 reg).
Proof.
  apply plain_wp. intros [n w tr] Hs. apply wp_read32; [apply Hs|]. intros v w' _. by apply plain_event.
Qed.

Lemma plain_write reg val :
  Z.testbit (u32 val) 10 = false ∨
    (reg ≠ CTUCANFD_INT_MASK_SET ∧ reg ≠ CTUCANFD_INT_MASK_CLR ∧ reg ≠ CTUCANFD_INT_STAT ∧ reg ≠ CTUCANFD_INT_ENA_CLR) →
  keeps plain (ctucan_write32 reg val).
Proof.
  intros Hr. apply plain_wp. intros [n w tr] Hs. apply wp_write32; [apply Hs|]. apply plain_event.
  destruct Hs as [_ Hb]. cbn [drv] in *. unfold reg_at. rewrite Hb. cbn [act].
  destruct Hr as [->|(? & ? & ? & ?)]; [done|].
  case_match; [done|]. repeat (case_match; [lia|]). done.
Qed.

End Plain.
End Acts.

Create HintDb plain.

(** An assignment keeps the accessors and the address. *)
Ltac plain_fields := intros ? [[? ?] ?]; (split; [split|]); cbn; assumption.

(** Walking through a function. *)
Ltac plain_step :=
  lazymatch goal with
  | |- keeps _ (mbind _ _) => apply keeps_bind; [apply _| |intros ?]
  | |- keeps _ (mret _) => apply keeps_ret, _
  | |- keeps _ (gets _) => apply keeps_gets, _
  | |- keeps _ (undefined _) => apply keeps_undefined, _
  | |- keeps _ no_fuel => apply keeps_no_fuel, _
  | |- keeps _ (modify _) => apply plain_modify; plain_fields
  | |- keeps _ (ctucan_read32 _) => apply plain_read
  | |- keeps _ (ctucan_write32 _ _) => apply plain_write; first [left; reflexivity|right; split_and!; discriminate]
  | |- keeps _ (call_ _) => apply plain_call_; intros ?; reflexivity
  | |- keeps _ (call _) => apply plain_call; intros ?; reflexivity
  | |- keeps _ (alloc _) => apply plain_alloc
  | |- keeps _ (some_or _ _) => unfold some_or
  | |- keeps _ (umod _ _) => unfold umod
  | |- keeps _ (shr32 _ _) => unfold shr32
  | |- keeps _ (bit32 _) => unfold bit32
  | |- keeps _ (when _ _) => unfold when
  | |- keeps _ (if_skb _ _) => unfold if_skb
  | |- keeps _ (deref_cf _ _) => unfold deref_cf
  | |- keeps _ (match ?x with _ => _ end) => destruct x
  | |- keeps _ (let _ := _ in _) => cbv zeta
  | _ => solve [eauto 2 with plain]
  end; cbv beta.

Ltac plain_run := repeat plain_step.

Section Functions.
Context {W : Type} `{World W} (base : Z).
Abbreviation plain := (keeps (W:=W) (plain base)).

(** *** Register access *)

Lemma plain_TXTNF : plain CTU_CAN_FD_TXTNF.
Proof. unfold CTU_CAN_FD_TXTNF. plain_run. Qed.
#[local] Hint Resolve plain_TXTNF : plain.

Lemma plain_ENABLED : plain CTU_CAN_FD_ENABLED.
Proof. unfold CTU_CAN_FD_ENABLED. plain_run. Qed.
#[local] Hint Resolve plain_ENABLED : plain.

Lemma plain_write_txt_buf buf_base off val :
  0x100 <= buf_base → 0 <= off → plain (ctucan_write_txt_buf buf_base off val).
Proof.
  intros Hb Ho. unfold ctucan_write_txt_buf. apply plain_write. right.
  unfold CTUCANFD_INT_MASK_SET, CTUCANFD_INT_MASK_CLR, CTUCANFD_INT_STAT, CTUCANFD_INT_ENA_CLR. lia.
Qed.

(** *** Configuration *)

Lemma plain_set_btr bt nominal : plain (ctucan_set_btr bt nominal).
Proof. unfold ctucan_set_btr. plain_run. Qed.
#[local] Hint Resolve plain_set_btr : plain.

Lemma plain_set_bittiming : plain ctucan_set_bittiming.
Proof. unfold ctucan_set_bittiming. plain_run. Qed.
#[local] Hint Resolve plain_set_bittiming : plain.

Lemma plain_set_data_bittiming : plain ctucan_set_data_bittiming.
Proof. unfold ctucan_set_data_bittiming. plain_run. Qed.
#[local] Hint Resolve plain_set_data_bittiming : plain.

Lemma plain_set_ssp : plain ctucan_set_secondary_sample_point.
Proof. unfold ctucan_set_secondary_sample_point. plain_run. Qed.
#[local] Hint Resolve plain_set_ssp : plain.

Lemma plain_set_mode mode : plain (ctucan_set_mode mode).
Proof. unfold ctucan_set_mode. plain_run. Qed.
#[local] Hint Resolve plain_set_mode : plain.

(** Chip start does not mask the receive interrupt. *)
Lemma chip_int_msk cm : Z.testbit (u32 (u32 (Z.lnot (chip_int_ena cm)))) 10 = false.
Proof. unfold chip_int_ena. by case_match. Qed.

Lemma plain_chip_start : plain ctucan_chip_start.
Proof.
  unfold ctucan_chip_start. plain_run.
  all: apply plain_write; left; apply chip_int_msk.
Qed.
#[local] Hint Resolve plain_chip_start : plain.

Lemma plain_reset_loop fuel i : plain (ctucan_reset_loop fuel i).
Proof. revert i. induction fuel as [|fuel IH]; intros i; cbn [ctucan_reset_loop]; plain_run. Qed.
#[local] Hint Resolve plain_reset_loop : plain.

Lemma plain_reset : plain ctucan_reset.
Proof. unfold ctucan_reset. plain_run. Qed.
#[local] Hint Resolve plain_reset : plain.

Lemma plain_do_set_mode mode : plain (ctucan_do_set_mode mode).
Proof. unfold ctucan_do_set_mode. plain_run. Qed.
#[local] Hint Resolve plain_do_set_mode : plain.

(** *** Transmission *)

Lemma plain_get_tx_status buf : plain (ctucan_get_tx_status buf).
Proof. unfold ctucan_get_tx_status. plain_run. Qed.
#[local] Hint Resolve plain_get_tx_status : plain.

Lemma plain_is_txt_buf_writable buf : plain (ctucan_is_txt_buf_writable buf).
Proof. unfold ctucan_is_txt_buf_writable. plain_run. Qed.
#[local] Hint Resolve plain_is_txt_buf_writable : plain.

Lemma plain_insert_data fuel cf buf_base i :
  0x100 <= buf_base → 0 <= i → plain (insert_data fuel cf buf_base i).
Proof.
  intros Hb. revert i. induction fuel as [|fuel IH]; intros i Hi; cbn [insert_data]; plain_run.
  - apply plain_write_txt_buf; [done|]. unfold CTUCANFD_DATA_1_4_W. lia.
  - apply IH. lia.
Qed.

Lemma plain_insert_frame cf buf isfdf : 0 <= buf → plain (ctucan_insert_frame cf buf isfdf).
Proof.
  intros Hb. unfold ctucan_insert_frame. plain_run.
  1-2: apply plain_write_txt_buf; [lia|done].
  apply plain_insert_data; lia.
Qed.

Lemma plain_give_txtb_cmd cmd buf : plain (ctucan_give_txtb_cmd cmd buf).
Proof. unfold ctucan_give_txtb_cmd. plain_run. Qed.
#[local] Hint Resolve plain_give_txtb_cmd : plain.

Lemma plain_start_xmit skb : plain (ctucan_start_xmit skb).
Proof.
  unfold ctucan_start_xmit. plain_run.
  apply plain_insert_frame. unfold u8. apply Z.mod_pos_bound. lia.
Qed.
#[local] Hint Resolve plain_start_xmit : plain.

Lemma plain_rotate_txb_prio : plain ctucan_rotate_txb_prio.
Proof. unfold ctucan_rotate_txb_prio. plain_run. Qed.
#[local] Hint Resolve plain_rotate_txb_prio : plain.

Lemma plain_tx_switch id status : plain (tx_switch id status).
Proof. unfold tx_switch. plain_run. Qed.
#[local] Hint Resolve plain_tx_switch : plain.

Lemma plain_tx_release id : plain (tx_release id).
Proof. unfold tx_release. plain_run. Qed.
#[local] Hint Resolve plain_tx_release : plain.

Lemma plain_tx_while fuel first some : plain (tx_while fuel first some).
Proof. revert first some. induction fuel as [|fuel IH]; intros first some; cbn [tx_while]; plain_run. Qed.
#[local] Hint Resolve plain_tx_while : plain.

Lemma plain_tx_do_while fuel first : plain (tx_do_while fuel first).
Proof. revert first. induction fuel as [|fuel IH]; intros first; cbn [tx_do_while]; plain_run. Qed.
#[local] Hint Resolve plain_tx_do_while : plain.

Lemma plain_tx_interrupt : plain ctucan_tx_interrupt.
Proof. unfold ctucan_tx_interrupt. plain_run. Qed.

(** *** Errors *)

Lemma plain_read_fault_state : plain ctucan_read_fault_state.
Proof. unfold ctucan_read_fault_state. plain_run. Qed.
#[local] Hint Resolve plain_read_fault_state : plain.

Lemma plain_get_rec_tec : plain ctucan_get_rec_tec.
Proof. unfold ctucan_get_rec_tec. plain_run. Qed.
#[local] Hint Resolve plain_get_rec_tec : plain.

Lemma plain_get_berr_counter : plain ctucan_get_berr_counter.
Proof. unfold ctucan_get_berr_counter. plain_run. Qed.
#[local] Hint Resolve plain_get_berr_counter : plain.

Lemma plain_set_byte i v cf : plain (set_byte i v cf).
Proof. unfold set_byte. plain_run. Qed.
#[local] Hint Resolve plain_set_byte : plain.

Lemma plain_or_data i v cf : plain (or_data i v cf).
Proof. unfold or_data. plain_run. Qed.
#[local] Hint Resolve plain_or_data : plain.

Lemma plain_err_switch state bec skb : plain (err_switch state bec skb).
Proof. unfold err_switch. plain_run. Qed.
#[local] Hint Resolve plain_err_switch : plain.

Lemma plain_err_interrupt isr : plain (ctucan_err_interrupt isr).
Proof. unfold ctucan_err_interrupt. plain_run. Qed.

Lemma plain_irq_dump fuel i : plain (irq_dump fuel i).
Proof. revert i. induction fuel as [|fuel IH]; intros i; cbn [irq_dump]; plain_run. Qed.

(** *** Reception *)

Lemma plain_rx_data_loop fuel cf len i : plain (rx_data_loop fuel cf len i).
Proof. revert cf i. induction fuel as [|fuel IH]; intros cf i; cbn [rx_data_loop]; plain_run. Qed.
#[local] Hint Resolve plain_rx_data_loop : plain.

Lemma plain_rx_skip_loop fuel wc4 i : plain (rx_skip_loop fuel wc4 i).
Proof. revert i. induction fuel as [|fuel IH]; intros i; cbn [rx_skip_loop]; plain_run. Qed.
#[local] Hint Resolve plain_rx_skip_loop : plain.

Lemma plain_read_rx_frame cf ffw : plain (ctucan_read_rx_frame cf ffw).
Proof. unfold ctucan_read_rx_frame. plain_run. Qed.
#[local] Hint Resolve plain_read_rx_frame : plain.

Lemma plain_rx : plain ctucan_rx.
Proof. unfold ctucan_rx. plain_run. Qed.
#[local] Hint Resolve plain_rx : plain.

Lemma plain_read_framecnt : plain read_framecnt.
Proof. unfold read_framecnt. plain_run. Qed.
#[local] Hint Resolve plain_read_framecnt : plain.

Lemma plain_rx_poll_loop fuel quota framecnt work_done res :
  plain (rx_poll_loop fuel quota framecnt work_done res).
Proof.
  revert framecnt work_done res.
  induction fuel as [|fuel IH]; intros framecnt work_done res; cbn [rx_poll_loop]; plain_run.
Qed.

Lemma plain_rx_overflow : plain rx_overflow.
Proof. unfold rx_overflow. plain_run. Qed.

(** The calls other than opening, closing, interrupt and poll. *)
Definition other_entry (e : entry) : bool :=
  match e with E_open | E_close | E_interrupt | E_rx_poll _ => false | _ => true end.

Lemma plain_other e : other_entry e = true → plain (run_entry e).
Proof. destruct e; simpl; try done; intros _; plain_run. Qed.

End Functions.

(** ** The handlers follow their automata *)

Section Follows.
Context {W : Type} `{World W} (base : Z) {P : Type} (next : P → rx_act → option P).
Implicit Types (s : st net_device W).

Definition follows {A} (p : P) (m : M net_device W A) (Q : A → P → Prop) : Prop :=
  ∀ s, wk_dev base (drv s) → let '(r, s') := m s in
    wk_dev base (drv s') ∧ ∃ tr p', trace s' = trace s ++ tr ∧ accept base next p tr = Some p' ∧
    match r with Ok a => Q a p' | _ => True end.

Lemma follows_ret {A} p (a : A) (Q : A → P → Prop) : Q a p → follows p (mret a) Q.
Proof. intros HQ s Hs. split; [done|]. exists [], p. by rewrite app_nil_r. Qed.

Lemma follows_bind {A B} p (m : M net_device W A) (k : A → M net_device W B) R Q :
  follows p m R → (∀ a p', R a p' → follows p' (k a) Q) → follows p (m ≫= k) Q.
Proof.
  intros Hm Hk s Hs. specialize (Hm s Hs). unfold mbind, M_bind. destruct (m s) as [[a|u|] s1].
  - destruct Hm as (Hs1 & t1 & p1 & T1 & A1 & HR). specialize (Hk a p1 HR s1 Hs1).
    destruct (k a s1) as [r s2]. destruct Hk as (Hs2 & t2 & p2 & T2 & A2 & HQ). split; [done|].
    exists (t1 ++ t2), p2. rewrite T2, T1, app_assoc, accept_app, A1. done.
  - destruct Hm as (Hs1 & t1 & p1 & T1 & A1 & _). split; [done|]. by exists t1, p1.
  - destruct Hm as (Hs1 & t1 & p1 & T1 & A1 & _). split; [done|]. by exists t1, p1.
Qed.

Lemma follows_mono {A} p (m : M net_device W A) (R Q : A → P → Prop) :
  follows p m R → (∀ a p', R a p' → Q a p') → follows p m Q.
Proof.
  intros Hm HQ s Hs. specialize (Hm s Hs). destruct (m s) as [r s'].
  destruct Hm as (? & tr & p' & ? & ? & Hr). split; [done|]. exists tr, p'. split_and!; [done..|].
  destruct r; auto.
Qed.

(** What has no action leaves the automaton where it is. *)
Lemma follows_plain {A} p (m : M net_device W A) :
  keeps (plain base) m → next p ra_none = Some p → follows p m (λ _ p', p' = p).
Proof.
  intros Hm Hp s Hs. specialize (Hm s Hs). destruct (m s) as [r s']. destruct Hm as (Hs' & tr & Ht & Htr).
  split; [done|]. exists tr, p. split_and!; [done|by apply accept_plain|by destruct r].
Qed.

Lemma follows_when b p m (Q : unit → P → Prop) :
  (b = true → follows p m Q) → (b = false → Q tt p) → follows p (when b m) Q.
Proof. destruct b; simpl; intros Ht Hf; [by apply Ht|by apply follows_ret, Hf]. Qed.

Lemma accept_one p e p' : next p (act base e) = Some p' → accept base next p [e] = Some p'.
Proof. intros E. cbn [accept]. by rewrite E. Qed.

Lemma follows_write p reg val p' :
  next p (act base (EvStore (base + reg) (u32 val))) = Some p' →
  follows p (ctucan_write32 reg val) (λ _ q, q = p').
Proof.
  intros E s Hs. pose proof Hs as [Hle Hb].
  pose proof (wp_write32 reg val s (λ _ s', wk_dev base (drv s') ∧
    trace s' = trace s ++ [EvStore (base + reg) (u32 val)]) Hle) as Hw.
  unfold wp, reg_at in Hw. rewrite Hb in Hw. specialize (Hw (conj Hs eq_refl)).
  destruct (ctucan_write32 reg val s) as [[[]|u|] s']; try done. destruct Hw as [Hs' Ht]. split; [done|].
  eexists _, p'. split_and!; [exact Ht|by apply accept_one|done].
Qed.

Lemma follows_call p c (Q : Z → P → Prop) :
  (∀ r, ∃ p', next p (act base (EvCall c r)) = Some p' ∧ Q r p') → follows p (call c) Q.
Proof.
  intros Hc [n w tr] Hs. unfold call. cbn [world drv trace]. destruct (w_call c w) as [r w'].
  destruct (Hc r) as (p' & E & HQ). split; [done|]. eexists _, p'. split_and!; [done|by apply accept_one|done].
Qed.

Lemma follows_call_ p c p' :
  (∀ r, next p (act base (EvCall c r)) = Some p') → follows p (call_ c) (λ _ q, q = p').
Proof.
  intros Hc. unfold call_. eapply follows_bind; [apply (follows_call _ _ (λ _ q, q = p')); eauto|].
  intros r q ->. by apply follows_ret.
Qed.

End Follows.

(** A known action, then the rest. *)
Ltac follow_act :=
  eapply follows_bind;
  [first [apply follows_write | apply follows_call_; intros ?];
   cbn [act]; rewrite ?Z.eqb_refl; repeat (rewrite (proj2 (Z.eqb_neq _ _)) by (unfold CTUCANFD_INT_MASK_SET, CTUCANFD_INT_MASK_CLR, CTUCANFD_INT_STAT, CTUCANFD_INT_ENA_CLR; lia)); reflexivity
  |intros ? ? ->; cbv beta].

Section Handlers.
Context {W : Type} `{World W} (base : Z).

(** The acknowledgement of the error interrupts leaves RBNEI alone. *)
Lemma err_icr_rbnei isr : Z.testbit (u32 (Z.land isr (Z.lor (Z.lor REG_INT_STAT_EWLI REG_INT_STAT_FCSI) REG_INT_STAT_ALI))) 10 = false.
Proof. rewrite testbit_u32, Z.land_spec by done. apply andb_false_iff. left. apply andb_false_r. Qed.

Lemma follows_irq_body isr :
  follows (W:=W) base isr_next I_rest (irq_body isr) (λ _ p, p = I_rest).
Proof.
  unfold irq_body. eapply (follows_bind _ _ _ _ _ (λ _ p, p = I_rest)).
  { apply follows_when; intros _; [|done]. cbv zeta. do 2 follow_act. by apply follows_call_. }
  intros _ ? ->. eapply follows_bind.
  { apply follows_plain; [|done]. plain_run. apply plain_tx_interrupt. }
  intros _ ? ->. apply follows_plain; [|done]. cbv zeta. plain_run.
  - apply plain_write. left. apply err_icr_rbnei.
  - apply plain_err_interrupt.
Qed.

Lemma follows_irq_loop n loops isr :
  follows (W:=W) base isr_next I_rest (irq_loop n loops isr) (λ _ p, p = I_rest).
Proof.
  revert loops isr. induction n as [|n IH]; intros loops isr; cbn [irq_loop]; [by apply follows_ret|].
  eapply follows_bind; [apply follows_plain; [apply plain_read|done]|]. intros v ? ->.
  case_match; [by apply follows_ret|].
  eapply follows_bind; [apply follows_irq_body|]. intros ? ? ->. apply IH.
Qed.

(** Every run of the interrupt handler is accepted; when it returns it is at rest or, after the loop was used up, has
    disabled the interrupt. *)
Lemma follows_interrupt :
  follows (W:=W) base isr_next I_rest ctucan_interrupt (λ _ p, p = I_rest ∨ p = I_off).
Proof.
  unfold ctucan_interrupt. eapply follows_bind; [apply follows_irq_loop|]. intros [ret|isr] ? ->.
  - apply follows_ret. by left.
  - eapply follows_bind; [apply follows_plain; [apply plain_call_; done|done]|]. intros ? ? ->.
    eapply follows_bind.
    { apply follows_plain; [|done]. plain_run. apply plain_irq_dump. }
    intros ? ? ->. cbv zeta. do 2 follow_act. apply follows_ret. by right.
Qed.

(** Every run of the poll is accepted; it returns completed, with the receive interrupt unmasked if the kernel
    confirmed the completion, or without having called [napi_complete_done]. *)
Lemma follows_rx_poll quota :
  follows (W:=W) base poll_next P_open (ctucan_rx_poll quota) (λ _ p, p = P_open ∨ p = P_over).
Proof.
  unfold ctucan_rx_poll.
  eapply follows_bind; [apply follows_plain; [apply plain_read_framecnt|done]|]. intros fc ? ->.
  eapply follows_bind; [apply follows_plain; [apply plain_rx_poll_loop|done]|]. intros [[fc' wd] res] ? ->.
  eapply follows_bind; [apply follows_plain; [apply plain_read|done]|]. intros status ? ->.
  eapply follows_bind; [apply follows_plain; [plain_run; apply plain_rx_overflow|done]|]. intros _ ? ->.
  eapply (follows_bind _ _ _ _ _ (λ _ p, p = P_open ∨ p = P_over)); [|intros _ p Hp; by apply follows_ret].
  case_match; [|by apply follows_ret; left].
  eapply follows_bind.
  { apply (follows_call _ _ _ _ (λ r p, p = if r =? 0 then P_over else P_done)). intros r. cbn [act].
    destruct (r =? 0); by eexists. }
  intros r ? ->. unfold nz. apply follows_when; destruct (r =? 0); try done; [|by right]. intros _. follow_act.
  eapply follows_mono; [apply (follows_write _ _ _ _ _ P_over)|by right; subst]. cbn [act]. rewrite Z.eqb_refl.
  by rewrite (proj2 (Z.eqb_neq _ _)) by (unfold CTUCANFD_INT_MASK_SET, CTUCANFD_INT_MASK_CLR; lia).
Qed.

End Handlers.

(** ** Runs *)

(** [tr] is the trace of a run of [e] that returns, in some world, on a device with the core at [base]. *)
Definition entry_run (base : Z) (e : entry) (tr : list event) : Prop :=
  ∃ (W : Type) (HW : World W) (s s' : st net_device W) r,
    wk_dev base (drv s) ∧ run_entry e s = (Ok r, s') ∧ trace s' = trace s ++ tr.

Section Runs.
Context (base : Z).

Lemma app_same_inv {A} (l l1 l2 : list A) : l ++ l1 = l ++ l2 → l1 = l2.
Proof. by intros ?%app_inv_head. Qed.

Lemma follows_run {P} (next : P → rx_act → option P) p e tr (Q : P → Prop) :
  entry_run base e tr →
  (∀ W (HW : World W), follows (W:=W) base next p (run_entry e) (λ _, Q)) →
  ∃ p', accept base next p tr = Some p' ∧ Q p'.
Proof.
  intros (W & HW & s & s' & r & Hs & Hr & Ht) Hf. specialize (Hf W HW s Hs). rewrite Hr in Hf.
  destruct Hf as (_ & tr' & p' & Ht' & Ha & HQ). rewrite Ht in Ht'. apply app_same_inv in Ht' as ->. by exists p'.
Qed.

(** The handler ends in [I_off] only after it has disabled the interrupt. *)
Lemma isr_off_act p tr : p ≠ I_off → accept base isr_next p tr = Some I_off → Exists (λ e, act base e = ra_off) tr.
Proof.
  revert p. induction tr as [|e tr IH]; intros p Hp; cbn [accept]; [by intros [= ->]|].
  destruct (isr_next p (act base e)) as [p1|] eqn:E; [|done]. intros Ha.
  destruct p1; [right; by eapply (IH I_rest)|right; by eapply (IH I_masked)|right; by eapply (IH I_acked)|].
  left. destruct p, (act base e); try done.
Qed.

Lemma isr_run_rest tr :
  entry_run base E_interrupt tr → Forall (λ e, act base e ≠ ra_off) tr →
  accept base isr_next I_rest tr = Some I_rest.
Proof.
  intros Hr Hoff. destruct (follows_run isr_next I_rest _ _ (λ p, p = I_rest ∨ p = I_off) Hr) as (p & Ha & [->| ->]); [|done|].
  - intros W HW. eapply follows_bind; [apply follows_interrupt|]. intros a p Hp. by apply follows_ret.
  - apply isr_off_act in Ha; [|done]. apply Exists_exists in Ha as (e & He & Ho). rewrite Forall_forall in Hoff. by apply Hoff in He.
Qed.

(** A poll leaves [P_open] with its call of [napi_complete_done], and for good. *)
Lemma poll_next_open p a p' :
  p ≠ P_open → poll_next p a = Some p' → p' ≠ P_open.
Proof. by destruct p, a as [| | | | | |[]|]; simpl; intros; simplify_eq. Qed.

Lemma accept_not_open p tr p' : p ≠ P_open → accept base poll_next p tr = Some p' → p' ≠ P_open.
Proof.
  revert p. induction tr as [|e tr IH]; intros p Hp; cbn [accept]; [by intros [= <-]|].
  destruct (poll_next p (act base e)) as [p1|] eqn:E; [|done]. apply IH. by eapply poll_next_open.
Qed.

Lemma act_done e b : act base e = ra_done b → ∃ k r, e = EvCall (napi_complete_done k) r.
Proof. destruct e as [|a v|[]|]; cbn [act]; repeat case_match; naive_solver. Qed.

Lemma accept_open tr p' :
  accept base poll_next P_open tr = Some p' → p' ≠ P_open ↔ completed tr.
Proof.
  induction tr as [|e tr IH]; cbn [accept]; [intros [= <-]; split; [done|by intros (? & ? & ?%not_elem_of_nil)]|].
  destruct (act base e) as [| | | | | |b|] eqn:Ea; try done.
  - intros Ha. cbn [poll_next] in Ha. rewrite (IH Ha). unfold completed.
    split; intros (k & r & Hin); exists k, r; [by right|]. apply elem_of_cons in Hin as [<-|]; [done|done].
  - intros Ha. split.
    + intros _. apply act_done in Ea as (k & r & ->). exists k, r. by left.
    + intros _. destruct b; cbn [poll_next] in Ha; by eapply accept_not_open in Ha.
Qed.

(** [tr] is the trace of a run of the poll that returns [wd], in some world with a FIFO that behaves as
    [RxDevice] says, before a poll that finds whole frames. *)
Definition poll_run (quota wd : Z) (tr : list event) : Prop :=
  ∃ (W : Type) (HW : World W) (HA : AllocOk W) (fifo : W → list Z) (HR : RxDevice W base fifo)
    (s s' : st net_device W) frames,
    rx_dev base (drv s) ∧ rx_queue fifo s frames ∧
    run_entry (E_rx_poll quota) s = (Ok (Ret_int wd), s') ∧ trace s' = trace s ++ tr.

(** What NAPI asks of a poll: only a poll that returns less than its quota has called [napi_complete_done]. *)
Definition napi_contract (quota wd : Z) (tr : list event) : Prop := completed tr → wd < quota.

(** How a poll that could allocate its buffers ends: completed, or with its quota used up. *)
Lemma poll_run_accept quota wd tr :
  poll_run quota wd tr → ¬ alloc_failed tr →
  (accept base poll_next P_open tr = Some P_over ∧ completed tr) ∨
  (accept base poll_next P_open tr = Some P_open ∧ quota <= wd).
Proof.
  intros (W & HW & HA & fifo & HR & s & s' & frames & Hd & Hq & Hr & Ht) Hno.
  assert (Hm : ctucan_rx_poll quota s = (Ok wd, s')).
  { revert Hr. unfold run_entry, mbind, M_bind. destruct (ctucan_rx_poll quota s) as [[r|u|] s1]; try done.
    by intros [= -> ->]. }
  pose proof (follows_rx_poll base quota s Hd) as Hf. rewrite Hm in Hf.
  destruct Hf as (_ & tr1 & p & Ht1 & Ha & Hp). rewrite Ht in Ht1. apply app_same_inv in Ht1 as <-.
  pose proof (rx_poll_budget base fifo quota frames s Hd Hq) as Hb. unfold wp in Hb. rewrite Hm in Hb.
  destruct Hb as (tr1 & Ht1 & Hb). rewrite Ht in Ht1. apply app_same_inv in Ht1 as <-.
  apply accept_open in Ha as Hc. destruct Hp as [->| ->].
  - right. split; [done|]. destruct Hb as [Hb%Hc|[|]]; done.
  - left. split; [done|]. by apply Hc.
Qed.

Lemma other_run_plain e tr : entry_run base e tr → other_entry e = true → Forall (λ e, act base e = ra_none) tr.
Proof.
  intros (W & HW & s & s' & r & Hs & Hr & Ht) He. pose proof (plain_other base e He s Hs) as (_ & tr' & Ht' & Htr).
  rewrite Hr in Ht'. cbn in Ht'. rewrite Ht in Ht'. by apply app_same_inv in Ht' as ->.
Qed.

Lemma accept_concat {P} (next : P → rx_act → option P) p trs :
  Forall (λ tr, accept base next p tr = Some p) trs → accept base next p (concat trs) = Some p.
Proof. induction 1 as [|tr trs Ht _ IH]; [done|]. cbn [concat]. by rewrite accept_app, Ht. Qed.

End Runs.
