(* ===== verification/Wake.v ===== *)
(** * Reception never sleeps while there are frames

    The interrupt handler, the poll and the other functions of the driver, interleaved event by event with each
    other, with the NAPI layer of the kernel and with the interrupt manager of the core, cycle by cycle: as long as
    the RX FIFO is not empty, the kernel is going to call the poll or the core requests an interrupt.

    A run is a sequence of items: a clock cycle without an access of the bus, an event of one of the
    actors, the call of a poll by NAPI and its return with a number; a load or a store takes one cycle.  The kernel
    runs at most one interrupt handler and one poll of a device at a time. *)

From Stdlib Require Import ZArith Lia.
From stdpp Require Import base numbers list strings sets.
From S2P Require Import Prelude LinuxDefs World Kregs Base Sim BaseCfg BaseTx RxFifo BaseRx BaseIrq Endian TxArb IntMan RxIrq.

#[local] Open Scope Z_scope.

(** ** The NAPI layer

    What the documentation of the kernel promises.  An instance is [due] when the kernel is going to call its
    poll, and [owned] while a poll was called and has not completed it.  A disabled instance cannot be scheduled; an
    enabled one is due after [napi_schedule] unless a poll owns it.  [napi_complete_done] takes the instance
    from the poll, and when it returns false (0) the poll will be called again.  What the kernel does when a
    poll returns depends on the number: with the quota used up and the instance not completed it calls the poll again;
    a poll that completed the instance must return less.  Nothing is promised for a poll that returns less
    without having completed (it keeps the instance and is not called again) or that completed and returns its quota. *)
Class Napi (N : Type) := {
  n_enabled : N → bool;
  n_due : N → bool;
  n_owned : N → bool;
  n_enable : N → N;
  n_schedule : N → N;
  n_begin : N → N;
  n_complete : N → Z * N;
  n_return : Z → Z → N → N;  (** quota and result of the poll *)
  n_enable_law n : n_enabled (n_enable n) = true ∧ n_due (n_enable n) = false ∧ n_owned (n_enable n) = false;
  n_schedule_law n : n_enabled (n_schedule n) = n_enabled n ∧ n_owned (n_schedule n) = n_owned n ∧
    (n_due n = true → n_due (n_schedule n) = true) ∧
    (n_enabled n = true → n_owned n = false → n_due (n_schedule n) = true);
  n_begin_law n : n_enabled n = true → n_due n = true →
    n_enabled (n_begin n) = true ∧ n_owned (n_begin n) = true;
  n_complete_law n : n_owned n = true →
    n_enabled (n_complete n).2 = n_enabled n ∧ n_owned (n_complete n).2 = false ∧
    ((n_complete n).1 = 0 → n_due (n_complete n).2 = true);
  n_return_owned quota wd n : n_owned n = true → quota <= wd →
    n_enabled (n_return quota wd n) = n_enabled n ∧ n_owned (n_return quota wd n) = false ∧
    n_due (n_return quota wd n) = true;
  n_return_completed quota wd n : n_owned n = false → wd < quota →
    n_enabled (n_return quota wd n) = n_enabled n ∧ n_owned (n_return quota wd n) = false ∧
    (n_due n = true → n_due (n_return quota wd n) = true);
}.

(** ** The system *)

Inductive actor := by_isr | by_poll | by_other.

#[export] Instance actor_eq_dec : EqDecision actor.
Proof. solve_decision. Defined.

Inductive item :=
  | it_cycle (c : int_cycle)
  | it_ev (a : actor) (e : event) (c : int_cycle)
  | it_begin
  | it_return (quota wd : Z).

Record sys (N : Type) := mksys { sy_core : int_regs; sy_napi : N }.
Arguments mksys {N}.
Arguments sy_core {N}.
Arguments sy_napi {N}.

(** The events of an actor. *)
Fixpoint proj (a : actor) (items : list item) : list event :=
  match items with
  | it_ev a' e _ :: items => if decide (a' = a) then e :: proj a items else proj a items
  | _ :: items => proj a items
  | [] => []
  end.

(** What a run shows of the polls: their calls, events and returns. *)
Inductive poll_label := pl_begin | pl_ev (e : event) | pl_return (quota wd : Z).

Fixpoint polling (items : list item) : list poll_label :=
  match items with
  | it_begin :: items => pl_begin :: polling items
  | it_return quota wd :: items => pl_return quota wd :: polling items
  | it_ev by_poll e _ :: items => pl_ev e :: polling items
  | _ :: items => polling items
  | [] => []
  end.

(** A poll as it was called: its quota, its events and its result. *)
Record poll_call := mkpoll { pc_quota : Z; pc_trace : list event; pc_result : Z }.

Definition poll_labels (p : poll_call) : list poll_label :=
  pl_begin :: (pl_ev <$> pc_trace p) ++ [pl_return (pc_quota p) (pc_result p)].

Section System.
Context (base : Z) {N : Type} `{Napi N}.
Implicit Types (s : sys N).

Definition with_bus (c : int_cycle) (x : tx_access) : int_cycle := mkicycle (ic_reset c) (ic_src c) (Some x).

(** An event at the core: the access of a cycle with the inputs [c]. *)
Definition core_ev (c : int_cycle) (e : event) (r : int_regs) : int_regs :=
  match e with
  | EvLoad a v => int_tick (with_bus c (bus_rd (a - base) v)) r
  | EvStore a v => int_tick (with_bus c (bus_wr (a - base) v)) r
  | _ => r
  end.

(** An event at the kernel; the result of [napi_complete_done] is what NAPI answers. *)
Definition napi_ev (e : event) (n : N) : option N :=
  match e with
  | EvCall napi_schedule _ => Some (n_schedule n)
  | EvCall (napi_complete_done _) r => if r =? (n_complete n).1 then Some (n_complete n).2 else None
  | EvCall napi_enable _ => Some (n_enable n)
  | EvCall napi_disable _ => None
  | _ => Some n
  end.

Definition step_item (x : item) s : option (sys N) :=
  match x with
  | it_cycle c =>
      match ic_bus c with None => Some (mksys (int_tick c (sy_core s)) (sy_napi s)) | Some _ => None end
  | it_ev _ e c => n ← napi_ev e (sy_napi s); Some (mksys (core_ev c e (sy_core s)) n)
  | it_begin => if n_due (sy_napi s) then Some (mksys (sy_core s) (n_begin (sy_napi s))) else None
  | it_return quota wd => Some (mksys (sy_core s) (n_return quota wd (sy_napi s)))
  end.

Fixpoint exec (items : list item) s : option (sys N) :=
  match items with
  | [] => Some s
  | x :: items => s' ← step_item x s; exec items s'
  end.

(** The receive interrupt. *)
Definition RBNEI_IND : nat := 10.
Definition rbnei s : int_module := int_of (sy_core s) RBNEI_IND.

(** Polling is enabled, no poll is running, the interrupt is not masked. *)
Definition started s : Prop :=
  length (int_modules (sy_core s)) = C_INT_COUNT ∧ n_enabled (sy_napi s) = true ∧ n_owned (sy_napi s) = false ∧
  int_mask_i (rbnei s) = false.

(** ** The polls

    The calls, events and returns of the polls as an automaton: a poll that did not complete returns its quota,
    one that completed less. *)
Definition poll_step (p : poll_pc) (l : poll_label) : option poll_pc :=
  match l, p with
  | pl_begin, P_idle => Some P_open
  | pl_ev e, _ => poll_next p (act base e)
  | pl_return quota wd, P_open => if quota <=? wd then Some P_idle else None
  | pl_return quota wd, P_over => if wd <? quota then Some P_idle else None
  | _, _ => None
  end.

Fixpoint poll_steps (p : poll_pc) (ls : list poll_label) : option poll_pc :=
  match ls with
  | [] => Some p
  | l :: ls => p' ← poll_step p l; poll_steps p' ls
  end.

Lemma poll_steps_app p l1 l2 : poll_steps p (l1 ++ l2) = (p' ← poll_steps p l1; poll_steps p' l2).
Proof.
  revert p. induction l1 as [|l l1 IH]; intros p; [done|]. cbn [poll_steps app].
  destruct (poll_step p l) as [p'|]; [|done]. apply IH.
Qed.

Lemma poll_steps_events p tr : poll_steps p (pl_ev <$> tr) = accept base poll_next p tr.
Proof.
  revert p. induction tr as [|e tr IH]; intros p; [done|]. cbn [fmap list_fmap poll_steps poll_step accept].
  destruct (poll_next p (act base e)) as [p'|]; [|done]. apply IH.
Qed.

(** The polls of the theorem: runs of the code that could allocate their buffers and kept the rule of NAPI. *)
Definition good_poll (p : poll_call) : Prop :=
  poll_run base (pc_quota p) (pc_result p) (pc_trace p) ∧ ¬ alloc_failed (pc_trace p) ∧
  napi_contract (pc_quota p) (pc_result p) (pc_trace p).

Lemma good_poll_steps p : good_poll p → poll_steps P_idle (poll_labels p) = Some P_idle.
Proof.
  intros (Hr & Hno & Hc). unfold poll_labels. cbn [poll_steps poll_step mbind option_bind].
  rewrite poll_steps_app, poll_steps_events.
  destruct (poll_run_accept base _ _ _ Hr Hno) as [[-> Hd%Hc]|[-> Hw]];
    cbn [poll_steps poll_step mbind option_bind]; [by rewrite (proj2 (Z.ltb_lt _ _))|by rewrite (proj2 (Z.leb_le _ _))].
Qed.

Lemma good_polls_steps polls : Forall good_poll polls → poll_steps P_idle (concat (poll_labels <$> polls)) = Some P_idle.
Proof.
  induction 1 as [|p polls Hp _ IH]; [done|]. cbn [fmap list_fmap concat]. by rewrite poll_steps_app, good_poll_steps.
Qed.

(** ** The invariant *)

(** If the receive interrupt is masked then somebody is about to poll or to unmask it. *)
Record wake_inv (pi : isr_pc) (pp : poll_pc) s : Prop := {
  wi_len : length (int_modules (sy_core s)) = C_INT_COUNT;
  wi_on : n_enabled (sy_napi s) = true;
  wi_owned : n_owned (sy_napi s) = bool_decide (pp = P_open);
  wi_mask : int_mask_i (rbnei s) = true →
    n_due (sy_napi s) = true ∨ pi ≠ I_rest ∨ (pp ≠ P_idle ∧ pp ≠ P_over);
}.

(** The mask after a cycle. *)
Lemma mask_tick c (r : int_regs) : length (int_modules r) = C_INT_COUNT →
  int_mask_i (int_of (int_tick c r) RBNEI_IND) = true →
  strobe c INT_MASK_SET_ADR RBNEI_IND = true ∨
  (int_mask_i (int_of r RBNEI_IND) = true ∧ strobe c INT_MASK_CLR_ADR RBNEI_IND = false).
Proof.
  intros Hlen. rewrite int_of_tick by (done || (vm_compute; lia)). destruct (ic_reset c); [done|].
  cbn [int_module_tick int_mask_i]. unfold int_mask_load, int_mask_next. cbn [int_ports int_mask_set int_mask_clear].
  destruct (strobe c INT_MASK_SET_ADR _), (strobe c INT_MASK_CLR_ADR _); simpl; auto.
Qed.

Lemma core_ev_length c e r : length (int_modules r) = C_INT_COUNT → length (int_modules (core_ev c e r)) = C_INT_COUNT.
Proof. destruct e; simpl; auto using int_tick_length. Qed.

(** The mask after an event: only the action [ra_mask] sets it, and [ra_unmask] clears it. *)
Lemma mask_ev c e (r : int_regs) : length (int_modules r) = C_INT_COUNT →
  int_mask_i (int_of (core_ev c e r) RBNEI_IND) = true →
  act base e = ra_mask ∨ (int_mask_i (int_of r RBNEI_IND) = true ∧ act base e ≠ ra_unmask).
Proof.
  intros Hlen. destruct e as [a v|a v|k ret|k ok]; cbn [core_ev].
  - intros Hm. apply mask_tick in Hm; [|done]. right. by destruct Hm as [|[]].
  - intros Hm. apply mask_tick in Hm; [|done]. unfold strobe in Hm. cbn [with_bus ic_bus] in Hm.
    change (Z.of_nat RBNEI_IND) with 10 in Hm. cbn [act].
    unfold INT_MASK_SET_ADR, INT_MASK_CLR_ADR, CTUCANFD_INT_MASK_SET, CTUCANFD_INT_MASK_CLR, CTUCANFD_INT_STAT, CTUCANFD_INT_ENA_CLR in *.
    destruct (Z.testbit v 10); rewrite ?andb_true_r, ?andb_false_r in Hm; cbn [negb].
    + destruct Hm as [Hm%Z.eqb_eq|[Hm Hc%Z.eqb_neq]].
      * left. by rewrite (proj2 (Z.eqb_eq _ _)) by lia.
      * destruct (Z.eqb_spec a (base + 0x1c)); [by left|]. right. split; [done|].
        rewrite (proj2 (Z.eqb_neq _ _)) by lia. by repeat case_match.
    + right. by destruct Hm as [|[]].
  - intros Hm. right. split; [done|]. by destruct k.
  - intros Hm. by right.
Qed.

(** NAPI after an event. *)
Lemma napi_ev_act e n n' : napi_ev e n = Some n' →
  match act base e with
  | ra_sched => n' = n_schedule n
  | ra_done again => n' = (n_complete n).2 ∧ (again = true → (n_complete n).1 = 0)
  | ra_switch => True
  | _ => n' = n
  end.
Proof.
  destruct e as [| |k ret|]; cbn [napi_ev act]; try (intros [= ->]; repeat case_match; done).
  destruct k; try (by intros [= ->]); try done.
  destruct (Z.eqb_spec ret (n_complete n).1) as [->|]; [|done]. intros [= <-].
  split; [done|]. by intros Hr%Z.eqb_eq.
Qed.

Lemma wake_inv_cycle pi pp s c :
  ic_bus c = None → wake_inv pi pp s → wake_inv pi pp (mksys (int_tick c (sy_core s)) (sy_napi s)).
Proof.
  intros Hb [Hlen Hon Hown Hm]. constructor; cbn [sy_core sy_napi]; [by apply int_tick_length|done..|].
  intros Hmask. apply Hm. apply mask_tick in Hmask as [Hs|[]]; [|done|done]. unfold strobe in Hs. by rewrite Hb in Hs.
Qed.

Lemma wake_inv_isr pi pi' pp s c e n :
  wake_inv pi pp s → napi_ev e (sy_napi s) = Some n → isr_next pi (act base e) = Some pi' →
  wake_inv pi' pp (mksys (core_ev c e (sy_core s)) n).
Proof.
  intros [Hlen Hon Hown Hm] Hn Hpi. apply napi_ev_act in Hn.
  destruct (n_schedule_law (sy_napi s)) as (Hs1 & Hs2 & Hs3 & Hs4).
  assert (Hsched : n_due (n_schedule (sy_napi s)) = true ∨ pp = P_open).
  { destruct (decide (pp = P_open)); [by right|left]. apply Hs4; [done|]. rewrite Hown. by apply bool_decide_eq_false. }
  constructor; cbn [sy_core sy_napi];
    [by apply core_ev_length| | |intros Hmask; apply mask_ev in Hmask; [|done]];
    destruct pi, (act base e) as [| | | | | |[]|] eqn:Ea; try done; injection Hpi as <-; subst n; try done;
    rewrite ?Hs1, ?Hs2; auto.
  all: try (destruct Hmask as [|[]]; by auto).
  destruct Hsched as [Hs| ->]; auto.
Qed.

Lemma wake_inv_poll pi pp pp' s c e n :
  wake_inv pi pp s → napi_ev e (sy_napi s) = Some n → poll_next pp (act base e) = Some pp' →
  wake_inv pi pp' (mksys (core_ev c e (sy_core s)) n).
Proof.
  intros [Hlen Hon Hown Hm] Hn Hpp. apply napi_ev_act in Hn.
  assert (Hc : pp = P_open → n_enabled (n_complete (sy_napi s)).2 = true ∧ n_owned (n_complete (sy_napi s)).2 = false ∧
    ((n_complete (sy_napi s)).1 = 0 → n_due (n_complete (sy_napi s)).2 = true)).
  { intros ->. destruct (n_complete_law (sy_napi s) Hown) as (Hc1 & Hc2 & Hc3). by rewrite Hc1. }
  constructor; cbn [sy_core sy_napi]; [by apply core_ev_length| | |intros Hmask; apply mask_ev in Hmask; [|done]];
    destruct pp, (act base e) as [| | | | | |[]|] eqn:Ea; try done; injection Hpp as <-;
    try match type of Hn with _ ∧ _ => destruct Hn as [-> Hn]; destruct (Hc eq_refl) as (? & ? & ?) end; subst; auto.
  all: destruct Hmask as [|[]]; naive_solver.
Qed.

Lemma wake_inv_other pi pp s c e n :
  wake_inv pi pp s → napi_ev e (sy_napi s) = Some n → act base e = ra_none →
  wake_inv pi pp (mksys (core_ev c e (sy_core s)) n).
Proof.
  intros [Hlen Hon Hown Hm] Hn Ha. apply napi_ev_act in Hn. rewrite Ha in Hn. subst n.
  constructor; cbn [sy_core sy_napi]; [by apply core_ev_length|done..|].
  intros Hmask. apply mask_ev in Hmask as [|[]]; [congruence| |done]. by apply Hm.
Qed.

(** NAPI calls the poll and takes its result. *)
Lemma wake_inv_begin pi pp' s :
  wake_inv pi P_idle s → n_due (sy_napi s) = true → poll_step P_idle pl_begin = Some pp' →
  wake_inv pi pp' (mksys (sy_core s) (n_begin (sy_napi s))).
Proof.
  intros [Hlen Hon Hown Hm] Hdue [= <-]. destruct (n_begin_law _ Hon Hdue) as [Hb1 Hb2].
  constructor; cbn [sy_core sy_napi]; [done..|]. intros _. by right; right.
Qed.

Lemma wake_inv_return pi pp pp' s quota wd :
  wake_inv pi pp s → poll_step pp (pl_return quota wd) = Some pp' →
  wake_inv pi pp' (mksys (sy_core s) (n_return quota wd (sy_napi s))).
Proof.
  intros [Hlen Hon Hown Hm] Hp. destruct pp; cbn [poll_step] in Hp; try done; case_match; simplify_eq.
  - destruct (n_return_owned quota wd (sy_napi s)) as (? & ? & ?); [by rewrite Hown|lia|].
    constructor; cbn [sy_core sy_napi]; [done|congruence|done|]. by left.
  - destruct (n_return_completed quota wd (sy_napi s)) as (? & ? & Hkeep); [by rewrite Hown|lia|].
    constructor; cbn [sy_core sy_napi]; [done|congruence|done|]. intros Hmask.
    destruct (Hm Hmask) as [|[|[]]]; auto.
Qed.

(** The invariant along a run whose handlers are accepted. *)
Lemma wake_inv_exec items pi pi' pp pp' s s' :
  accept base isr_next pi (proj by_isr items) = Some pi' →
  poll_steps pp (polling items) = Some pp' →
  Forall (λ e, act base e = ra_none) (proj by_other items) →
  exec items s = Some s' → wake_inv pi pp s → wake_inv pi' pp' s'.
Proof.
  revert pi pp s. induction items as [|[c|a e c| |quota wd] items IH]; intros pi pp s Hi Hp Ho;
    cbn [exec proj polling step_item] in *.
  - by injection Hi as <-; injection Hp as <-; intros [= <-].
  - destruct (ic_bus c) eqn:Hb; [done|]. simpl. intros He Hinv. by eapply IH, wake_inv_cycle.
  - destruct (napi_ev e (sy_napi s)) as [n|] eqn:Hn; [|done]. simpl. intros He Hinv.
    destruct a; simpl in Hi, Hp, Ho.
    + destruct (isr_next pi (act base e)) as [p1|] eqn:E; [|done]. by eapply IH, wake_inv_isr.
    + destruct (poll_next pp (act base e)) as [p1|] eqn:E; [|done]. by eapply IH, wake_inv_poll.
    + apply Forall_cons in Ho as [He0 Ho]. by eapply IH, wake_inv_other.
  - destruct (n_due (sy_napi s)) eqn:Hdue; [|done]. simpl. intros He Hinv. cbn [poll_steps] in Hp.
    destruct (poll_step pp pl_begin) as [p1|] eqn:E; [|done]. destruct pp; try done. by eapply IH, wake_inv_begin.
  - intros He Hinv. cbn [poll_steps] in Hp.
    destruct (poll_step pp _) as [p1|] eqn:E; [|done]. by eapply IH, wake_inv_return.
Qed.

(** ** The request *)

(** A cycle without an access of the bus and without reset. *)
Definition quiet_cycle (c : int_cycle) : Prop := ic_reset c = false ∧ ic_bus c = None.

(** Nothing is cleared, masked or disabled in such a cycle. *)
Lemma quiet_tick c r i : length (int_modules r) = C_INT_COUNT → (i < C_INT_COUNT)%nat → quiet_cycle c →
  int_of (int_tick c r) i =
    mkim (int_input_active (ic_src c) i && negb (int_mask_i (int_of r i)) || int_status (int_of r i))
      (int_mask_i (int_of r i)) (int_ena_i (int_of r i)).
Proof.
  intros Hlen Hi [Hr Hb]. rewrite int_of_tick, Hr by done. unfold int_module_tick, int_ports, int_mask_load, int_mask_next, strobe.
  rewrite Hb. cbn [int_status_set int_status_clear int_mask_set int_mask_clear int_ena_set int_ena_clear orb]. by destruct (_ && _).
Qed.

Lemma pending_requested cs r i : length (int_modules r) = C_INT_COUNT → (i < C_INT_COUNT)%nat →
  Forall quiet_cycle cs → cs ≠ [] → int_status (int_of r i) = true → int_ena_i (int_of r i) = true →
  int_q (int_cycles cs r) = true.
Proof.
  revert r. induction cs as [|c cs IH]; intros r Hlen Hi Hq Hne Hs He; [done|].
  apply Forall_cons in Hq as [Hc Hq]. cbn [int_cycles]. destruct cs as [|c' cs].
  - unfold int_tick. cbn [int_cycles]. rewrite (proj1 Hc). cbn [int_q]. eapply int_i_of; [by rewrite Hlen|done..].
  - apply IH; [by apply int_tick_length|done..| |]; rewrite quiet_tick by done; cbn; [by rewrite Hs, orb_true_r|done].
Qed.

End System.

(** C11: No frame waits unnoticed.  Take any runs of the interrupt handler and of the poll, one after the
    other each, and any events of the other functions called while the interface is up (transmission, restart
    after bus-off, error counters), as the code performs them (the poll over any RX FIFO of whole frames, the others in
    any world); interleave them in any way, event by event, with each other, with any cycles of the core,
    with any interrupt sources and resets, and with any NAPI layer that keeps its documented promises.  These depend on
    what the poll returns: a poll is called only when it is due, and after its return it is called again only if it
    returned its quota or was scheduled again.  Whenever neither handler is running afterwards, the receive
    interrupt is enabled and the RX FIFO is not empty, then the kernel is going to call the poll or the core
    requests an interrupt from the second cycle on, and keeps requesting it.

    Left out are a handler that used up its 10000 iterations, which has disabled the interrupts, and two
    kinds of polls for which the documentation of NAPI promises nothing ([good_poll]): one that could not
    allocate the buffer of a frame, which does put reception to sleep ([failed_alloc_sleeps]), and one that
    completed although it used up its quota ([quota_completed]). *)
Theorem reception_never_sleeps base {N : Type} `{Napi N} isrs polls items (s s' : sys N) c cs :
  Forall (entry_run base E_interrupt) isrs → proj by_isr items = concat isrs →
  Forall (good_poll base) polls → polling items = concat (poll_labels <$> polls) →
  Forall (λ ev, ∃ e tr, other_entry e = true ∧ entry_run base e tr ∧ ev ∈ tr) (proj by_other items) →
  Forall (λ ev, act base ev ≠ ra_off) (proj by_isr items) →
  started s → exec base items s = Some s' → int_ena_i (rbnei s') = true →
  quiet_cycle c → Forall quiet_cycle cs → cs ≠ [] → so_rx_empty (ic_src c) = false →
  n_due (sy_napi s') = true ∨ int_q (int_cycles (c :: cs) (sy_core s')) = true.
Proof.
  intros Hisr Ei Hpoll Ep Hother Hoff (Hlen & Hon & Hown & Hmask) He Hena Hc Hcs Hne Hrx.
  assert (Hinv : wake_inv I_rest P_idle s').
  { eapply (wake_inv_exec base items I_rest _ P_idle); [| | |exact He|].
    - rewrite Ei in *. apply accept_concat. rewrite Forall_concat in Hoff. rewrite Forall_forall in *.
      intros tr Htr. apply isr_run_rest; auto.
    - rewrite Ep. by apply good_polls_steps.
    - eapply Forall_impl; [exact Hother|]. intros ev (e & tr & Ho & Hr & Hin).
      eapply other_run_plain in Hr; [|done]. rewrite Forall_forall in Hr. by apply Hr.
    - constructor; [done..|]. by rewrite Hmask. }
  destruct Hinv as [Hlen' _ _ Hm]. destruct (int_mask_i (rbnei s')) eqn:Em; [left; by destruct Hm as [|[|[]]]|right].
  cbn [int_cycles]. eapply (pending_requested cs _ RBNEI_IND);
    [by apply int_tick_length|vm_compute; lia|done..| |]; rewrite quiet_tick by (done || (vm_compute; lia)).
  - unfold rbnei in Em. rewrite Em. cbn. by rewrite Hrx.
  - exact Hena.
Qed.

(** ** A run *)

(** A NAPI instance with the bits SCHED and MISSED and its place in the list of instances to poll.  A poll owns it
    while it is scheduled and not in the list. *)
Record napi_bits := mknapi { nb_enabled : bool; nb_sched : bool; nb_missed : bool; nb_listed : bool }.

#[export] Instance napi_bits_napi : Napi napi_bits.
Proof.
  refine {|
    n_enabled := nb_enabled;
    n_due n := nb_sched n && nb_listed n;
    n_owned n := nb_sched n && negb (nb_listed n);
    n_enable n := mknapi true false false false;
    n_schedule n := if negb (nb_enabled n) then n
                    else if nb_sched n then mknapi true true true (nb_listed n)
                    else mknapi true true (nb_missed n) true;
    n_begin n := mknapi (nb_enabled n) (nb_sched n) (nb_missed n) false;
    n_complete n := if nb_missed n then (0, mknapi (nb_enabled n) true false true)
                    else (1, mknapi (nb_enabled n) false false false);
    n_return quota wd n :=
      if nb_sched n && negb (nb_listed n) && (quota <=? wd) then mknapi (nb_enabled n) true (nb_missed n) true else n |}.
  - done.
  - intros [[] [] [] []]; done.
  - intros [[] [] [] []]; done.
  - intros [[] [] [] []]; done.
  - intros quota wd [e [] m []] [=] Hw. cbn. by rewrite (proj2 (Z.leb_le _ _) Hw).
  - intros quota wd [e [] m []] [=] Hw; done.
Defined.

Definition sources (empty : bool) : int_sources :=
  mksources false false false false false false false false false empty [false; false] false.

Definition rx_cycle (empty : bool) : int_cycle := mkicycle false (sources empty) None.

(** The core after the stores of chip start, the poll enabled and idle. *)
Definition sample_core : int_regs :=
  int_tick (mkicycle false (sources true) (Some (bus_wr INT_ENA_SET_ADR (chip_int_ena 0)))) int_reset.

Definition sample_sys : sys napi_bits := mksys sample_core (mknapi true false false false).

(** The traces of an interrupt for a received frame, of the poll that delivers it, and of a transmission. *)
Definition isr_st : st net_device script := mkst sample_dev (mkscript [REG_INT_STAT_RBNEI] [] []) [].
Definition isr_tr : list event := trace (run_entry E_interrupt isr_st).2.

(** A poll of one frame, with the allocations [allocs]. *)
Definition poll_frame : list Z := [0x2002; 0x048C0000; 7; 0; 0xBBAA].
Definition poll_st (allocs : list bool) : st net_device fifo_world :=
  mkst sample_dev {| q_fifo := poll_frame; q_script := mkscript [] [0; 1] allocs |} [].
Definition poll_tr : list event := trace (run_entry (E_rx_poll 64) (poll_st [true])).2.

Definition xmit_tr : list event := trace (run_entry (E_start_xmit sample_skb) (sample_st [0x4; 0x8888; 0x4])).2.

Definition items_of (a : actor) (empty : bool) (tr : list event) : list item :=
  (λ e, it_ev a e (rx_cycle empty)) <$> tr.

(** A frame is received, the interrupt comes, then the poll; the next frame arrives
    after the poll has read that the FIFO is empty, and before it unmasks the interrupt. *)
Definition sample_items : list item :=
  [it_cycle (rx_cycle false); it_cycle (rx_cycle false)] ++ items_of by_isr false isr_tr ++
  items_of by_other false (take 1 xmit_tr) ++ [it_begin] ++ items_of by_poll false (take 5 poll_tr) ++
  items_of by_other true (drop 1 xmit_tr) ++ items_of by_poll true (drop 5 (take 11 poll_tr)) ++
  items_of by_poll false (drop 11 poll_tr) ++ [it_return 64 1].

Definition sample_end : sys napi_bits := default sample_sys (exec sample_base sample_items sample_sys).

Lemma entry_run_intro (s : st net_device script) e r :
  wk_dev sample_base (drv s) → trace s = [] → (run_entry e s).1 = Ok r → entry_run sample_base e (trace (run_entry e s).2).
Proof.
  intros Hs Ht Hr. exists script, _, s, (run_entry e s).2, r. split_and!; [done| |by rewrite Ht].
  by destruct (run_entry e s); simpl in *; subst.
Qed.

Lemma poll_run_intro quota wd allocs :
  (run_entry (E_rx_poll quota) (poll_st allocs)).1 = Ok (Ret_int wd) →
  poll_run sample_base quota wd (trace (run_entry (E_rx_poll quota) (poll_st allocs)).2).
Proof.
  intros Hr. exists fifo_world, _, _, q_fifo, _, (poll_st allocs), (run_entry (E_rx_poll quota) (poll_st allocs)).2, [poll_frame].
  split_and!; [done|split; [|done]|by destruct (run_entry _ _); simpl in *; subst|done].
  pose proof sample_rx_hw as Hs. apply Forall_cons in Hs as [Hs _]. by constructor.
Qed.

Lemma sample_good_poll : good_poll sample_base (mkpoll 64 poll_tr 1).
Proof.
  split_and!; [by apply poll_run_intro; vm_compute| |by intros _].
  intros [Hin|Hin]; vm_compute in Hin; repeat (apply elem_of_cons in Hin as [[=]|Hin]); by apply not_elem_of_nil in Hin.
Qed.

Lemma reception_never_sleeps_witness :
  n_due (sy_napi sample_end) = true ∨
  int_q (int_cycles [rx_cycle false; rx_cycle false] (sy_core sample_end)) = true.
Proof.
  apply (reception_never_sleeps sample_base [isr_tr] [mkpoll 64 poll_tr 1] sample_items sample_sys sample_end).
  - constructor; [|constructor]. apply (entry_run_intro isr_st E_interrupt (Ret_irq IRQ_HANDLED)); [by repeat split|done|by vm_compute].
  - by vm_compute.
  - constructor; [|constructor]. exact sample_good_poll.
  - by vm_compute.
  - assert (E : proj by_other sample_items = xmit_tr) by (by vm_compute). rewrite E. apply Forall_forall. intros ev Hev.
    exists (E_start_xmit sample_skb), xmit_tr. split_and!; [done| |done].
    by apply (entry_run_intro (sample_st [0x4; 0x8888; 0x4]) (E_start_xmit sample_skb) (Ret_xmit NETDEV_TX_OK)); [repeat split|..|vm_compute].
  - vm_compute. repeat constructor; discriminate.
  - by vm_compute.
  - by vm_compute.
  - by vm_compute.
  - done.
  - by repeat constructor.
  - done.
  - done.
Defined.

(** In this run the poll is not due: it is the core that requests the interrupt for the second frame. *)
Example second_frame_requested :
  n_due (sy_napi sample_end) = false ∧ int_q (sy_core sample_end) = false ∧
  int_q (int_cycles [rx_cycle false; rx_cycle false] (sy_core sample_end)) = true.
Proof. by vm_compute. Qed.

(** ** An interrupt before polling is enabled

    [ctucan_open] enables the core (in [ctucan_chip_start]) before it calls [napi_enable].  An interrupt for a frame that
    arrives between the two masks the receive interrupt, and the poll cannot be scheduled. *)

(** A masked interrupt that is not pending stays so. *)
Lemma masked_stays_silent cs r i : length (int_modules r) = C_INT_COUNT → (i < C_INT_COUNT)%nat → Forall quiet_cycle cs →
  int_mask_i (int_of r i) = true → int_status (int_of r i) = false → int_status (int_of (int_cycles cs r) i) = false.
Proof.
  intros Hlen Hi Hcs. revert r Hlen. induction Hcs as [|c cs Hc Hcs IH]; intros r Hlen Hm Hs; [done|].
  cbn [int_cycles]. apply IH; [by apply int_tick_length|..]; rewrite quiet_tick by done; cbn; [done|].
  by rewrite Hm, Hs, andb_false_r.
Qed.

(** The run of [ctucan_open], with the interrupt after its 18th event, the store that enables the core. *)
Definition open_tr : list event :=
  trace (run_entry E_open (mkst sample_dev (mkscript [0xCAFD; 0; 0; 0; 0; 0] [] []) [])).2.

Definition early_items : list item :=
  items_of by_other true (take 18 open_tr) ++ [it_cycle (rx_cycle false); it_cycle (rx_cycle false)] ++
  items_of by_isr false isr_tr ++ items_of by_other false (drop 18 open_tr).

Definition early_end : sys napi_bits :=
  default sample_sys (exec sample_base early_items (mksys int_reset (mknapi false false false false))).

(** The interface is up, polling is enabled and idle, the receive interrupt is enabled, and however many frames
    arrive it does not become pending. *)
Lemma early_interrupt_lost :
  exec sample_base early_items (mksys int_reset (mknapi false false false false)) = Some early_end ∧
  n_enabled (sy_napi early_end) = true ∧ n_due (sy_napi early_end) = false ∧
  int_ena_i (rbnei early_end) = true ∧
  ∀ cs, Forall quiet_cycle cs → int_status (int_of (int_cycles cs (sy_core early_end)) RBNEI_IND) = false.
Proof.
  split_and!; [by vm_compute..|]. intros cs Hcs. apply masked_stays_silent; [by vm_compute|vm_compute; lia|done|by vm_compute|by vm_compute].
Qed.

(** ** Polls for which NAPI promises nothing

    When the buffer for a frame cannot be allocated the poll stops, returns less than its quota and does not
    complete: the kernel does not call it again, it still owns the instance, and the receive interrupt is masked. *)
Definition failed_tr : list event := trace (run_entry (E_rx_poll 64) (poll_st [false])).2.

Definition failed_items : list item :=
  [it_cycle (rx_cycle false); it_cycle (rx_cycle false)] ++ items_of by_isr false isr_tr ++
  [it_begin] ++ items_of by_poll false failed_tr ++ [it_return 64 1].

Definition failed_end : sys napi_bits := default sample_sys (exec sample_base failed_items sample_sys).

(** The same interrupt, and a poll of the frame that fails to allocate: the frame stays, nobody is going to poll, and
    however many frames arrive the interrupt does not become pending. *)
Lemma failed_alloc_sleeps :
  poll_run sample_base 64 1 failed_tr ∧ alloc_failed failed_tr ∧ delivered failed_tr = [] ∧
  exec sample_base failed_items sample_sys = Some failed_end ∧
  n_due (sy_napi failed_end) = false ∧ n_due (n_schedule (sy_napi failed_end)) = false ∧
  int_ena_i (rbnei failed_end) = true ∧
  ∀ cs, Forall quiet_cycle cs → int_status (int_of (int_cycles cs (sy_core failed_end)) RBNEI_IND) = false.
Proof.
  split_and!; [by apply poll_run_intro; vm_compute| |by vm_compute..|].
  - left. vm_compute. do 2 right. by left.
  - intros cs Hcs. apply masked_stays_silent; [by vm_compute|vm_compute; lia|done|by vm_compute|by vm_compute].
Qed.

(** A poll that finds the FIFO empty with its last frame completes and returns its quota. *)
Lemma quota_completed :
  poll_run sample_base 1 1 (trace (run_entry (E_rx_poll 1) (poll_st [true])).2) ∧
  ¬ napi_contract 1 1 (trace (run_entry (E_rx_poll 1) (poll_st [true])).2).
Proof.
  split; [by apply poll_run_intro; vm_compute|]. intros Hc. apply (Z.lt_irrefl 1), Hc. exists 1, 1.
  vm_compute. do 10 right. by left.
Qed.
