(* ===== verification/Hw.v ===== *)
(** * The low-level layer of the userspace tools

    [ctucanfd_hw.c] and the inline functions of [ctucanfd_hw.h]: configuration,
    filters, transmission and reception on the register unions of
    [ctucanfd_regs.h].  A function with pointer results returns the values it
    stores. *)

From Stdlib Require Import ZArith Lia.
From stdpp Require Import base numbers list strings.
From S2P Require Import Prelude Bitfield Regs LinuxDefs World Base.

#[local] Open Scope string_scope.
#[local] Open Scope list_scope.
#[local] Open Scope Z_scope.

Definition CTU_CAN_FD_RETR_MAX : Z := 15.

Definition CTU_CAN_FD_FILTER_A : Z := 0.
Definition CTU_CAN_FD_FILTER_B : Z := 1.
Definition CTU_CAN_FD_FILTER_C : Z := 2.

Definition CTU_CAN_FD_TXT_BUFFER_COUNT : Z := 4.

Definition CTU_CAN_FD_TXT_BUFFER_1 : Z := 0.
Definition CTU_CAN_FD_TXT_BUFFER_2 : Z := 1.
Definition CTU_CAN_FD_TXT_BUFFER_3 : Z := 2.
Definition CTU_CAN_FD_TXT_BUFFER_4 : Z := 3.

(** [struct ctucan_hw_priv] *)
Record ctucan_hw_priv := {
  hw_mem_base : Z;
  hw_read_reg : accessor;
  hw_write_reg : accessor;
}.

(** A C [bool] as an integer. *)
Definition b2z (b : bool) : Z := if b then 1 else 0.

(** ** Words *)

(** The status and interrupt macros, on the words of the two unions.
    [CTU_CAN_FD_IS_TRANSMITTER] and [CTU_CAN_FD_LOGGER_FIN_INT] name members ([ts] and
    [s.lfi]) that the unions do not have; neither is used anywhere. *)
Module Stat.

Definition IS_RECEIVER (stat : Z) : bool := nz (bf_get ctu_can_fd_status "rxs" stat).
Definition IS_IDLE (stat : Z) : bool := nz (bf_get ctu_can_fd_status "idle" stat).
Definition ERR_FRAME (stat : Z) : bool := nz (bf_get ctu_can_fd_status "eft" stat).
Definition EWL (stat : Z) : bool := nz (bf_get ctu_can_fd_status "ewl" stat).
Definition TXTNF (stat : Z) : bool := nz (bf_get ctu_can_fd_status "txnf" stat).
Definition DATA_OVERRUN (stat : Z) : bool := nz (bf_get ctu_can_fd_status "dor" stat).
Definition RX_BUF_NEMPTY (stat : Z) : bool := nz (bf_get ctu_can_fd_status "rxne" stat).
Definition RX_INT (i : Z) : bool := nz (bf_get ctu_can_fd_int_stat "rxi" i).
Definition TX_INT (i : Z) : bool := nz (bf_get ctu_can_fd_int_stat "txi" i).
Definition EWL_INT (i : Z) : bool := nz (bf_get ctu_can_fd_int_stat "ewli" i).
Definition OVERRUN_INT (i : Z) : bool := nz (bf_get ctu_can_fd_int_stat "doi" i).
Definition FAULT_STATE_CHANGED_INT (i : Z) : bool := nz (bf_get ctu_can_fd_int_stat "fcsi" i).
Definition BUS_ERROR_INT (i : Z) : bool := nz (bf_get ctu_can_fd_int_stat "bei" i).
Definition RX_FULL_INT (i : Z) : bool := nz (bf_get ctu_can_fd_int_stat "rxfi" i).
Definition BIT_RATE_SHIFT_INT (i : Z) : bool := nz (bf_get ctu_can_fd_int_stat "bsi" i).
Definition RX_BUF_NEPMTY_INT (i : Z) : bool := nz (bf_get ctu_can_fd_int_stat "rbnei" i).
Definition TXT_BUF_HWCMD_INT (i : Z) : bool := nz (bf_get ctu_can_fd_int_stat "txbhci" i).

End Stat.

Definition CTU_CAN_FD_INT_ERROR (i : Z) : bool :=
  nz (bf_get ctu_can_fd_int_stat "ewli" i) || nz (bf_get ctu_can_fd_int_stat "doi" i) ||
  nz (bf_get ctu_can_fd_int_stat "fcsi" i) || nz (bf_get ctu_can_fd_int_stat "ali" i).

Definition ctucan_hw_id_to_hwid (id : Z) : Z :=
  let hwid := 0 in
  if nz (Z.land id CAN_EFF_FLAG) then
    let hwid := bf_set ctu_can_fd_identifier_w "identifier_base"
                  (Z.shiftr (Z.land id CAN_EFF_MASK) 18) hwid in
    bf_set ctu_can_fd_identifier_w "identifier_ext" (Z.land id 0x3FFFF) hwid
  else bf_set ctu_can_fd_identifier_w "identifier_base" (Z.land id CAN_SFF_MASK) hwid.

Definition ctucan_hw_hwid_to_id (hwid type : Z) : Z :=
  if type =? EXTENDED then
    let id := CAN_EFF_FLAG in
    let id := Z.lor id (Z.shiftl (bf_get ctu_can_fd_identifier_w "identifier_base" hwid) 18) in
    Z.lor id (bf_get ctu_can_fd_identifier_w "identifier_ext" hwid)
  else bf_get ctu_can_fd_identifier_w "identifier_base" hwid.

(** The change of the MODE word in [ctucan_hw_set_mode_reg]. *)
Definition mode_reg_word (mode : can_ctrlmode) (reg : Z) : Z :=
  let upd fl f on off reg :=
    if nz (Z.land (mode_mask mode) fl)
    then bf_set ctu_can_fd_mode_settings f (if nz (Z.land (mode_flags mode) fl) then on else off) reg
    else reg in
  let reg := upd CAN_CTRLMODE_LOOPBACK "ilbp" INT_LOOP_ENABLED INT_LOOP_DISABLED reg in
  let reg := upd CAN_CTRLMODE_LISTENONLY "bmm" BMM_ENABLED BMM_DISABLED reg in
  let reg := upd CAN_CTRLMODE_FD "fde" FDE_ENABLE FDE_DISABLE reg in
  let reg := upd CAN_CTRLMODE_PRESUME_ACK "stm" STM_ENABLED STM_DISABLED reg in
  upd CAN_CTRLMODE_FD_NON_ISO "nisofd" NON_ISO_FD ISO_FD reg.

(** The redistribution and the words of the two bit timing functions. *)
Definition hw_redistribute (max : Z) (bt : can_bittiming) : can_bittiming :=
  if max <? phase_seg1 bt then
    set_segs (u32 (prop_seg bt + u32 (phase_seg1 bt - max))) max bt
  else bt.

Definition nom_btr_word (bt : can_bittiming) : Z :=
  let btr := 0 in
  let btr := bf_set ctu_can_fd_btr "prop" (prop_seg bt) btr in
  let btr := bf_set ctu_can_fd_btr "ph1" (phase_seg1 bt) btr in
  let btr := bf_set ctu_can_fd_btr "ph2" (phase_seg2 bt) btr in
  let btr := bf_set ctu_can_fd_btr "brp" (brp bt) btr in
  bf_set ctu_can_fd_btr "sjw" (sjw bt) btr.

Definition data_btr_word (bt : can_bittiming) : Z :=
  let btr := 0 in
  let btr := bf_set ctu_can_fd_btr_fd "prop_fd" (prop_seg bt) btr in
  let btr := bf_set ctu_can_fd_btr_fd "ph1_fd" (phase_seg1 bt) btr in
  let btr := bf_set ctu_can_fd_btr_fd "ph2_fd" (phase_seg2 bt) btr in
  let btr := bf_set ctu_can_fd_btr_fd "brp_fd" (brp bt) btr in
  bf_set ctu_can_fd_btr_fd "sjw_fd" (sjw bt) btr.

(** The frame format word of [ctucan_hw_insert_frame]. *)
Definition hw_frame_ffw (cf : canfd_frame) (isfdf : bool) : Z :=
  let ffw := 0 in
  let ffw := if nz (Z.land (can_id cf) CAN_RTR_FLAG)
             then bf_set ctu_can_fd_frame_format_w "rtr" RTR_FRAME ffw else ffw in
  let ffw := bf_set ctu_can_fd_frame_format_w "ide"
               (if nz (Z.land (can_id cf) CAN_EFF_FLAG) then EXTENDED else BASE) ffw in
  let ffw := bf_set ctu_can_fd_frame_format_w "dlc" (can_len2dlc (len cf)) ffw in
  if isfdf then
    let ffw := bf_set ctu_can_fd_frame_format_w "fdf" FD_CAN ffw in
    if nz (Z.land (flags cf) CANFD_BRS)
    then bf_set ctu_can_fd_frame_format_w "brs" BR_SHIFT ffw else ffw
  else ffw.

(** What [ctucan_hw_read_rx_frame_ffw] takes from the format word. *)
Definition hw_rx_can_id (ffw idw : Z) : Z :=
  let id := ctucan_hw_hwid_to_id idw (bf_get ctu_can_fd_frame_format_w "ide" ffw) in
  if bf_get ctu_can_fd_frame_format_w "fdf" ffw =? FD_CAN then id
  else if bf_get ctu_can_fd_frame_format_w "rtr" ffw =? RTR_FRAME then Z.lor id CAN_RTR_FLAG
  else id.

Definition hw_rx_flags (ffw : Z) : Z :=
  let fl := 0 in
  if bf_get ctu_can_fd_frame_format_w "fdf" ffw =? FD_CAN then
    let fl := if bf_get ctu_can_fd_frame_format_w "brs" ffw =? BR_SHIFT
              then Z.lor fl CANFD_BRS else fl in
    if bf_get ctu_can_fd_frame_format_w "esi_rsv" ffw =? ESI_ERR_PASIVE
    then Z.lor fl CANFD_ESI else fl
  else fl.

Definition hw_rx_wc (ffw : Z) : Z := u32 (bf_get ctu_can_fd_frame_format_w "rwcnt" ffw - 3).

Definition hw_rx_len (ffw : Z) : Z :=
  if bf_get ctu_can_fd_frame_format_w "dlc" ffw <=? 8
  then bf_get ctu_can_fd_frame_format_w "dlc" ffw
  else if bf_get ctu_can_fd_frame_format_w "fdf" ffw =? FD_CAN
  then u32 (Z.shiftl (hw_rx_wc ffw) 2) else 8.

(** ** The functions *)

Section Hw.
Context {W : Type} `{World W}.
Abbreviation MH := (M ctucan_hw_priv W).

(** *** Register access *)

Definition ctucan_hw_write32 (reg val : Z) : MH unit :=
  base ← gets hw_mem_base; iowrite32 val (base + reg).

Definition ctucan_hw_write32_be (reg val : Z) : MH unit :=
  base ← gets hw_mem_base; iowrite32be val (base + reg).

Definition ctucan_hw_read32 (reg : Z) : MH Z :=
  base ← gets hw_mem_base; ioread32 (base + reg).

Definition ctucan_hw_read32_be (reg : Z) : MH Z :=
  base ← gets hw_mem_base; ioread32be (base + reg).

(** [priv->read_reg(priv, reg)] and [priv->write_reg(priv, reg, val)] *)
Definition read_hw (reg : Z) : MH Z :=
  acc ← gets hw_read_reg;
  match acc with acc_le => ctucan_hw_read32 reg | acc_be => ctucan_hw_read32_be reg end.

Definition write_hw (reg val : Z) : MH unit :=
  acc ← gets hw_write_reg;
  match acc with acc_le => ctucan_hw_write32 reg val | acc_be => ctucan_hw_write32_be reg val end.

Definition ctucan_hw_write_txt_buf (buf_base offset val : Z) : MH unit :=
  write_hw (buf_base + offset) val.

(** *** Identification, mode and interrupts *)

Definition ctucan_hw_check_access : MH bool :=
  reg ← read_hw CTU_CAN_FD_DEVICE_ID;
  if negb (bf_get ctu_can_fd_device_id_version "device_id" reg =? CTU_CAN_FD_ID)
  then mret false else mret true.

Definition ctucan_hw_get_version : MH Z :=
  reg ← read_hw CTU_CAN_FD_DEVICE_ID;
  mret (u32 (bf_get ctu_can_fd_device_id_version "ver_major" reg * 10 +
             bf_get ctu_can_fd_device_id_version "ver_minor" reg)).

Definition ctucan_hw_enable (enable : bool) : MH unit :=
  reg ← read_hw CTU_CAN_FD_MODE;
  let reg := bf_set ctu_can_fd_mode_settings "ena"
               (if enable then CTU_CAN_ENABLED else CTU_CAN_DISABLED) reg in
  write_hw CTU_CAN_FD_MODE reg.

Definition ctucan_hw_reset : MH unit :=
  let mode := 0 in
  let mode := bf_set ctu_can_fd_mode_settings "rst" 1 mode in
  write_hw CTU_CAN_FD_MODE mode.

Definition ctucan_hw_set_ret_limit (enable : bool) (limit : Z) : MH bool :=
  if CTU_CAN_FD_RETR_MAX <? limit then mret false else
  reg ← read_hw CTU_CAN_FD_MODE;
  let reg := bf_set ctu_can_fd_mode_settings "rtrle"
               (if enable then RTRLE_ENABLED else RTRLE_DISABLED) reg in
  let reg := bf_set ctu_can_fd_mode_settings "rtrth" (Z.land limit 0xF) reg in
  write_hw CTU_CAN_FD_MODE reg;;
  mret true.

Definition ctucan_hw_set_mode_reg (mode : can_ctrlmode) : MH unit :=
  reg ← read_hw CTU_CAN_FD_MODE;
  write_hw CTU_CAN_FD_MODE (mode_reg_word mode reg).

Definition ctucan_hw_rel_rx_buf : MH unit :=
  write_hw CTU_CAN_FD_COMMAND (bf_set ctu_can_fd_command "rrb" 1 0).

Definition ctucan_hw_clr_overrun_flag : MH unit :=
  write_hw CTU_CAN_FD_COMMAND (bf_set ctu_can_fd_command "cdo" 1 0).

Definition ctucan_hw_int_conf (sreg creg mask val : Z) : MH unit :=
  write_hw sreg (Z.land mask val);;
  write_hw creg (Z.land mask (u32 (Z.lnot val))).

Definition ctucan_hw_int_ena (mask val : Z) : MH unit :=
  ctucan_hw_int_conf CTU_CAN_FD_INT_ENA_SET CTU_CAN_FD_INT_ENA_CLR mask val.

Definition ctucan_hw_int_mask (mask val : Z) : MH unit :=
  ctucan_hw_int_conf CTU_CAN_FD_INT_MASK_SET CTU_CAN_FD_INT_MASK_CLR mask val.

Definition ctucan_hw_set_mode (mode : can_ctrlmode) : MH unit :=
  ctucan_hw_set_mode_reg mode;;
  (if nz (Z.land (mode_mask mode) CAN_CTRLMODE_ONE_SHOT)
   then _ ← ctucan_hw_set_ret_limit (nz (Z.land (mode_flags mode) CAN_CTRLMODE_ONE_SHOT)) 0; mret tt
   else mret tt);;
  when (nz (Z.land (mode_mask mode) CAN_CTRLMODE_BERR_REPORTING))
    (let ena := bf_set ctu_can_fd_int_stat "bei"
                  (b2z (nz (Z.land (mode_flags mode) CAN_CTRLMODE_ONE_SHOT))) 0 in
     let mask := bf_set ctu_can_fd_int_stat "bei" 1 0 in
     ctucan_hw_int_ena ena mask).

(** *** Bit timing *)

Definition ctucan_hw_set_nom_bittiming (nbt : can_bittiming) : MH can_bittiming :=
  let nbt := hw_redistribute 63 nbt in
  write_hw CTU_CAN_FD_BTR (nom_btr_word nbt);;
  mret nbt.

Definition ctucan_hw_set_data_bittiming (dbt : can_bittiming) : MH can_bittiming :=
  let dbt := hw_redistribute 31 dbt in
  write_hw CTU_CAN_FD_BTR_FD (data_btr_word dbt);;
  mret dbt.

(** *** Errors *)

Definition ctucan_hw_set_err_limits (ewl erp : Z) : MH unit :=
  let reg := 0 in
  let reg := bf_set ctu_can_fd_ewl_erp_fault_state "ew_limit" ewl reg in
  let reg := bf_set ctu_can_fd_ewl_erp_fault_state "erp_limit" erp reg in
  write_hw CTU_CAN_FD_EWL reg.

Definition ctucan_hw_set_def_err_limits : MH unit := ctucan_hw_set_err_limits 96 128.

Definition ctucan_hw_read_err_ctrs : MH can_berr_counter :=
  reg ← read_hw CTU_CAN_FD_REC;
  mret {| txerr := u16 (bf_get ctu_can_fd_rec_tec "tec_val" reg);
          rxerr := u16 (bf_get ctu_can_fd_rec_tec "rec_val" reg) |}.

Definition ctucan_hw_read_error_state : MH can_state :=
  reg ← read_hw CTU_CAN_FD_EWL;
  err ← read_hw CTU_CAN_FD_REC;
  let ew_limit := bf_get ctu_can_fd_ewl_erp_fault_state "ew_limit" reg in
  if nz (bf_get ctu_can_fd_ewl_erp_fault_state "era" reg) then
    if (bf_get ctu_can_fd_rec_tec "rec_val" err <? ew_limit) &&
       (bf_get ctu_can_fd_rec_tec "tec_val" err <? ew_limit)
    then mret CAN_STATE_ERROR_ACTIVE else mret CAN_STATE_ERROR_WARNING
  else if nz (bf_get ctu_can_fd_ewl_erp_fault_state "erp" reg) then mret CAN_STATE_ERROR_PASSIVE
  else if nz (bf_get ctu_can_fd_ewl_erp_fault_state "bof" reg) then mret CAN_STATE_BUS_OFF
  else call_ (netdev_msg "Invalid error state");; mret CAN_STATE_ERROR_PASSIVE.

Definition ctucan_hw_set_err_ctrs (ctr : can_berr_counter) : MH unit :=
  let reg := 0 in
  let reg := bf_set ctu_can_fd_ctr_pres "ctpv" (txerr ctr) reg in
  let reg := bf_set ctu_can_fd_ctr_pres "ptx" 1 reg in
  write_hw CTU_CAN_FD_CTR_PRES reg;;
  let reg := bf_set ctu_can_fd_ctr_pres "ctpv" (rxerr ctr) reg in
  let reg := bf_set ctu_can_fd_ctr_pres "ptx" 0 reg in
  let reg := bf_set ctu_can_fd_ctr_pres "prx" 1 reg in
  write_hw CTU_CAN_FD_CTR_PRES reg.

(** *** Filters *)

Definition ctucan_hw_get_mask_filter_support (fnum : Z) : MH bool :=
  reg ← read_hw CTU_CAN_FD_FILTER_CONTROL;
  mret (if fnum =? CTU_CAN_FD_FILTER_A
        then nz (bf_get ctu_can_fd_filter_control_filter_status "sfa" reg)
        else if fnum =? CTU_CAN_FD_FILTER_B
        then nz (bf_get ctu_can_fd_filter_control_filter_status "sfb" reg)
        else if fnum =? CTU_CAN_FD_FILTER_C
        then nz (bf_get ctu_can_fd_filter_control_filter_status "sfc" reg)
        else false).

Definition ctucan_hw_get_range_filter_support : MH bool :=
  reg ← read_hw CTU_CAN_FD_FILTER_CONTROL;
  mret (nz (bf_get ctu_can_fd_filter_control_filter_status "sfr" reg)).

(** The cases of the [switch (fnum)]: the addresses and the four enable bits of a filter. *)
Definition mask_filter_regs (fnum : Z) : option (Z * Z * list string) :=
  if fnum =? CTU_CAN_FD_FILTER_A then
    Some (CTU_CAN_FD_FILTER_A_MASK, CTU_CAN_FD_FILTER_A_VAL, ["fanb"; "fane"; "fafb"; "fafe"])
  else if fnum =? CTU_CAN_FD_FILTER_B then
    Some (CTU_CAN_FD_FILTER_B_MASK, CTU_CAN_FD_FILTER_B_VAL, ["fbnb"; "fbne"; "fbfb"; "fbfe"])
  else if fnum =? CTU_CAN_FD_FILTER_C then
    Some (CTU_CAN_FD_FILTER_C_MASK, CTU_CAN_FD_FILTER_C_VAL, ["fcnb"; "fcne"; "fcfb"; "fcfe"])
  else None.

(** [creg.s.f = val;] for each of the fields in turn. *)
Definition set_fields (fs : list string) (val creg : Z) : Z :=
  foldl (λ creg f, bf_set ctu_can_fd_filter_control_filter_status f val creg) creg fs.

Definition ctucan_hw_set_mask_filter (fnum : Z) (enable : bool) (filter : can_filter) : MH bool :=
  supported ← ctucan_hw_get_mask_filter_support fnum;
  if negb supported then mret false else
  let val := if enable then 1 else 0 in
  creg ← read_hw CTU_CAN_FD_FILTER_CONTROL;
  match mask_filter_regs fnum with
  | None => mret false
  | Some (maddr, vaddr, fs) =>
      let creg := set_fields fs val creg in
      let hwid_mask := ctucan_hw_id_to_hwid (filter_id filter) in
      let hwid_val := ctucan_hw_id_to_hwid (filter_mask filter) in
      write_hw CTU_CAN_FD_FILTER_CONTROL creg;;
      write_hw maddr hwid_mask;;
      write_hw vaddr hwid_val;;
      mret true
  end.

Definition ctucan_hw_set_range_filter (low_th high_th : Z) (enable : bool) : MH unit :=
  let hwid_low := ctucan_hw_id_to_hwid low_th in
  let hwid_high := ctucan_hw_id_to_hwid high_th in
  creg ← read_hw CTU_CAN_FD_FILTER_CONTROL;
  let creg := set_fields ["frnb"; "frne"; "frfb"; "frfe"] (b2z enable) creg in
  write_hw CTU_CAN_FD_FILTER_CONTROL creg;;
  write_hw CTU_CAN_FD_FILTER_RAN_LOW hwid_low;;
  write_hw CTU_CAN_FD_FILTER_RAN_HIGH hwid_high.

(** *** Reception *)

Definition ctucan_hw_set_rx_tsop (val : Z) : MH unit :=
  write_hw CTU_CAN_FD_RX_STATUS (bf_set ctu_can_fd_rx_status_rx_settings "rtsop" val 0).

(** [for (i = 0; i < len; i += 4)]: the frame and the final [i].  A store outside of
    the frame is undefined, so that the loop has at most 17 iterations. *)
Fixpoint hw_rx_data_loop (fuel : nat) (cf : canfd_frame) (len i : Z) : MH (canfd_frame * Z) :=
  if i <? len then
    match fuel with
    | O => no_fuel
    | S fuel' =>
        d ← read_hw CTU_CAN_FD_RX_DATA;
        bytes ← some_or OutOfBounds (store_le32 (data cf) i d);
        hw_rx_data_loop fuel' (set_data bytes cf) len (i + 4)
    end
  else mret (cf, i).

(** [while (i < wc * 4)] *)
Fixpoint hw_rx_skip_loop (fuel : nat) (wc4 i : Z) : MH unit :=
  if i <? wc4 then
    match fuel with
    | O => no_fuel
    | S fuel' => _ ← read_hw CTU_CAN_FD_RX_DATA; hw_rx_skip_loop fuel' wc4 (i + 4)
    end
  else mret tt.

Definition ctucan_hw_read_rx_frame_ffw (cf : canfd_frame) (ffw : Z) : MH (canfd_frame * Z) :=
  idw ← read_hw CTU_CAN_FD_RX_DATA;
  let cf := set_can_id (hw_rx_can_id ffw idw) cf in
  let cf := set_flags (hw_rx_flags ffw) cf in
  let wc4 := u32 (hw_rx_wc ffw * 4) in
  let len := hw_rx_len ffw in
  let cf := set_len (u8 len) cf in
  let len := if wc4 <? len then wc4 else len in
  ts0 ← read_hw CTU_CAN_FD_RX_DATA;
  ts1 ← read_hw CTU_CAN_FD_RX_DATA;
  ci ← hw_rx_data_loop 17 cf len 0;
  hw_rx_skip_loop (Z.to_nat wc4) wc4 (snd ci);;
  mret (fst ci, Z.lor ts0 (Z.shiftl ts1 32)).

Definition ctucan_hw_read_rx_frame (cf : canfd_frame) : MH (canfd_frame * Z) :=
  ffw ← read_hw CTU_CAN_FD_RX_DATA;
  ctucan_hw_read_rx_frame_ffw cf ffw.

(** *** Transmission *)

Definition ctucan_hw_get_tx_status (buf : Z) : MH Z :=
  reg ← read_hw CTU_CAN_FD_TX_STATUS;
  mret (if buf =? CTU_CAN_FD_TXT_BUFFER_1 then bf_get ctu_can_fd_tx_status "tx1s" reg
        else if buf =? CTU_CAN_FD_TXT_BUFFER_2 then bf_get ctu_can_fd_tx_status "tx2s" reg
        else if buf =? CTU_CAN_FD_TXT_BUFFER_3 then bf_get ctu_can_fd_tx_status "tx3s" reg
        else if buf =? CTU_CAN_FD_TXT_BUFFER_4 then bf_get ctu_can_fd_tx_status "tx4s" reg
        else u32 (Z.lnot 0)).

Definition ctucan_hw_is_txt_buf_accessible (buf : Z) : MH bool :=
  buf_status ← ctucan_hw_get_tx_status buf;
  if (buf_status =? TXT_RDY) || (buf_status =? TXT_TRAN) || (buf_status =? TXT_ABTP)
  then mret false else mret true.

Definition ctucan_hw_set_txt_priority (prio : list Z) : MH unit :=
  p0 ← some_or OutOfBounds (prio !! 0%nat);
  p1 ← some_or OutOfBounds (prio !! 1%nat);
  p2 ← some_or OutOfBounds (prio !! 2%nat);
  p3 ← some_or OutOfBounds (prio !! 3%nat);
  let reg := 0 in
  let reg := bf_set ctu_can_fd_tx_priority "txt1p" p0 reg in
  let reg := bf_set ctu_can_fd_tx_priority "txt2p" p1 reg in
  let reg := bf_set ctu_can_fd_tx_priority "txt3p" p2 reg in
  let reg := bf_set ctu_can_fd_tx_priority "txt4p" p3 reg in
  write_hw CTU_CAN_FD_TX_PRIORITY reg.

Definition tx_buf_bases : list Z :=
  [hd 0 CTU_CAN_FD_TXTB1_DATA; hd 0 CTU_CAN_FD_TXTB2_DATA;
   hd 0 CTU_CAN_FD_TXTB3_DATA; hd 0 CTU_CAN_FD_TXTB4_DATA].

(** The payload loop, from byte [i]; [fuel] iterations are allowed. *)
Fixpoint hw_insert_data (fuel : nat) (cf : canfd_frame) (buf_base i : Z) : MH unit :=
  if i <? len cf then
    match fuel with
    | O => no_fuel
    | S fuel' =>
        d ← some_or OutOfBounds (load_le32 (data cf) i);
        ctucan_hw_write_txt_buf buf_base (CTU_CAN_FD_DATA_1_4_W + i) d;;
        hw_insert_data fuel' cf buf_base (i + 4)
    end
  else mret tt.

Definition ctucan_hw_insert_frame (cf : canfd_frame) (ts buf : Z) (isfdf : bool) : MH bool :=
  if CTU_CAN_FD_TXT_BUFFER_COUNT <=? buf then mret false else
  buf_base ← some_or OutOfBounds (tx_buf_bases !! Z.to_nat buf);
  acc ← ctucan_hw_is_txt_buf_accessible buf;
  if negb acc then mret false else
  let idw := ctucan_hw_id_to_hwid (can_id cf) in
  if CANFD_MAX_DLEN <? len cf then mret false else
  let ffw := hw_frame_ffw cf isfdf in
  ctucan_hw_write_txt_buf buf_base CTU_CAN_FD_FRAME_FORMAT_W ffw;;
  ctucan_hw_write_txt_buf buf_base CTU_CAN_FD_IDENTIFIER_W idw;;
  ctucan_hw_write_txt_buf buf_base CTU_CAN_FD_TIMESTAMP_L_W (u32 ts);;
  ctucan_hw_write_txt_buf buf_base CTU_CAN_FD_TIMESTAMP_U_W (u32 (Z.shiftr ts 32));;
  when (negb (nz (Z.land (can_id cf) CAN_RTR_FLAG))) (hw_insert_data 16 cf buf_base 0);;
  mret true.

(** [reg.u32 <<= k]: undefined for a shift count outside of 0..31. *)
Definition shl32 (x k : Z) : MH Z :=
  if (0 <=? k) && (k <? 32) then mret (u32 (Z.shiftl x k)) else undefined BadShift.

Definition ctucan_hw_txt_buf_give_command (cmd buf : Z) : MH unit :=
  let reg := bf_set ctu_can_fd_tx_command_txtb_info "txb1" 1 0 in
  reg ← shl32 reg (buf - CTU_CAN_FD_TXT_BUFFER_1);
  write_hw CTU_CAN_FD_TX_COMMAND (Z.lor reg cmd).

Definition ctucan_hw_txt_set_empty (buf : Z) : MH unit :=
  ctucan_hw_txt_buf_give_command (bf_set ctu_can_fd_tx_command_txtb_info "txce" 1 0) buf.

Definition ctucan_hw_txt_set_rdy (buf : Z) : MH unit :=
  ctucan_hw_txt_buf_give_command (bf_set ctu_can_fd_tx_command_txtb_info "txcr" 1 0) buf.

Definition ctucan_hw_txt_set_abort (buf : Z) : MH unit :=
  ctucan_hw_txt_buf_give_command (bf_set ctu_can_fd_tx_command_txtb_info "txca" 1 0) buf.

(** *** Timestamp and secondary sample point *)

Definition ctucan_hw_read_timestamp : MH Z :=
  ts_high ← read_hw CTU_CAN_FD_TIMESTAMP_HIGH;
  ts_low ← read_hw CTU_CAN_FD_TIMESTAMP_LOW;
  ts_high_2 ← read_hw CTU_CAN_FD_TIMESTAMP_HIGH;
  ts_low ← (if negb (ts_high =? ts_high_2) then read_hw CTU_CAN_FD_TIMESTAMP_LOW else mret ts_low);
  mret (Z.lor (Z.shiftl ts_high_2 32) ts_low).

Definition ctucan_hw_configure_ssp (enable_ssp use_trv_delay : bool) (ssp_offset : Z) : MH unit :=
  let ssp_cfg := 0 in
  let ssp_cfg := bf_set ctu_can_fd_trv_delay_ssp_cfg "ssp_src"
    (if enable_ssp then if use_trv_delay then SSP_SRC_MEAS_N_OFFSET else SSP_SRC_OFFSET
     else SSP_SRC_NO_SSP) ssp_cfg in
  let ssp_cfg := bf_set ctu_can_fd_trv_delay_ssp_cfg "ssp_offset" (u32 ssp_offset) ssp_cfg in
  write_hw CTU_CAN_FD_TRV_DELAY ssp_cfg.

(** *** Inline functions of the header *)

Definition ctu_can_get_status : MH Z := read_hw CTU_CAN_FD_STATUS.

Definition ctucan_hw_is_enabled : MH bool :=
  reg ← read_hw CTU_CAN_FD_MODE;
  mret (bf_get ctu_can_fd_mode_settings "ena" reg =? CTU_CAN_ENABLED).

Definition ctu_can_fd_int_sts : MH Z := read_hw CTU_CAN_FD_INT_STAT.

Definition ctucan_hw_int_clr (mask : Z) : MH unit := write_hw CTU_CAN_FD_INT_STAT mask.

Definition ctucan_hw_int_ena_set (mask : Z) : MH unit := write_hw CTU_CAN_FD_INT_ENA_SET mask.

Definition ctucan_hw_int_ena_clr (mask : Z) : MH unit := write_hw CTU_CAN_FD_INT_ENA_CLR mask.

Definition ctucan_hw_int_mask_set (mask : Z) : MH unit := write_hw CTU_CAN_FD_INT_MASK_SET mask.

Definition ctucan_hw_int_mask_clr (mask : Z) : MH unit := write_hw CTU_CAN_FD_INT_MASK_CLR mask.

Definition ctucan_hw_read_nom_errs : MH Z :=
  reg ← read_hw CTU_CAN_FD_ERR_NORM;
  mret (bf_get ctu_can_fd_err_norm_err_fd "err_norm_val" reg).

Definition ctucan_hw_erase_nom_errs : MH unit :=
  write_hw CTU_CAN_FD_CTR_PRES (bf_set ctu_can_fd_ctr_pres "enorm" 1 0).

Definition ctucan_hw_read_fd_errs : MH Z :=
  reg ← read_hw CTU_CAN_FD_ERR_NORM;
  mret (bf_get ctu_can_fd_err_norm_err_fd "err_fd_val" reg).

Definition ctucan_hw_erase_fd_errs : MH unit :=
  write_hw CTU_CAN_FD_CTR_PRES (bf_set ctu_can_fd_ctr_pres "efd" 1 0).

Definition ctu_can_fd_read_err_capt_alc : MH Z := read_hw CTU_CAN_FD_ERR_CAPT.

Definition ctucan_hw_get_rx_fifo_size : MH Z :=
  reg ← read_hw CTU_CAN_FD_RX_MEM_INFO;
  mret (bf_get ctu_can_fd_rx_mem_info "rx_buff_size" reg).

Definition ctucan_hw_get_rx_fifo_mem_free : MH Z :=
  reg ← read_hw CTU_CAN_FD_RX_MEM_INFO;
  mret (bf_get ctu_can_fd_rx_mem_info "rx_mem_free" reg).

Definition ctucan_hw_is_rx_fifo_empty : MH bool :=
  reg ← read_hw CTU_CAN_FD_RX_STATUS;
  mret (nz (bf_get ctu_can_fd_rx_status_rx_settings "rxe" reg)).

Definition ctucan_hw_is_rx_fifo_full : MH bool :=
  reg ← read_hw CTU_CAN_FD_RX_STATUS;
  mret (nz (bf_get ctu_can_fd_rx_status_rx_settings "rxf" reg)).

Definition ctucan_hw_get_rx_frame_count : MH Z :=
  reg ← read_hw CTU_CAN_FD_RX_STATUS;
  mret (bf_get ctu_can_fd_rx_status_rx_settings "rxfrc" reg).

Definition ctu_can_fd_read_rx_ffw : MH Z := read_hw CTU_CAN_FD_RX_DATA.

Definition ctucan_hw_read_rx_word : MH Z := read_hw CTU_CAN_FD_RX_DATA.

Definition ctucan_hw_get_tran_delay : MH Z :=
  reg ← read_hw CTU_CAN_FD_TRV_DELAY;
  mret (bf_get ctu_can_fd_trv_delay_ssp_cfg "trv_delay_value" reg).

Definition ctucan_hw_get_tx_frame_ctr : MH Z :=
  reg ← read_hw CTU_CAN_FD_TX_FR_CTR;
  mret (bf_get ctu_can_fd_tx_fr_ctr "tx_fr_ctr_val" reg).

Definition ctucan_hw_get_rx_frame_ctr : MH Z :=
  reg ← read_hw CTU_CAN_FD_RX_FR_CTR;
  mret (bf_get ctu_can_fd_rx_fr_ctr "rx_fr_ctr_val" reg).

Definition ctu_can_fd_read_debug_info : MH Z := read_hw CTU_CAN_FD_DEBUG_REGISTER.

End Hw.
