(* ===== verification/HwEquiv.v ===== *)
(** * The userspace layer and the kernel driver agree

    [ctucanfd_hw.c] works on register unions, [ctucanfd_base.c] on masks.  The words
    that the two form are equal, and where the functions correspond they perform the same
    accesses and return the same results. *)

From Stdlib Require Import ZArith Lia Btauto.
From stdpp Require Import base numbers list strings sets.
From S2P Require Import Prelude Bitfield Regs LinuxDefs World Kregs Base Sim BaseCfg BaseTx BaseRx BaseErr Hw.

#[local] Open Scope string_scope.
#[local] Open Scope list_scope.
#[local] Open Scope Z_scope.

(** ** Words *)

Lemma land_FIELD_PREP_ne m m' v : Z.land m m' = 0 → Z.land (FIELD_PREP m v) m' = 0.
Proof. intros Hm. unfold FIELD_PREP. by rewrite <- Z.land_assoc, Hm, Z.land_0_r. Qed.

(** The field is still zero in a word formed of other fields. *)
Ltac fresh_field :=
  rewrite ?Z.land_lor_distr_l, ?Z.land_0_l;
  repeat rewrite land_FIELD_PREP_ne by reflexivity; reflexivity.

Ltac bf_fresh :=
  match goal with
  | |- context [bf_set ?u ?f ?v ?x] =>
      lazymatch x with context [bf_set _ _ _ _] => fail | _ => idtac end;
      erewrite (bf_set_fresh u f _ _ v x); [|reflexivity|fresh_field]
  end.

Lemma nom_btr_word_eq bt : nom_btr_word bt = btr_word bt.
Proof. unfold nom_btr_word. cbv zeta. do 5 bf_fresh. reflexivity. Qed.

Lemma data_btr_word_eq bt : data_btr_word bt = btr_fd_word bt.
Proof. unfold data_btr_word. cbv zeta. do 5 bf_fresh. reflexivity. Qed.

Lemma hw_redistribute_eq max bt : hw_redistribute max bt = btr_redistribute max bt.
Proof. done. Qed.

(** The frame format word: all combinations of the flags with all codes. *)
Definition ffw_of (rtr ide fd brs : bool) (dlc : Z) : Z * Z :=
  (let ffw := 0 in
   let ffw := if rtr then bf_set ctu_can_fd_frame_format_w "rtr" RTR_FRAME ffw else ffw in
   let ffw := bf_set ctu_can_fd_frame_format_w "ide" (if ide then EXTENDED else BASE) ffw in
   let ffw := bf_set ctu_can_fd_frame_format_w "dlc" dlc ffw in
   if fd then
     let ffw := bf_set ctu_can_fd_frame_format_w "fdf" FD_CAN ffw in
     if brs then bf_set ctu_can_fd_frame_format_w "brs" BR_SHIFT ffw else ffw
   else ffw,
   let ffw := 0 in
   let ffw := if rtr then Z.lor ffw REG_FRAME_FORMAT_W_RTR else ffw in
   let ffw := if ide then Z.lor ffw REG_FRAME_FORMAT_W_IDE else ffw in
   let ffw := if fd then
                let ffw := Z.lor ffw REG_FRAME_FORMAT_W_FDF in
                if brs then Z.lor ffw REG_FRAME_FORMAT_W_BRS else ffw
              else ffw in
   Z.lor ffw (FIELD_PREP REG_FRAME_FORMAT_W_DLC dlc)).

Lemma ffw_of_eq rtr ide fd brs dlc :
  0 <= dlc < 16 → fst (ffw_of rtr ide fd brs dlc) = snd (ffw_of rtr ide fd brs dlc).
Proof.
  intros Hd. apply Z.eqb_eq.
  apply (Z_range_forallb 16 (λ dlc, fst (ffw_of rtr ide fd brs dlc) =? snd (ffw_of rtr ide fd brs dlc)));
    [|lia].
  by destruct rtr, ide, fd, brs; vm_compute.
Qed.

Lemma hw_frame_ffw_eq cf fd : 0 <= len cf → hw_frame_ffw cf fd = frame_ffw cf fd.
Proof.
  intros Hl. pose proof (can_len2dlc_range _ Hl).
  apply (ffw_of_eq (nz (Z.land (can_id cf) CAN_RTR_FLAG)) (nz (Z.land (can_id cf) CAN_EFF_FLAG)) fd
    (nz (Z.land (flags cf) CANFD_BRS)) (can_len2dlc (len cf))). lia.
Qed.

(** The identifier word. *)
Lemma hwid_eq cf : ctucan_hw_id_to_hwid (can_id cf) = frame_idw cf.
Proof.
  unfold ctucan_hw_id_to_hwid, frame_idw. destruct (nz _).
  - cbv zeta. apply Z.bits_inj'. intros i Hi.
    erewrite !testbit_bf_set by (bu_decide || done).
    change CAN_EFF_MASK with (GENMASK 28 0). change 0x3FFFF with (GENMASK 17 0).
    rewrite Z.bits_0, !Z.land_spec. change (0 + 18) with 18. change (18 + 11) with 29.
    destruct (Z.leb_spec 0 i); [|lia]. destruct (Z.ltb_spec i 18); simpl.
    + rewrite Z.sub_0_r, !testbit_GENMASK by lia. f_equal. lia.
    + rewrite testbit_GENMASK by lia. destruct (Z.leb_spec 18 i); [|lia]. destruct (Z.ltb_spec i 29); simpl.
      * rewrite Z.shiftr_spec, Z.land_spec, testbit_GENMASK, Z.sub_add by lia. f_equal; lia.
      * replace (i <=? 28) with false by lia. btauto.
  - bf_fresh. reflexivity.
Qed.

(** The two ways to read a field. *)
Lemma flag_is_one m x : 0 <= m → (FIELD_GET (BIT m) x =? 1) = nz (FIELD_GET (BIT m) x).
Proof. intros. rewrite FIELD_GET_BIT by done. by destruct (Z.testbit x m). Qed.

Lemma hw_rx_flags_eq ffw : hw_rx_flags ffw = rx_flags ffw.
Proof.
  unfold rx_flags, REG_FRAME_FORMAT_W_FDF, REG_FRAME_FORMAT_W_BRS, REG_FRAME_FORMAT_W_ESI_RSV.
  rewrite <- !flag_is_one by done. reflexivity.
Qed.

Lemma hw_rx_len_eq ffw : hw_rx_len ffw = rx_len ffw.
Proof.
  unfold rx_len, REG_FRAME_FORMAT_W_FDF. rewrite <- flag_is_one by done. reflexivity.
Qed.

Lemma hw_rx_can_id_eq ffw idw : hw_rx_can_id ffw idw = rx_can_id ffw idw.
Proof.
  unfold rx_can_id, REG_FRAME_FORMAT_W_FDF, REG_FRAME_FORMAT_W_RTR, REG_FRAME_FORMAT_W_IDE.
  rewrite <- !flag_is_one by done. unfold hw_rx_can_id.
  assert (E : ctucan_hw_hwid_to_id idw (bf_get ctu_can_fd_frame_format_w "ide" ffw) =
    if FIELD_GET (BIT 6) ffw =? 1 then Z.lor (Z.land idw CAN_EFF_MASK) CAN_EFF_FLAG
    else Z.land (Z.shiftr idw 18) CAN_SFF_MASK); [|rewrite E; reflexivity].
  unfold ctucan_hw_hwid_to_id. change (bf_get ctu_can_fd_frame_format_w "ide" ffw) with (FIELD_GET (BIT 6) ffw).
  change EXTENDED with 1.
  change (bf_get ctu_can_fd_identifier_w "identifier_base" idw) with (FIELD_GET (GENMASK 28 18) idw).
  change (bf_get ctu_can_fd_identifier_w "identifier_ext" idw) with (FIELD_GET (GENMASK 17 0) idw).
  destruct (FIELD_GET (BIT 6) ffw =? 1); apply Z.bits_inj'; intros i Hi.
  - cbv zeta. change CAN_EFF_MASK with (GENMASK 28 0).
    rewrite !Z.lor_spec, Z.shiftl_spec, Z.land_spec, testbit_GENMASK, (testbit_FIELD_GET (GENMASK 17 0)) by lia.
    change (bf_shf (GENMASK 17 0)) with 0. rewrite Z.add_0_r, testbit_GENMASK by lia.
    destruct (Z.lt_ge_cases i 18).
    + rewrite (Z.testbit_neg_r _ (i - 18)) by lia.
      replace (i <=? 17) with true by lia. replace (i <=? 28) with true by lia.
      replace (0 <=? i) with true by lia. btauto.
    + rewrite testbit_FIELD_GET by lia. change (bf_shf (GENMASK 28 18)) with 18.
      rewrite Z.sub_add, testbit_GENMASK by lia. replace (i <=? 17) with false by lia.
      replace (18 <=? i) with true by lia. replace (0 <=? i) with true by lia. btauto.
  - change CAN_SFF_MASK with (GENMASK 10 0).
    rewrite testbit_FIELD_GET, Z.land_spec, Z.shiftr_spec by lia. change (bf_shf (GENMASK 28 18)) with 18.
    rewrite !testbit_GENMASK by lia. f_equal. lia.
Qed.

(** ** Runs *)

Section Same.
Context {W : Type} `{World W}.
Abbreviation MH := (M ctucan_hw_priv W).
Abbreviation MB := (M net_device W).

(** The two layers drive the same core through the same accessors. *)
Record same_core (p : ctucan_hw_priv) (n : net_device) : Prop := {
  sc_base : hw_mem_base p = mem_base (priv n);
  sc_read : hw_read_reg p = read_reg (priv n);
  sc_write : hw_write_reg p = write_reg (priv n);
}.

Definition res_rel {A B} (R : A → B → Prop) (x : res A) (y : res B) : Prop :=
  match x, y with
  | Ok a, Ok b => R a b
  | Ub u, Ub v => u = v
  | NoFuel, NoFuel => True
  | _, _ => False
  end.

(** From every state of the world the two computations perform the same events, leave
    the same world and have results related by [R]; the drivers' own states
    do not change. *)
Definition same {A B} (R : A → B → Prop) (mh : MH A) (mb : MB B) : Prop :=
  ∀ p n w tr, same_core p n →
    ∃ rh rb w' tr', mh (mkst p w tr) = (rh, mkst p w' tr') ∧ mb (mkst n w tr) = (rb, mkst n w' tr') ∧
      res_rel R rh rb.

Lemma same_ret {A B} (R : A → B → Prop) a b : R a b → same R (mret a) (mret b).
Proof. intros HR p n w tr _. by exists (Ok a), (Ok b), w, tr. Qed.

Lemma same_bind {A B C E} (R : A → B → Prop) (S : C → E → Prop) m1 m2 k1 k2 :
  same R m1 m2 → (∀ a b, R a b → same S (k1 a) (k2 b)) → same S (m1 ≫= k1) (m2 ≫= k2).
Proof.
  intros Hm Hk p n w tr Hc. destruct (Hm p n w tr Hc) as (rh & rb & w1 & tr1 & E1 & E2 & HR).
  unfold mbind, M_bind. rewrite E1, E2.
  destruct rh as [a|u|], rb as [b|v|]; simpl in HR; try done.
  - by apply Hk.
  - by eexists _, _, _, _.
  - by eexists _, _, _, _.
Qed.

Lemma same_mono {A B} (R S : A → B → Prop) m1 m2 :
  same R m1 m2 → (∀ a b, R a b → S a b) → same S m1 m2.
Proof.
  intros Hm HRS p n w tr Hc. destruct (Hm p n w tr Hc) as (rh & rb & w1 & tr1 & E1 & E2 & HR).
  exists rh, rb, w1, tr1. split_and!; [done..|]. destruct rh, rb; simpl in *; auto.
Qed.

Lemma same_read reg : same eq (read_hw reg) (ctucan_read32 reg).
Proof.
  intros p n w tr [Hb Hr _].
  unfold read_hw, ctucan_read32, ctucan_hw_read32, ctucan_hw_read32_be, ctucan_read32_le,
    ctucan_read32_be, gets, ioread32be, ioread32, mbind, M_bind, mret, M_ret. cbn [drv world trace].
  rewrite Hr. destruct (read_reg (priv n)); cbn [drv world trace]; rewrite Hb;
    destruct (w_load32 _ w) as [v w']; eexists _, _, w', _; split_and!; [done..|done].
Qed.

Lemma same_write reg val : same eq (write_hw reg val) (ctucan_write32 reg val).
Proof.
  intros p n w tr [Hb _ Hw].
  unfold write_hw, ctucan_write32, ctucan_hw_write32, ctucan_hw_write32_be, ctucan_write32_le,
    ctucan_write32_be, gets, iowrite32be, iowrite32, mbind, M_bind. cbn [drv world trace].
  rewrite Hw. destruct (write_reg (priv n)); cbn [drv world trace]; rewrite Hb;
    eexists _, _, _, _; split_and!; done.
Qed.

Lemma same_call_ c : same eq (call_ c) (call_ c).
Proof.
  intros p n w tr _. unfold call_, call, mbind, M_bind, mret, M_ret. cbn [drv world trace].
  destruct (w_call c w) as [v w']. by eexists _, _, w', _.
Qed.

Lemma same_some_or {A} u (o : option A) : same eq (some_or u o) (some_or u o).
Proof. intros p n w tr _. destruct o; by eexists _, _, w, tr. Qed.

Lemma same_no_fuel {A B} (R : A → B → Prop) : same R no_fuel no_fuel.
Proof. intros p n w tr _. by eexists _, _, w, tr. Qed.

(** *** Reception *)

Lemma same_data_loop fuel cf len i :
  same eq (hw_rx_data_loop fuel cf len i) (rx_data_loop fuel cf len i).
Proof.
  revert cf i. induction fuel as [|fuel IH]; intros cf i; simpl;
    (destruct (i <? len); [|by apply same_ret]); [apply same_no_fuel|].
  eapply same_bind; [apply same_read|]. intros d _ <-.
  eapply same_bind; [apply same_some_or|]. intros bs _ <-. apply IH.
Qed.

Lemma same_skip_loop fuel wc4 i : same eq (hw_rx_skip_loop fuel wc4 i) (rx_skip_loop fuel wc4 i).
Proof.
  revert i. induction fuel as [|fuel IH]; intros i; simpl;
    (destruct (i <? wc4); [|by apply same_ret]); [apply same_no_fuel|].
  eapply same_bind; [apply same_read|]. intros d _ <-. apply IH.
Qed.

Lemma same_read_rx_frame cf ffw :
  same (λ r cf', fst r = cf') (ctucan_hw_read_rx_frame_ffw cf ffw) (ctucan_read_rx_frame cf ffw).
Proof.
  unfold ctucan_hw_read_rx_frame_ffw, ctucan_read_rx_frame. cbv zeta.
  change (hw_rx_wc ffw) with (rx_wc ffw).
  eapply same_bind; [apply same_read|]. intros idw _ <-.
  rewrite hw_rx_can_id_eq, hw_rx_flags_eq, hw_rx_len_eq.
  eapply same_bind; [apply same_read|]. intros ts0 _ <-.
  eapply same_bind; [apply same_read|]. intros ts1 _ <-.
  eapply same_bind; [apply same_data_loop|]. intros ci _ <-.
  eapply same_bind; [apply same_skip_loop|]. intros [] _ _. by apply same_ret.
Qed.

(** C22: [ctucan_hw_read_rx_frame_ffw] of the userspace layer and
    [ctucan_read_rx_frame] of the kernel driver are equivalent: for every
    format word, frame buffer, world and accessor pair they read the same registers in the same order
    and fill in the same frame, or run into the same undefined behaviour. *)
Theorem hw_read_rx_frame_equiv cf ffw :
  same (λ r cf', fst r = cf') (ctucan_hw_read_rx_frame_ffw cf ffw) (ctucan_read_rx_frame cf ffw).
Proof. apply same_read_rx_frame. Qed.

(** *** Errors and commands *)

(** The error state and the error counters are read in the same way by the
    two drivers, whatever the registers hold. *)
Theorem hw_error_state_equiv :
  same eq ctucan_hw_read_error_state ctucan_read_fault_state ∧
  same eq ctucan_hw_read_err_ctrs ctucan_get_rec_tec.
Proof.
  split.
  - eapply same_bind; [apply same_read|]. intros fs _ <-.
    eapply same_bind; [apply same_read|]. intros rt _ <-. cbv zeta.
    change (bf_get ctu_can_fd_ewl_erp_fault_state "ew_limit" fs) with (FIELD_GET REG_EWL_EW_LIMIT fs).
    change (bf_get ctu_can_fd_ewl_erp_fault_state "era" fs) with (FIELD_GET REG_EWL_ERA fs).
    change (bf_get ctu_can_fd_ewl_erp_fault_state "erp" fs) with (FIELD_GET REG_EWL_ERP fs).
    change (bf_get ctu_can_fd_ewl_erp_fault_state "bof" fs) with (FIELD_GET REG_EWL_BOF fs).
    change (bf_get ctu_can_fd_rec_tec "rec_val" rt) with (FIELD_GET REG_REC_REC_VAL rt).
    change (bf_get ctu_can_fd_rec_tec "tec_val" rt) with (FIELD_GET REG_REC_TEC_VAL rt).
    repeat case_match; try by apply same_ret.
    eapply same_bind; [apply same_call_|]. intros. by apply same_ret.
  - eapply same_bind; [apply same_read|]. intros rt _ <-. by apply same_ret.
Qed.

Lemma same_command cmd cmd' buf :
  cmd = cmd' → 0 <= buf < 8 →
  same eq (ctucan_hw_txt_buf_give_command cmd buf) (ctucan_give_txtb_cmd cmd' buf).
Proof.
  intros <- Hb. unfold ctucan_hw_txt_buf_give_command, ctucan_give_txtb_cmd, shl32, bit32. cbv zeta.
  rewrite Z.sub_0_r. replace ((0 <=? buf) && (buf <? 32)) with true by lia.
  replace ((0 <=? buf + 8) && (buf + 8 <? 32)) with true by lia.
  eapply same_bind; [apply (same_ret eq)|intros a _ <-; rewrite Z.lor_comm; apply same_write].
  change (bf_set ctu_can_fd_tx_command_txtb_info "txb1" 1 0) with (2 ^ 8).
  rewrite !Z.shiftl_mul_pow2, Z.mul_1_l, <- Z.pow_add_r, Z.add_comm by lia.
  apply u32_small. split; [lia|]. apply Z.pow_lt_mono_r; lia.
Qed.

(** The commands to a TXT buffer: "set empty", "set ready" and "set abort" of the
    userspace layer write the same word as [ctucan_give_txtb_cmd] of the
    kernel driver with the same buffer index. *)
Theorem hw_commands_equiv buf :
  0 <= buf < 8 →
  same eq (ctucan_hw_txt_set_empty buf) (ctucan_give_txtb_cmd TXT_CMD_SET_EMPTY buf) ∧
  same eq (ctucan_hw_txt_set_rdy buf) (ctucan_give_txtb_cmd TXT_CMD_SET_READY buf) ∧
  same eq (ctucan_hw_txt_set_abort buf) (ctucan_give_txtb_cmd TXT_CMD_SET_ABORT buf).
Proof. intros Hb. split_and!; by apply same_command. Qed.

End Same.

(** Buffer 2. *)
Lemma hw_commands_equiv_witness :
  same (W := script) eq (ctucan_hw_txt_set_rdy 2) (ctucan_give_txtb_cmd TXT_CMD_SET_READY 2).
Proof. by destruct (hw_commands_equiv (W := script) 2 ltac:(done)) as (_ & ? & _). Defined.
