(* ===== verification/HwSpec.v ===== *)
(** * What the functions of the userspace layer do

    Specifications of [ctucanfd_hw.c]: insertion of frames, mode register,
    retransmit limit, interrupt configuration, filters, identifiers and the 64-bit
    timestamp. *)

From Stdlib Require Import ZArith Lia.
From stdpp Require Import base numbers list strings sets.
From S2P Require Import Prelude Bitfield Regs LinuxDefs World Kregs Base Sim BaseTx Hw HwEquiv.

#[local] Open Scope string_scope.
#[local] Open Scope list_scope.
#[local] Open Scope Z_scope.

(** ** Register access *)

Definition le_hw (p : ctucan_hw_priv) : Prop := hw_read_reg p = acc_le ∧ hw_write_reg p = acc_le.

Definition hw_at (p : ctucan_hw_priv) (reg : Z) : Z := hw_mem_base p + reg.

Section Rules.
Context {W : Type} `{World W}.
Implicit Types (s : st ctucan_hw_priv W).

Lemma wp_read_hw reg s Q :
  le_hw (drv s) →
  (∀ v w', w_load32 (hw_at (drv s) reg) (world s) = (v, w') →
    Q (u32 v) (mkst (drv s) w' (trace s ++ [EvLoad (hw_at (drv s) reg) (u32 v)]))) →
  wp (read_hw reg) s Q.
Proof.
  intros [Hr _] HQ. unfold read_hw. wp_step. wp_step. rewrite Hr.
  unfold ctucan_hw_read32. wp_step. wp_step. by apply wp_ioread32.
Qed.

Lemma wp_read_hw_any reg s Q :
  le_hw (drv s) →
  (∀ v w', Q (u32 v) (mkst (drv s) w' (trace s ++ [EvLoad (hw_at (drv s) reg) (u32 v)]))) →
  wp (read_hw reg) s Q.
Proof. intros Hle HQ. apply wp_read_hw; [done|]. intros. apply HQ. Qed.

Lemma wp_write_hw_any reg val s Q :
  le_hw (drv s) →
  (∀ w', Q tt (mkst (drv s) w' (trace s ++ [EvStore (hw_at (drv s) reg) (u32 val)]))) →
  wp (write_hw reg val) s Q.
Proof.
  intros [_ Hw] HQ. unfold write_hw. wp_step. wp_step. rewrite Hw.
  unfold ctucan_hw_write32. wp_step. wp_step. apply wp_iowrite32, HQ.
Qed.

(** What is known of a function of the kernel driver carries over. *)
Lemma same_wp_rel {A B} (R : A → B → Prop) (mh : M ctucan_hw_priv W A) (mb : M net_device W B) p n w tr Q :
  same R mh mb → same_core p n → wp mb (mkst n w tr) Q →
  wp mh (mkst p w tr) (λ a s', drv s' = p ∧ ∃ b, R a b ∧ Q b (mkst n (world s') (trace s'))).
Proof.
  intros Hs Hc. destruct (Hs p n w tr Hc) as (rh & rb & w' & tr' & E1 & E2 & HR).
  unfold wp. rewrite E1, E2. destruct rh, rb; simpl in HR; try done. eauto.
Qed.

Lemma same_wp {A} (mh : M ctucan_hw_priv W A) (mb : M net_device W A) p n w tr Q :
  same eq mh mb → same_core p n → wp mb (mkst n w tr) Q →
  wp mh (mkst p w tr) (λ a s', drv s' = p ∧ Q a (mkst n (world s') (trace s'))).
Proof.
  intros Hs Hc Hw. eapply wp_mono; [by eapply same_wp_rel|]. by intros a s' (? & b & -> & ?).
Qed.

End Rules.

Ltac by_le_hw := match goal with H : le_hw _ |- le_hw _ => exact H end.

Ltac hstep :=
  lazymatch goal with
  | |- wp (read_hw _) _ _ => apply wp_read_hw_any; [by_le_hw|intros ? ?]; cbn beta iota; cbn [drv trace]
  | |- wp (write_hw _ _) _ _ => apply wp_write_hw_any; [by_le_hw|intros ?]; cbn beta iota; cbn [drv trace]
  | |- wp (ctucan_hw_write_txt_buf _ _ _) _ _ => unfold ctucan_hw_write_txt_buf
  | |- wp (when _ _) _ _ => apply wp_when; intros ?
  | |- _ => wp_step
  end.

Ltac hsteps := repeat hstep.

(** A device for the layer that drives the core of a given network device. *)
Definition hw_of (n : net_device) : ctucan_hw_priv :=
  {| hw_mem_base := mem_base (priv n); hw_read_reg := read_reg (priv n); hw_write_reg := write_reg (priv n) |}.

Lemma hw_of_core n : same_core (hw_of n) n.
Proof. done. Qed.

(** ** Insertion of a frame *)

(** The status of a buffer, as this layer reads it. *)
Definition hw_txtb_status (v buf : Z) : Z := Z.land (Z.shiftr v (buf * 4)) 0xF.

Definition hw_accessible (v buf : Z) : bool :=
  negb ((hw_txtb_status v buf =? TXT_RDY) || (hw_txtb_status v buf =? TXT_TRAN) ||
        (hw_txtb_status v buf =? TXT_ABTP)).

(** The words of the kernel driver with the timestamp between identifier and payload. *)
Definition hw_frame_image (n : net_device) (cf : canfd_frame) (ts buf : Z) (fd : bool) : list event :=
  take 2 (frame_image n cf buf fd) ++
  [EvStore (txtb_at n buf CTU_CAN_FD_TIMESTAMP_L_W) (u32 ts);
   EvStore (txtb_at n buf CTU_CAN_FD_TIMESTAMP_U_W) (u32 (Z.shiftr ts 32))] ++
  drop 2 (frame_image n cf buf fd).

Lemma hw_status_nibble v buf :
  0 <= buf < 4 →
  (if buf =? CTU_CAN_FD_TXT_BUFFER_1 then bf_get ctu_can_fd_tx_status "tx1s" v
   else if buf =? CTU_CAN_FD_TXT_BUFFER_2 then bf_get ctu_can_fd_tx_status "tx2s" v
   else if buf =? CTU_CAN_FD_TXT_BUFFER_3 then bf_get ctu_can_fd_tx_status "tx3s" v
   else if buf =? CTU_CAN_FD_TXT_BUFFER_4 then bf_get ctu_can_fd_tx_status "tx4s" v
   else u32 (Z.lnot 0)) = hw_txtb_status v buf.
Proof.
  intros Hb. assert (Hc : buf = 0 ∨ buf = 1 ∨ buf = 2 ∨ buf = 3) by lia.
  unfold hw_txtb_status. change 0xF with (Z.ones 4).
  rewrite Z.land_ones by lia. destruct Hc as [->|[->|[->| ->]]].
  - exact (FIELD_GET_GENMASK 3 0 v ltac:(lia)).
  - exact (FIELD_GET_GENMASK 7 4 v ltac:(lia)).
  - exact (FIELD_GET_GENMASK 11 8 v ltac:(lia)).
  - exact (FIELD_GET_GENMASK 15 12 v ltac:(lia)).
Qed.

Section Insert.
Context {W : Type} `{World W}.

Lemma same_insert_data fuel cf buf_base i :
  same eq (hw_insert_data (W := W) fuel cf buf_base i) (insert_data fuel cf buf_base i).
Proof.
  revert i. induction fuel as [|fuel IH]; intros i; simpl;
    (destruct (i <? len cf); [|by apply same_ret]); [apply same_no_fuel|].
  eapply same_bind; [apply same_some_or|]. intros d _ <-.
  eapply same_bind; [apply same_write|]. intros [] _ _. apply IH.
Qed.

(** The outcomes of an insertion. *)
Definition hw_insert_post (n : net_device) cf ts buf fd tr0 (ok : bool) (s' : st ctucan_hw_priv W) : Prop :=
  drv s' = hw_of n ∧
  ∃ tr, trace s' = tr0 ++ tr ∧
  ((4 <= buf ∧ ok = false ∧ tr = []) ∨
   (buf < 4 ∧ ∃ v, is_u32 v ∧ ok = hw_accessible v buf && (len cf <=? 64) ∧
      tr = EvLoad (reg_at n CTUCANFD_TX_STATUS) v ::
             (if ok then hw_frame_image n cf ts buf fd else []))).

Lemma hw_insert_frame_wp n w tr0 cf ts buf fd :
  le_dev n → 0 <= buf → frame_wf cf →
  wp (ctucan_hw_insert_frame cf ts buf fd) (mkst (hw_of n) w tr0) (hw_insert_post n cf ts buf fd tr0).
Proof.
  intros Hle Hb Hwf. unfold ctucan_hw_insert_frame, hw_insert_post.
  assert (Hhw : le_hw (hw_of n)) by exact Hle.
  destruct (Z.leb_spec CTU_CAN_FD_TXT_BUFFER_COUNT buf) as [H4|H4]; unfold CTU_CAN_FD_TXT_BUFFER_COUNT in H4.
  { hsteps. split; [done|]. exists []. rewrite app_nil_r. split; [done|]. by left. }
  assert (Hbase : tx_buf_bases !! Z.to_nat buf = Some ((buf + 1) * 0x100)).
  { assert (Hc : buf = 0 ∨ buf = 1 ∨ buf = 2 ∨ buf = 3) by lia. by destruct Hc as [->|[->|[->| ->]]]. }
  apply wp_bind. eapply wp_some_or; [exact Hbase|].
  unfold ctucan_hw_is_txt_buf_accessible, ctucan_hw_get_tx_status. hsteps.
  rewrite hw_status_nibble by lia. set (v0 := u32 v). assert (Hv : is_u32 v0) by apply u32_range.
  assert (Hacc : ∀ b : bool, b = negb (hw_accessible v0 buf) → wp
    (if b then mret false else mret true) (mkst (hw_of n) w' (tr0 ++ [EvLoad (reg_at n CTUCANFD_TX_STATUS) v0]))
    (λ a s', a = hw_accessible v0 buf ∧ s' = mkst (hw_of n) w' (tr0 ++ [EvLoad (reg_at n CTUCANFD_TX_STATUS) v0]))).
  { intros b ->. by destruct (hw_accessible v0 buf). }
  eapply wp_mono; [apply Hacc; unfold hw_accessible; by rewrite negb_involutive|].
  intros a s1 [-> ->]. destruct (hw_accessible v0 buf) eqn:Ea; cbn [negb].
  2: { hsteps. split; [done|]. eexists. split; [done|]. right. split; [done|]. exists v0. by rewrite Ea. }
  destruct (Z.ltb_spec CANFD_MAX_DLEN (len cf)) as [Hl|Hl]; unfold CANFD_MAX_DLEN in Hl.
  { hsteps. split; [done|]. eexists. split; [done|]. right. split; [done|]. exists v0.
    rewrite Ea. by replace (len cf <=? 64) with false by lia. }
  replace (len cf <=? 64) with true by lia. pose proof (fw_len _ Hwf).
  rewrite hwid_eq, hw_frame_ffw_eq by lia.
  pose proof (frame_ffw_u32 cf fd). pose proof (frame_idw_u32 cf). pose proof (nwords_bounds (len cf)).
  hsteps; unfold hw_frame_image, frame_image; cbn [take drop app].
  - eapply wp_mono.
    { eapply same_wp; [apply same_insert_data|apply hw_of_core|].
      apply (insert_data_wp 16 cf buf 0); [done|done|done|lia|lia]. }
    intros [] s2 [Hd [_ Ht2]]. hsteps. cbn [drv trace] in *. rewrite Hd, Ht2. tr_norm.
    split; [done|]. eexists. split; [done|]. right. split; [done|]. exists v0. rewrite Ea.
    split_and!; [done..|]. rewrite !u32_idemp, !u32_small, Z.sub_0_r by done. by destruct (nz _).
  - tr_norm. split; [done|]. eexists. split; [done|]. right. split; [done|].
    exists v0. rewrite Ea. split_and!; [done..|]. rewrite !u32_idemp, !u32_small by done. by destruct (nz _).
Qed.

(** C23: [ctucan_hw_insert_frame], in every world and without undefined
    behaviour: an index from 4 on is refused without any access; otherwise
    TX_STATUS is read once and the frame is refused, with nothing written, exactly
    when the buffer is ready, in transmission or being aborted or the length exceeds 64; else the
    words written are those of the kernel driver's [ctucan_insert_frame] in
    the same order, with the two timestamp words between identifier and payload. *)
Theorem ctucan_hw_insert_frame_spec n w tr0 cf ts buf fd :
  le_dev n → 0 <= buf → frame_wf cf →
  wp (ctucan_hw_insert_frame cf ts buf fd) (mkst (hw_of n) w tr0) (hw_insert_post n cf ts buf fd tr0).
Proof. apply hw_insert_frame_wp. Qed.

End Insert.

(** ** Identifiers *)

(** An identifier word as the network layer forms it: 29 bits with the flag, or 11 bits. *)
Definition plain_id (id : Z) : Prop :=
  (Z.testbit id 31 = true ∧ id = Z.lor CAN_EFF_FLAG (Z.land id CAN_EFF_MASK)) ∨
  (Z.testbit id 31 = false ∧ id = Z.land id CAN_SFF_MASK).

(** [ctucan_hw_id_to_hwid] and [ctucan_hw_hwid_to_id] are inverse to each other on
    all standard and extended identifiers, with the IDE bit taken from the flag. *)
Theorem hw_id_roundtrip id :
  plain_id id →
  ctucan_hw_hwid_to_id (ctucan_hw_id_to_hwid id) (if Z.testbit id 31 then EXTENDED else BASE) = id.
Proof.
  assert (Hflag : nz (Z.land id CAN_EFF_FLAG) = Z.testbit id 31).
  { change CAN_EFF_FLAG with (BIT 31). by apply land_BIT_nz. }
  intros [[H31 Hid]|[H31 Hid]]; unfold ctucan_hw_hwid_to_id, ctucan_hw_id_to_hwid;
    rewrite Hflag, H31; cbv zeta; change (EXTENDED =? EXTENDED) with true;
    change (BASE =? EXTENDED) with false; cbv iota.
  - bf_simpl. rewrite Hid at 3. rewrite <- Z.lor_assoc. f_equal.
    change CAN_EFF_MASK with (Z.ones 29). change 0x3FFFF with (Z.ones 18).
    rewrite !Z.land_ones, Z.shiftr_div_pow2 by lia.
    set (x := id mod 2 ^ 29).
    assert (Hx : 0 <= x < 2 ^ 29) by (apply Z.mod_pos_bound; lia).
    assert (Hm : id mod 2 ^ 18 = x mod 2 ^ 18).
    { unfold x. symmetry. apply Z.mod_mod_divide. by exists (2 ^ 11). }
    rewrite Hm, Z.mod_mod by lia.
    assert (Hd : x / 2 ^ 18 mod 2 ^ 11 = x / 2 ^ 18).
    { apply Z.mod_small. split; [apply Z.div_pos; lia|]. apply Z.div_lt_upper_bound; lia. }
    rewrite Hd. pose proof (Z.div_mod x (2 ^ 18) ltac:(lia)) as E.
    pose proof (Z.mod_pos_bound x (2 ^ 18) ltac:(lia)).
    rewrite lor_shiftl_add by lia. lia.
  - bf_simpl. rewrite Hid at 2. change CAN_SFF_MASK with (Z.ones 11).
    rewrite Z.land_ones by lia. by apply Z.mod_mod.
Qed.

(** ** Mode *)

(** The value of a field after a conditional assignment. *)
Lemma bf_get_cond_eq u f lo w (b : bool) v x :
  bu_wf u → locate u f = Some (lo, w) →
  bf_get u f (if b then bf_set u f v x else x) = if b then v mod 2 ^ w else bf_get u f x.
Proof. intros. destruct b; [by eapply bf_get_set_eq|done]. Qed.

Lemma bf_get_cond_ne u f g (b : bool) v x :
  bu_wf u → f ≠ g → bf_get u g (if b then bf_set u f v x else x) = bf_get u g x.
Proof. intros. destruct b; [by apply bf_get_set_ne|done]. Qed.

(** The modes of [ctucan_hw_set_mode_reg] and their fields. *)
Definition mode_fields : list (Z * string) :=
  [(CAN_CTRLMODE_LOOPBACK, "ilbp"); (CAN_CTRLMODE_LISTENONLY, "bmm"); (CAN_CTRLMODE_FD, "fde");
   (CAN_CTRLMODE_PRESUME_ACK, "stm"); (CAN_CTRLMODE_FD_NON_ISO, "nisofd")].

Lemma mode_word_fields mode v :
  (∀ fl f, (fl, f) ∈ mode_fields →
     bf_get ctu_can_fd_mode_settings f (mode_reg_word mode v) =
       if nz (Z.land (mode_mask mode) fl) then b2z (nz (Z.land (mode_flags mode) fl))
       else bf_get ctu_can_fd_mode_settings f v) ∧
  (∀ g, g ∉ (snd <$> mode_fields) →
     bf_get ctu_can_fd_mode_settings g (mode_reg_word mode v) = bf_get ctu_can_fd_mode_settings g v).
Proof.
  split.
  - intros fl f Hf. unfold mode_fields in Hf. rewrite !elem_of_cons, elem_of_nil in Hf.
    unfold mode_reg_word. cbv zeta.
    destruct Hf as [[= -> ->]|[[= -> ->]|[[= -> ->]|[[= -> ->]|[[= -> ->]|[]]]]]];
      repeat rewrite bf_get_cond_ne by bu_decide;
      erewrite bf_get_cond_eq by bu_decide;
      repeat rewrite bf_get_cond_ne by bu_decide;
      (destruct (nz (Z.land (mode_mask mode) _)); [by destruct (nz (Z.land (mode_flags mode) _))|done]).
  - intros g Hg. unfold mode_fields in Hg. csimpl in Hg. rewrite !not_elem_of_cons in Hg.
    destruct Hg as (? & ? & ? & ? & ? & _). unfold mode_reg_word. cbv zeta.
    by rewrite !bf_get_cond_ne by (bu_decide || congruence).
Qed.

Section Config.
Context {W : Type} `{World W}.
Implicit Types (s : st ctucan_hw_priv W).

(** A register is read and written back with a changed word. *)
Definition rmw reg (f : Z → Z) s s' : Prop :=
  drv s' = drv s ∧ ∃ v, is_u32 v ∧ trace s' = trace s ++
    [EvLoad (hw_at (drv s) reg) v; EvStore (hw_at (drv s) reg) (f v)].

Lemma mode_reg_word_u32 mode v : is_u32 v → is_u32 (mode_reg_word mode v).
Proof.
  intros Hv. unfold mode_reg_word. cbv zeta.
  repeat first [ match goal with |- is_u32 (if ?b then _ else _) => destruct b end
               | apply bf_set_u32; [bu_decide|] ]; done.
Qed.

(** [ctucan_hw_set_mode_reg] reads the MODE word once and writes it back
    once; of the five modes it knows, each one selected by the mask has the
    value of its flag afterwards, and every other field of the register (those of modes not
    selected, the enable bit, the retransmit limit) is as it was read. *)
Theorem ctucan_hw_set_mode_reg_spec mode s :
  le_hw (drv s) →
  wp (ctucan_hw_set_mode_reg mode) s (λ _ s', ∃ f, rmw CTU_CAN_FD_MODE f s s' ∧ ∀ v,
    (∀ fl g, (fl, g) ∈ mode_fields →
       bf_get ctu_can_fd_mode_settings g (f v) =
         if nz (Z.land (mode_mask mode) fl) then b2z (nz (Z.land (mode_flags mode) fl))
         else bf_get ctu_can_fd_mode_settings g v) ∧
    (∀ g, g ∉ (snd <$> mode_fields) →
       bf_get ctu_can_fd_mode_settings g (f v) = bf_get ctu_can_fd_mode_settings g v)).
Proof.
  intros Hle. unfold ctucan_hw_set_mode_reg. hsteps. exists (mode_reg_word mode).
  split; [|intros v1; apply mode_word_fields]. split; [done|]. exists (u32 v).
  split; [apply u32_range|]. tr_norm. do 4 f_equal. apply u32_small, mode_reg_word_u32, u32_range.
Qed.

(** [ctucan_hw_set_ret_limit] refuses a limit above 15 without any access.
    Otherwise it sets the enable bit and the limit in the MODE register, where
    the limit is then read back as given, and no other field changes. *)
Theorem ctucan_hw_set_ret_limit_spec enable limit s :
  le_hw (drv s) → 0 <= limit →
  wp (ctucan_hw_set_ret_limit enable limit) s (λ ok s',
    (15 < limit ∧ ok = false ∧ s' = s) ∨
    (limit <= 15 ∧ ok = true ∧ ∃ f, rmw CTU_CAN_FD_MODE f s s' ∧ ∀ v,
       bf_get ctu_can_fd_mode_settings "rtrle" (f v) = b2z enable ∧
       bf_get ctu_can_fd_mode_settings "rtrth" (f v) = limit ∧
       ∀ g, g ∉ ["rtrle"; "rtrth"] →
         bf_get ctu_can_fd_mode_settings g (f v) = bf_get ctu_can_fd_mode_settings g v)).
Proof.
  intros Hle Hl. unfold ctucan_hw_set_ret_limit.
  destruct (Z.ltb_spec CTU_CAN_FD_RETR_MAX limit) as [Hm|Hm]; unfold CTU_CAN_FD_RETR_MAX in Hm.
  { hsteps. by left. }
  hsteps. right. split_and!; [done..|].
  exists (λ v, bf_set ctu_can_fd_mode_settings "rtrth" (Z.land limit 0xF)
    (bf_set ctu_can_fd_mode_settings "rtrle" (if enable then RTRLE_ENABLED else RTRLE_DISABLED) v)).
  split.
  - split; [done|]. exists (u32 v). split; [apply u32_range|]. tr_norm. do 4 f_equal.
    apply u32_small. do 2 (apply bf_set_u32; [bu_decide|]). apply u32_range.
  - intros v1. split_and!.
    + bf_simpl. by destruct enable.
    + bf_simpl. change 0xF with (Z.ones 4). rewrite Z.land_ones, Z.mod_mod by lia. apply Z.mod_small. lia.
    + intros g Hg. rewrite !not_elem_of_cons in Hg. destruct Hg as (? & ? & _).
      by rewrite !bf_get_set_ne by (bu_decide || congruence).
Qed.

(** *** Interrupts *)

(** A pair of set and clear registers over the word [r]. *)
Definition set_clear (r set clr : Z) : Z := Z.land (Z.lor r set) (Z.lnot clr).

Lemma int_conf_wp sreg creg mask val s :
  le_hw (drv s) → is_u32 mask →
  wp (ctucan_hw_int_conf sreg creg mask val) s (λ _ s', ∃ a b, drv s' = drv s ∧
    trace s' = trace s ++ [EvStore (hw_at (drv s) sreg) a; EvStore (hw_at (drv s) creg) b] ∧
    ∀ r i, 0 <= i < 32 → Z.testbit (set_clear r a b) i =
      if Z.testbit mask i then Z.testbit val i else Z.testbit r i).
Proof.
  intros Hle Hm. unfold ctucan_hw_int_conf. hsteps.
  exists (Z.land mask val), (Z.land mask (u32 (Z.lnot val))). split_and!; [done| |].
  - assert (Hu : ∀ x, u32 (Z.land mask x) = Z.land mask x).
    { intros x. apply u32_small. rewrite Z.land_comm. by apply land_u32_r. }
    tr_norm. by rewrite !Hu.
  - intros r i Hi. unfold set_clear.
    rewrite Z.land_spec, Z.lor_spec, Z.lnot_spec, !Z.land_spec, testbit_u32, Z.lnot_spec by lia.
    replace (i <? 32) with true by lia.
    by destruct (Z.testbit mask i), (Z.testbit val i), (Z.testbit r i).
Qed.

(** [ctucan_hw_int_ena] and [ctucan_hw_int_mask]: through the pair of set and
    clear registers every bit of the mask gets its bit of the value and every
    other bit of the enable (or mask) word keeps its value. *)
Theorem ctucan_hw_int_conf_spec mask val s :
  le_hw (drv s) → is_u32 mask →
  wp (ctucan_hw_int_ena mask val) s (λ _ s', ∃ a b, drv s' = drv s ∧
    trace s' = trace s ++ [EvStore (hw_at (drv s) CTU_CAN_FD_INT_ENA_SET) a;
                           EvStore (hw_at (drv s) CTU_CAN_FD_INT_ENA_CLR) b] ∧
    ∀ r i, 0 <= i < 32 → Z.testbit (set_clear r a b) i =
      if Z.testbit mask i then Z.testbit val i else Z.testbit r i) ∧
  wp (ctucan_hw_int_mask mask val) s (λ _ s', ∃ a b, drv s' = drv s ∧
    trace s' = trace s ++ [EvStore (hw_at (drv s) CTU_CAN_FD_INT_MASK_SET) a;
                           EvStore (hw_at (drv s) CTU_CAN_FD_INT_MASK_CLR) b] ∧
    ∀ r i, 0 <= i < 32 → Z.testbit (set_clear r a b) i =
      if Z.testbit mask i then Z.testbit val i else Z.testbit r i).
Proof. intros. split; by apply int_conf_wp. Qed.

(** A request for bus error reporting has no effect in this layer:
    [ctucan_hw_set_mode] with CAN_CTRLMODE_BERR_REPORTING in mask and flags, but no
    one-shot flag, only writes zeros to the two interrupt enable registers, so
    that the bus error interrupt stays as it was. *)
Theorem hw_berr_reporting_ignored mode s :
  le_hw (drv s) →
  nz (Z.land (mode_mask mode) CAN_CTRLMODE_BERR_REPORTING) = true →
  nz (Z.land (mode_flags mode) CAN_CTRLMODE_ONE_SHOT) = false →
  wp (ctucan_hw_set_mode mode) s (λ _ s', ∃ l,
    stores (trace s') = stores (trace s) ++ l ++
      [(hw_at (drv s) CTU_CAN_FD_INT_ENA_SET, 0); (hw_at (drv s) CTU_CAN_FD_INT_ENA_CLR, 0)] ∧
    Forall (λ p, fst p = hw_at (drv s) CTU_CAN_FD_MODE) l).
Proof.
  intros Hle Hb Ho. unfold ctucan_hw_set_mode, ctucan_hw_set_mode_reg, ctucan_hw_set_ret_limit,
    ctucan_hw_int_ena, ctucan_hw_int_conf. rewrite Ho, Hb.
  change (CTU_CAN_FD_RETR_MAX <? 0) with false. cbv iota.
  destruct (nz (Z.land (mode_mask mode) CAN_CTRLMODE_ONE_SHOT)); hsteps; try discriminate.
  - eexists [(_, _); (_, _)]. rewrite !stores_app. cbn [stores]. rewrite !app_nil_r, <- !app_assoc.
    split; [reflexivity|]. by repeat constructor.
  - eexists [(_, _)]. rewrite !stores_app. cbn [stores]. rewrite !app_nil_r, <- !app_assoc.
    split; [reflexivity|]. by repeat constructor.
Qed.

End Config.

(** ** Filters *)

Abbreviation fcs := ctu_can_fd_filter_control_filter_status.

Lemma set_fields_other fs val x g :
  g ∉ fs → bf_get fcs g (set_fields fs val x) = bf_get fcs g x.
Proof.
  revert x. induction fs as [|f fs IH]; intros x Hg; [done|]. apply not_elem_of_cons in Hg as [Hne Hg].
  cbn [set_fields foldl]. unfold set_fields in IH. rewrite IH by done.
  by rewrite bf_get_set_ne by (bu_decide || congruence).
Qed.

(** Assignments to distinct fields of one bit. *)
Lemma set_fields_this fs val x g :
  (∀ f, f ∈ fs → ∃ lo, locate fcs f = Some (lo, 1)) → 0 <= val < 2 →
  g ∈ fs → bf_get fcs g (set_fields fs val x) = val.
Proof.
  intros Hfs Hv. revert x. induction fs as [|f fs IH]; intros x Hg; [set_solver|].
  cbn [set_fields foldl]. destruct (decide (g ∈ fs)).
  { unfold set_fields in IH. apply IH; [set_solver|done]. }
  assert (g = f) as -> by set_solver.
  pose proof (set_fields_other fs val (bf_set fcs f val x) f ltac:(done)) as E. unfold set_fields in E.
  rewrite E. destruct (Hfs f ltac:(set_solver)) as [lo Hlo].
  erewrite bf_get_set_eq by (bu_decide || exact Hlo). by apply Z.mod_small.
Qed.

Lemma set_fields_u32 fs val x : is_u32 x → is_u32 (set_fields fs val x).
Proof.
  revert x. induction fs as [|f fs IH]; intros x Hx; [done|]. cbn [set_fields foldl].
  apply IH, bf_set_u32; [bu_decide|done].
Qed.

(** The bit that tells whether a mask filter is implemented. *)
Definition filter_supported (fnum v : Z) : bool :=
  if fnum =? CTU_CAN_FD_FILTER_A then nz (bf_get fcs "sfa" v)
  else if fnum =? CTU_CAN_FD_FILTER_B then nz (bf_get fcs "sfb" v)
  else if fnum =? CTU_CAN_FD_FILTER_C then nz (bf_get fcs "sfc" v)
  else false.

Lemma filter_regs_some fnum v :
  filter_supported fnum v = true →
  ∃ maddr vaddr fs, mask_filter_regs fnum = Some (maddr, vaddr, fs) ∧
    (∀ f, f ∈ fs → ∃ lo, locate fcs f = Some (lo, 1)).
Proof.
  unfold filter_supported, mask_filter_regs. intros Hs.
  assert (Hfs : ∀ a b c d, Forall (λ f, ∃ lo, locate fcs f = Some (lo, 1)) [a; b; c; d] →
    ∀ f, f ∈ [a; b; c; d] → ∃ lo, locate fcs f = Some (lo, 1)).
  { intros a b c d HF f Hf. by eapply Forall_forall in HF. }
  repeat case_match; try done; eexists _, _, _; (split; [done|]); apply Hfs;
    repeat (apply Forall_cons; split; [by eexists|]); by apply Forall_nil.
Qed.

Section Filters.
Context {W : Type} `{World W}.
Implicit Types (s : st ctucan_hw_priv W).

Lemma hwid_u32 id : is_u32 (ctucan_hw_id_to_hwid id).
Proof.
  unfold ctucan_hw_id_to_hwid. cbv zeta. case_match; repeat (apply bf_set_u32; [bu_decide|]); by_compute.
Qed.

(** [ctucan_hw_set_mask_filter] returns false and writes nothing when the
    filter is not implemented.  Otherwise it sets the four enable bits of this
    filter to [enable] and keeps all other fields of the control register, and
    then writes the filter's identifier to the MASK register and
    the filter's mask to the VAL register (not the other way round). *)
Theorem ctucan_hw_set_mask_filter_spec fnum enable filter s :
  le_hw (drv s) →
  wp (ctucan_hw_set_mask_filter fnum enable filter) s (λ ok s', drv s' = drv s ∧
    ∃ v, is_u32 v ∧ ok = filter_supported fnum v ∧
    if ok then
      ∃ maddr vaddr fs v2 w, mask_filter_regs fnum = Some (maddr, vaddr, fs) ∧
        trace s' = trace s ++
          [EvLoad (hw_at (drv s) CTU_CAN_FD_FILTER_CONTROL) v;
           EvLoad (hw_at (drv s) CTU_CAN_FD_FILTER_CONTROL) v2;
           EvStore (hw_at (drv s) CTU_CAN_FD_FILTER_CONTROL) w;
           EvStore (hw_at (drv s) maddr) (ctucan_hw_id_to_hwid (filter_id filter));
           EvStore (hw_at (drv s) vaddr) (ctucan_hw_id_to_hwid (filter_mask filter))] ∧
        (∀ f, f ∈ fs → bf_get fcs f w = b2z enable) ∧
        (∀ g, g ∉ fs → bf_get fcs g w = bf_get fcs g v2)
    else trace s' = trace s ++ [EvLoad (hw_at (drv s) CTU_CAN_FD_FILTER_CONTROL) v]).
Proof.
  intros Hle. unfold ctucan_hw_set_mask_filter, ctucan_hw_get_mask_filter_support. hsteps.
  change (if fnum =? CTU_CAN_FD_FILTER_A then _ else _) with (filter_supported fnum (u32 v)).
  destruct (filter_supported fnum (u32 v)) eqn:Es; cbn [negb]; hsteps.
  2: { split; [done|]. exists (u32 v). rewrite Es. split_and!; [apply u32_range|done|done]. }
  destruct (filter_regs_some _ _ Es) as (maddr & vaddr & fs & -> & Hfs). hsteps.
  split; [done|]. exists (u32 v). rewrite Es. split_and!; [apply u32_range|done|].
  eexists maddr, vaddr, fs, (u32 v0), _. split_and!; [done| |..].
  - rewrite !(u32_small (ctucan_hw_id_to_hwid _)) by apply hwid_u32.
    rewrite (u32_small (set_fields _ _ _)) by apply set_fields_u32, u32_range. by tr_norm.
  - intros f Hf. apply set_fields_this; [done|by destruct enable|done].
  - intros g Hg. by apply set_fields_other.
Qed.

End Filters.

(** ** Timestamp *)

(** A core whose two timestamp registers show the halves of a counter that
    does not run backwards. *)
Class TsDevice (W : Type) `{World W} (base : Z) := {
  clock : W → Z;
  clock_nonneg : ∀ w, 0 <= clock w;
  clock_high : ∀ w v w', w_load32 (base + CTU_CAN_FD_TIMESTAMP_HIGH) w = (v, w') →
    ∃ t, clock w <= t <= clock w' ∧ u32 v = u32 (t / 2 ^ 32);
  clock_low : ∀ w v w', w_load32 (base + CTU_CAN_FD_TIMESTAMP_LOW) w = (v, w') →
    ∃ t, clock w <= t <= clock w' ∧ u32 v = u32 t;
}.

(** The halves of one value, when the high half did not change around it. *)
Lemma halves_join t t1 t2 :
  0 <= t1 → t1 <= t <= t2 → t2 < 2 ^ 64 → t1 / 2 ^ 32 = t2 / 2 ^ 32 →
  Z.lor (Z.shiftl (u32 (t2 / 2 ^ 32)) 32) (u32 t) = t.
Proof.
  intros H0 Ht H64 E.
  assert (Hq : t / 2 ^ 32 = t2 / 2 ^ 32).
  { pose proof (Z.div_le_mono t1 t (2 ^ 32)). pose proof (Z.div_le_mono t t2 (2 ^ 32)). lia. }
  rewrite <- Hq, lor_shiftl_add by (done || apply u32_range).
  rewrite (u32_small (t / 2 ^ 32)).
  - pose proof (Z.div_mod t (2 ^ 32) ltac:(done)). unfold u32. lia.
  - split; [apply Z.div_pos; lia|]. apply Z.div_lt_upper_bound; lia.
Qed.

(** C27: [ctucan_hw_read_timestamp] returns a value that the 64-bit counter had
    between the start and the end of the call, also when the low word
    overflows during the call, provided that the call takes less than 2^32
    ticks of a counter that does not wrap around at 2^64. *)
Theorem ctucan_hw_read_timestamp_consistent {W} `{World W} p w tr0 `{!TsDevice W (hw_mem_base p)} :
  le_hw p →
  wp ctucan_hw_read_timestamp (mkst p w tr0) (λ r s',
    clock (world s') - clock w < 2 ^ 32 → clock (world s') < 2 ^ 64 →
    clock w <= r <= clock (world s')).
Proof.
  intros Hle. unfold ctucan_hw_read_timestamp. wp_step.
  apply wp_read_hw; [done|]. intros v1 w1 (t1 & Ht1 & ->)%clock_high. cbn [drv world trace] in *.
  wp_step. apply wp_read_hw; [done|]. intros v2 w2 (t2 & Ht2 & ->)%clock_low. cbn [drv world trace] in *.
  wp_step. apply wp_read_hw; [done|]. intros v3 w3 (t3 & Ht3 & ->)%clock_high. cbn [drv world trace] in *.
  pose proof (clock_nonneg w) as H0.
  assert (Hhi : ∀ a b c, 0 <= a → a <= b → b <= c → c - a < 2 ^ 32 → c < 2 ^ 64 →
    (u32 (a / 2 ^ 32) = u32 (b / 2 ^ 32) → a / 2 ^ 32 = b / 2 ^ 32) ∧
    (u32 (a / 2 ^ 32) ≠ u32 (b / 2 ^ 32) → b / 2 ^ 32 = c / 2 ^ 32)).
  { intros a b c Ha Hab Hbc Hd Hc.
    assert (Hs : ∀ x, 0 <= x < 2 ^ 64 → u32 (x / 2 ^ 32) = x / 2 ^ 32).
    { intros x Hx. apply u32_small. split; [apply Z.div_pos; lia|]. apply Z.div_lt_upper_bound; lia. }
    rewrite !Hs by lia. split; [done|]. intros Hne.
    pose proof (Z.div_mod a (2 ^ 32) ltac:(done)). pose proof (Z.mod_pos_bound a (2 ^ 32) ltac:(done)).
    pose proof (Z.div_mod b (2 ^ 32) ltac:(done)). pose proof (Z.mod_pos_bound b (2 ^ 32) ltac:(done)).
    pose proof (Z.div_mod c (2 ^ 32) ltac:(done)). pose proof (Z.mod_pos_bound c (2 ^ 32) ltac:(done)).
    pose proof (Z.div_le_mono a b (2 ^ 32)). pose proof (Z.div_le_mono b c (2 ^ 32)). lia. }
  destruct (Z.eqb_spec (u32 (t1 / 2 ^ 32)) (u32 (t3 / 2 ^ 32))) as [E|E]; cbn [negb]; wp_step.
  - wp_step. wp_step. intros Hd H64. cbn [world] in *.
    rewrite (halves_join t2 t1 t3); [lia|lia|lia|lia|]. apply (Hhi t1 t3 t3); lia || done.
  - apply wp_read_hw; [done|]. intros v4 w4 (t4 & Ht4 & ->)%clock_low. cbn [drv world trace] in *.
    wp_step. intros Hd H64. cbn [world] in *.
    assert (E34 : t3 / 2 ^ 32 = t4 / 2 ^ 32) by (apply (Hhi t1 t3 t4); lia || done).
    rewrite E34, (halves_join t4 t3 t4); lia.
Qed.

(** ** Concrete runs *)

Definition sample_hw (ls : list Z) : st ctucan_hw_priv script :=
  mkst (hw_of sample_dev) (mkscript ls [] []) [].

Lemma sample_hw_le ls : le_hw (drv (sample_hw ls)).
Proof. done. Qed.

(** The status 0x80 marks buffer 1 as empty: seven words are written. *)
Lemma ctucan_hw_insert_frame_witness :
  wp (ctucan_hw_insert_frame sample_cf 0x500000007 1 true) (sample_hw [0x80])
    (hw_insert_post sample_dev sample_cf 0x500000007 1 true []) ∧
  stores (hw_frame_image sample_dev sample_cf 0x500000007 1 true) =
    [(0x43C30200, 0x2C9); (0x43C30204, 0x12345678); (0x43C30208, 7); (0x43C3020C, 5);
     (0x43C30210, 0x04030201); (0x43C30214, 0x08070605); (0x43C30218, 0x0C0B0A09)].
Proof.
  split; [|by vm_compute].
  apply (ctucan_hw_insert_frame_spec sample_dev (mkscript [0x80] [] []) [] sample_cf 0x500000007 1 true);
    [done|done|exact sample_frame_wf].
Defined.

Lemma hw_id_roundtrip_witness :
  ctucan_hw_id_to_hwid 0x9ABCDEF0 = 0x1ABCDEF0 ∧ ctucan_hw_id_to_hwid 0x123 = 0x48C0000 ∧
  ctucan_hw_hwid_to_id (ctucan_hw_id_to_hwid 0x9ABCDEF0) EXTENDED = 0x9ABCDEF0.
Proof.
  split_and!; [by vm_compute|by vm_compute|]. apply (hw_id_roundtrip 0x9ABCDEF0). by left.
Defined.

(** Loopback on, listen-only off; CAN FD is not selected. *)
Lemma ctucan_hw_set_mode_reg_witness :
  wp (ctucan_hw_set_mode_reg {| mode_mask := 0x3; mode_flags := 0x21 |}) (sample_hw [0x400012])
    (λ _ s', drv s' = hw_of sample_dev ∧ stores (trace s') = [(0x43C30004, 0x600010)]).
Proof.
  eapply wp_mono; [apply wp_and|].
  - exact (ctucan_hw_set_mode_reg_spec {| mode_mask := 0x3; mode_flags := 0x21 |} (sample_hw [0x400012])
      (sample_hw_le _)).
  - instantiate (1 := λ _ s', stores (trace s') = [(0x43C30004, 0x600010)]). by vm_compute.
  - by intros [] s' [(f & [? _] & _) ?].
Defined.

Lemma ctucan_hw_set_ret_limit_witness :
  wp (ctucan_hw_set_ret_limit true 5) (sample_hw [0x400000])
    (λ ok s', ok = true ∧ stores (trace s') = [(0x43C30004, 0x4B0000)]).
Proof.
  eapply wp_mono; [apply wp_and|].
  - exact (ctucan_hw_set_ret_limit_spec true 5 (sample_hw [0x400000]) (sample_hw_le _) ltac:(done)).
  - instantiate (1 := λ _ s', stores (trace s') = [(0x43C30004, 0x4B0000)]). by vm_compute.
  - intros ok s' [[[? _]|(_ & -> & _)] ?]; [done|done].
Defined.

Lemma ctucan_hw_int_conf_witness :
  wp (ctucan_hw_int_ena 0xFF 0x0F) (sample_hw []) (λ _ s',
    stores (trace s') = [(0x43C30014, 0x0F); (0x43C30018, 0xF0)] ∧ drv s' = hw_of sample_dev).
Proof.
  eapply wp_mono; [apply wp_and|].
  - exact (proj1 (ctucan_hw_int_conf_spec 0xFF 0x0F (sample_hw []) (sample_hw_le _) ltac:(by_compute))).
  - instantiate (1 := λ _ s', stores (trace s') = [(0x43C30014, 0x0F); (0x43C30018, 0xF0)]). by vm_compute.
  - by intros [] s' [(a & b & ? & _) ?].
Defined.

Lemma hw_berr_reporting_ignored_witness :
  wp (ctucan_hw_set_mode {| mode_mask := 0x10; mode_flags := 0x10 |}) (sample_hw [0x400000]) (λ _ s',
    ∃ l, stores (trace s') = l ++ [(0x43C30014, 0); (0x43C30018, 0)]).
Proof.
  eapply wp_mono; [exact (hw_berr_reporting_ignored {| mode_mask := 0x10; mode_flags := 0x10 |}
    (sample_hw [0x400000]) (sample_hw_le _) eq_refl eq_refl)|].
  intros [] s' (l & E & _). by exists l.
Defined.

(** Filter B is implemented and gets enabled for the identifiers 0x100 .. 0x10F. *)
Lemma ctucan_hw_set_mask_filter_witness :
  wp (ctucan_hw_set_mask_filter 1 true {| filter_id := 0x100; filter_mask := 0x7F0 |})
    (sample_hw [0x20000; 0x2000F]) (λ ok s', drv s' = hw_of sample_dev ∧ ok = true ∧
      stores (trace s') = [(0x43C3005C, 0x200FF); (0x43C30044, 0x4000000); (0x43C30048, 0x1FC00000)]).
Proof.
  eapply wp_mono; [apply wp_and|].
  - exact (ctucan_hw_set_mask_filter_spec 1 true {| filter_id := 0x100; filter_mask := 0x7F0 |}
      (sample_hw [0x20000; 0x2000F]) (sample_hw_le _)).
  - instantiate (1 := λ ok s', ok = true ∧
      stores (trace s') = [(0x43C3005C, 0x200FF); (0x43C30044, 0x4000000); (0x43C30048, 0x1FC00000)]).
    by vm_compute.
  - by intros ok s' [[? _] [? ?]].
Defined.

(** A counter that advances with every access. *)
#[export] Instance tick_world : World N := {
  w_load32 a w := (if a =? 0x43C30000 + CTU_CAN_FD_TIMESTAMP_HIGH then Z.of_N w / 2 ^ 32 else Z.of_N w,
                   N.succ w);
  w_store32 _ _ w := w;
  w_call _ w := (0, w);
  w_alloc _ w := (None, w);
}.

#[export] Instance tick_ts : TsDevice N 0x43C30000.
Proof.
  refine {| clock := Z.of_N |}; [lia|..]; intros w v w' [= <- <-]; exists (Z.of_N w); (split; [lia|done]).
Defined.

(** The low word overflows between the accesses. *)
Lemma ctucan_hw_read_timestamp_witness :
  wp ctucan_hw_read_timestamp (mkst (hw_of sample_dev) (0x2FFFFFFFF)%N [])
    (λ r s', r = 0x300000002 ∧ 0x2FFFFFFFF <= r <= 0x300000003).
Proof.
  eapply wp_mono; [apply wp_and|].
  - exact (ctucan_hw_read_timestamp_consistent (hw_of sample_dev) (0x2FFFFFFFF)%N []
      (TsDevice0 := tick_ts) (conj eq_refl eq_refl)).
  - instantiate (1 := λ r s', r = 0x300000002 ∧ Z.of_N (world s') = 0x300000003). by vm_compute.
  - intros r s' [Hc [-> Hw]]. split; [done|].
    change (clock (world s')) with (Z.of_N (world s')) in Hc. rewrite Hw in Hc. by apply Hc.
Defined.
