(* ===== verification/Headers.v ===== *)
(** * The two descriptions of the registers agree

    The kernel driver uses the offsets and masks of [ctucanfd_kregs.h] and
    [ctucanfd_kframe.h], the userspace layer the offsets and unions of
    [ctucanfd_regs.h] and [ctucanfd_frame.h].  A register word built or read with the one header and a
    register word built or read with the other are the same word, for every value, and at the same address. *)

From Stdlib Require Import ZArith Lia.
From stdpp Require Import base numbers list strings.
From S2P Require Import Prelude Bitfield Regs Kregs.

#[local] Open Scope string_scope.
#[local] Open Scope list_scope.
#[local] Open Scope Z_scope.

(** The registers with both names of their offset. *)
Definition register_table : list (Z * Z) :=
  [(CTUCANFD_DEVICE_ID, CTU_CAN_FD_DEVICE_ID);
   (CTUCANFD_VERSION, CTU_CAN_FD_VERSION);
   (CTUCANFD_MODE, CTU_CAN_FD_MODE);
   (CTUCANFD_SETTINGS, CTU_CAN_FD_SETTINGS);
   (CTUCANFD_STATUS, CTU_CAN_FD_STATUS);
   (CTUCANFD_COMMAND, CTU_CAN_FD_COMMAND);
   (CTUCANFD_INT_STAT, CTU_CAN_FD_INT_STAT);
   (CTUCANFD_INT_ENA_SET, CTU_CAN_FD_INT_ENA_SET);
   (CTUCANFD_INT_ENA_CLR, CTU_CAN_FD_INT_ENA_CLR);
   (CTUCANFD_INT_MASK_SET, CTU_CAN_FD_INT_MASK_SET);
   (CTUCANFD_INT_MASK_CLR, CTU_CAN_FD_INT_MASK_CLR);
   (CTUCANFD_BTR, CTU_CAN_FD_BTR);
   (CTUCANFD_BTR_FD, CTU_CAN_FD_BTR_FD);
   (CTUCANFD_EWL, CTU_CAN_FD_EWL);
   (CTUCANFD_ERP, CTU_CAN_FD_ERP);
   (CTUCANFD_FAULT_STATE, CTU_CAN_FD_FAULT_STATE);
   (CTUCANFD_REC, CTU_CAN_FD_REC);
   (CTUCANFD_TEC, CTU_CAN_FD_TEC);
   (CTUCANFD_ERR_NORM, CTU_CAN_FD_ERR_NORM);
   (CTUCANFD_ERR_FD, CTU_CAN_FD_ERR_FD);
   (CTUCANFD_CTR_PRES, CTU_CAN_FD_CTR_PRES);
   (CTUCANFD_FILTER_A_MASK, CTU_CAN_FD_FILTER_A_MASK);
   (CTUCANFD_FILTER_A_VAL, CTU_CAN_FD_FILTER_A_VAL);
   (CTUCANFD_FILTER_B_MASK, CTU_CAN_FD_FILTER_B_MASK);
   (CTUCANFD_FILTER_B_VAL, CTU_CAN_FD_FILTER_B_VAL);
   (CTUCANFD_FILTER_C_MASK, CTU_CAN_FD_FILTER_C_MASK);
   (CTUCANFD_FILTER_C_VAL, CTU_CAN_FD_FILTER_C_VAL);
   (CTUCANFD_FILTER_RAN_LOW, CTU_CAN_FD_FILTER_RAN_LOW);
   (CTUCANFD_FILTER_RAN_HIGH, CTU_CAN_FD_FILTER_RAN_HIGH);
   (CTUCANFD_FILTER_CONTROL, CTU_CAN_FD_FILTER_CONTROL);
   (CTUCANFD_FILTER_STATUS, CTU_CAN_FD_FILTER_STATUS);
   (CTUCANFD_RX_MEM_INFO, CTU_CAN_FD_RX_MEM_INFO);
   (CTUCANFD_RX_POINTERS, CTU_CAN_FD_RX_POINTERS);
   (CTUCANFD_RX_STATUS, CTU_CAN_FD_RX_STATUS);
   (CTUCANFD_RX_SETTINGS, CTU_CAN_FD_RX_SETTINGS);
   (CTUCANFD_RX_DATA, CTU_CAN_FD_RX_DATA);
   (CTUCANFD_TX_STATUS, CTU_CAN_FD_TX_STATUS);
   (CTUCANFD_TX_COMMAND, CTU_CAN_FD_TX_COMMAND);
   (CTUCANFD_TXTB_INFO, CTU_CAN_FD_TXTB_INFO);
   (CTUCANFD_TX_PRIORITY, CTU_CAN_FD_TX_PRIORITY);
   (CTUCANFD_ERR_CAPT, CTU_CAN_FD_ERR_CAPT);
   (CTUCANFD_RETR_CTR, CTU_CAN_FD_RETR_CTR);
   (CTUCANFD_ALC, CTU_CAN_FD_ALC);
   (CTUCANFD_TS_INFO, CTU_CAN_FD_TS_INFO);
   (CTUCANFD_TRV_DELAY, CTU_CAN_FD_TRV_DELAY);
   (CTUCANFD_SSP_CFG, CTU_CAN_FD_SSP_CFG);
   (CTUCANFD_RX_FR_CTR, CTU_CAN_FD_RX_FR_CTR);
   (CTUCANFD_TX_FR_CTR, CTU_CAN_FD_TX_FR_CTR);
   (CTUCANFD_DEBUG_REGISTER, CTU_CAN_FD_DEBUG_REGISTER);
   (CTUCANFD_YOLO_REG, CTU_CAN_FD_YOLO_REG);
   (CTUCANFD_TIMESTAMP_LOW, CTU_CAN_FD_TIMESTAMP_LOW);
   (CTUCANFD_TIMESTAMP_HIGH, CTU_CAN_FD_TIMESTAMP_HIGH);
   (CTUCANFD_TST_CONTROL, CTU_CAN_FD_TST_CONTROL);
   (CTUCANFD_TST_DEST, CTU_CAN_FD_TST_DEST);
   (CTUCANFD_TST_WDATA, CTU_CAN_FD_TST_WDATA);
   (CTUCANFD_TST_RDATA, CTU_CAN_FD_TST_RDATA)].

(** The words of a frame in a TXT buffer or the RX FIFO. *)
Definition frame_table : list (Z * Z) :=
  [(CTUCANFD_FRAME_FORMAT_W, CTU_CAN_FD_FRAME_FORMAT_W);
   (CTUCANFD_IDENTIFIER_W, CTU_CAN_FD_IDENTIFIER_W);
   (CTUCANFD_TIMESTAMP_L_W, CTU_CAN_FD_TIMESTAMP_L_W);
   (CTUCANFD_TIMESTAMP_U_W, CTU_CAN_FD_TIMESTAMP_U_W);
   (CTUCANFD_DATA_1_4_W, CTU_CAN_FD_DATA_1_4_W);
   (CTUCANFD_DATA_5_8_W, CTU_CAN_FD_DATA_5_8_W);
   (CTUCANFD_DATA_9_12_W, CTU_CAN_FD_DATA_9_12_W);
   (CTUCANFD_DATA_13_16_W, CTU_CAN_FD_DATA_13_16_W);
   (CTUCANFD_DATA_17_20_W, CTU_CAN_FD_DATA_17_20_W);
   (CTUCANFD_DATA_21_24_W, CTU_CAN_FD_DATA_21_24_W);
   (CTUCANFD_DATA_25_28_W, CTU_CAN_FD_DATA_25_28_W);
   (CTUCANFD_DATA_29_32_W, CTU_CAN_FD_DATA_29_32_W);
   (CTUCANFD_DATA_33_36_W, CTU_CAN_FD_DATA_33_36_W);
   (CTUCANFD_DATA_37_40_W, CTU_CAN_FD_DATA_37_40_W);
   (CTUCANFD_DATA_41_44_W, CTU_CAN_FD_DATA_41_44_W);
   (CTUCANFD_DATA_45_48_W, CTU_CAN_FD_DATA_45_48_W);
   (CTUCANFD_DATA_49_52_W, CTU_CAN_FD_DATA_49_52_W);
   (CTUCANFD_DATA_53_56_W, CTU_CAN_FD_DATA_53_56_W);
   (CTUCANFD_DATA_57_60_W, CTU_CAN_FD_DATA_57_60_W);
   (CTUCANFD_DATA_61_64_W, CTU_CAN_FD_DATA_61_64_W);
   (CTUCANFD_FRAME_TEST_W, CTU_CAN_FD_FRAME_TEST_W)].

(** The words of the TXT buffers, a list for each buffer. *)
Definition CTU_CAN_FD_TXTB_DATA : list (list Z) :=
  [CTU_CAN_FD_TXTB1_DATA; CTU_CAN_FD_TXTB2_DATA; CTU_CAN_FD_TXTB3_DATA; CTU_CAN_FD_TXTB4_DATA;
   CTU_CAN_FD_TXTB5_DATA; CTU_CAN_FD_TXTB6_DATA; CTU_CAN_FD_TXTB7_DATA; CTU_CAN_FD_TXTB8_DATA].

Definition txtb_table : list (Z * Z) := zip (concat CTUCANFD_TXTB_DATA) (concat CTU_CAN_FD_TXTB_DATA).

(** Every offset of the two headers. *)
Definition offset_table : list (Z * Z) := register_table ++ txtb_table ++ frame_table.

(** The address of the word [m] of the buffer [n], both from 0, as the drivers calculate it. *)
Definition txtb_word (n m : Z) : Z := 0x100 * (n + 1) + 4 * m.

(** The fields with the mask of one header and the member of the other. *)
Definition field_table : list (Z * bitfield_union * string) :=
  [(REG_DEVICE_ID_DEVICE_ID, ctu_can_fd_device_id_version, "device_id");
   (REG_DEVICE_ID_VER_MINOR, ctu_can_fd_device_id_version, "ver_minor");
   (REG_DEVICE_ID_VER_MAJOR, ctu_can_fd_device_id_version, "ver_major");
   (REG_MODE_RST, ctu_can_fd_mode_settings, "rst");
   (REG_MODE_BMM, ctu_can_fd_mode_settings, "bmm");
   (REG_MODE_STM, ctu_can_fd_mode_settings, "stm");
   (REG_MODE_AFM, ctu_can_fd_mode_settings, "afm");
   (REG_MODE_FDE, ctu_can_fd_mode_settings, "fde");
   (REG_MODE_TTTM, ctu_can_fd_mode_settings, "tttm");
   (REG_MODE_ROM, ctu_can_fd_mode_settings, "rom");
   (REG_MODE_ACF, ctu_can_fd_mode_settings, "acf");
   (REG_MODE_TSTM, ctu_can_fd_mode_settings, "tstm");
   (REG_MODE_RXBAM, ctu_can_fd_mode_settings, "rxbam");
   (REG_MODE_TXBBM, ctu_can_fd_mode_settings, "txbbm");
   (REG_MODE_SAM, ctu_can_fd_mode_settings, "sam");
   (REG_MODE_ERFM, ctu_can_fd_mode_settings, "erfm");
   (REG_MODE_RTRLE, ctu_can_fd_mode_settings, "rtrle");
   (REG_MODE_RTRTH, ctu_can_fd_mode_settings, "rtrth");
   (REG_MODE_ILBP, ctu_can_fd_mode_settings, "ilbp");
   (REG_MODE_ENA, ctu_can_fd_mode_settings, "ena");
   (REG_MODE_NISOFD, ctu_can_fd_mode_settings, "nisofd");
   (REG_MODE_PEX, ctu_can_fd_mode_settings, "pex");
   (REG_MODE_TBFBO, ctu_can_fd_mode_settings, "tbfbo");
   (REG_MODE_FDRF, ctu_can_fd_mode_settings, "fdrf");
   (REG_MODE_PCHKE, ctu_can_fd_mode_settings, "pchke");
   (REG_STATUS_RXNE, ctu_can_fd_status, "rxne");
   (REG_STATUS_DOR, ctu_can_fd_status, "dor");
   (REG_STATUS_TXNF, ctu_can_fd_status, "txnf");
   (REG_STATUS_EFT, ctu_can_fd_status, "eft");
   (REG_STATUS_RXS, ctu_can_fd_status, "rxs");
   (REG_STATUS_TXS, ctu_can_fd_status, "txs");
   (REG_STATUS_EWL, ctu_can_fd_status, "ewl");
   (REG_STATUS_IDLE, ctu_can_fd_status, "idle");
   (REG_STATUS_PEXS, ctu_can_fd_status, "pexs");
   (REG_STATUS_RXPE, ctu_can_fd_status, "rxpe");
   (REG_STATUS_TXPE, ctu_can_fd_status, "txpe");
   (REG_STATUS_TXDPE, ctu_can_fd_status, "txdpe");
   (REG_STATUS_STCNT, ctu_can_fd_status, "stcnt");
   (REG_STATUS_STRGS, ctu_can_fd_status, "strgs");
   (REG_STATUS_SPRT, ctu_can_fd_status, "sprt");
   (REG_COMMAND_RXRPMV, ctu_can_fd_command, "rxrpmv");
   (REG_COMMAND_RRB, ctu_can_fd_command, "rrb");
   (REG_COMMAND_CDO, ctu_can_fd_command, "cdo");
   (REG_COMMAND_ERCRST, ctu_can_fd_command, "ercrst");
   (REG_COMMAND_RXFCRST, ctu_can_fd_command, "rxfcrst");
   (REG_COMMAND_TXFCRST, ctu_can_fd_command, "txfcrst");
   (REG_COMMAND_CPEXS, ctu_can_fd_command, "cpexs");
   (REG_COMMAND_CRXPE, ctu_can_fd_command, "crxpe");
   (REG_COMMAND_CTXPE, ctu_can_fd_command, "ctxpe");
   (REG_COMMAND_CTXDPE, ctu_can_fd_command, "ctxdpe");
   (REG_INT_STAT_RXI, ctu_can_fd_int_stat, "rxi");
   (REG_INT_STAT_TXI, ctu_can_fd_int_stat, "txi");
   (REG_INT_STAT_EWLI, ctu_can_fd_int_stat, "ewli");
   (REG_INT_STAT_DOI, ctu_can_fd_int_stat, "doi");
   (REG_INT_STAT_FCSI, ctu_can_fd_int_stat, "fcsi");
   (REG_INT_STAT_ALI, ctu_can_fd_int_stat, "ali");
   (REG_INT_STAT_BEI, ctu_can_fd_int_stat, "bei");
   (REG_INT_STAT_OFI, ctu_can_fd_int_stat, "ofi");
   (REG_INT_STAT_RXFI, ctu_can_fd_int_stat, "rxfi");
   (REG_INT_STAT_BSI, ctu_can_fd_int_stat, "bsi");
   (REG_INT_STAT_RBNEI, ctu_can_fd_int_stat, "rbnei");
   (REG_INT_STAT_TXBHCI, ctu_can_fd_int_stat, "txbhci");
   (REG_INT_ENA_SET_INT_ENA_SET, ctu_can_fd_int_ena_set, "int_ena_set");
   (REG_INT_ENA_CLR_INT_ENA_CLR, ctu_can_fd_int_ena_clr, "int_ena_clr");
   (REG_INT_MASK_SET_INT_MASK_SET, ctu_can_fd_int_mask_set, "int_mask_set");
   (REG_INT_MASK_CLR_INT_MASK_CLR, ctu_can_fd_int_mask_clr, "int_mask_clr");
   (REG_BTR_PROP, ctu_can_fd_btr, "prop");
   (REG_BTR_PH1, ctu_can_fd_btr, "ph1");
   (REG_BTR_PH2, ctu_can_fd_btr, "ph2");
   (REG_BTR_BRP, ctu_can_fd_btr, "brp");
   (REG_BTR_SJW, ctu_can_fd_btr, "sjw");
   (REG_BTR_FD_PROP_FD, ctu_can_fd_btr_fd, "prop_fd");
   (REG_BTR_FD_PH1_FD, ctu_can_fd_btr_fd, "ph1_fd");
   (REG_BTR_FD_PH2_FD, ctu_can_fd_btr_fd, "ph2_fd");
   (REG_BTR_FD_BRP_FD, ctu_can_fd_btr_fd, "brp_fd");
   (REG_BTR_FD_SJW_FD, ctu_can_fd_btr_fd, "sjw_fd");
   (REG_EWL_EW_LIMIT, ctu_can_fd_ewl_erp_fault_state, "ew_limit");
   (REG_EWL_ERP_LIMIT, ctu_can_fd_ewl_erp_fault_state, "erp_limit");
   (REG_EWL_ERA, ctu_can_fd_ewl_erp_fault_state, "era");
   (REG_EWL_ERP, ctu_can_fd_ewl_erp_fault_state, "erp");
   (REG_EWL_BOF, ctu_can_fd_ewl_erp_fault_state, "bof");
   (REG_REC_REC_VAL, ctu_can_fd_rec_tec, "rec_val");
   (REG_REC_TEC_VAL, ctu_can_fd_rec_tec, "tec_val");
   (REG_ERR_NORM_ERR_NORM_VAL, ctu_can_fd_err_norm_err_fd, "err_norm_val");
   (REG_ERR_NORM_ERR_FD_VAL, ctu_can_fd_err_norm_err_fd, "err_fd_val");
   (REG_CTR_PRES_CTPV, ctu_can_fd_ctr_pres, "ctpv");
   (REG_CTR_PRES_PTX, ctu_can_fd_ctr_pres, "ptx");
   (REG_CTR_PRES_PRX, ctu_can_fd_ctr_pres, "prx");
   (REG_CTR_PRES_ENORM, ctu_can_fd_ctr_pres, "enorm");
   (REG_CTR_PRES_EFD, ctu_can_fd_ctr_pres, "efd");
   (REG_FILTER_A_MASK_BIT_MASK_A_VAL, ctu_can_fd_filter_a_mask, "bit_mask_a_val");
   (REG_FILTER_A_VAL_BIT_VAL_A_VAL, ctu_can_fd_filter_a_val, "bit_val_a_val");
   (REG_FILTER_B_MASK_BIT_MASK_B_VAL, ctu_can_fd_filter_b_mask, "bit_mask_b_val");
   (REG_FILTER_B_VAL_BIT_VAL_B_VAL, ctu_can_fd_filter_b_val, "bit_val_b_val");
   (REG_FILTER_C_MASK_BIT_MASK_C_VAL, ctu_can_fd_filter_c_mask, "bit_mask_c_val");
   (REG_FILTER_C_VAL_BIT_VAL_C_VAL, ctu_can_fd_filter_c_val, "bit_val_c_val");
   (REG_FILTER_RAN_LOW_BIT_RAN_LOW_VAL, ctu_can_fd_filter_ran_low, "bit_ran_low_val");
   (REG_FILTER_RAN_HIGH_BIT_RAN_HIGH_VAL, ctu_can_fd_filter_ran_high, "bit_ran_high_val");
   (REG_FILTER_CONTROL_FANB, ctu_can_fd_filter_control_filter_status, "fanb");
   (REG_FILTER_CONTROL_FANE, ctu_can_fd_filter_control_filter_status, "fane");
   (REG_FILTER_CONTROL_FAFB, ctu_can_fd_filter_control_filter_status, "fafb");
   (REG_FILTER_CONTROL_FAFE, ctu_can_fd_filter_control_filter_status, "fafe");
   (REG_FILTER_CONTROL_FBNB, ctu_can_fd_filter_control_filter_status, "fbnb");
   (REG_FILTER_CONTROL_FBNE, ctu_can_fd_filter_control_filter_status, "fbne");
   (REG_FILTER_CONTROL_FBFB, ctu_can_fd_filter_control_filter_status, "fbfb");
   (REG_FILTER_CONTROL_FBFE, ctu_can_fd_filter_control_filter_status, "fbfe");
   (REG_FILTER_CONTROL_FCNB, ctu_can_fd_filter_control_filter_status, "fcnb");
   (REG_FILTER_CONTROL_FCNE, ctu_can_fd_filter_control_filter_status, "fcne");
   (REG_FILTER_CONTROL_FCFB, ctu_can_fd_filter_control_filter_status, "fcfb");
   (REG_FILTER_CONTROL_FCFE, ctu_can_fd_filter_control_filter_status, "fcfe");
   (REG_FILTER_CONTROL_FRNB, ctu_can_fd_filter_control_filter_status, "frnb");
   (REG_FILTER_CONTROL_FRNE, ctu_can_fd_filter_control_filter_status, "frne");
   (REG_FILTER_CONTROL_FRFB, ctu_can_fd_filter_control_filter_status, "frfb");
   (REG_FILTER_CONTROL_FRFE, ctu_can_fd_filter_control_filter_status, "frfe");
   (REG_FILTER_CONTROL_SFA, ctu_can_fd_filter_control_filter_status, "sfa");
   (REG_FILTER_CONTROL_SFB, ctu_can_fd_filter_control_filter_status, "sfb");
   (REG_FILTER_CONTROL_SFC, ctu_can_fd_filter_control_filter_status, "sfc");
   (REG_FILTER_CONTROL_SFR, ctu_can_fd_filter_control_filter_status, "sfr");
   (REG_RX_MEM_INFO_RX_BUFF_SIZE, ctu_can_fd_rx_mem_info, "rx_buff_size");
   (REG_RX_MEM_INFO_RX_MEM_FREE, ctu_can_fd_rx_mem_info, "rx_mem_free");
   (REG_RX_POINTERS_RX_WPP, ctu_can_fd_rx_pointers, "rx_wpp");
   (REG_RX_POINTERS_RX_RPP, ctu_can_fd_rx_pointers, "rx_rpp");
   (REG_RX_STATUS_RXE, ctu_can_fd_rx_status_rx_settings, "rxe");
   (REG_RX_STATUS_RXF, ctu_can_fd_rx_status_rx_settings, "rxf");
   (REG_RX_STATUS_RXMOF, ctu_can_fd_rx_status_rx_settings, "rxmof");
   (REG_RX_STATUS_RXFRC, ctu_can_fd_rx_status_rx_settings, "rxfrc");
   (REG_RX_STATUS_RTSOP, ctu_can_fd_rx_status_rx_settings, "rtsop");
   (REG_RX_DATA_RX_DATA, ctu_can_fd_rx_data, "rx_data");
   (REG_TX_STATUS_TX1S, ctu_can_fd_tx_status, "tx1s");
   (REG_TX_STATUS_TX2S, ctu_can_fd_tx_status, "tx2s");
   (REG_TX_STATUS_TX3S, ctu_can_fd_tx_status, "tx3s");
   (REG_TX_STATUS_TX4S, ctu_can_fd_tx_status, "tx4s");
   (REG_TX_STATUS_TX5S, ctu_can_fd_tx_status, "tx5s");
   (REG_TX_STATUS_TX6S, ctu_can_fd_tx_status, "tx6s");
   (REG_TX_STATUS_TX7S, ctu_can_fd_tx_status, "tx7s");
   (REG_TX_STATUS_TX8S, ctu_can_fd_tx_status, "tx8s");
   (REG_TX_COMMAND_TXCE, ctu_can_fd_tx_command_txtb_info, "txce");
   (REG_TX_COMMAND_TXCR, ctu_can_fd_tx_command_txtb_info, "txcr");
   (REG_TX_COMMAND_TXCA, ctu_can_fd_tx_command_txtb_info, "txca");
   (REG_TX_COMMAND_TXB1, ctu_can_fd_tx_command_txtb_info, "txb1");
   (REG_TX_COMMAND_TXB2, ctu_can_fd_tx_command_txtb_info, "txb2");
   (REG_TX_COMMAND_TXB3, ctu_can_fd_tx_command_txtb_info, "txb3");
   (REG_TX_COMMAND_TXB4, ctu_can_fd_tx_command_txtb_info, "txb4");
   (REG_TX_COMMAND_TXB5, ctu_can_fd_tx_command_txtb_info, "txb5");
   (REG_TX_COMMAND_TXB6, ctu_can_fd_tx_command_txtb_info, "txb6");
   (REG_TX_COMMAND_TXB7, ctu_can_fd_tx_command_txtb_info, "txb7");
   (REG_TX_COMMAND_TXB8, ctu_can_fd_tx_command_txtb_info, "txb8");
   (REG_TX_COMMAND_TXT_BUFFER_COUNT, ctu_can_fd_tx_command_txtb_info, "txt_buffer_count");
   (REG_TX_PRIORITY_TXT1P, ctu_can_fd_tx_priority, "txt1p");
   (REG_TX_PRIORITY_TXT2P, ctu_can_fd_tx_priority, "txt2p");
   (REG_TX_PRIORITY_TXT3P, ctu_can_fd_tx_priority, "txt3p");
   (REG_TX_PRIORITY_TXT4P, ctu_can_fd_tx_priority, "txt4p");
   (REG_TX_PRIORITY_TXT5P, ctu_can_fd_tx_priority, "txt5p");
   (REG_TX_PRIORITY_TXT6P, ctu_can_fd_tx_priority, "txt6p");
   (REG_TX_PRIORITY_TXT7P, ctu_can_fd_tx_priority, "txt7p");
   (REG_TX_PRIORITY_TXT8P, ctu_can_fd_tx_priority, "txt8p");
   (REG_ERR_CAPT_ERR_POS, ctu_can_fd_err_capt_retr_ctr_alc_ts_info, "err_pos");
   (REG_ERR_CAPT_ERR_ERP, ctu_can_fd_err_capt_retr_ctr_alc_ts_info, "err_erp");
   (REG_ERR_CAPT_ERR_TYPE, ctu_can_fd_err_capt_retr_ctr_alc_ts_info, "err_type");
   (REG_ERR_CAPT_RETR_CTR_VAL, ctu_can_fd_err_capt_retr_ctr_alc_ts_info, "retr_ctr_val");
   (REG_ERR_CAPT_ALC_BIT, ctu_can_fd_err_capt_retr_ctr_alc_ts_info, "alc_bit");
   (REG_ERR_CAPT_ALC_ID_FIELD, ctu_can_fd_err_capt_retr_ctr_alc_ts_info, "alc_id_field");
   (REG_ERR_CAPT_TS_BITS, ctu_can_fd_err_capt_retr_ctr_alc_ts_info, "ts_bits");
   (REG_TRV_DELAY_TRV_DELAY_VALUE, ctu_can_fd_trv_delay_ssp_cfg, "trv_delay_value");
   (REG_TRV_DELAY_SSP_OFFSET, ctu_can_fd_trv_delay_ssp_cfg, "ssp_offset");
   (REG_TRV_DELAY_SSP_SRC, ctu_can_fd_trv_delay_ssp_cfg, "ssp_src");
   (REG_RX_FR_CTR_RX_FR_CTR_VAL, ctu_can_fd_rx_fr_ctr, "rx_fr_ctr_val");
   (REG_TX_FR_CTR_TX_FR_CTR_VAL, ctu_can_fd_tx_fr_ctr, "tx_fr_ctr_val");
   (REG_DEBUG_REGISTER_STUFF_COUNT, ctu_can_fd_debug_register, "stuff_count");
   (REG_DEBUG_REGISTER_DESTUFF_COUNT, ctu_can_fd_debug_register, "destuff_count");
   (REG_DEBUG_REGISTER_PC_ARB, ctu_can_fd_debug_register, "pc_arb");
   (REG_DEBUG_REGISTER_PC_CON, ctu_can_fd_debug_register, "pc_con");
   (REG_DEBUG_REGISTER_PC_DAT, ctu_can_fd_debug_register, "pc_dat");
   (REG_DEBUG_REGISTER_PC_STC, ctu_can_fd_debug_register, "pc_stc");
   (REG_DEBUG_REGISTER_PC_CRC, ctu_can_fd_debug_register, "pc_crc");
   (REG_DEBUG_REGISTER_PC_CRCD, ctu_can_fd_debug_register, "pc_crcd");
   (REG_DEBUG_REGISTER_PC_ACK, ctu_can_fd_debug_register, "pc_ack");
   (REG_DEBUG_REGISTER_PC_ACKD, ctu_can_fd_debug_register, "pc_ackd");
   (REG_DEBUG_REGISTER_PC_EOF, ctu_can_fd_debug_register, "pc_eof");
   (REG_DEBUG_REGISTER_PC_INT, ctu_can_fd_debug_register, "pc_int");
   (REG_DEBUG_REGISTER_PC_SUSP, ctu_can_fd_debug_register, "pc_susp");
   (REG_DEBUG_REGISTER_PC_OVR, ctu_can_fd_debug_register, "pc_ovr");
   (REG_DEBUG_REGISTER_PC_SOF, ctu_can_fd_debug_register, "pc_sof");
   (REG_YOLO_REG_YOLO_VAL, ctu_can_fd_yolo_reg, "yolo_val");
   (REG_TIMESTAMP_LOW_TIMESTAMP_LOW, ctu_can_fd_timestamp_low, "timestamp_low");
   (REG_TIMESTAMP_HIGH_TIMESTAMP_HIGH, ctu_can_fd_timestamp_high, "timestamp_high");
   (REG_FRAME_FORMAT_W_DLC, ctu_can_fd_frame_format_w, "dlc");
   (REG_FRAME_FORMAT_W_ERF, ctu_can_fd_frame_format_w, "erf");
   (REG_FRAME_FORMAT_W_RTR, ctu_can_fd_frame_format_w, "rtr");
   (REG_FRAME_FORMAT_W_IDE, ctu_can_fd_frame_format_w, "ide");
   (REG_FRAME_FORMAT_W_FDF, ctu_can_fd_frame_format_w, "fdf");
   (REG_FRAME_FORMAT_W_LBPF, ctu_can_fd_frame_format_w, "lbpf");
   (REG_FRAME_FORMAT_W_BRS, ctu_can_fd_frame_format_w, "brs");
   (REG_FRAME_FORMAT_W_ESI_RSV, ctu_can_fd_frame_format_w, "esi_rsv");
   (REG_FRAME_FORMAT_W_RWCNT, ctu_can_fd_frame_format_w, "rwcnt");
   (REG_FRAME_FORMAT_W_ERF_POS, ctu_can_fd_frame_format_w, "erf_pos");
   (REG_FRAME_FORMAT_W_ERF_ERP, ctu_can_fd_frame_format_w, "erf_erp");
   (REG_FRAME_FORMAT_W_ERF_TYPE, ctu_can_fd_frame_format_w, "erf_type");
   (REG_FRAME_FORMAT_W_IVLD, ctu_can_fd_frame_format_w, "ivld");
   (REG_FRAME_FORMAT_W_LBTBI, ctu_can_fd_frame_format_w, "lbtbi");
   (REG_IDENTIFIER_W_IDENTIFIER_EXT, ctu_can_fd_identifier_w, "identifier_ext");
   (REG_IDENTIFIER_W_IDENTIFIER_BASE, ctu_can_fd_identifier_w, "identifier_base");
   (REG_TIMESTAMP_L_W_TIME_STAMP_L_W, ctu_can_fd_timestamp_l_w, "time_stamp_l_w");
   (REG_TIMESTAMP_U_W_TIMESTAMP_U_W, ctu_can_fd_timestamp_u_w, "timestamp_u_w");
   (REG_DATA_1_4_W_DATA_1, ctu_can_fd_data_1_4_w, "data_1");
   (REG_DATA_1_4_W_DATA_2, ctu_can_fd_data_1_4_w, "data_2");
   (REG_DATA_1_4_W_DATA_3, ctu_can_fd_data_1_4_w, "data_3");
   (REG_DATA_1_4_W_DATA_4, ctu_can_fd_data_1_4_w, "data_4");
   (REG_DATA_5_8_W_DATA_5, ctu_can_fd_data_5_8_w, "data_5");
   (REG_DATA_5_8_W_DATA_6, ctu_can_fd_data_5_8_w, "data_6");
   (REG_DATA_5_8_W_DATA_7, ctu_can_fd_data_5_8_w, "data_7");
   (REG_DATA_5_8_W_DATA_8, ctu_can_fd_data_5_8_w, "data_8");
   (REG_DATA_9_12_W_DATA_9, ctu_can_fd_data_9_12_w, "data_9");
   (REG_DATA_9_12_W_DATA_10, ctu_can_fd_data_9_12_w, "data_10");
   (REG_DATA_9_12_W_DATA_11, ctu_can_fd_data_9_12_w, "data_11");
   (REG_DATA_9_12_W_DATA_12, ctu_can_fd_data_9_12_w, "data_12");
   (REG_DATA_13_16_W_DATA_13, ctu_can_fd_data_13_16_w, "data_13");
   (REG_DATA_13_16_W_DATA_14, ctu_can_fd_data_13_16_w, "data_14");
   (REG_DATA_13_16_W_DATA_15, ctu_can_fd_data_13_16_w, "data_15");
   (REG_DATA_13_16_W_DATA_16, ctu_can_fd_data_13_16_w, "data_16");
   (REG_DATA_17_20_W_DATA_17, ctu_can_fd_data_17_20_w, "data_17");
   (REG_DATA_17_20_W_DATA_18, ctu_can_fd_data_17_20_w, "data_18");
   (REG_DATA_17_20_W_DATA_19, ctu_can_fd_data_17_20_w, "data_19");
   (REG_DATA_17_20_W_DATA_20, ctu_can_fd_data_17_20_w, "data_20");
   (REG_DATA_21_24_W_DATA_21, ctu_can_fd_data_21_24_w, "data_21");
   (REG_DATA_21_24_W_DATA_22, ctu_can_fd_data_21_24_w, "data_22");
   (REG_DATA_21_24_W_DATA_23, ctu_can_fd_data_21_24_w, "data_23");
   (REG_DATA_21_24_W_DATA_24, ctu_can_fd_data_21_24_w, "data_24");
   (REG_DATA_25_28_W_DATA_25, ctu_can_fd_data_25_28_w, "data_25");
   (REG_DATA_25_28_W_DATA_26, ctu_can_fd_data_25_28_w, "data_26");
   (REG_DATA_25_28_W_DATA_27, ctu_can_fd_data_25_28_w, "data_27");
   (REG_DATA_25_28_W_DATA_28, ctu_can_fd_data_25_28_w, "data_28");
   (REG_DATA_29_32_W_DATA_29, ctu_can_fd_data_29_32_w, "data_29");
   (REG_DATA_29_32_W_DATA_30, ctu_can_fd_data_29_32_w, "data_30");
   (REG_DATA_29_32_W_DATA_31, ctu_can_fd_data_29_32_w, "data_31");
   (REG_DATA_29_32_W_DATA_32, ctu_can_fd_data_29_32_w, "data_32");
   (REG_DATA_33_36_W_DATA_33, ctu_can_fd_data_33_36_w, "data_33");
   (REG_DATA_33_36_W_DATA_34, ctu_can_fd_data_33_36_w, "data_34");
   (REG_DATA_33_36_W_DATA_35, ctu_can_fd_data_33_36_w, "data_35");
   (REG_DATA_33_36_W_DATA_36, ctu_can_fd_data_33_36_w, "data_36");
   (REG_DATA_37_40_W_DATA_37, ctu_can_fd_data_37_40_w, "data_37");
   (REG_DATA_37_40_W_DATA_38, ctu_can_fd_data_37_40_w, "data_38");
   (REG_DATA_37_40_W_DATA_39, ctu_can_fd_data_37_40_w, "data_39");
   (REG_DATA_37_40_W_DATA_40, ctu_can_fd_data_37_40_w, "data_40");
   (REG_DATA_41_44_W_DATA_41, ctu_can_fd_data_41_44_w, "data_41");
   (REG_DATA_41_44_W_DATA_42, ctu_can_fd_data_41_44_w, "data_42");
   (REG_DATA_41_44_W_DATA_43, ctu_can_fd_data_41_44_w, "data_43");
   (REG_DATA_41_44_W_DATA_44, ctu_can_fd_data_41_44_w, "data_44");
   (REG_DATA_45_48_W_DATA_45, ctu_can_fd_data_45_48_w, "data_45");
   (REG_DATA_45_48_W_DATA_46, ctu_can_fd_data_45_48_w, "data_46");
   (REG_DATA_45_48_W_DATA_47, ctu_can_fd_data_45_48_w, "data_47");
   (REG_DATA_45_48_W_DATA_48, ctu_can_fd_data_45_48_w, "data_48");
   (REG_DATA_49_52_W_DATA_49, ctu_can_fd_data_49_52_w, "data_49");
   (REG_DATA_49_52_W_DATA_50, ctu_can_fd_data_49_52_w, "data_50");
   (REG_DATA_49_52_W_DATA_51, ctu_can_fd_data_49_52_w, "data_51");
   (REG_DATA_49_52_W_DATA_52, ctu_can_fd_data_49_52_w, "data_52");
   (REG_DATA_53_56_W_DATA_53, ctu_can_fd_data_53_56_w, "data_53");
   (REG_DATA_53_56_W_DATA_56, ctu_can_fd_data_53_56_w, "data_56");
   (REG_DATA_53_56_W_DATA_55, ctu_can_fd_data_53_56_w, "data_55");
   (REG_DATA_53_56_W_DATA_54, ctu_can_fd_data_53_56_w, "data_54");
   (REG_DATA_57_60_W_DATA_57, ctu_can_fd_data_57_60_w, "data_57");
   (REG_DATA_57_60_W_DATA_58, ctu_can_fd_data_57_60_w, "data_58");
   (REG_DATA_57_60_W_DATA_59, ctu_can_fd_data_57_60_w, "data_59");
   (REG_DATA_57_60_W_DATA_60, ctu_can_fd_data_57_60_w, "data_60");
   (REG_DATA_61_64_W_DATA_61, ctu_can_fd_data_61_64_w, "data_61");
   (REG_DATA_61_64_W_DATA_62, ctu_can_fd_data_61_64_w, "data_62");
   (REG_DATA_61_64_W_DATA_63, ctu_can_fd_data_61_64_w, "data_63");
   (REG_DATA_61_64_W_DATA_64, ctu_can_fd_data_61_64_w, "data_64");
   (REG_FRAME_TEST_W_FSTC, ctu_can_fd_frame_test_w, "fstc");
   (REG_FRAME_TEST_W_FCRC, ctu_can_fd_frame_test_w, "fcrc");
   (REG_FRAME_TEST_W_SDLC, ctu_can_fd_frame_test_w, "sdlc");
   (REG_FRAME_TEST_W_TPRM, ctu_can_fd_frame_test_w, "tprm")].

(** A mask selects exactly the bits of a member of a union, in the declaration for
    little-endian and in the one for big-endian bit-fields. *)
Definition mask_is_member (m : Z) (u : bitfield_union) (f : string) : bool :=
  match locate_le (bu_le u) 0 f, locate_be (bu_be u) 32 f with
  | Some (lo, w), Some (lo', w') => (m =? field_mask lo w) && (lo =? lo') && (w =? w')
  | _, _ => false
  end.

(** Reading and assigning a member with the declaration for big-endian bit-fields. *)
Definition bf_get_be (u : bitfield_union) (f : string) (x : Z) : Z :=
  match locate_be (bu_be u) 32 f with
  | Some (lo, w) => FIELD_GET (field_mask lo w) x
  | None => 0
  end.

Definition bf_set_be (u : bitfield_union) (f : string) (v x : Z) : Z :=
  match locate_be (bu_be u) 32 f with
  | Some (lo, w) => Z.lor (Z.land x (Z.lnot (field_mask lo w))) (FIELD_PREP (field_mask lo w) v)
  | None => x
  end.

(** The mask [m] and the member [f] of [u] read the same from every word and make the same word of every word and
    value. *)
Definition same_field (m : Z) (u : bitfield_union) (f : string) : Prop :=
  ∀ x v, bf_get u f x = FIELD_GET m x ∧ bf_get_be u f x = FIELD_GET m x ∧
    bf_set u f v x = Z.lor (Z.land x (Z.lnot m)) (FIELD_PREP m v) ∧
    bf_set_be u f v x = Z.lor (Z.land x (Z.lnot m)) (FIELD_PREP m v).

Lemma mask_same_field m u f : mask_is_member m u f = true → same_field m u f.
Proof.
  unfold mask_is_member, same_field, bf_get, bf_get_be, bf_set, bf_set_be, locate. intros Hm x v.
  destruct (locate_le (bu_le u) 0 f) as [[lo w]|]; [|done]. destruct (locate_be (bu_be u) 32 f) as [[lo' w']|]; [|done].
  apply andb_true_iff in Hm as [[->%Z.eqb_eq ->%Z.eqb_eq]%andb_true_iff ->%Z.eqb_eq]. done.
Qed.

Lemma field_table_members :
  Forall (λ p, mask_is_member (fst (fst p)) (snd (fst p)) (snd p) = true) field_table.
Proof. apply (bool_decide_eq_true_1 _). vm_compute. reflexivity. Qed.

Lemma field_table_same m u f : (m, u, f) ∈ field_table → same_field m u f.
Proof.
  pose proof field_table_members as Hall. rewrite Forall_forall in Hall. intros Hin. by apply mask_same_field, (Hall (m, u, f)).
Qed.


