(* ===== verification/Bittiming.v ===== *)
(** * Calculation of bit timing

    [can_update_sample_point] .. [can_get_bittiming] of [ctucanfd_linux_defs.c]: the
    segments and the prescaler for a bit rate and a sample point, in unsigned 32-bit
    arithmetic. *)

From Stdlib Require Import ZArith Lia.
From stdpp Require Import base numbers list strings.
From S2P Require Import Prelude LinuxDefs World Sim.

#[local] Open Scope Z_scope.

Definition CAN_CALC_MAX_ERROR : Z := 50.
Definition CAN_CALC_SYNC_SEG : Z := 1.
Definition UINT_MAX : Z := 2 ^ 32 - 1.

(** [clamp(val, lo, hi)] *)
Definition clamp (val lo hi : Z) : Z :=
  let m := if lo <? val then val else lo in if m <? hi then m else hi.

(** The variables that the loop of [can_update_sample_point] updates. *)
Record sp_state := mksp {
  sp_best_error : Z;
  sp_best : Z;
  sp_tseg1 : Z;
  sp_tseg2 : Z;
}.

(** The variables that the loop of [can_calc_bittiming] updates. *)
Record calc_state := mkcalc {
  best_bitrate_error : Z;
  best_sample_point_error : Z;
  best_tseg : Z;
  best_brp : Z;
  calc_tseg1 : Z;
  calc_tseg2 : Z;
}.

(** The segments for one value of [i] in [can_update_sample_point]. *)
Definition sp_segs (btc : can_bittiming_const) (sample_point_nominal tseg i : Z) : Z * Z :=
  let tseg2 := u32 (tseg + CAN_CALC_SYNC_SEG -
                    u32 (sample_point_nominal * u32 (tseg + CAN_CALC_SYNC_SEG)) / 1000 - i) in
  let tseg2 := clamp tseg2 (tseg2_min btc) (tseg2_max btc) in
  let tseg1 := u32 (tseg - tseg2) in
  if tseg1_max btc <? tseg1 then (tseg1_max btc, u32 (tseg - tseg1_max btc)) else (tseg1, tseg2).

(** The sample point that is recommended for a bit rate. *)
Definition nominal_sample_point (bt : can_bittiming) : Z :=
  if nz (sample_point bt) then sample_point bt
  else if 800000 <? bitrate bt then 750
  else if 500000 <? bitrate bt then 800
  else 875.

Section Bt.
Context {D W : Type} `{World W}.
Abbreviation MT := (M D W).

(** [abs] of an [unsigned int]: the argument is converted to [int] first. *)
Definition abs_u32 (x : Z) : MT Z :=
  let y := s32 x in
  if y <? 0 then if y =? - 2 ^ 31 then undefined SignedOverflow else mret (- y) else mret y.

(** [x / y] on [int] operands, where [x] may have overflown. *)
Definition sdiv (x y : Z) : MT Z :=
  if negb ((- 2 ^ 31 <=? x) && (x <? 2 ^ 31)) then undefined SignedOverflow
  else if y =? 0 then undefined DivByZero
  else mret (Z.quot x y).

Definition update_sp_iter (btc : can_bittiming_const) (sample_point_nominal tseg i : Z)
    (st : sp_state) : MT sp_state :=
  let '(tseg1, tseg2) := sp_segs btc sample_point_nominal tseg i in
  sample_point ← udiv (u32 (1000 * u32 (tseg + CAN_CALC_SYNC_SEG - tseg2)))
                      (u32 (tseg + CAN_CALC_SYNC_SEG));
  sample_point_error ← abs_u32 (u32 (sample_point_nominal - sample_point));
  if (sample_point <=? sample_point_nominal) && (sample_point_error <? sp_best_error st)
  then mret (mksp sample_point_error sample_point tseg1 tseg2)
  else mret st.

(** Returns the best sample point and error and the values of [*tseg1_ptr] and [*tseg2_ptr]. *)
Definition can_update_sample_point (btc : can_bittiming_const)
    (sample_point_nominal tseg tseg1 tseg2 : Z) : MT sp_state :=
  st ← update_sp_iter btc sample_point_nominal tseg 0 (mksp UINT_MAX 0 tseg1 tseg2);
  update_sp_iter btc sample_point_nominal tseg 1 st.

(** The body of the loop of [can_calc_bittiming]; [true] for [break]. *)
Definition calc_body (freq : Z) (bt : can_bittiming) (btc : can_bittiming_const)
    (sample_point_nominal tseg : Z) (st : calc_state) : MT (bool * calc_state) :=
  let tsegall := u32 (CAN_CALC_SYNC_SEG + tseg / 2) in
  q ← udiv freq (u32 (tsegall * bitrate bt));
  let brp := u32 (q + tseg mod 2) in
  q ← udiv brp (brp_inc btc);
  let brp := u32 (q * brp_inc btc) in
  if (brp <? brp_min btc) || (brp_max btc <? brp) then mret (false, st) else
  bitrate' ← udiv freq (u32 (brp * tsegall));
  bitrate_error ← abs_u32 (u32 (bitrate bt - bitrate'));
  if best_bitrate_error st <? bitrate_error then mret (false, st) else
  let bspe := if bitrate_error <? best_bitrate_error st then UINT_MAX
              else best_sample_point_error st in
  sp ← can_update_sample_point btc sample_point_nominal (tseg / 2) (calc_tseg1 st) (calc_tseg2 st);
  let sample_point_error := sp_best_error sp in
  if bspe <? sample_point_error
  then mret (false, mkcalc (best_bitrate_error st) bspe (best_tseg st) (best_brp st)
                      (sp_tseg1 sp) (sp_tseg2 sp))
  else
  mret ((bitrate_error =? 0) && (sample_point_error =? 0),
        mkcalc bitrate_error sample_point_error (tseg / 2) brp (sp_tseg1 sp) (sp_tseg2 sp)).

(** The loop, downwards from [tseg]. *)
Fixpoint calc_loop (fuel : nat) (freq : Z) (bt : can_bittiming) (btc : can_bittiming_const)
    (sample_point_nominal tseg : Z) (st : calc_state) : MT calc_state :=
  if u32 (u32 (tseg1_min btc + tseg2_min btc) * 2) <=? tseg then
    match fuel with
    | O => no_fuel
    | S fuel' =>
        r ← calc_body freq bt btc sample_point_nominal tseg st;
        if (fst r : bool) then mret (snd r)
        else calc_loop fuel' freq bt btc sample_point_nominal (u32 (tseg - 1)) (snd r)
    end
  else mret st.

(** [sjw] as [can_calc_bittiming] sets it. *)
Definition calc_sjw (bt : can_bittiming) (btc : can_bittiming_const) (tseg2 : Z) : Z :=
  if negb (nz (sjw bt)) || negb (nz (sjw_max btc)) then 1
  else
    let sjw := if sjw_max btc <? sjw bt then sjw_max btc else sjw bt in
    if tseg2 <? sjw then tseg2 else sjw.

(** The end of [can_calc_bittiming], from the comment "real sample point" on. *)
Definition calc_finish (freq : Z) (bt : can_bittiming) (btc : can_bittiming_const)
    (sample_point_nominal : Z) (st : calc_state) : MT (Z * can_bittiming) :=
  sp ← can_update_sample_point btc sample_point_nominal (best_tseg st) (calc_tseg1 st) (calc_tseg2 st);
  let tseg1 := sp_tseg1 sp in
  let tseg2 := sp_tseg2 sp in
  v64 ← udiv (u64 (best_brp st * 1000 * 1000 * 1000)) freq;
  real ← udiv freq (u32 (best_brp st * u32 (CAN_CALC_SYNC_SEG + tseg1 + tseg2)));
  mret (0, {| bitrate := real; sample_point := sp_best sp; tq := u32 v64;
              prop_seg := tseg1 / 2; phase_seg1 := u32 (tseg1 - tseg1 / 2); phase_seg2 := tseg2;
              sjw := calc_sjw bt btc tseg2; brp := best_brp st |}).

Definition calc_top (btc : can_bittiming_const) : Z :=
  u32 (u32 (tseg1_max btc + tseg2_max btc) * 2 + 1).

(** Returns the error code and the structure that [bt] points to. *)
Definition can_calc_bittiming (freq : Z) (bt : can_bittiming) (btc : can_bittiming_const)
    : MT (Z * can_bittiming) :=
  let nominal := nominal_sample_point bt in
  st ← calc_loop (S (Z.to_nat (calc_top btc))) freq bt btc nominal (calc_top btc)
         (mkcalc UINT_MAX UINT_MAX 0 0 0 0);
  if nz (best_bitrate_error st) then
    v64 ← udiv (best_bitrate_error st * 1000) (bitrate bt);
    let bitrate_error := u32 v64 in
    if CAN_CALC_MAX_ERROR <? bitrate_error then
      call_ (netdev_msg "bitrate error %d.%d%% too high\n");;
      mret (- EDOM, bt)
    else
      call_ (netdev_msg "bitrate error %d.%d%%\n");;
      calc_finish freq bt btc nominal st
  else calc_finish freq bt btc nominal st.

Definition can_fixup_bittiming (freq : Z) (bt : can_bittiming) (btc : can_bittiming_const)
    : MT (Z * can_bittiming) :=
  let set_sjw v bt := {| bitrate := bitrate bt; sample_point := sample_point bt; tq := tq bt;
    prop_seg := prop_seg bt; phase_seg1 := phase_seg1 bt; phase_seg2 := phase_seg2 bt;
    sjw := v; brp := brp bt |} in
  let tseg1 := u32 (prop_seg bt + phase_seg1 bt) in
  let bt := if nz (sjw bt) then bt else set_sjw 1 bt in
  if (sjw_max btc <? sjw bt) || (tseg1 <? tseg1_min btc) || (tseg1_max btc <? tseg1) ||
     (phase_seg2 bt <? tseg2_min btc) || (tseg2_max btc <? phase_seg2 bt)
  then mret (- ERANGE, bt)
  else
  let brp64 := u64 (freq * tq bt) in
  let brp64 := if 1 <? brp_inc btc then brp64 / brp_inc btc else brp64 in
  let brp64 := u64 (brp64 + (500000000 - 1)) in
  let brp64 := brp64 / 1000000000 in
  let brp64 := if 1 <? brp_inc btc then u64 (brp64 * brp_inc btc) else brp64 in
  let set_brp v bt := {| bitrate := bitrate bt; sample_point := sample_point bt; tq := tq bt;
    prop_seg := prop_seg bt; phase_seg1 := phase_seg1 bt; phase_seg2 := phase_seg2 bt;
    sjw := sjw bt; brp := v |} in
  let bt := set_brp (u32 brp64) bt in
  if (brp bt <? brp_min btc) || (brp_max btc <? brp bt) then mret (- EINVAL, bt) else
  let alltseg := s32 (prop_seg bt + phase_seg1 bt + phase_seg2 bt + 1) in
  real ← udiv freq (u32 (brp bt * u32 alltseg));
  sp ← sdiv ((s32 tseg1 + 1) * 1000) alltseg;
  mret (0, {| bitrate := real; sample_point := u32 sp; tq := tq bt; prop_seg := prop_seg bt;
              phase_seg1 := phase_seg1 bt; phase_seg2 := phase_seg2 bt; sjw := sjw bt; brp := brp bt |}).

(** The loop of [can_validate_bitrate], from index [i]: the final [i]. *)
Fixpoint validate_loop (fuel : nat) (bt : can_bittiming) (bitrate_const : list Z) (cnt i : Z) : MT Z :=
  if i <? cnt then
    match fuel with
    | O => no_fuel
    | S fuel' =>
        b ← some_or OutOfBounds (bitrate_const !! Z.to_nat i);
        if bitrate bt =? b then mret i else validate_loop fuel' bt bitrate_const cnt (i + 1)
    end
  else mret i.

(** [priv_cnt] is [priv->bitrate_const_cnt]. *)
Definition can_validate_bitrate (priv_cnt : Z) (bt : can_bittiming) (bitrate_const : list Z)
    (cnt : Z) : MT Z :=
  i ← validate_loop (Z.to_nat cnt) bt bitrate_const cnt 0;
  if priv_cnt <=? i then mret (- EINVAL) else mret 0.

Definition can_get_bittiming (freq priv_cnt : Z) (bt : can_bittiming)
    (btc : option can_bittiming_const) (bitrate_const : option (list Z)) (cnt : Z)
    : MT (Z * can_bittiming) :=
  match btc, bitrate_const with
  | Some btc, _ =>
      if negb (nz (tq bt)) && nz (bitrate bt) then can_calc_bittiming freq bt btc
      else if nz (tq bt) && negb (nz (bitrate bt)) then can_fixup_bittiming freq bt btc
      else mret (- EINVAL, bt)
  | None, Some bc =>
      if negb (nz (tq bt)) && nz (bitrate bt)
      then err ← can_validate_bitrate priv_cnt bt bc cnt; mret (err, bt)
      else mret (- EINVAL, bt)
  | None, None => mret (- EINVAL, bt)
  end.

End Bt.

(** ** Specification *)

(** Constants of a controller for which no intermediate value overflows and a quantum more is at least a thousandth
    more. *)
Record btc_ok (btc : can_bittiming_const) : Prop := {
  bk_t1 : 1 <= tseg1_min btc <= tseg1_max btc;
  bk_t2 : 1 <= tseg2_min btc <= tseg2_max btc;
  bk_sum : tseg1_max btc + tseg2_max btc < 1000;
  bk_brp : 1 <= brp_min btc <= brp_max btc;
  bk_brp_max : brp_max btc <= 2 ^ 16;
  bk_inc : 1 <= brp_inc btc;
}.

(** The sample point of the segments chosen for [i]. *)
Definition sp_of (btc : can_bittiming_const) (nom tseg i : Z) : Z :=
  u32 (1000 * u32 (tseg + 1 - snd (sp_segs btc nom tseg i))) / u32 (tseg + 1).

(** Segments within the limits for [tseg] quanta after the synchronisation segment, and the sample point, in tenths of
    a percent, that a first segment of [t1] quanta gives. *)
Definition valid_segs (btc : can_bittiming_const) (tseg t1 t2 : Z) : Prop :=
  t1 + t2 = tseg ∧ tseg1_min btc <= t1 <= tseg1_max btc ∧ tseg2_min btc <= t2 <= tseg2_max btc.

Definition sp_value (tseg t1 : Z) : Z := 1000 * (1 + t1) / (1 + tseg).

(** Some segments within the limits give a sample point not after the nominal one. *)
Definition reachable (btc : can_bittiming_const) (nom tseg : Z) : Prop :=
  ∃ t1 t2, valid_segs btc tseg t1 t2 ∧ sp_value tseg t1 <= nom.

(** The prescaler that the loop tries for a value of [tseg], and its error. *)
Definition cand_brp (freq : Z) (bt : can_bittiming) (btc : can_bittiming_const) (tseg : Z) : Z :=
  let q := freq / ((1 + tseg / 2) * bitrate bt) + tseg mod 2 in q / brp_inc btc * brp_inc btc.

Definition rate_error (freq : Z) (bt : can_bittiming) (brp all : Z) : Z :=
  Z.abs (bitrate bt - freq / (brp * all)).

Definition brp_in (btc : can_bittiming_const) (brp : Z) : Prop := brp_min btc <= brp <= brp_max btc.

(** [t1] gives the latest sample point not after the nominal one among all segments within the limits. *)
Definition best_segs (btc : can_bittiming_const) (nom tseg t1 t2 : Z) : Prop :=
  valid_segs btc tseg t1 t2 ∧ sp_value tseg t1 <= nom ∧
  ∀ t1' t2', valid_segs btc tseg t1' t2' → sp_value tseg t1' <= nom → t1' <= t1.

(** The limits of the controller on the result, for a sum of the segments [tseg]. *)
Record timing_ok (btc : can_bittiming_const) (tseg : Z) (bt : can_bittiming) : Prop := {
  to_sum : prop_seg bt + phase_seg1 bt + phase_seg2 bt = tseg;
  to_t1 : tseg1_min btc <= prop_seg bt + phase_seg1 bt <= tseg1_max btc;
  to_ph1 : 0 <= prop_seg bt <= phase_seg1 bt;
  to_t2 : tseg2_min btc <= phase_seg2 bt <= tseg2_max btc;
  to_sjw : 1 <= sjw bt <= phase_seg2 bt;
  to_sjw_max : sjw bt <= Z.max 1 (sjw_max btc);
}.

Lemma s32_small x : - 2 ^ 31 <= x < 2 ^ 31 → s32 (u32 x) = x.
Proof.
  intros Hx. unfold s32. rewrite u32_idemp. unfold u32.
  destruct (Z.lt_ge_cases x 0).
  - rewrite <- (Z_mod_plus_full x 1), Z.mod_small by lia.
    destruct (Z.ltb_spec (x + 1 * 2 ^ 32) (2 ^ 31)); lia.
  - rewrite Z.mod_small by lia. destruct (Z.ltb_spec x (2 ^ 31)); lia.
Qed.

Section BtProofs.
Context {D W : Type} `{World W}.
Implicit Types (s : st D W).

Lemma wp_abs_u32 x s (Q : Z → st D W → Prop) :
  - 2 ^ 31 < x < 2 ^ 31 → Q (Z.abs x) s → wp (abs_u32 (u32 x)) s Q.
Proof.
  intros Hx HQ. unfold abs_u32. rewrite s32_small by lia.
  destruct (Z.ltb_spec x 0); [|by rewrite Z.abs_eq in HQ by lia].
  destruct (Z.eqb_spec x (- 2 ^ 31)); [lia|]. by rewrite Z.abs_neq in HQ by lia.
Qed.

(** The state after an iteration: unchanged, or the segments for [i]. *)
Definition sp_step btc nom tseg i (st st' : sp_state) : Prop :=
  (st' = st ∧ (nom < sp_of btc nom tseg i ∨ sp_best_error st <= nom - sp_of btc nom tseg i)) ∨
  (sp_of btc nom tseg i <= nom ∧ nom - sp_of btc nom tseg i < sp_best_error st ∧
   st' = mksp (nom - sp_of btc nom tseg i) (sp_of btc nom tseg i)
     (fst (sp_segs btc nom tseg i)) (snd (sp_segs btc nom tseg i))).

Lemma update_sp_iter_wp btc nom tseg i st s :
  1 <= tseg <= 1000 → 0 <= nom <= 1000 →
  wp (update_sp_iter btc nom tseg i st) s (λ st' s', s' = s ∧ sp_step btc nom tseg i st st').
Proof.
  intros Ht Hn. unfold update_sp_iter, sp_step.
  assert (Hall : u32 (tseg + CAN_CALC_SYNC_SEG) = tseg + 1).
  { apply u32_small. unfold is_u32, CAN_CALC_SYNC_SEG. lia. }
  unfold sp_of. rewrite Hall. unfold CAN_CALC_SYNC_SEG in *.
  destruct (sp_segs btc nom tseg i) as [t1 t2] eqn:Es. cbn [fst snd]. rewrite Hall.
  wp_step. apply wp_udiv; [lia|]. set (sp := u32 _ / (tseg + 1)).
  assert (Hsp : 0 <= sp < 2 ^ 31).
  { unfold sp. pose proof (u32_range (1000 * u32 (tseg + 1 - t2))) as [? ?].
    split; [apply Z.div_pos; lia|]. apply Z.div_lt_upper_bound; lia. }
  wp_step. apply wp_abs_u32; [lia|].
  destruct (Z.leb_spec sp nom); cbn [andb].
  - rewrite Z.abs_eq by lia. destruct (Z.ltb_spec (nom - sp) (sp_best_error st)).
    + wp_step. split; [done|]. by right.
    + wp_step. split; [done|]. left. split; [done|]. by right.
  - wp_step. split; [done|]. left. split; [done|]. by left.
Qed.

(** The segments always have the given sum, modulo [2^32]. *)
Lemma sp_segs_sum btc nom tseg i :
  0 <= tseg <= 1000 → u32 (fst (sp_segs btc nom tseg i) + snd (sp_segs btc nom tseg i)) = tseg.
Proof.
  intros Ht. unfold sp_segs. cbv zeta. set (t2 := clamp _ _ _).
  destruct (tseg1_max btc <? u32 (tseg - t2)); cbn [fst snd]; unfold u32.
  - rewrite Z.add_mod_idemp_r, Zplus_minus by done. apply Z.mod_small. lia.
  - rewrite Z.add_mod_idemp_l, Z.sub_add by done. apply Z.mod_small. lia.
Qed.

Definition sum_ok (t1 t2 : Z) : Prop := 0 <= u32 (t1 + t2) <= 1000.

Lemma sp_step_sum btc nom tseg i st st' :
  0 <= tseg <= 1000 → sp_step btc nom tseg i st st' →
  sum_ok (sp_tseg1 st) (sp_tseg2 st) → sum_ok (sp_tseg1 st') (sp_tseg2 st').
Proof.
  intros Ht [[-> _]|(_ & _ & ->)] Hs; [done|]. unfold sum_ok. cbn [sp_tseg1 sp_tseg2].
  by rewrite sp_segs_sum.
Qed.

(** *** The two candidates

    The code tries the quanta before the nominal sample point, rounded down, and one more. *)

Lemma sp_value_step tseg t1 t1' : 1 <= tseg < 1000 → t1 < t1' → sp_value tseg t1 < sp_value tseg t1'.
Proof.
  intros Ht Hlt. unfold sp_value. apply Z.lt_le_trans with (1000 * (1 + t1) / (1 + tseg) + 1); [lia|].
  rewrite <- (Z.div_add _ 1 (1 + tseg)) by lia. apply Z.div_le_mono; lia.
Qed.

Lemma sp_value_mono tseg t1 t1' : 1 <= tseg < 1000 → t1 <= t1' → sp_value tseg t1 <= sp_value tseg t1'.
Proof. intros Ht Hle. unfold sp_value. apply Z.div_le_mono; lia. Qed.

(** The quanta up to the nominal sample point. *)
Definition nom_quanta (nom tseg : Z) : Z := nom * (1 + tseg) / 1000.

Lemma nom_quanta_bounds nom tseg : 1 <= tseg < 1000 → 0 <= nom < 1000 →
  0 <= nom_quanta nom tseg <= tseg ∧ sp_value tseg (nom_quanta nom tseg - 1) <= nom ∧
  (∀ t1, sp_value tseg t1 <= nom → t1 <= nom_quanta nom tseg).
Proof.
  intros Ht Hn. unfold nom_quanta, sp_value. set (F := nom * (1 + tseg) / 1000).
  pose proof (Z.div_mod (nom * (1 + tseg)) 1000 ltac:(done)) as HF. fold F in HF.
  pose proof (Z.mod_pos_bound (nom * (1 + tseg)) 1000 ltac:(done)) as Hr. split_and!; [nia|nia|..].
  - apply Z.div_le_upper_bound; lia.
  - intros t1 Hle. destruct (Z.le_gt_cases t1 F) as [|Hgt]; [done|exfalso].
    enough (nom + 1 <= 1000 * (1 + t1) / (1 + tseg)) by lia. apply Z.div_le_lower_bound; nia.
Qed.

Section Candidates.
Context (btc : can_bittiming_const) (nom tseg : Z) (Hb : btc_ok btc) (Ht : 1 <= tseg < 1000) (Hn : 0 <= nom < 1000).

(** The first segment that the candidate [i] comes to. *)
Definition cand_t1 (i : Z) : Z :=
  Z.min (tseg1_max btc) (Z.max (tseg - tseg2_max btc) (Z.min (tseg - tseg2_min btc) (nom_quanta nom tseg - 1 + i))).

Lemma clamp_eq v lo hi : lo <= hi → clamp v lo hi = Z.min hi (Z.max lo v).
Proof. intros Hl. unfold clamp. destruct (Z.ltb_spec lo v); [destruct (Z.ltb_spec v hi)|destruct (Z.ltb_spec lo hi)]; lia. Qed.

Lemma sp_segs_cand i : reachable btc nom tseg → 0 <= i <= 1 →
  sp_segs btc nom tseg i = (cand_t1 i, tseg - cand_t1 i) ∧ sp_of btc nom tseg i = sp_value tseg (cand_t1 i) ∧
  0 <= cand_t1 i <= tseg.
Proof using Hb Ht Hn.
  intros (t1 & t2 & (Hs & H1 & H2) & Hle) Hi. destruct (nom_quanta_bounds nom tseg Ht Hn) as (HF & _ & Hmax).
  apply Hmax in Hle. destruct Hb.
  assert (Hn1 : u32 (tseg + CAN_CALC_SYNC_SEG) = 1 + tseg).
  { unfold CAN_CALC_SYNC_SEG. rewrite Z.add_comm. apply u32_small. unfold is_u32. lia. }
  assert (Hc : 0 <= cand_t1 i <= tseg) by (unfold cand_t1; lia).
  assert (Es : sp_segs btc nom tseg i = (cand_t1 i, tseg - cand_t1 i)).
  { unfold sp_segs. cbv zeta. rewrite Hn1. rewrite (u32_small (nom * _)) by (unfold is_u32; nia).
    fold (nom_quanta nom tseg). rewrite (u32_small (tseg + CAN_CALC_SYNC_SEG - nom_quanta nom tseg - i)) by (unfold is_u32, CAN_CALC_SYNC_SEG; lia).
    rewrite clamp_eq by lia. unfold CAN_CALC_SYNC_SEG. set (c := Z.min _ _).
    assert (0 <= c <= tseg) by (unfold c; lia). rewrite (u32_small (tseg - c)) by (unfold is_u32; lia).
    destruct (Z.ltb_spec (tseg1_max btc) (tseg - c));
      [rewrite u32_small by (unfold is_u32; lia)|]; unfold cand_t1, c in *; f_equal; lia. }
  split_and!; [done| |lia..]. unfold sp_of, sp_value. rewrite Es. cbn [snd].
  rewrite (u32_small (tseg + 1 - _)), !u32_small by (unfold is_u32; lia). f_equal; lia.
Qed.

(** The first candidate is never after the nominal sample point; the second is, or is the first, or is a quantum
    later; nothing valid lies beyond them. *)
Lemma cand_choice t1 : reachable btc nom tseg →
  t1 = cand_t1 0 ∧ (nom < sp_value tseg (cand_t1 1) ∨ cand_t1 1 <= cand_t1 0) ∨
    t1 = cand_t1 1 ∧ sp_value tseg (cand_t1 1) <= nom →
  best_segs btc nom tseg t1 (tseg - t1).
Proof using Hb Ht Hn.
  intros (w1 & w2 & (Hs & H1 & H2) & Hle) Hc. destruct (nom_quanta_bounds nom tseg Ht Hn) as (HF & Hlow & Hmax).
  apply Hmax in Hle as Hw. destruct Hb.
  assert (Hbound : ∀ t2' t1', valid_segs btc tseg t1' t2' → sp_value tseg t1' <= nom → t1' <= cand_t1 1).
  { intros t2' t1' (? & ? & ?) Hv%Hmax. unfold cand_t1. lia. }
  assert (Hcases : cand_t1 1 = cand_t1 0 ∨ cand_t1 1 = nom_quanta nom tseg ∧ cand_t1 0 = nom_quanta nom tseg - 1)
    by (unfold cand_t1; lia).
  assert (Hv0 : sp_value tseg (cand_t1 0) <= nom).
  { etrans; [|exact (Z.max_lub _ _ _ Hlow Hle)]. destruct (Z.le_gt_cases (cand_t1 0) (nom_quanta nom tseg - 1)).
    - etrans; [by apply sp_value_mono|]. lia.
    - etrans; [apply (sp_value_mono _ _ w1); [done|unfold cand_t1 in *; lia]|]. lia. }
  assert (Hw1 : w1 <= t1).
  { destruct Hc as [[-> [Hno|Heq]]|[-> _]]; [|specialize (Hbound w2 w1); unfold valid_segs in Hbound; lia..].
    destruct Hcases as [E|[E E0]]; [rewrite E in Hno; lia|].
    destruct (Z.eq_dec w1 (nom_quanta nom tseg)) as [->|]; [rewrite <- E in *; lia|lia]. }
  assert (Hv : sp_value tseg t1 <= nom) by (by destruct Hc as [[-> _]|[-> ?]]).
  split; [|split; [done|]].
  - unfold valid_segs. split; [lia|]. destruct Hc as [[-> _]|[-> _]]; unfold cand_t1 in *; lia.
  - intros t1' t2' Hv1 Hv2. pose proof (Hbound _ _ Hv1 Hv2) as Hb1.
    destruct Hc as [[-> [Hno|Heq]]|[-> _]]; [|lia..]. destruct Hcases as [E|[E E0]]; [rewrite E in Hno; lia|].
    destruct (Z.eq_dec t1' (cand_t1 1)) as [->|]; [lia|]. lia.
Qed.

End Candidates.

(** Where the sample point is reachable the old segments do not matter. *)
Definition sp_post btc nom tseg (sp : sp_state) : Prop :=
  0 <= sp_best_error sp <= UINT_MAX ∧
  (nom < 1000 → reachable btc nom tseg →
    best_segs btc nom tseg (sp_tseg1 sp) (sp_tseg2 sp) ∧ sp_best sp = sp_value tseg (sp_tseg1 sp)).

Lemma sp_of_nonneg btc nom tseg i : 1 <= tseg <= 1000 → 0 <= sp_of btc nom tseg i.
Proof.
  intros Ht. unfold sp_of. rewrite (u32_small (tseg + 1)) by (unfold is_u32; lia).
  apply Z.div_pos; [apply u32_range|lia].
Qed.

Lemma sp_step_error btc nom tseg i st st' :
  1 <= tseg <= 1000 → 0 <= nom <= 1000 → sp_step btc nom tseg i st st' →
  0 <= sp_best_error st <= UINT_MAX → 0 <= sp_best_error st' <= UINT_MAX.
Proof.
  intros Ht Hn [[-> _]|(Hle & _ & ->)] He; [done|]. pose proof (sp_of_nonneg btc nom tseg i Ht).
  cbn [sp_best_error]. unfold UINT_MAX. lia.
Qed.

(** The two steps choose the best segments. *)
Lemma sp_steps_best btc nom tseg st0 st1 st2 :
  btc_ok btc → 1 <= tseg < 1000 → 0 <= nom < 1000 → reachable btc nom tseg → sp_best_error st0 = UINT_MAX →
  sp_step btc nom tseg 0 st0 st1 → sp_step btc nom tseg 1 st1 st2 →
  best_segs btc nom tseg (sp_tseg1 st2) (sp_tseg2 st2) ∧ sp_best st2 = sp_value tseg (sp_tseg1 st2).
Proof.
  intros Hb Ht Hn Hr He. unfold sp_step.
  destruct (sp_segs_cand btc nom tseg Hb Ht Hn 0 Hr ltac:(lia)) as (-> & -> & Hc0).
  destruct (sp_segs_cand btc nom tseg Hb Ht Hn 1 Hr ltac:(lia)) as (-> & -> & Hc1).
  pose proof (cand_choice btc nom tseg Hb Ht Hn) as Hch. rewrite He. cbn [fst snd].
  set (c0 := cand_t1 btc nom tseg 0) in *. set (c1 := cand_t1 btc nom tseg 1) in *.
  assert (H0 : sp_value tseg c0 <= nom).
  { destruct (Z.le_gt_cases (sp_value tseg c1) nom) as [Hle|Hgt].
    - etrans; [apply (sp_value_mono _ _ c1); [done|unfold c0, c1, cand_t1; lia]|done].
    - destruct (Hch c0 Hr ltac:(auto)) as (_ & ? & _). done. }
  assert (0 <= sp_value tseg c0) by (unfold sp_value; apply Z.div_pos; lia).
  intros [[_ [?|Hx]]|(_ & _ & ->)]; [lia|unfold UINT_MAX in Hx; lia|]. cbn [sp_best_error].
  intros [[-> Hrej]|(Hle & Hlt & ->)]; cbn [sp_tseg1 sp_tseg2 sp_best]; (split; [|done]).
  - apply Hch; [done|]. left. split; [done|]. destruct Hrej as [|Hge]; [by left|right].
    destruct (Z.le_gt_cases c1 c0) as [|Hgt]; [done|]. pose proof (sp_value_step tseg c0 c1 Ht Hgt). lia.
  - apply Hch; [done|]. by right.
Qed.

Lemma update_sp_wp btc nom tseg t1 t2 s :
  btc_ok btc → 1 <= tseg < 1000 → 0 <= nom <= 1000 →
  wp (can_update_sample_point btc nom tseg t1 t2) s (λ sp s', s' = s ∧ sp_post btc nom tseg sp ∧
    (sum_ok t1 t2 → sum_ok (sp_tseg1 sp) (sp_tseg2 sp))).
Proof.
  intros Hb Ht Hn. unfold can_update_sample_point. wp_step.
  eapply wp_mono; [apply update_sp_iter_wp; lia|]. intros st1 s1 [-> H1].
  eapply wp_mono; [apply update_sp_iter_wp; lia|]. intros st2 s2 [-> H2]. split; [done|]. split; [split|].
  - eapply (sp_step_error btc nom tseg 1); [lia|done|exact H2|].
    eapply (sp_step_error btc nom tseg 0); [lia|done|exact H1|]. simpl. unfold UINT_MAX. lia.
  - intros Hlt Hr. by eapply sp_steps_best; [done|done|lia|done| |exact H1|exact H2].
  - intros Hs. eapply sp_step_sum; [|exact H2|]; [lia|]. eapply sp_step_sum; [|exact H1|]; [lia|done].
Qed.

(** *** The search *)

Section Search.
Context (freq : Z) (bt : can_bittiming) (btc : can_bittiming_const) (nom : Z).
Context (Hb : btc_ok btc) (Hf : 1 <= freq < 2 ^ 31) (Hr : 1000 <= bitrate bt)
  (Hm : (1 + tseg1_max btc + tseg2_max btc) * bitrate bt < 2 ^ 32) (Hnom : 0 <= nom <= 1000).

Abbreviation lo := (tseg1_min btc + tseg2_min btc).
Abbreviation hi := (tseg1_max btc + tseg2_max btc).
Abbreviation cbrp := (cand_brp freq bt btc).
Abbreviation cerr t := (rate_error freq bt (cbrp t) (1 + t / 2)).

(** The values of the loop variable. *)
Definition in_search (t : Z) : Prop := 2 * lo <= t <= 2 * hi + 1.

Lemma in_search_half t : in_search t → lo <= t / 2 <= hi ∧ 0 <= t mod 2 <= 1.
Proof.
  intros Ht. unfold in_search in Ht. pose proof (Z.div_mod t 2 ltac:(done)).
  pose proof (Z.mod_pos_bound t 2 ltac:(done)). lia.
Qed.

Lemma rate_error_range brp all : 0 < brp * all → 0 <= rate_error freq bt brp all < 2 ^ 31.
Proof.
  intros Hp. unfold rate_error. assert (0 <= freq / (brp * all) <= freq).
  { split; [apply Z.div_pos; lia|]. apply Z.div_le_upper_bound; nia. }
  destruct Hb. nia.
Qed.

(** What the best values so far are. *)
Definition found (st : calc_state) : Prop :=
  (0 <= best_sample_point_error st <= UINT_MAX) ∧ sum_ok (calc_tseg1 st) (calc_tseg2 st) ∧
  (best_bitrate_error st = UINT_MAX ∨
   ∃ t, in_search t ∧ best_tseg st = t / 2 ∧ best_brp st = cbrp t ∧ brp_in btc (cbrp t) ∧
     best_bitrate_error st = cerr t).

Definition body_post (t : Z) (st : calc_state) (r : bool * calc_state) : Prop :=
  found (snd r) ∧ best_bitrate_error (snd r) <= best_bitrate_error st ∧
  (brp_in btc (cbrp t) → best_bitrate_error (snd r) <= cerr t) ∧
  (fst r = true → best_bitrate_error (snd r) = 0).

Lemma cand_brp_eq t :
  in_search t →
  0 < (1 + t / 2) * bitrate bt < 2 ^ 32 ∧
  u32 (u32 (freq / u32 (u32 (CAN_CALC_SYNC_SEG + t / 2) * bitrate bt) + t mod 2) / brp_inc btc * brp_inc btc)
    = cbrp t.
Proof.
  intros Ht. destruct (in_search_half t Ht) as [Hh Hmod]. destruct Hb.
  assert (Hp : 0 < (1 + t / 2) * bitrate bt < 2 ^ 32) by nia. split; [done|].
  unfold CAN_CALC_SYNC_SEG. rewrite (u32_small (1 + t / 2)) by (unfold is_u32; lia).
  rewrite (u32_small ((1 + t / 2) * bitrate bt)) by (unfold is_u32; lia). unfold cand_brp.
  set (q := freq / _). assert (0 <= q <= freq).
  { split; [apply Z.div_pos; lia|]. apply Z.div_le_upper_bound; nia. }
  rewrite (u32_small (q + t mod 2)) by (unfold is_u32; lia). apply u32_small.
  pose proof (Z.mul_div_le (q + t mod 2) (brp_inc btc) ltac:(lia)).
  assert (0 <= (q + t mod 2) / brp_inc btc) by (apply Z.div_pos; lia). unfold is_u32. nia.
Qed.

Lemma calc_body_wp t st s :
  in_search t → found st →
  wp (calc_body freq bt btc nom t st) s (λ r s', s' = s ∧ body_post t st r).
Proof.
  intros Ht Hst. destruct (cand_brp_eq t Ht) as [Hp Ebrp]. destruct (in_search_half t Ht) as [Hh Hmod].
  unfold calc_body. assert (Hp' : u32 (u32 (CAN_CALC_SYNC_SEG + t / 2) * bitrate bt) = (1 + t / 2) * bitrate bt).
  { unfold CAN_CALC_SYNC_SEG. destruct Hb. rewrite (u32_small (1 + t / 2)) by (unfold is_u32; lia).
    apply u32_small. unfold is_u32. lia. }
  wp_step. apply wp_udiv; [lia|]. wp_step. apply wp_udiv; [destruct Hb; lia|].
  rewrite Ebrp. set (b := cbrp t) in *.
  destruct ((b <? brp_min btc) || (brp_max btc <? b)) eqn:Ein.
  { wp_step. split; [done|]. split_and!; [done|done| |done]. intros [? ?]. unfold b in *. lia. }
  assert (Hin : brp_in btc b) by (unfold brp_in; lia). unfold brp_in in Hin.
  assert (Hall : u32 (CAN_CALC_SYNC_SEG + t / 2) = 1 + t / 2).
  { apply u32_small. unfold is_u32, CAN_CALC_SYNC_SEG. destruct Hb. lia. }
  assert (Hba : 0 < b * (1 + t / 2) < 2 ^ 32) by (destruct Hb; nia).
  rewrite Hall, (u32_small (b * (1 + t / 2))) by (unfold is_u32; lia).
  wp_step. apply wp_udiv; [lia|]. wp_step.
  pose proof (rate_error_range b (1 + t / 2) ltac:(lia)) as Herr.
  apply wp_abs_u32; [unfold rate_error in Herr; lia|].
  fold (rate_error freq bt b (1 + t / 2)). set (e := rate_error freq bt b (1 + t / 2)) in *.
  destruct (Z.ltb_spec (best_bitrate_error st) e) as [Hw|Hw].
  { wp_step. split; [done|]. split_and!; [done|done|intros _; by apply Z.lt_le_incl|done]. }
  wp_step. eapply wp_mono; [apply update_sp_wp; [done|destruct Hb; lia|done]|].
  intros sp s1 (-> & [Hspe _] & Hsum). destruct Hst as (Hbspe & Hs0 & Hbest). specialize (Hsum Hs0).
  set (bspe := if e <? best_bitrate_error st then UINT_MAX else best_sample_point_error st).
  assert (Hcand : found (mkcalc e (sp_best_error sp) (t / 2) b (sp_tseg1 sp) (sp_tseg2 sp))).
  { split; [done|]. split; [done|]. right. by exists t. }
  destruct (Z.ltb_spec bspe (sp_best_error sp)) as [Hs|Hs]; wp_step; (split; [done|]).
  - assert (Heq : e = best_bitrate_error st).
    { unfold bspe in Hs. destruct (Z.ltb_spec e (best_bitrate_error st)); lia. }
    split_and!; [|done|intros _; cbn; by rewrite <- Heq|done].
    split; [cbn [snd best_sample_point_error]|by split].
    unfold bspe. destruct (e <? best_bitrate_error st); [unfold UINT_MAX; lia|done].
  - split_and!; [done|done|done|]. simpl. intros [? _]%andb_true_iff. lia.
Qed.

Lemma calc_loop_wp fuel t st s :
  t <= 2 * hi + 1 → t - 2 * lo + 1 < Z.of_nat fuel → found st →
  (∀ t', in_search t' → t < t' → brp_in btc (cbrp t') → best_bitrate_error st <= cerr t') →
  wp (calc_loop fuel freq bt btc nom t st) s (λ st' s', s' = s ∧ found st' ∧
    ∀ t', in_search t' → brp_in btc (cbrp t') → best_bitrate_error st' <= cerr t').
Proof.
  revert t st. induction fuel as [|fuel IH]; intros t st Ht Hfuel Hst Hmin; cbn [calc_loop];
    (assert (Hlo : u32 (u32 lo * 2) = 2 * lo) by
       (destruct Hb; rewrite (u32_small lo), u32_small by (unfold is_u32; lia); lia); rewrite Hlo;
     destruct (Z.leb_spec (2 * lo) t) as [Hl|Hl];
     [|wp_step; split_and!; [done|done|]; intros t' Ht' Hv; apply Hmin; [done|unfold in_search in *; lia|done]]).
  { destruct Hb. lia. }
  assert (Hin : in_search t) by (unfold in_search; lia).
  wp_step. eapply wp_mono; [by apply calc_body_wp|]. intros r s1 (-> & Hfd & Hle & Hc & Hbr).
  destruct (fst r) eqn:Er.
  - wp_step. split_and!; [done|done|]. intros t' Ht' Hv. rewrite Hbr by done.
    destruct Hb. destruct (in_search_half _ Ht'). unfold brp_in in Hv.
    pose proof (rate_error_range (cbrp t') (1 + t' / 2) ltac:(nia)). lia.
  - rewrite (u32_small (t - 1)) by (unfold is_u32; destruct Hb; lia).
    apply IH; [lia|lia|done|]. intros t' Ht' Hlt Hv. destruct (Z.eq_dec t' t) as [->|].
    + by apply Hc.
    + etrans; [exact Hle|]. apply Hmin; [done|lia|done].
Qed.

Lemma calc_sjw_range tseg2 :
  0 <= sjw bt → 0 <= sjw_max btc → 1 <= tseg2 →
  1 <= calc_sjw bt btc tseg2 <= tseg2 ∧ calc_sjw bt btc tseg2 <= Z.max 1 (sjw_max btc).
Proof.
  intros Hs Hsm Ht. unfold calc_sjw. destruct (nz (sjw bt)) eqn:E1, (nz (sjw_max btc)) eqn:E2;
    cbn [negb orb]; try lia.
  apply nz_true in E1. apply nz_true in E2.
  destruct (Z.ltb_spec (sjw_max btc) (sjw bt)), (Z.ltb_spec tseg2 (sjw bt)),
    (Z.ltb_spec tseg2 (sjw_max btc)); lia.
Qed.

(** The result for the choice [t] of the search. *)
Definition result_ok (t : Z) (r : can_bittiming) : Prop :=
  brp r = cbrp t ∧
  (nom < 1000 → reachable btc nom (t / 2) →
    timing_ok btc (t / 2) r ∧ best_segs btc nom (t / 2) (prop_seg r + phase_seg1 r) (phase_seg2 r) ∧
    sample_point r = sp_value (t / 2) (prop_seg r + phase_seg1 r) ∧
    bitrate r = freq / (brp r * (1 + t / 2))).

Lemma calc_finish_wp t st s :
  0 <= sjw bt → 0 <= sjw_max btc →
  in_search t → best_tseg st = t / 2 → best_brp st = cbrp t → brp_in btc (cbrp t) →
  sum_ok (calc_tseg1 st) (calc_tseg2 st) →
  wp (calc_finish freq bt btc nom st) s (λ r s', s' = s ∧ fst r = 0 ∧ result_ok t (snd r)).
Proof.
  intros Hsj Hsm Ht Et Eb Hin Hsum. destruct (in_search_half t Ht) as [Hh _]. unfold brp_in in Hin.
  pose proof Hb as [? ? ? ? ? ?]. unfold calc_finish. rewrite Et, Eb.
  wp_step. eapply wp_mono; [apply update_sp_wp; [done|lia|done]|]. intros sp s1 (-> & [_ Hsp] & Hs).
  specialize (Hs Hsum). set (t1 := sp_tseg1 sp) in *. set (t2 := sp_tseg2 sp) in *. unfold sum_ok in Hs.
  assert (Hall : u32 (CAN_CALC_SYNC_SEG + t1 + t2) = 1 + u32 (t1 + t2)).
  { unfold CAN_CALC_SYNC_SEG. rewrite <- Z.add_assoc. unfold u32 at 1. rewrite <- Z.add_mod_idemp_r by done.
    fold (u32 (t1 + t2)). apply Z.mod_small. lia. }
  wp_step. apply wp_udiv; [lia|]. wp_step. rewrite Hall.
  rewrite (u32_small (cbrp t * (1 + u32 (t1 + t2)))) by (unfold is_u32; nia).
  apply wp_udiv; [nia|]. wp_step. split; [done|]. split; [done|]. split; [done|]. cbn [snd].
  intros Hlt Hr'. destruct (Hsp Hlt Hr') as [Hbest Hval]. fold t1 t2 in Hbest, Hval.
  pose proof Hbest as [(Hsm' & H1 & H2) _].
  assert (Hd : 0 <= t1 / 2 ∧ 2 * (t1 / 2) <= t1 <= 2 * (t1 / 2) + 1).
  { pose proof (Z.div_mod t1 2 ltac:(done)). pose proof (Z.mod_pos_bound t1 2 ltac:(done)). lia. }
  assert (Hph : u32 (t1 - t1 / 2) = t1 - t1 / 2) by (apply u32_small; unfold is_u32; lia).
  split_and!.
  - constructor; cbn; rewrite ?Hph; try lia; apply calc_sjw_range; lia.
  - cbn. rewrite Hph. by replace (t1 / 2 + (t1 - t1 / 2)) with t1 by lia.
  - cbn. rewrite Hph. by replace (t1 / 2 + (t1 - t1 / 2)) with t1 by lia.
  - cbn. rewrite Hsm', u32_small by (unfold is_u32; lia). done.
Qed.

End Search.

(** The calculation calls nothing but the log, and stores nothing. *)
Definition only_log (s s' : st D W) : Prop := drv s' = drv s ∧ stores (trace s') = stores (trace s).

Ltac log_only := unfold only_log; cbn [drv trace]; rewrite ?stores_app, ?app_nil_r.

Lemma can_calc_bittiming_wp freq bt btc s :
  btc_ok btc → 1 <= freq < 2 ^ 31 → 1000 <= bitrate bt →
  (1 + tseg1_max btc + tseg2_max btc) * bitrate bt < 2 ^ 32 →
  0 <= sample_point bt <= 1000 → 0 <= sjw bt → 0 <= sjw_max btc →
  let err t := rate_error freq bt (cand_brp freq bt btc t) (1 + t / 2) in
  let ok t := in_search btc t ∧ brp_in btc (cand_brp freq bt btc t) in
  wp (can_calc_bittiming freq bt btc) s (λ r s', only_log s s' ∧
    ((fst r = - EDOM ∧ snd r = bt ∧ ∀ t, ok t → 50 < err t * 1000 / bitrate bt) ∨
     (fst r = 0 ∧ ∃ t, ok t ∧ err t * 1000 / bitrate bt <= 50 ∧ (∀ t', ok t' → err t <= err t') ∧
       result_ok freq bt btc (nominal_sample_point bt) t (snd r)))).
Proof.
  intros Hb Hf Hr Hm Hsp Hsj Hsm err ok. unfold can_calc_bittiming. cbv zeta.
  set (nom := nominal_sample_point bt).
  assert (Hnom : 0 <= nom <= 1000) by (unfold nom, nominal_sample_point; repeat case_match; lia).
  assert (Htop : calc_top btc = 2 * (tseg1_max btc + tseg2_max btc) + 1).
  { unfold calc_top. destruct Hb. rewrite (u32_small (tseg1_max btc + tseg2_max btc)), u32_small
      by (unfold is_u32; lia). lia. }
  wp_step. eapply wp_mono.
  { apply (calc_loop_wp freq bt btc nom Hb Hf Hr Hm Hnom); [lia|destruct Hb; lia| |].
    - split; [done|]. split; [done|by left].
    - intros t' Ht' Hlt. unfold in_search in Ht'. lia. }
  intros st s1 (-> & (_ & Hsum & Hbest) & Hmin).
  assert (Hmin' : ∀ t, ok t → best_bitrate_error st <= err t) by (intros t [? ?]; by apply Hmin).
  assert (Hlim : ∀ e, 0 <= e <= UINT_MAX → 0 <= e * 1000 / bitrate bt < 2 ^ 32).
  { intros e He. unfold UINT_MAX in He. split; [apply Z.div_pos; lia|]. apply Z.div_lt_upper_bound; lia. }
  assert (Hmono : ∀ e e', e <= e' → e * 1000 / bitrate bt <= e' * 1000 / bitrate bt).
  { intros. apply Z.div_le_mono; lia. }
  destruct Hbest as [Hnone|(t & Ht & Et & Eb & Hin & Ee)].
  - rewrite Hnone. change (nz UINT_MAX) with true. cbv iota. wp_step. apply wp_udiv; [lia|].
    rewrite u32_small by (apply Hlim; unfold UINT_MAX; lia).
    assert (Hbig : 50 < UINT_MAX * 1000 / bitrate bt).
    { apply Z.lt_le_trans with 999; [done|]. destruct Hb.
      apply Z.div_le_lower_bound; unfold UINT_MAX; nia. }
    replace (CAN_CALC_MAX_ERROR <? _) with true by (unfold CAN_CALC_MAX_ERROR; lia).
    wp_step. wp_step. split; [by log_only|]. left. split_and!; [done..|]. intros t Ht.
    pose proof (Hmono _ _ (Hmin' t Ht)) as Hle. rewrite Hnone in Hle. lia.
  - assert (He : 0 <= best_bitrate_error st <= UINT_MAX).
    { rewrite Ee. destruct (in_search_half btc t Ht). destruct Hb. unfold brp_in in Hin.
      pose proof (rate_error_range freq bt btc ltac:(done) Hf Hr Hm (cand_brp freq bt btc t) (1 + t / 2)
        ltac:(nia)). unfold UINT_MAX. lia. }
    assert (Hfin : best_bitrate_error st * 1000 / bitrate bt <= 50 → ∀ s0, only_log s s0 →
      wp (calc_finish freq bt btc nom st) s0 (λ r s', only_log s s' ∧
        ((fst r = - EDOM ∧ snd r = bt ∧ ∀ t, ok t → 50 < err t * 1000 / bitrate bt) ∨
        (fst r = 0 ∧ ∃ t, ok t ∧ err t * 1000 / bitrate bt <= 50 ∧ (∀ t', ok t' → err t <= err t') ∧
          result_ok freq bt btc nom t (snd r))))).
    { intros H50 s0 Hlog. eapply wp_mono; [by apply (calc_finish_wp freq bt btc nom Hb Hf Hnom t)|].
      intros r s2 (-> & Hr0 & Hres). split; [done|]. right. split; [done|]. exists t. rewrite Ee in H50, Hmin'.
      split_and!; done. }
    destruct (nz (best_bitrate_error st)) eqn:Enz.
    + wp_step. apply wp_udiv; [lia|]. rewrite u32_small by by apply Hlim.
      destruct (Z.ltb_spec CAN_CALC_MAX_ERROR (best_bitrate_error st * 1000 / bitrate bt)) as [Hgt|Hle];
        unfold CAN_CALC_MAX_ERROR in *; wp_step; wp_step; [|apply Hfin; [done|by log_only]].
      wp_step. split; [by log_only|]. left. split_and!; [done..|]. intros t' Ht'. pose proof (Hmono _ _ (Hmin' t' Ht')). lia.
    + apply nz_false in Enz. apply Hfin; [|done]. rewrite Enz. by rewrite Z.div_0_l by lia.
Qed.

(** C30: [can_calc_bittiming], for the constants of a controller and inputs for which
    no product overflows, terminates without undefined behaviour and stores nothing.  It returns
    -EDOM, with the structure unchanged, exactly if every setting that the search
    tries misses the bit rate by more than 5 percent.  Otherwise it returns 0
    with a prescaler within its limits whose error is minimal among all
    settings tried.  If there are any segments within the limits of the controller that with the chosen number of
    quanta give a sample point not after the nominal one (below 100 percent), then those returned are within the
    limits and have that sum, and their sample point is the latest one not after the nominal one among all such
    segments; SJW does not exceed phase segment 2, and the sample point and the bit rate reported are the ones the settings give. *)
Theorem can_calc_bittiming_spec freq bt btc s :
  btc_ok btc → 1 <= freq < 2 ^ 31 → 1000 <= bitrate bt →
  (1 + tseg1_max btc + tseg2_max btc) * bitrate bt < 2 ^ 32 →
  0 <= sample_point bt <= 1000 → 0 <= sjw bt → 0 <= sjw_max btc →
  let err t := rate_error freq bt (cand_brp freq bt btc t) (1 + t / 2) in
  let ok t := in_search btc t ∧ brp_in btc (cand_brp freq bt btc t) in
  wp (can_calc_bittiming freq bt btc) s (λ r s', only_log s s' ∧
    ((fst r = - EDOM ∧ snd r = bt ∧ ∀ t, ok t → 50 < err t * 1000 / bitrate bt) ∨
     (fst r = 0 ∧ ∃ t, ok t ∧ err t * 1000 / bitrate bt <= 50 ∧ (∀ t', ok t' → err t <= err t') ∧
       result_ok freq bt btc (nominal_sample_point bt) t (snd r)))).
Proof. intros. by apply can_calc_bittiming_wp. Qed.

(** [can_fixup_bittiming], for segments whose sum does not wrap around:
    -ERANGE exactly when SJW (1 if it was 0), a time segment or phase segment 2 is
    outside of the limits; -EINVAL when the prescaler for the time quantum is; else 0
    with segments, SJW and prescaler within the limits and the bit rate that they
    give.  It neither divides by zero nor overflows. *)
Theorem can_fixup_bittiming_spec freq bt btc s :
  btc_ok btc → is_u32 (prop_seg bt) → is_u32 (phase_seg1 bt) → is_u32 (phase_seg2 bt) →
  prop_seg bt + phase_seg1 bt < 2 ^ 32 →
  let sjw' := if nz (sjw bt) then sjw bt else 1 in
  let in_range := sjw' <= sjw_max btc ∧
    tseg1_min btc <= prop_seg bt + phase_seg1 bt <= tseg1_max btc ∧
    tseg2_min btc <= phase_seg2 bt <= tseg2_max btc in
  wp (can_fixup_bittiming freq bt btc) s (λ r _,
    sjw (snd r) = sjw' ∧ prop_seg (snd r) = prop_seg bt ∧ phase_seg1 (snd r) = phase_seg1 bt ∧
    phase_seg2 (snd r) = phase_seg2 bt ∧
    ((fst r = - ERANGE ∧ ¬ in_range) ∨
     (fst r = - EINVAL ∧ in_range ∧ ¬ brp_in btc (brp (snd r))) ∨
     (fst r = 0 ∧ in_range ∧ brp_in btc (brp (snd r)) ∧
      bitrate (snd r) = freq / (brp (snd r) * (1 + prop_seg bt + phase_seg1 bt + phase_seg2 bt))))).
Proof.
  intros Hb Hp H1 H2 Hsum sjw' in_range. unfold is_u32 in *. unfold can_fixup_bittiming. cbv zeta.
  rewrite (u32_small (prop_seg bt + phase_seg1 bt)) by (unfold is_u32; lia).
  set (bt1 := if nz (sjw bt) then bt else _).
  assert (E1 : sjw bt1 = sjw' ∧ prop_seg bt1 = prop_seg bt ∧ phase_seg1 bt1 = phase_seg1 bt ∧
    phase_seg2 bt1 = phase_seg2 bt) by (unfold bt1, sjw'; by destruct (nz (sjw bt))).
  clearbody bt1. destruct E1 as (Es & Ep & E1 & E2). rewrite Es, E2. clearbody sjw'.
  match goal with |- wp (if ?c then _ else _) _ _ => destruct c eqn:Ec end.
  { wp_step. split_and!; try done. left. split; [done|]. intros (? & ? & ?). lia. }
  assert (Hin : in_range) by (unfold in_range; lia). clear Ec. unfold in_range in Hin.
  cbn [brp prop_seg phase_seg1 phase_seg2].
  set (b := u32 (if 1 <? brp_inc btc then _ else _)). clearbody b. rewrite ?Ep, ?E1, ?E2, ?Es.
  destruct ((b <? brp_min btc) || (brp_max btc <? b)) eqn:Ein.
  { wp_step. split_and!; try done. right. left. split; [done|]. split; [done|]. intros [? ?]. cbn in *. lia. }
  assert (Hbr : brp_in btc b) by (unfold brp_in; lia). pose proof Hbr as [? ?]. destruct Hb.
  assert (Hall : s32 (prop_seg bt + phase_seg1 bt + phase_seg2 bt + 1) =
    1 + prop_seg bt + phase_seg1 bt + phase_seg2 bt).
  { rewrite <- (u32_small (prop_seg bt + phase_seg1 bt + phase_seg2 bt + 1)), s32_small
      by (unfold is_u32; lia). lia. }
  rewrite Hall, (u32_small (1 + prop_seg bt + phase_seg1 bt + phase_seg2 bt)) by (unfold is_u32; lia).
  rewrite (u32_small (b * _)) by (unfold is_u32; nia).
  wp_step. apply wp_udiv; [nia|]. wp_step.
  rewrite <- (u32_small (prop_seg bt + phase_seg1 bt)), s32_small by (unfold is_u32; lia).
  unfold sdiv. replace ((- 2 ^ 31 <=? _) && _) with true by lia. cbn [negb].
  replace (1 + prop_seg bt + phase_seg1 bt + phase_seg2 bt =? 0) with false by lia.
  wp_step. wp_step. split_and!; try done. right. right. done.
Qed.

End BtProofs.

(** ** Concrete inputs *)

Definition bt_request (rate sp : Z) : can_bittiming := {|
  bitrate := rate; sample_point := sp; tq := 0; prop_seg := 0; phase_seg1 := 0; phase_seg2 := 0;
  sjw := 0; brp := 0 |}.

Definition bt_st : st unit script := mkst tt (mkscript [] [] []) [].

Lemma sample_btc_ok : btc_ok sample_btc.
Proof. by constructor. Qed.

(** The sample point of 87.5 percent can be reached with 199 quanta, by 173 and 26 for example; 174 and 25 are the best. *)
Example sample_reachable : reachable sample_btc 875 199 ∧ best_segs sample_btc 875 199 174 25.
Proof.
  split.
  - exists 173, 26. split; [split; [done|simpl; lia]|by vm_compute].
  - split; [split; [done|simpl; lia]|]. split; [by vm_compute|]. intros t1 t2 _ Hle.
    destruct (Z.le_gt_cases t1 174) as [|Hgt]; [done|].
    pose proof (sp_value_mono 199 175 t1 ltac:(done) ltac:(lia)) as Hm. change (sp_value 199 175) with 880 in Hm. lia.
Qed.

(** 500 kbit/s from 100 MHz. *)
Lemma can_calc_bittiming_witness :
  wp (can_calc_bittiming 100000000 (bt_request 500000 0) sample_btc) bt_st (λ r _,
    fst r = 0 ∧ bitrate (snd r) = 500000 ∧ timing_ok sample_btc 199 (snd r) ∧
    ∃ t, in_search sample_btc t ∧ result_ok 100000000 (bt_request 500000 0) sample_btc 875 t (snd r)).
Proof.
  pose proof (can_calc_bittiming_spec 100000000 (bt_request 500000 0) sample_btc bt_st sample_btc_ok
    ltac:(done) ltac:(done) ltac:(done) ltac:(done) ltac:(done) ltac:(done)) as Hth. cbv zeta in Hth.
  eapply wp_mono; [apply wp_and; [exact Hth|]|].
  - instantiate (1 := λ r _, r = (0, {| bitrate := 500000; sample_point := 875; tq := 10; prop_seg := 87;
      phase_seg1 := 87; phase_seg2 := 25; sjw := 1; brp := 1 |})). by vm_compute.
  - intros r s' [[_ [(Hr & _)|(_ & t & [Ht _] & _ & _ & Hres)]] ->]; [discriminate Hr|].
    cbn [fst snd bitrate]. split; [reflexivity|]. split; [reflexivity|]. split; [constructor; cbn; lia|].
    exists t. split; [exact Ht|exact Hres].
Defined.

Lemma can_fixup_bittiming_witness :
  wp (can_fixup_bittiming 100000000 sample_bt sample_btc) bt_st (λ r _,
    fst r = 0 ∧ bitrate (snd r) = 500000 ∧ sjw (snd r) = 1).
Proof.
  pose proof (can_fixup_bittiming_spec 100000000 sample_bt sample_btc bt_st sample_btc_ok
    ltac:(by_compute) ltac:(by_compute) ltac:(by_compute) ltac:(done)) as Hth. cbv zeta in Hth.
  eapply wp_mono; [apply wp_and; [exact Hth|]|].
  - instantiate (1 := λ r _, fst r = 0 ∧ bitrate (snd r) = 500000). by vm_compute.
  - by intros r s' [(? & _) [? ?]].
Defined.
