(* ===== verification/Timing.v ===== *)
(** * From a bit rate to the registers

    The start of the userspace tool (the middle of [main] in [ctucanfd_userspace.cpp])
    calculates both bit timings with [can_get_bittiming] for the limits of the core
    and programs them with [ctucan_hw_set_nom_bittiming] and
    [ctucan_hw_set_data_bittiming]. *)

From Stdlib Require Import ZArith Lia.
From stdpp Require Import base numbers list strings.
From S2P Require Import Prelude Bitfield Regs Kregs LinuxDefs World Base Sim BaseCfg BaseTx Hw HwEquiv HwSpec Bittiming.

#[local] Open Scope Z_scope.

(** The limits as the tool declares them itself. *)
Definition tool_bit_timing_max : can_bittiming_const := {|
  tseg1_min := 2; tseg1_max := 190; tseg2_min := 1; tseg2_max := 63; sjw_max := 31;
  brp_min := 1; brp_max := 8; brp_inc := 1;
|}.

Definition tool_bit_timing_data_max : can_bittiming_const := {|
  tseg1_min := 2; tseg1_max := 94; tseg2_min := 1; tseg2_max := 31; sjw_max := 31;
  brp_min := 1; brp_max := 2; brp_inc := 1;
|}.

Section Program.
Context {W : Type} `{World W}.
Implicit Types (s : st ctucan_hw_priv W).

Definition printf (format : string) (args : list Z) : M ctucan_hw_priv W unit := call_ (user (u_printf format args)).

(** What is printed of a bit timing. *)
Definition timing_args (bt : can_bittiming) : list Z :=
  [sample_point bt; tq bt; prop_seg bt; phase_seg1 bt; phase_seg2 bt; sjw bt; brp bt; bitrate bt].

(** [10 * bitrate] on [int]. *)
Definition default_dbitrate (bitrate : Z) : M ctucan_hw_priv W Z :=
  if (- 2 ^ 31 <=? 10 * bitrate) && (10 * bitrate <? 2 ^ 31) then mret (10 * bitrate)
  else undefined SignedOverflow.

(** Part of [main]: the two bit timings are calculated, then both are programmed.  An
    error code ends the program ([inl]). *)
Definition program_bitrates (bitrate dbitrate : Z)
    : M ctucan_hw_priv W (Z + can_bittiming * can_bittiming) :=
  let freq := 100000000 in
  nom ← can_get_bittiming freq 0 (bt_request (u32 bitrate) 0) (Some tool_bit_timing_max) None 0;
  if nz (fst nom) then call_ (user (u_fprintf 2 "can_get_bittiming"));; mret (inl (fst nom)) else
  printf "sample_point .%03d, tq %d, prop %d, seg1 %d, seg2 %d, sjw %d, brp %d, bitrate %d\n" (timing_args (snd nom));;
  dbitrate ← (if nz dbitrate then mret dbitrate else default_dbitrate bitrate);
  dat ← can_get_bittiming freq 0 (bt_request (u32 dbitrate) 0) (Some tool_bit_timing_data_max) None 0;
  if nz (fst dat) then call_ (user (u_fprintf 2 "can_get_bittiming data"));; mret (inl (fst dat)) else
  printf "data sample_point .%03d, tq %d, prop %d, seg1 %d, seg2 %d, sjw %d, brp %d, bitrate %d\n" (timing_args (snd dat));;
  nom_timing ← ctucan_hw_set_nom_bittiming (snd nom);
  data_timing ← ctucan_hw_set_data_bittiming (snd dat);
  mret (inr (nom_timing, data_timing)).

(** The bit rates for which the recommended sample point can be reached. *)
Definition rate_in (rate : Z) : Prop := 1000 <= rate <= 800000 ∨ 850000 <= rate <= 16000000.

(** The settings are within the limits and give the bit rate up to 5 percent. *)
Definition good_timing (nominal : bool) (rate : Z) (bt : can_bittiming) : Prop :=
  bt_fits (btr_limits nominal) bt ∧
  Z.abs (rate - 100000000 / (brp bt * (1 + (prop_seg bt + phase_seg1 bt + phase_seg2 bt)))) * 1000 / rate <= 50.

Lemma limits_ok nominal : btc_ok (btr_limits nominal).
Proof. by destruct nominal; constructor. Qed.

(** Segments for a sample point: the first as long as the limits and the sample point allow. *)
Definition segs_for (btc : can_bittiming_const) (nom tseg : Z) : Z :=
  Z.min (tseg1_max btc) (Z.min (tseg - tseg2_min btc)
    (if sp_value tseg (nom_quanta nom tseg) <=? nom then nom_quanta nom tseg else nom_quanta nom tseg - 1)).

Definition reachableb (btc : can_bittiming_const) (nom tseg : Z) : bool :=
  let t1 := segs_for btc nom tseg in
  let t2 := tseg - t1 in
  (tseg1_min btc <=? t1) && (t1 <=? tseg1_max btc) && (tseg2_min btc <=? t2) && (t2 <=? tseg2_max btc) &&
  (sp_value tseg t1 <=? nom).

Lemma reachableb_sound btc nom tseg : reachableb btc nom tseg = true → reachable btc nom tseg.
Proof.
  unfold reachableb. cbv zeta. intros Hr. exists (segs_for btc nom tseg), (tseg - segs_for btc nom tseg).
  unfold valid_segs. split; lia.
Qed.

(** The recommended sample points are reachable with every number of quanta that
    the calculation can choose. *)
Lemma default_reachable nominal rate tseg :
  rate_in rate → (800000 < rate → tseg <= 122) →
  tseg1_min (btr_limits nominal) + tseg2_min (btr_limits nominal) <= tseg <=
    tseg1_max (btr_limits nominal) + tseg2_max (btr_limits nominal) →
  nominal_sample_point (bt_request rate 0) < 1000 ∧
  reachable (btr_limits nominal) (nominal_sample_point (bt_request rate 0)) tseg.
Proof.
  intros Hr Hbig Ht. set (P nom k := (k <? 3) || ((nom =? 750) && (122 <? k)) || reachableb (btr_limits nominal) nom k).
  assert (HP : ∀ nom, nom = 750 ∨ nom = 800 ∨ nom = 875 → P nom tseg = true).
  { intros nom Hn.
    apply (Z_range_forallb (if nominal then 254 else 126) (P nom)); [|destruct nominal; simpl in *; lia].
    by destruct nominal, Hn as [-> | [-> | ->]]; vm_compute. }
  assert (Hge : (tseg <? 3) = false) by (destruct nominal; simpl in *; lia).
  assert (Hn : nominal_sample_point (bt_request rate 0) = 750 ∧ 800000 < rate ∨
    nominal_sample_point (bt_request rate 0) = 800 ∨ nominal_sample_point (bt_request rate 0) = 875).
  { unfold nominal_sample_point. cbn [sample_point bitrate bt_request]. change (nz 0) with false. cbv iota.
    destruct (Z.ltb_spec 800000 rate); [auto|]. destruct (500000 <? rate); auto. }
  split; [lia|]. apply reachableb_sound.
  specialize (HP (nominal_sample_point (bt_request rate 0)) ltac:(tauto)). unfold P in HP. rewrite Hge in HP.
  destruct Hn as [[E Hlt]|[E|E]]; rewrite E in *; [|done..]. specialize (Hbig Hlt).
  by replace (122 <? tseg) with false in HP by lia.
Qed.

(** A bit rate above 800 kbit/s leaves few quanta. *)
Lemma few_quanta rate b tseg :
  800000 < rate → rate_in rate → 1 <= b → 0 <= tseg →
  rate_error 100000000 (bt_request rate 0) b (1 + tseg) * 1000 / rate <= 50 → tseg <= 122.
Proof.
  intros Hlt Hr Hb Ht He. unfold rate_error in He. cbn [bitrate bt_request] in He. destruct Hr as [Hr|Hr]; [lia|].
  destruct (Z.le_gt_cases tseg 122) as [|Hgt]; [done|exfalso].
  assert (Hq : 100000000 / (b * (1 + tseg)) <= 100000000 / 124) by (apply Z.div_le_compat_l; nia).
  change (100000000 / 124) with 806451 in Hq.
  assert (Hbig : 51 <= Z.abs (rate - 100000000 / (b * (1 + tseg))) * 1000 / rate) by (apply Z.div_le_lower_bound; lia).
  lia.
Qed.

(** The programming of a calculated timing truncates nothing. *)
Lemma hw_set_bittiming_wp nominal tseg bt s :
  le_hw (drv s) → timing_ok (btr_limits nominal) tseg bt → brp_in (btr_limits nominal) (brp bt) →
  wp (if nominal then ctucan_hw_set_nom_bittiming bt else ctucan_hw_set_data_bittiming bt) s (λ bt' s',
    same_timing bt bt' ∧ bt_fits (btr_limits nominal) bt' ∧ ∃ w, btr_holds nominal w bt' ∧
      drv s' = drv s ∧ trace s' = trace s ++ [EvStore (hw_at (drv s) (btr_reg nominal)) w]).
Proof.
  intros Hle Hok [Hb1 Hb2]. destruct Hok as [Hsum H1 Hph1 H2 Hsj Hsm].
  assert (Hfit : bt_fits (btr_limits nominal) bt) by (destruct nominal; simpl in *; unfold bt_fits; simpl; lia).
  assert (Hpl : prop_seg bt < prop_limit nominal) by (destruct nominal; simpl in *; lia).
  destruct (redistribute_spec nominal bt Hfit Hpl) as (Hsame & Hp & Hq).
  pose proof Hsame as (_ & E2 & Es & Eb & _).
  destruct nominal; unfold ctucan_hw_set_nom_bittiming, ctucan_hw_set_data_bittiming; cbv zeta; hsteps;
    rewrite hw_redistribute_eq; (split; [done|]); (split; [unfold bt_fits, same_timing in *; simpl in *; lia|]).
  - exists (btr_word (btr_redistribute 63 bt)). rewrite nom_btr_word_eq, u32_small by apply btr_word_u32.
    split; [|done]. apply btr_word_holds; simpl in *; rewrite ?E2, ?Es, ?Eb; lia.
  - exists (btr_fd_word (btr_redistribute 31 bt)). rewrite data_btr_word_eq, u32_small by apply btr_fd_word_u32.
    split; [|done]. apply btr_fd_word_holds; simpl in *; rewrite ?E2, ?Es, ?Eb; lia.
Qed.

Lemma wp_printf format args s Q : (∀ s', only_log s s' → Q tt s') → wp (printf format args) s Q.
Proof.
  intros HQ. unfold printf. apply wp_call_. intros r w' _. apply HQ. split; [done|].
  cbn [trace]. by rewrite stores_app, app_nil_r.
Qed.

(** The calculation as the tool calls it. *)
Lemma get_bittiming_wp nominal rate s :
  rate_in rate →
  wp (can_get_bittiming 100000000 0 (bt_request (u32 rate) 0) (Some (btr_limits nominal)) None 0) s (λ r s',
    only_log s s' ∧ (fst r = - EDOM ∨
      (fst r = 0 ∧ brp_in (btr_limits nominal) (brp (snd r)) ∧ ∃ tseg, timing_ok (btr_limits nominal) tseg (snd r) ∧
        rate_error 100000000 (bt_request rate 0) (brp (snd r)) (1 + tseg) * 1000 / rate <= 50))).
Proof.
  intros Hr. assert (Hpos : 1000 <= rate <= 16000000) by (unfold rate_in in Hr; lia).
  rewrite u32_small by (unfold is_u32; lia).
  unfold can_get_bittiming. cbn [tq bitrate bt_request]. change (nz 0) with false.
  replace (nz rate) with true by (symmetry; apply nz_true; lia). cbn [negb andb].
  eapply wp_mono.
  { apply can_calc_bittiming_wp; [apply limits_ok|done|simpl; lia|destruct nominal; simpl; lia|done|done|by destruct nominal]. }
  cbv beta zeta. intros r s1 [Hlog Hout]. split; [done|].
  destruct Hout as [(Er & _)|(Er & t & [Hin Hbr] & H50 & _ & Eb & Hres)]; [by left|right].
  destruct (in_search_half _ _ Hin) as [Hh _]. rewrite Eb. split; [done|]. split; [done|]. exists (t / 2).
  split; [|done]. destruct (default_reachable nominal rate (t / 2) Hr) as [Hlt Hreach]; [|done|by apply Hres].
  intros Hlt. eapply few_quanta; [done|done| | |exact H50]; [unfold brp_in in Hbr|]; destruct nominal; simpl in *; lia.
Qed.

Lemma timing_good nominal rate tseg bt bt' :
  timing_ok (btr_limits nominal) tseg bt → same_timing bt bt' → bt_fits (btr_limits nominal) bt' →
  rate_error 100000000 (bt_request rate 0) (brp bt) (1 + tseg) * 1000 / rate <= 50 →
  good_timing nominal rate bt'.
Proof.
  intros Hok (E1 & E2 & _ & Eb & _) Hfit He. split; [done|]. unfold rate_error in He. cbn [bitrate bt_request] in He.
  destruct Hok. rewrite Eb, E1, E2. by replace (prop_seg bt + phase_seg1 bt + phase_seg2 bt) with tseg by lia.
Qed.

(** The outcomes for the bit rates [rate] and [drate] (or ten times [rate]). *)
Definition programmed rate drate s (r : Z + can_bittiming * can_bittiming) s' : Prop :=
  drv s' = drv s ∧
  match r with
  | inl e => e = - EDOM ∧ stores (trace s') = stores (trace s)
  | inr (nom, dat) =>
      good_timing true rate nom ∧ good_timing false (if nz drate then drate else 10 * rate) dat ∧
      ∃ w wd, btr_holds true w nom ∧ btr_holds false wd dat ∧
        stores (trace s') = stores (trace s) ++
          [(hw_at (drv s) CTUCANFD_BTR, w); (hw_at (drv s) CTUCANFD_BTR_FD, wd)]
  end.

Lemma program_bitrates_wp rate drate s :
  le_hw (drv s) → rate_in rate → rate_in (if nz drate then drate else 10 * rate) →
  wp (program_bitrates rate drate) s (programmed rate drate s).
Proof.
  intros Hle Hr Hd. unfold program_bitrates. cbv zeta. wp_step. eapply wp_mono; [by apply (get_bittiming_wp true)|].
  intros nom s1 [[D1 S1] [E|(E & B1 & t1 & T1 & R1)]]; rewrite E.
  { change (nz (- EDOM)) with true. cbv iota. repeat wp_step. unfold programmed. cbn [drv trace].
    by rewrite stores_app, app_nil_r. }
  change (nz 0) with false. cbv iota. wp_step. apply wp_printf. intros s1' [D1' S1'].
  rewrite <- D1' in D1. rewrite <- S1' in S1. clear dependent s1. rename s1' into s1.
  wp_step. assert (Hdr : wp (if nz drate then mret drate else default_dbitrate rate) s1
    (λ d s', s' = s1 ∧ d = if nz drate then drate else 10 * rate)).
  { destruct (nz drate); [by wp_step|]. unfold default_dbitrate. unfold rate_in in Hr.
    replace ((- 2 ^ 31 <=? 10 * rate) && (10 * rate <? 2 ^ 31)) with true by lia. by wp_step. }
  eapply wp_mono; [exact Hdr|]. intros d s2 [-> ->]. set (d := if nz drate then drate else 10 * rate) in *.
  wp_step. eapply wp_mono; [by apply (get_bittiming_wp false)|].
  intros dat s2 [[D2 S2] [E'|(E' & B2 & t2 & T2 & R2)]]; rewrite E'.
  { change (nz (- EDOM)) with true. cbv iota. repeat wp_step. unfold programmed. cbn [drv trace].
    by rewrite stores_app, app_nil_r, D2, S2. }
  change (nz 0) with false. cbv iota. wp_step. apply wp_printf. intros s2' [D2' S2'].
  rewrite <- D2' in D2. rewrite <- S2' in S2. clear dependent s2. rename s2' into s2. wp_step.
  eapply wp_mono; [apply (hw_set_bittiming_wp true t1); [by rewrite D2, D1|done|done]|].
  intros bt1 s3 (Q1 & F1 & w & W1 & D3 & X1). wp_step.
  eapply wp_mono; [apply (hw_set_bittiming_wp false t2); [by rewrite D3, D2, D1|done|done]|].
  intros bt2 s4 (Q2 & F2 & wd & W2 & D4 & X2). wp_step.
  split; [by rewrite D4, D3, D2, D1|]. split; [by eapply timing_good|]. split; [by eapply timing_good|]. exists w, wd. split; [done|]. split; [done|].
  rewrite X2, X1, !stores_app, S2, S1, D3, D2, D1, <- app_assoc. done.
Qed.

(** C31: The start of the userspace tool (clock 100 MHz), for bit rates up to 16 Mbit/s
    except for those between 800 and 850 kbit/s: it either ends with -EDOM before any
    register is written, or writes one word to BTR and then one to
    BTR_FD; the fields of each word hold, without truncation, segments, SJW and a
    prescaler within the limits of the core that give the requested bit rate up to 5
    percent.  The data bit rate defaults to ten times the nominal one. *)
Theorem program_bitrates_spec rate drate s :
  le_hw (drv s) → rate_in rate → rate_in (if nz drate then drate else 10 * rate) →
  wp (program_bitrates rate drate) s (programmed rate drate s).
Proof. apply program_bitrates_wp. Qed.

End Program.

(** ** Concrete runs *)

(** 500 kbit/s and, by default, 5 Mbit/s. *)
Lemma program_bitrates_witness :
  wp (program_bitrates 500000 0) (sample_hw []) (λ r s', ∃ nom dat w wd,
    r = inr (nom, dat) ∧ good_timing true 500000 nom ∧ good_timing false 5000000 dat ∧
    btr_holds true w nom ∧ btr_holds false wd dat ∧
    stores (trace s') = [(0x43C30024, w); (0x43C30028, wd)]).
Proof.
  pose proof (program_bitrates_spec 500000 0 (sample_hw []) (sample_hw_le _) ltac:(left; lia) ltac:(right; simpl; lia)) as Hth.
  eapply wp_mono; [apply wp_and; [exact Hth|]|].
  - instantiate (1 := λ r _, match r with inl _ => False | inr _ => True end). by vm_compute.
  - clear Hth. intros [e|[nom dat]] s' [Hout Hr']; [destruct Hr'|].
    destruct Hout as (_ & H1 & H2 & w & wd & H3 & H4 & H5). exists nom, dat, w, wd.
    split; [reflexivity|]. split; [exact H1|]. split; [exact H2|]. split; [exact H3|]. split; [exact H4|].
    rewrite H5. reflexivity.
Defined.

(** Above 800 kbit/s the recommended sample point is 75 percent, which the
    limits of the data bit rate do not reach with many quanta: with a data bit rate of 801 kbit/s
    the calculation succeeds with all segments zero and the clock as the bit rate,
    and the tool programs these segments into BTR_FD. *)
Theorem unreachable_sample_point :
  wp (program_bitrates 500000 801000) (sample_hw []) (λ r s', ∃ nom dat w wd, r = inr (nom, dat) ∧
    stores (trace s') = [(0x43C30024, w); (0x43C30028, wd)] ∧ btr_holds false wd dat ∧
    bitrate dat = 100000000 ∧ prop_seg dat = 0 ∧ phase_seg1 dat = 0 ∧ phase_seg2 dat = 0).
Proof.
  eapply wp_mono.
  { instantiate (1 := λ r s', r = inr (_, _) ∧ stores (trace s') = [(_, _); (_, _)]). vm_compute. split; reflexivity. }
  intros r s' [-> ->]. do 4 eexists. split; [reflexivity|]. split; [reflexivity|]. by vm_compute.
Qed.
