(* ===== verification/Regtest.v ===== *)
(** * The register test of the userspace tools

    [userspace_utils.cpp] (mapping of the registers, narrow reads) and [regtest.cpp] (the test that the
    core is connected and honours byte enables).  Stores of 8 and 16 bits are calls of the world; output
    on the terminal is not modelled. *)

From Stdlib Require Import ZArith Lia.
From stdpp Require Import base numbers list strings.
From S2P Require Import Prelude Bitfield Regs LinuxDefs World Base Sim Hw.

#[local] Open Scope Z_scope.

Definition CANFD_ADDR_RANGE : Z := 4096.
Definition MAP_FAILED : Z := 2 ^ 64 - 1.

(** The global variables [mem_fd] of [userspace_utils.cpp] and [s_apb_prdata], [priv] and [error] of
    [regtest.cpp]. *)
Record rtool := mkrt {
  mem_fd : Z;
  rt_priv : ctucan_hw_priv;
  s_apb_prdata : Z;
  rt_error : Z;
}.

Definition set_mem_fd (fd : Z) (r : rtool) : rtool := mkrt fd (rt_priv r) (s_apb_prdata r) (rt_error r).
Definition set_rt_priv (p : ctucan_hw_priv) (r : rtool) : rtool := mkrt (mem_fd r) p (s_apb_prdata r) (rt_error r).
Definition set_prdata (v : Z) (r : rtool) : rtool := mkrt (mem_fd r) (rt_priv r) v (rt_error r).
Definition inc_error (r : rtool) : rtool := mkrt (mem_fd r) (rt_priv r) (s_apb_prdata r) (u32 (rt_error r + 1)).

Section Utils.
Context {W : Type} `{World W}.
Abbreviation MR := (M rtool W).

(** A function of the low-level layer, on [priv]. *)
Definition on_priv {A} (m : M ctucan_hw_priv W A) : MR A := λ s,
  let '(r, s') := m (mkst (rt_priv (drv s)) (world s) (trace s)) in
  (r, mkst (set_rt_priv (drv s') (drv s)) (world s') (trace s')).

(** [false]: the program ends with [err(1, ...)]. *)
Definition mem_open : MR bool :=
  fd ← gets mem_fd;
  if 0 <=? fd then mret true else
  fd ← call (user u_open_mem);
  modify (set_mem_fd fd);;
  mret (0 <=? fd).

(** [None]: the program ends with [err(1, ...)]. *)
Definition mem_map (mem_start mem_length : Z) : MR (option Z) :=
  pagesize ← call (user u_pagesize);
  let mask := u64 (pagesize - 1) in
  let mem_window_size := Z.land (u64 (Z.land mem_start mask + mem_length + pagesize - 1)) (u64 (Z.lnot mask)) in
  mm ← call (user (u_mmap mem_window_size (Z.land mem_start (u64 (Z.lnot mask)))));
  if mm =? MAP_FAILED then mret None else
  mret (Some (mm + Z.land mem_start mask)).

Definition ctucanfd_init (addr : Z) : MR (option ctucan_hw_priv) :=
  ok ← mem_open;
  if negb ok then mret None else
  base ← mem_map addr CANFD_ADDR_RANGE;
  match base with
  | None => mret None
  | Some base => mret (Some {| hw_mem_base := base; hw_read_reg := acc_le; hw_write_reg := acc_le |})
  end.

Definition ctu_can_fd_read8 (reg : Z) : M ctucan_hw_priv W Z :=
  v ← read_hw (Z.land reg (Z.lnot 3));
  shr32 v (8 * Z.land reg 3).

Definition ctu_can_fd_read16 (reg : Z) : M ctucan_hw_priv W Z :=
  v ← read_hw (Z.land reg (Z.lnot 1));
  shr32 v (8 * Z.land reg 1).

(** ** [regtest.cpp] *)

Definition CHECK (expected : Z) : MR unit :=
  v ← gets s_apb_prdata;
  when (negb (v =? expected)) (modify inc_error).

(** The width and the offset for a byte enable; the others fail an assertion. *)
Inductive access := U8 | U16 | U32.

Definition byte_enable (be : Z) : option (access * Z) :=
  match be with
  | 1 => Some (U8, 0) | 2 => Some (U8, 1) | 4 => Some (U8, 2) | 8 => Some (U8, 3)
  | 3 => Some (U16, 0) | 12 => Some (U16, 2)
  | 15 => Some (U32, 0)
  | _ => None
  end.

(** [false]: the assertion fails and the program aborts. *)
Definition apb_write (reg value be : Z) : MR bool :=
  match byte_enable be with
  | None => mret false
  | Some (acc, offset) =>
      base ← gets (λ r, hw_mem_base (rt_priv r));
      let addr := base + reg in
      (match acc with
       | U8 => call_ (user (u_iowrite8 (u8 value) (addr + offset)))
       | U16 => call_ (user (u_iowrite16 (u16 value) (addr + offset)))
       | U32 => iowrite32 value (addr + offset)
       end);;
      mret true
  end.

Definition apb_read (reg : Z) : MR unit :=
  base ← gets (λ r, hw_mem_base (rt_priv r));
  v ← ioread32 (base + reg);
  modify (set_prdata v).

Definition apb_test_pattern (reg data : Z) : MR bool :=
  ok ← apb_write reg data 15;
  if negb ok then mret false else
  apb_read reg;;
  v ← gets s_apb_prdata;
  when (negb (v =? data)) (modify inc_error);;
  mret true.

(** One step of the test: a write, a read with [CHECK], or a pattern. *)
Inductive test_step :=
  | TWrite (reg value be : Z)
  | TCheck (reg expected : Z)
  | TPattern (reg data : Z).

Definition run_test_step (t : test_step) : MR bool :=
  match t with
  | TWrite reg value be => apb_write reg value be
  | TCheck reg expected => apb_read reg;; CHECK expected;; mret true
  | TPattern reg data => apb_test_pattern reg data
  end.

Fixpoint run_test_steps (ts : list test_step) : MR bool :=
  match ts with
  | [] => mret true
  | t :: ts' => ok ← run_test_step t; if negb ok then mret false else run_test_steps ts'
  end.

(** The sequence of [main]. *)
Definition regtest_steps : list test_step :=
  [TCheck CTU_CAN_FD_DEVICE_ID 0x0204CAFD;
   TWrite CTU_CAN_FD_BTR 0xFFFFFFFF 15;
   TCheck CTU_CAN_FD_DEVICE_ID 0x0204CAFD;
   TCheck CTU_CAN_FD_BTR 0xFFFFFFFF;
   TWrite CTU_CAN_FD_BTR 0x00000000 3;
   TCheck CTU_CAN_FD_BTR 0xFFFF0000;
   TWrite CTU_CAN_FD_BTR 0xFFFFFFFF 15;
   TWrite CTU_CAN_FD_BTR 0x00000000 12;
   TCheck CTU_CAN_FD_BTR 0x0000FFFF;
   TPattern CTU_CAN_FD_BTR 0xAAAAAAAA;
   TPattern CTU_CAN_FD_BTR 0x55555555;
   TPattern CTU_CAN_FD_BTR 0x92492492;
   TPattern CTU_CAN_FD_BTR 0x49249249;
   TPattern CTU_CAN_FD_BTR 0x24924924;
   TWrite CTU_CAN_FD_BTR 0x87654321 15;
   TCheck CTU_CAN_FD_BTR 0x87654321;
   TWrite CTU_CAN_FD_BTR 0x000055aa 3;
   TCheck CTU_CAN_FD_BTR 0x876555aa].

(** [main] after the options: the exit status ([None]: aborted by the assertion). *)
Definition regtest_main (addr_base : Z) : MR (option Z) :=
  if (addr_base <? 0x40000000) || (0xBFFFFFFF <? addr_base) then mret (Some 1) else
  if nz (Z.land addr_base 0xFFF) then mret (Some 1) else
  p ← ctucanfd_init addr_base;
  match p with
  | None => mret (Some 1)
  | Some p =>
      modify (set_rt_priv p);;
      _ ← on_priv (read_hw CTU_CAN_FD_DEVICE_ID);
      ok ← run_test_steps regtest_steps;
      if negb ok then mret None else
      e ← gets rt_error;
      mret (Some (if nz e then 1 else 0))
  end.

End Utils.

(** ** The verdict *)

(** What is read, at which address, and what is expected. *)
Definition step_expects (t : test_step) : option (Z * Z) :=
  match t with
  | TWrite _ _ _ => None
  | TCheck reg e => Some (reg, e)
  | TPattern reg d => Some (reg, d)
  end.

Fixpoint mismatches (expected vs : list Z) : Z :=
  match expected, vs with
  | e :: es, v :: vs => (if v =? e then 0 else 1) + mismatches es vs
  | _, _ => 0
  end.

Lemma mismatches_range es vs : 0 <= mismatches es vs <= Z.of_nat (length es).
Proof.
  revert vs. induction es as [|e es IH]; intros [|v vs]; cbn [mismatches length]; try lia.
  specialize (IH vs). destruct (v =? e); lia.
Qed.

Lemma mismatches_zero es vs : length vs = length es → mismatches es vs = 0 ↔ vs = es.
Proof.
  revert vs. induction es as [|e es IH]; intros [|v vs] Hl; try done. injection Hl as Hl. cbn [mismatches].
  pose proof (mismatches_range es vs). destruct (Z.eqb_spec v e) as [->|Hne].
  - rewrite Z.add_0_l, IH by done. split; [by intros ->|by intros [= ->]].
  - split; [lia|]. by intros [= -> _].
Qed.

Definition valid_step (t : test_step) : bool :=
  match t with TWrite _ _ be => bool_decide (is_Some (byte_enable be)) | _ => true end.

(** The page size is a power of two. *)
Class PageOk (W : Type) `{World W} :=
  page_size : ∀ w r w', w_call (user u_pagesize) w = (r, w') → ∃ k, 12 <= k <= 30 ∧ r = 2 ^ k.

Section RegtestProofs.
Context {W : Type} `{World W} `{!PageOk W}.
Implicit Types (s : st rtool W).

(** From [s] to [s'] these loads happened and nothing but the read data and the errors changed. *)
Definition tested s s' (ls : list (Z * Z)) : Prop :=
  rt_priv (drv s') = rt_priv (drv s) ∧ ∃ tr, trace s' = trace s ++ tr ∧ loads tr = ls.

Lemma tested_refl s : tested s s [].
Proof. split; [done|]. exists []. by rewrite app_nil_r. Qed.

Lemma tested_trans s s1 s2 l1 l2 : tested s s1 l1 → tested s1 s2 l2 → tested s s2 (l1 ++ l2).
Proof.
  intros [H1 (t1 & E1 & L1)] [H2 (t2 & E2 & L2)]. split; [congruence|]. exists (t1 ++ t2).
  by rewrite E2, E1, app_assoc, loads_app, L1, L2.
Qed.

Lemma apb_write_wp reg value be s Q :
  is_Some (byte_enable be) → (∀ s', tested s s' [] → rt_error (drv s') = rt_error (drv s) → Q true s') →
  wp (apb_write reg value be) s Q.
Proof.
  intros [[acc off] Hb] HQ. unfold apb_write. rewrite Hb. wp_step. wp_step. cbv zeta.
  destruct acc; repeat wp_step; (apply HQ; [|done]); (split; [done|]); eexists; (split; [reflexivity|done]).
Qed.

Lemma apb_read_wp reg s Q :
  (∀ v s', tested s s' [(hw_mem_base (rt_priv (drv s)) + reg, v)] → s_apb_prdata (drv s') = v →
     rt_error (drv s') = rt_error (drv s) → Q tt s') →
  wp (apb_read reg) s Q.
Proof.
  intros HQ. unfold apb_read. repeat wp_step. eapply HQ; [|reflexivity|done]. split; [done|]. eexists. split; reflexivity.
Qed.

(** The comparison of [CHECK] and of a pattern. *)
Lemma compare_wp v e s Q :
  0 <= rt_error (drv s) < 2 ^ 32 - 1 →
  (∀ s', tested s s' [] → rt_error (drv s') = rt_error (drv s) + (if v =? e then 0 else 1) → Q tt s') →
  wp (when (negb (v =? e)) (modify inc_error)) s Q.
Proof.
  intros He HQ. unfold when. destruct (v =? e); cbn [negb]; wp_step; apply HQ; try lia; try apply tested_refl.
  - split; [done|]. exists []. by rewrite app_nil_r.
  - cbn. unfold u32. rewrite Z.mod_small; lia.
Qed.

Definition expects (ts : list test_step) : list (Z * Z) := omap step_expects ts.

Definition reads_of (base : Z) (es : list (Z * Z)) (vs : list Z) : list (Z * Z) :=
  zip ((λ p, base + fst p) <$> es) vs.

(** A step reads what it expects to find, and counts an error otherwise. *)
Lemma run_test_step_wp t s Q :
  valid_step t = true → 0 <= rt_error (drv s) < 2 ^ 32 - 1 →
  (∀ vs s', length vs = length (expects [t]) →
     tested s s' (reads_of (hw_mem_base (rt_priv (drv s))) (expects [t]) vs) →
     rt_error (drv s') = rt_error (drv s) + mismatches (snd <$> expects [t]) vs → Q true s') →
  wp (run_test_step t) s Q.
Proof.
  intros Hv He HQ. destruct t as [reg value be|reg e|reg d]; cbn [run_test_step valid_step] in *.
  - apply apb_write_wp; [by apply bool_decide_eq_true in Hv|]. intros s' Ht Er. apply (HQ []); [done|done|cbn; lia].
  - wp_step. apply apb_read_wp. intros v s1 Ht1 Ev Er1. unfold CHECK. do 3 wp_step. rewrite Ev. apply compare_wp; [lia|].
    intros s2 Ht2 Er2. wp_step. apply (HQ [v]); [done|exact (tested_trans _ _ _ _ _ Ht1 Ht2)|cbn [mismatches expects omap]; cbn -[Z.eqb]; lia].
  - unfold apb_test_pattern. wp_step. apply apb_write_wp; [done|]. intros s0 Ht0 Er0. cbn [negb].
    wp_step. apply apb_read_wp. intros v s1 Ht1 Ev Er1. do 3 wp_step. rewrite Ev. apply compare_wp; [lia|].
    intros s2 Ht2 Er2. wp_step. pose proof Ht0 as [Ep _]. rewrite Ep in Ht1. apply (HQ [v]); [done| |cbn -[Z.eqb]; lia].
    exact (tested_trans _ _ _ _ _ Ht0 (tested_trans _ _ _ _ _ Ht1 Ht2)).
Qed.

Lemma mismatches_app es1 es2 vs1 vs2 :
  length vs1 = length es1 → mismatches (es1 ++ es2) (vs1 ++ vs2) = mismatches es1 vs1 + mismatches es2 vs2.
Proof.
  revert vs1. induction es1 as [|e es1 IH]; intros [|v vs1] Hl; try done. injection Hl as Hl.
  cbn [app mismatches]. rewrite IH by done. lia.
Qed.

Lemma run_test_steps_wp ts s Q :
  forallb valid_step ts = true → 0 <= rt_error (drv s) → rt_error (drv s) + Z.of_nat (length ts) < 2 ^ 32 - 1 →
  (∀ vs s', length vs = length (expects ts) →
     tested s s' (reads_of (hw_mem_base (rt_priv (drv s))) (expects ts) vs) →
     rt_error (drv s') = rt_error (drv s) + mismatches (snd <$> expects ts) vs → Q true s') →
  wp (run_test_steps ts) s Q.
Proof.
  revert s. induction ts as [|t ts IH]; intros s Hv He0 He HQ; cbn [run_test_steps].
  { wp_step. apply (HQ []); [done|apply tested_refl|cbn; lia]. }
  apply andb_true_iff in Hv as [Hv1 Hv]. wp_step. apply run_test_step_wp; [done|cbn in He; lia|].
  intros v1 s1 L1 Ht1 Er1. cbn [negb].
  assert (Hm : mismatches (snd <$> expects [t]) v1 <= 1).
  { pose proof (mismatches_range (snd <$> expects [t]) v1). rewrite length_fmap in *. destruct t; cbn in *; lia. }
  pose proof (mismatches_range (snd <$> expects [t]) v1).
  apply IH; [done|lia|cbn in He; lia|]. intros v2 s2 L2 Ht2 Er2. pose proof Ht1 as [Ep _]. rewrite Ep in Ht2.
  assert (Hx : expects (t :: ts) = expects [t] ++ expects ts) by (unfold expects; by rewrite <- omap_app).
  apply (HQ (v1 ++ v2)); rewrite Hx; [by rewrite !length_app, L1, L2| |].
  - pose proof (tested_trans _ _ _ _ _ Ht1 Ht2) as Ht. unfold reads_of in *. rewrite fmap_app.
    by rewrite zip_with_app by (by rewrite length_fmap).
  - rewrite fmap_app, mismatches_app by (by rewrite length_fmap). lia.
Qed.

(** ** The mapping *)

Lemma page_mask k x : 0 <= k <= 30 → 0 <= x < 2 ^ 64 →
  Z.land x (u64 (2 ^ k - 1)) = x mod 2 ^ k ∧ Z.land x (u64 (Z.lnot (u64 (2 ^ k - 1)))) = 2 ^ k * (x / 2 ^ k).
Proof.
  intros Hk Hx. assert (Hp : 2 ^ k <= 2 ^ 30) by (apply Z.pow_le_mono_r; lia).
  assert (Hp0 : 0 < 2 ^ k) by (apply Z.pow_pos_nonneg; lia).
  assert (Em : u64 (2 ^ k - 1) = Z.ones k) by (unfold u64; rewrite Z.mod_small, Z.ones_equiv by lia; lia).
  rewrite Em. split; [by apply Z.land_ones; lia|].
  assert (Hu : Z.land x (u64 (Z.lnot (Z.ones k))) = Z.land x (Z.lnot (Z.ones k))).
  { unfold u64. rewrite <- (Z.land_ones _ 64) by lia. rewrite (Z.land_comm (Z.lnot _)), Z.land_assoc, (Z.land_ones x) by lia.
    by rewrite Z.mod_small by lia. }
  rewrite Hu, <- Z.ldiff_land, Z.ldiff_ones_r by lia.
  rewrite Z.shiftl_mul_pow2, Z.shiftr_div_pow2 by lia. lia.
Qed.

(** The [4096] bytes from [addr] on are mapped, and [base] is where they are. *)
Definition maps (tr : list event) (addr base : Z) : Prop :=
  ∃ len off mm, EvCall (user (u_mmap len off)) mm ∈ tr ∧
    off <= addr ∧ addr + CANFD_ADDR_RANGE <= off + len ∧ base = mm + (addr - off).

Lemma mem_map_wp addr s Q :
  0 <= addr < 2 ^ 32 →
  (∀ o s' tr, drv s' = drv s → trace s' = trace s ++ tr → loads tr = [] →
     (∀ base, o = Some base → maps tr addr base) → Q o s') →
  wp (mem_map addr CANFD_ADDR_RANGE) s Q.
Proof.
  intros Ha HQ. unfold mem_map, CANFD_ADDR_RANGE. wp_step. apply wp_call. intros r w' Hr.
  destruct (page_size _ _ _ Hr) as (k & Hk & ->). assert (Hp : 2 ^ k <= 2 ^ 30) by (apply Z.pow_le_mono_r; lia).
  assert (Hp0 : 0 < 2 ^ k) by (apply Z.pow_pos_nonneg; lia). cbv zeta.
  destruct (page_mask k addr) as [E1 E2]; [lia|lia|]. rewrite E1, E2. clear E1 E2.
  pose proof (Z.mod_pos_bound addr (2 ^ k) Hp0) as Hm. pose proof (Z.div_mod addr (2 ^ k) ltac:(lia)) as Hd.
  set (x := addr mod 2 ^ k + 4096 + 2 ^ k - 1). assert (Eu : u64 x = x) by (unfold u64, x; apply Z.mod_small; lia).
  destruct (page_mask k x) as [_ E3]; [lia|unfold x; lia|]. rewrite Eu, E3. clear E3 Eu.
  pose proof (Z.div_mod x (2 ^ k) ltac:(lia)) as Hdx. pose proof (Z.mod_pos_bound x (2 ^ k) Hp0) as Hmx.
  wp_step. apply wp_call_any. intros mm w2. cbn [drv trace]. rewrite <- app_assoc.
  destruct (Z.eqb_spec mm MAP_FAILED); wp_step.
  - eapply HQ; [done|reflexivity|done|done].
  - eapply HQ; [done|reflexivity|done|]. intros base [= <-]. eexists _, _, mm. split; [by right; left|].
    unfold CANFD_ADDR_RANGE. unfold x in *. lia.
Qed.

Lemma mem_open_wp s Q :
  (∀ ok s' tr, rt_priv (drv s') = rt_priv (drv s) → rt_error (drv s') = rt_error (drv s) →
     trace s' = trace s ++ tr → loads tr = [] → Q ok s') → wp mem_open s Q.
Proof.
  intros HQ. unfold mem_open. do 2 wp_step. apply wp_if; intros _.
  - wp_step. apply (HQ _ _ []); [done|done|by rewrite app_nil_r|done].
  - repeat wp_step. eapply HQ; [done|done|reflexivity|done].
Qed.

(** The test was run: what was read after the identifier, and the exit status. *)
Definition test_result (base : Z) (tr : list event) (r : option Z) : Prop :=
  ∃ id vs, length vs = length (expects regtest_steps) ∧
    loads tr = (base + CTU_CAN_FD_DEVICE_ID, id) :: reads_of base (expects regtest_steps) vs ∧
    r = Some (if bool_decide (vs = snd <$> expects regtest_steps) then 0 else 1).

Lemma run_regtest_wp p s Q :
  rt_error (drv s) = 0 → hw_read_reg p = acc_le →
  (∀ r s' tr, trace s' = trace s ++ tr → test_result (hw_mem_base p) tr r → Q r s') →
  wp (modify (set_rt_priv p);; _ ← on_priv (read_hw CTU_CAN_FD_DEVICE_ID); ok ← run_test_steps regtest_steps;
      if negb ok then mret None else e ← gets rt_error; mret (Some (if nz e then 1 else 0))) s Q.
Proof.
  intros He Hp HQ. do 3 wp_step. unfold wp at 1, on_priv. cbn [drv world trace rt_priv set_rt_priv].
  assert (Hr : wp (read_hw CTU_CAN_FD_DEVICE_ID) (mkst p (world s) (trace s))
    (λ v (s' : st ctucan_hw_priv W), drv s' = p ∧ trace s' = trace s ++ [EvLoad (hw_mem_base p + CTU_CAN_FD_DEVICE_ID) v])).
  { unfold read_hw, ctucan_hw_read32. do 2 wp_step. cbn [drv]. rewrite Hp. repeat wp_step. done. }
  apply wp_iff in Hr as (id & s1 & E & Hd & Ht). rewrite E. wp_step.
  apply run_test_steps_wp; [done|cbn; lia|cbn; lia|]. intros vs s2 Hl [_ (tr & Ht2 & Hls)] Er. cbn [negb].
  cbn [drv rt_priv set_rt_priv trace] in Ht2, Hls, Er. rewrite Hd in Hls.
  do 3 wp_step. eapply HQ; [by rewrite Ht2, Ht, <- app_assoc|]. exists id, vs. split; [done|]. split.
  { by rewrite loads_app, Hls. }
  change (rt_error (set_rt_priv _ _)) with (rt_error (drv s)) in Er. rewrite Er, He, Z.add_0_l.
  pose proof (mismatches_zero (snd <$> expects regtest_steps) vs) as Hz. rewrite length_fmap in Hz. specialize (Hz Hl).
  f_equal. unfold nz. case_bool_decide as Hb.
  - by rewrite (proj2 Hz Hb).
  - destruct (Z.eqb_spec (mismatches (snd <$> expects regtest_steps) vs) 0) as [E0|]; [|done]. by apply Hz in E0.
Qed.

(** The register test gives the right verdict, in every world with pages of a power of two: for an
    address that is aligned and in range, either the memory cannot be mapped (exit
    status 1 and no register was read), or the 4096 bytes at this address are within the mapped pages,
    the test reads the identifier and the bit timing register in the given sequence
    at their mapped addresses, and the exit status is 0 exactly if every value read was the expected
    one.  The assertion on byte enables never fails. *)
Theorem regtest_verdict addr s :
  0x40000000 <= addr <= 0xBFFFFFFF → Z.land addr 0xFFF = 0 → rt_error (drv s) = 0 →
  wp (regtest_main addr) s (λ r s', ∃ tr, trace s' = trace s ++ tr ∧
    (r = Some 1 ∧ loads tr = [] ∨ ∃ base, maps tr addr base ∧ test_result base tr r)).
Proof.
  intros Ha Hal He. unfold regtest_main.
  replace ((addr <? 0x40000000) || (0xBFFFFFFF <? addr)) with false by lia. rewrite Hal. cbn [nz Z.eqb negb].
  unfold ctucanfd_init. do 2 wp_step. apply mem_open_wp. intros ok s1 t1 Hp1 He1 E1 L1. destruct ok; cbn [negb].
  2: { do 2 wp_step. exists t1. split; [done|]. by left. }
  wp_step. apply mem_map_wp; [lia|]. intros o s2 t2 Hd2 E2 L2 Hm. destruct o as [base|].
  2: { do 2 wp_step. exists (t1 ++ t2). split; [by rewrite E2, E1, app_assoc|]. left. by rewrite loads_app, L1, L2. }
  wp_step. apply run_regtest_wp; [congruence|done|]. cbn [hw_mem_base]. intros r s3 t3 E3 (id & vs & Hl & Hls & Hr).
  exists (t1 ++ t2 ++ t3). split; [by rewrite E3, E2, E1, !app_assoc|]. right. exists base. split.
  - destruct (Hm base eq_refl) as (len & off & mm & Hin & Hrest). exists len, off, mm. split; [|done].
    rewrite !elem_of_app. auto.
  - exists id, vs. split; [done|]. split; [|done]. by rewrite !loads_app, L1, L2, Hls.
Qed.

End RegtestProofs.

(** ** Concrete runs *)

(** A core at 0x7f000000 whose bit timing register has byte enables, or ignores them. *)
Record apb := mkapb { apb_btr : Z; apb_enables : bool }.

Definition apb_store16 (w : apb) (v a : Z) : apb :=
  if negb (apb_enables w) then mkapb v (apb_enables w)
  else if a =? 0x7f000000 + CTU_CAN_FD_BTR
  then mkapb (Z.lor (Z.land (apb_btr w) 0xFFFF0000) v) true
  else mkapb (Z.lor (Z.land (apb_btr w) 0xFFFF) (Z.shiftl v 16)) true.

#[export] Instance apb_world : World apb := {
  w_load32 a w := (if a =? 0x7f000000 then 0x0204CAFD else apb_btr w, w);
  w_store32 _ v w := mkapb v (apb_enables w);
  w_call c w :=
    match c with
    | user u_open_mem => (3, w)
    | user u_pagesize => (4096, w)
    | user (u_mmap _ _) => (0x7f000000, w)
    | user (u_iowrite16 v a) => (0, apb_store16 w v a)
    | _ => (0, w)
    end;
  w_alloc _ w := (None, w);
}.

#[export] Instance apb_page_ok : PageOk apb.
Proof. intros w r w' [= <- _]. by exists 12. Qed.

Definition apb_st (enables : bool) : st rtool apb :=
  mkst (mkrt (-1) {| hw_mem_base := 0; hw_read_reg := acc_le; hw_write_reg := acc_le |} 0 0) (mkapb 0 enables) [].

(** A core with byte enables passes, one without them does not. *)
Lemma regtest_verdict_witness :
  wp (regtest_main 0x43C30000) (apb_st true) (λ r s', r = Some 0 ∧ ∃ base, maps (trace s') 0x43C30000 base) ∧
  wp (regtest_main 0x43C30000) (apb_st false) (λ r _, r = Some 1).
Proof.
  split.
  - eapply wp_mono; [apply wp_and; [exact (regtest_verdict 0x43C30000 (apb_st true) ltac:(lia) eq_refl eq_refl)|]|].
    + instantiate (1 := λ r _, r = Some 0). vm_compute. reflexivity.
    + intros r s' [(tr & Ht & [[Hr _]|(base & Hm & _)]) H0]; [congruence|].
      split; [exact H0|]. exists base. rewrite Ht. exact Hm.
  - vm_compute. reflexivity.
Defined.

(** ** Narrow reads

    [ctu_can_fd_read8] reads the aligned word that holds the byte; [ctu_can_fd_read16] keeps bit 1
    of the address, so that the registers in the upper half of a word are read with a misaligned load. *)

Lemma read8_aligned reg : 0 <= reg → Z.land reg (Z.lnot 3) = 4 * (reg / 4) ∧ 0 <= 8 * Z.land reg 3 < 32.
Proof.
  intros Hr. rewrite <- Z.ldiff_land. change 3 with (Z.ones 2). rewrite Z.ldiff_ones_r, Z.land_ones by lia.
  rewrite Z.shiftl_mul_pow2, Z.shiftr_div_pow2 by lia. change (2 ^ 2) with 4.
  pose proof (Z.mod_pos_bound reg 4 ltac:(lia)). lia.
Qed.

(** The low byte of the result is the byte of the register. *)
Lemma ctu_can_fd_read8_spec {W} `{World W} reg (s : st ctucan_hw_priv W) :
  0 <= reg → hw_read_reg (drv s) = acc_le →
  wp (ctu_can_fd_read8 reg) s (λ r s', ∃ v, trace s' = trace s ++ [EvLoad (hw_mem_base (drv s) + 4 * (reg / 4)) v] ∧
    r mod 256 = (v / 2 ^ (8 * (reg mod 4))) mod 256).
Proof.
  intros Hr Hle. destruct (read8_aligned reg Hr) as [E1 E2]. unfold ctu_can_fd_read8, read_hw, ctucan_hw_read32.
  do 3 wp_step. rewrite Hle. repeat wp_step. rewrite E1. apply wp_shr32; [exact E2|]. eexists. split; [reflexivity|].
  rewrite Z.shiftr_div_pow2 by lia. change 3 with (Z.ones 2). by rewrite Z.land_ones by lia.
Qed.

Lemma read16_misaligned {W} `{World W} (s : st ctucan_hw_priv W) :
  hw_read_reg (drv s) = acc_le →
  wp (ctu_can_fd_read16 CTU_CAN_FD_SETTINGS) s (λ _ s', ∃ v, trace s' = trace s ++ [EvLoad (hw_mem_base (drv s) + 6) v]).
Proof.
  intros Hle. unfold ctu_can_fd_read16, read_hw, ctucan_hw_read32. do 3 wp_step. rewrite Hle. repeat wp_step.
  apply wp_shr32; [done|]. by eexists.
Qed.
