(* ===== verification/Cli.v ===== *)
(** * Command lines and numbers

    What the userspace tools of [src/driver/] use of the C library: [getopt] on the arguments, [strtoul]
    with base 0, [fgets] and [fscanf] with [%lli]. *)

From Stdlib Require Import ZArith Lia Ascii.
From stdpp Require Import base numbers list strings pretty.
From S2P Require Import Prelude.

#[local] Open Scope string_scope.
#[local] Open Scope list_scope.
#[local] Open Scope Z_scope.

(** ** Numbers *)

Definition code (c : ascii) : Z := Z.of_nat (nat_of_ascii c).

(** [isspace] *)
Definition is_space (c : ascii) : bool := (code c =? 32) || ((9 <=? code c) && (code c <=? 13)).

Definition digit_value (c : ascii) : option Z :=
  let n := code c in
  if (48 <=? n) && (n <=? 57) then Some (n - 48)
  else if (65 <=? n) && (n <=? 90) then Some (n - 55)
  else if (97 <=? n) && (n <=? 122) then Some (n - 87)
  else None.

Definition digit_in (b : Z) (c : ascii) : option Z :=
  d ← digit_value c; if d <? b then Some d else None.

(** The digits in base [b] at the front, and what follows them. *)
Fixpoint read_base (b acc : Z) (s : string) : Z * string :=
  match s with
  | "" => (acc, "")
  | String c s' =>
      match digit_in b c with
      | Some d => read_base b (acc * b + d) s'
      | None => (acc, s)
      end
  end.

Definition starts_digit (b : Z) (s : string) : bool :=
  match s with String c _ => bool_decide (is_Some (digit_in b c)) | "" => false end.

Fixpoint skip_space (s : string) : string :=
  match s with String c s' => if is_space c then skip_space s' else s | "" => "" end.

Definition read_sign (s : string) : bool * string :=
  match s with
  | String "-" s' => (true, s')
  | String "+" s' => (false, s')
  | _ => (false, s)
  end.

(** The prefix [0x] of a number, if a digit follows. *)
Definition hex_prefix (s : string) : option string :=
  match s with
  | String "0" (String ("x" | "X") s') => if starts_digit 16 s' then Some s' else None
  | _ => None
  end.

(** A number in base 0 after its sign: the value and what follows. *)
Definition read_magnitude (s : string) : option (Z * string) :=
  match hex_prefix s with
  | Some s' => Some (read_base 16 0 s')
  | None =>
      match s with
      | String "0" _ => Some (read_base 8 0 s)
      | _ => if starts_digit 10 s then Some (read_base 10 0 s) else None
      end
  end.

(** [strtoul(s, &e, 0)] with 64-bit [unsigned long]: the value and the string at [e]. *)
Definition strtoul (s : string) : Z * string :=
  let '(neg, s') := read_sign (skip_space s) in
  match read_magnitude s' with
  | None => (0, s)
  | Some (v, e) => ((if 2 ^ 64 <=? v then 2 ^ 64 - 1 else if (neg : bool) then u64 (- v) else v), e)
  end.

(** [fscanf(f, "%lli", &x)] with an [unsigned long long] [x]; [None]: nothing is stored. *)
Definition scan_lli (s : string) : option Z :=
  let '(neg, s') := read_sign (skip_space s) in
  match s' with
  | String "0" (String ("x" | "X") s2) => if starts_digit 16 s2 then read_magnitude s' else None
  | _ => read_magnitude s'
  end ≫= λ r,
  Some (u64 (if (neg : bool) then Z.max (- fst r) (- 2 ^ 63) else Z.min (fst r) (2 ^ 63 - 1))).

(** What [fgets] with a buffer of [size] leaves of a file. *)
Fixpoint drop_line (n : nat) (s : string) : string :=
  match n, s with
  | O, _ => s
  | _, "" => ""
  | S n', String c s' => if Ascii.eqb c "010" then s' else drop_line n' s'
  end.

Definition fgets (size : Z) (s : string) : string := drop_line (Z.to_nat (size - 1)) s.

(** ** Options *)

(** Whether [c] is an option of [optstring], and then whether it has an argument. *)
Fixpoint opt_lookup (optstring : string) (c : ascii) : option bool :=
  match optstring with
  | "" => None
  | String o rest =>
      if Ascii.eqb o c && negb (Ascii.eqb c ":")
      then Some (match rest with String ":" _ => true | _ => false end)
      else opt_lookup rest c
  end.

(** The options of one argument [-xyz]: the results of [getopt], and the option that waits for
    the next argument. *)
Fixpoint getopt_cluster (optstring cs : string) : list (ascii * string) * option ascii :=
  match cs with
  | "" => ([], None)
  | String c cs' =>
      match opt_lookup optstring c with
      | None => let '(l, p) := getopt_cluster optstring cs' in (("?"%char, "") :: l, p)
      | Some false => let '(l, p) := getopt_cluster optstring cs' in ((c, "") :: l, p)
      | Some true =>
          match cs' with
          | "" => ([], Some c)
          | _ => ([(c, cs')], None)
          end
      end
  end.

(** What the calls of [getopt] return until -1, each with [optarg]: arguments that are no options
    are skipped, [--] ends the options. *)
Fixpoint getopt (optstring : string) (pending : option ascii) (args : list string) : list (ascii * string) :=
  match args with
  | [] => match pending with Some _ => [("?"%char, "")] | None => [] end
  | a :: args' =>
      match pending with
      | Some c => (c, a) :: getopt optstring None args'
      | None =>
          match a with
          | String "-" (String _ _ as cs) =>
              if String.eqb cs "-" then []
              else let '(l, p) := getopt_cluster optstring cs in l ++ getopt optstring p args'
          | _ => getopt optstring None args'
          end
      end
  end.

(** ** Properties *)

Lemma digit_pretty x : (x < 10)%N → digit_in 10 (pretty_N_char x) = Some (Z.of_N x).
Proof.
  intros Hx. assert (x = 0 ∨ x = 1 ∨ x = 2 ∨ x = 3 ∨ x = 4 ∨ x = 5 ∨ x = 6 ∨ x = 7 ∨ x = 8 ∨ x = 9)%N as Hc by lia.
  by repeat destruct Hc as [->|Hc]; [..|subst].
Qed.

Lemma read_base_pretty x acc s :
  ∃ k, read_base 10 acc (pretty_N_go x s) = read_base 10 (acc * k + Z.of_N x) s.
Proof.
  revert acc s. induction (N.lt_wf_0 x) as [x _ IH]; intros acc s.
  destruct (decide (x = 0)%N) as [->|Hx]; [exists 1; rewrite pretty_N_go_0; f_equal; lia|].
  rewrite pretty_N_go_step by lia. destruct (IH (x / 10)%N ltac:(apply N.div_lt; lia) acc (String (pretty_N_char (x mod 10)) s)) as [k E].
  exists (k * 10). rewrite E. cbn [read_base]. rewrite digit_pretty by (apply N.mod_lt; lia). f_equal.
  pose proof (N.div_mod x 10). lia.
Qed.

(** A positive number starts with a digit that is not 0. *)
Lemma pretty_N_go_head x s :
  (0 < x)%N → ∃ y s', (0 < y < 10)%N ∧ pretty_N_go x s = String (pretty_N_char y) s'.
Proof.
  revert s. induction (N.lt_wf_0 x) as [x _ IH]; intros s Hx. rewrite pretty_N_go_step by lia.
  destruct (decide (x / 10 = 0)%N) as [E|E].
  - rewrite E, pretty_N_go_0. eexists _, s. split; [|done].
    pose proof (N.div_mod x 10 ltac:(lia)). pose proof (N.mod_lt x 10 ltac:(lia)). lia.
  - apply IH; [by apply N.div_lt|by apply N.neq_0_lt_0].
Qed.

(** The decimal form of a number is read back, to its end. *)
Lemma strtoul_pretty n : 0 <= n < 2 ^ 64 → strtoul (pretty n) = (n, "").
Proof.
  intros Hn. destruct n as [|p|p]; [done| |lia].
  change (pretty (Z.pos p)) with (pretty (N.pos p)). unfold pretty, pretty_N. rewrite decide_False by done.
  destruct (pretty_N_go_head (N.pos p) "" ltac:(lia)) as (y & s & Hy & E).
  assert (Hs : skip_space (pretty_N_go (N.pos p) "") = pretty_N_go (N.pos p) "" ∧
    read_sign (pretty_N_go (N.pos p) "") = (false, pretty_N_go (N.pos p) "") ∧
    read_magnitude (pretty_N_go (N.pos p) "") = Some (read_base 10 0 (pretty_N_go (N.pos p) ""))).
  { rewrite E. clear E.
    assert (y = 1 ∨ y = 2 ∨ y = 3 ∨ y = 4 ∨ y = 5 ∨ y = 6 ∨ y = 7 ∨ y = 8 ∨ y = 9)%N as Hc by lia.
    by repeat destruct Hc as [->|Hc]; [..|subst]. }
  destruct Hs as (H1 & H2 & H3). unfold strtoul. rewrite H1, H2, H3.
  destruct (read_base_pretty (N.pos p) 0 "") as [k ->]. cbn [read_base].
  replace (0 * k + Z.of_N (N.pos p)) with (Z.pos p) by lia.
  by replace (2 ^ 64 <=? Z.pos p) with false by lia.
Qed.

(** A command line that gives each option by itself. *)
Definition option_args (optstring : string) (o : ascii * string) : list string :=
  match opt_lookup optstring (fst o) with
  | Some true => [String "-" (String (fst o) ""); snd o]
  | _ => [String "-" (String (fst o) "")]
  end.

(** The option exists and has an argument exactly if it takes one; [--] is no option. *)
Definition option_ok (optstring : string) (o : ascii * string) : Prop :=
  fst o ≠ "-"%char ∧
  match opt_lookup optstring (fst o) with
  | None => False
  | Some true => True
  | Some false => snd o = ""
  end.

(** [getopt] returns the options of such a command line, in order. *)
Lemma getopt_option_args optstring os :
  Forall (option_ok optstring) os → getopt optstring None (concat (option_args optstring <$> os)) = os.
Proof.
  induction 1 as [|[c arg] os [Hd Ho] _ IH]; [done|]. csimpl. unfold option_args at 1. cbn [fst snd] in *.
  assert (Hc : String.eqb (String c "") "-" = false) by (apply String.eqb_neq; congruence).
  destruct (opt_lookup optstring c) as [[]|] eqn:E; [| |done].
  - cbn [app getopt]. rewrite Hc. cbn [getopt_cluster]. rewrite E. cbn [app getopt]. by rewrite IH.
  - subst arg. cbn [app getopt]. rewrite Hc. cbn [getopt_cluster]. rewrite E. cbn [app]. by rewrite IH.
Qed.

(** Clusters, attached arguments, a sign, octal and hexadecimal numbers. *)
Example getopt_cluster_run :
  getopt "i:a:lt" None ["-lti1"; "x"; "-a"; "0x43C30000"; "-z"; "--"; "-l"] =
    [("l"%char, ""); ("t"%char, ""); ("i"%char, "1"); ("a"%char, "0x43C30000"); ("?"%char, "")].
Proof. reflexivity. Qed.

Example strtoul_runs :
  strtoul "0x43C30000" = (0x43C30000, "") ∧ strtoul "010" = (8, "") ∧ strtoul " -1z" = (2 ^ 64 - 1, "z") ∧
  strtoul "0xg" = (0, "xg") ∧ strtoul "x" = (0, "x") ∧ strtoul "" = (0, "").
Proof. by vm_compute. Qed.
