(* ===== verification/PciFind.v ===== *)
(** * The search for a PCI device

    [pci_find_dev] and [timespec_sub] of [ctucanfd_userspace.cpp]: a search through the directories
    below [/sys/devices] with a stack of open directories, against the list of all matching
    devices in pre-order.  [malloc] succeeds. *)

From Stdlib Require Import ZArith Lia.
From stdpp Require Import base numbers list strings.
From S2P Require Import Prelude.

#[local] Open Scope string_scope.
#[local] Open Scope list_scope.
#[local] Open Scope Z_scope.

(** An entry of a directory: its name, whether it is a directory, whether it can be opened, what
    [fscanf] finds in its files [vendor] and [device] ([None]: no such file; [-1] as an
    unsigned number if there is no number), and its entries in the order of [readdir]. *)
#[local] Unset Elimination Schemes.
Inductive dir_tree :=
  DirT (d_name : string) (d_is_dir d_opens : bool) (d_vendor d_device : option Z) (d_entries : list dir_tree).
#[local] Set Elimination Schemes.

Definition d_name (t : dir_tree) : string := let 'DirT n _ _ _ _ _ := t in n.
Definition d_is_dir (t : dir_tree) : bool := let 'DirT _ b _ _ _ _ := t in b.
Definition d_opens (t : dir_tree) : bool := let 'DirT _ _ b _ _ _ := t in b.
Definition d_vendor (t : dir_tree) : option Z := let 'DirT _ _ _ v _ _ := t in v.
Definition d_device (t : dir_tree) : option Z := let 'DirT _ _ _ _ v _ := t in v.
Definition d_entries (t : dir_tree) : list dir_tree := let 'DirT _ _ _ _ _ l := t in l.

(** [find_dir_chain_t]: the name and the entries that [readdir] has not returned yet. *)
Definition find_dir_chain : Type := string * list dir_tree.

(** [err(1, ...)], or the result with [*dev_dir]. *)
Inductive found :=
  | Died
  | Result (clean_rest : bool) (dev_dir : option string).

(** The inner loop: the next entry; directories that are read to their end (or all of them) are closed. *)
Fixpoint next_entry (clean_rest : bool) (stack : list find_dir_chain) (level : Z)
    : option (dir_tree * list find_dir_chain * Z) :=
  match stack with
  | [] => None
  | (name, []) :: stack' => next_entry clean_rest stack' (level - 1)
  | (name, e :: es) :: stack' =>
      if clean_rest then next_entry clean_rest stack' (level - 1)
      else Some (e, (name, es) :: stack', level)
  end.

(** The entries that are searched. *)
Definition enters (level : Z) (e : dir_tree) : bool :=
  d_is_dir e && negb (String.eqb (d_name e) "." || String.eqb (d_name e) "..") &&
  negb ((level <=? 1) && negb (String.prefix "pci" (d_name e))).

Definition sub_path (dir_name entry_name : string) : string := dir_name +:+ "/" +:+ entry_name.

(** The identifiers of an opened directory agree. *)
Definition ids_match (vid pid : Z) (e : dir_tree) : bool :=
  match d_vendor e, d_device e with
  | Some v, Some d => (v =? vid) && (d =? pid)
  | _, _ => false
  end.

(** The outer loop; [None]: out of fuel. *)
Fixpoint find_loop (fuel : nat) (vid pid : Z) (stack : list find_dir_chain) (level inst : Z)
    (clean_rest : bool) (dev_dir : option string) : option found :=
  match fuel with
  | O => None
  | S fuel' =>
      match next_entry clean_rest stack level with
      | None => Some (Result clean_rest dev_dir)
      | Some (e, stack, level) =>
          if negb (enters level e) then find_loop fuel' vid pid stack level inst clean_rest dev_dir else
          if negb (d_opens e) then Some Died else
          let dir_name := sub_path (from_option fst "" (head stack)) (d_name e) in
          let stack := (dir_name, d_entries e) :: stack in
          let level := level + 1 in
          if level <=? 2 then find_loop fuel' vid pid stack level inst clean_rest dev_dir else
          if negb (ids_match vid pid e) then find_loop fuel' vid pid stack level inst clean_rest dev_dir else
          if 0 <? inst then find_loop fuel' vid pid stack level (inst - 1) clean_rest dev_dir else
          find_loop fuel' vid pid stack level (inst - 1) true (Some dir_name)
      end
  end.

(** The number of entries below a directory. *)
Fixpoint tree_size (t : dir_tree) : nat :=
  let 'DirT _ _ _ _ _ es := t in
  (fix go (es : list dir_tree) : nat := match es with [] => O | e :: es' => (S (tree_size e) + go es')%nat end) es.

(** [root] is the directory [dir_name]. *)
Definition pci_find_dev (dir_name : string) (root : dir_tree) (vid pid inst : Z) : option found :=
  if negb (d_opens root) then Some Died
  else find_loop (2 + tree_size root) vid pid [(dir_name, d_entries root)] 1 inst false None.

(** ** The reference: all matches in pre-order *)

Fixpoint matches (vid pid level : Z) (path : string) (t : dir_tree) : list string :=
  (if (3 <=? level) && ids_match vid pid t then [path] else []) ++
  (let 'DirT _ _ _ _ _ es := t in
   (fix go (es : list dir_tree) : list string :=
      match es with
      | [] => []
      | e :: es' =>
          (if enters level e then matches vid pid (level + 1) (sub_path path (d_name e)) e else []) ++ go es'
      end) es).

(** Every directory can be opened. *)
Fixpoint all_open (t : dir_tree) : bool :=
  d_opens t &&
  (let 'DirT _ _ _ _ _ es := t in
   (fix go (es : list dir_tree) : bool :=
      match es with [] => true | e :: es' => (negb (d_is_dir e) || all_open e) && go es' end) es).

(** The same on the entries of a directory. *)
Fixpoint forest (vid pid level : Z) (path : string) (es : list dir_tree) : list string :=
  match es with
  | [] => []
  | e :: es' =>
      (if enters level e then matches vid pid (level + 1) (sub_path path (d_name e)) e else []) ++
      forest vid pid level path es'
  end.

Fixpoint forest_size (es : list dir_tree) : nat :=
  match es with [] => O | e :: es' => (S (tree_size e) + forest_size es')%nat end.

Fixpoint forest_open (es : list dir_tree) : bool :=
  match es with [] => true | e :: es' => (negb (d_is_dir e) || all_open e) && forest_open es' end.

Lemma matches_forest vid pid level path t :
  matches vid pid level path t =
    (if (3 <=? level) && ids_match vid pid t then [path] else []) ++ forest vid pid level path (d_entries t).
Proof.
  destruct t as [? ? ? ? ? es]. cbn [matches d_entries]. f_equal. induction es as [|e es IH]; [done|].
  cbn [forest]. by rewrite <- IH.
Qed.

Lemma tree_size_forest t : tree_size t = forest_size (d_entries t).
Proof. destruct t as [? ? ? ? ? es]. reflexivity. Qed.

Lemma all_open_forest t : all_open t = d_opens t && forest_open (d_entries t).
Proof. destruct t as [? ? ? ? ? es]. reflexivity. Qed.

(** ** The stack *)

Fixpoint stack_matches (vid pid level : Z) (stack : list find_dir_chain) : list string :=
  match stack with
  | [] => []
  | (path, es) :: stack' => forest vid pid level path es ++ stack_matches vid pid (level - 1) stack'
  end.

Fixpoint stack_size (stack : list find_dir_chain) : nat :=
  match stack with [] => O | (_, es) :: stack' => (forest_size es + stack_size stack')%nat end.

Fixpoint stack_open (stack : list find_dir_chain) : bool :=
  match stack with [] => true | (_, es) :: stack' => forest_open es && stack_open stack' end.

Lemma next_entry_clean stack level : next_entry true stack level = None.
Proof. revert level. induction stack as [|[name [|e es]] stack IH]; intros level; cbn; auto. Qed.

(** The next entry is the first one left on the stack. *)
Lemma next_entry_spec vid pid stack level :
  match next_entry false stack level with
  | None => stack_matches vid pid level stack = []
  | Some (e, stack', level') =>
      ∃ path es rest, stack' = (path, es) :: rest ∧
        stack_matches vid pid level stack = stack_matches vid pid level' ((path, e :: es) :: rest) ∧
        stack_size stack = stack_size ((path, e :: es) :: rest) ∧
        stack_open stack = stack_open ((path, e :: es) :: rest)
  end.
Proof.
  revert level. induction stack as [|[name [|e es]] stack IH]; intros level; cbn [next_entry]; [done| |by eexists _, _, _].
  specialize (IH (level - 1)). destruct (next_entry false stack (level - 1)) as [[[e stack'] level']|]; [|done].
  destruct IH as (path & es & rest & E1 & E2 & E3 & E4). exists path, es, rest.
  split; [exact E1|]. cbn [stack_matches stack_size stack_open forest forest_size forest_open app Nat.add andb] in *.
  by split_and!.
Qed.

Definition nth_match (ms : list string) (inst : Z) : found :=
  match ms !! Z.to_nat inst with
  | Some path => Result true (Some path)
  | None => Result false None
  end.

Lemma nth_match_skip p ms inst : 0 < inst → nth_match (p :: ms) inst = nth_match ms (inst - 1).
Proof. intros Hi. unfold nth_match. by replace (Z.to_nat inst) with (S (Z.to_nat (inst - 1))) by lia. Qed.

Lemma nth_match_first p ms inst : inst <= 0 → nth_match (p :: ms) inst = Result true (Some p).
Proof. intros Hi. unfold nth_match. by replace (Z.to_nat inst) with 0%nat by lia. Qed.

Lemma find_loop_nth fuel vid pid stack level inst :
  (S (stack_size stack) < fuel)%nat → stack_open stack = true →
  find_loop fuel vid pid stack level inst false None = Some (nth_match (stack_matches vid pid level stack) inst).
Proof.
  revert stack level inst. induction fuel as [|fuel IH]; intros stack level inst Hf Ho; [lia|]. cbn [find_loop].
  pose proof (next_entry_spec vid pid stack level) as Hn.
  destruct (next_entry false stack level) as [[[e stack'] level']|]; [|by rewrite Hn].
  destruct Hn as (path & es & rest & -> & -> & Hs & Hop). rewrite Hop in Ho. rewrite Hs in Hf. clear Hs Hop.
  cbn [stack_open forest_open stack_size forest_size] in *. apply andb_true_iff in Ho as [[He Hes]%andb_true_iff Hrest].
  rewrite tree_size_forest in Hf. cbn [stack_matches forest]. destruct (enters level' e) eqn:En; cbn [negb].
  2: { rewrite IH; [done|cbn; lia|cbn; by rewrite Hes]. }
  assert (Hd : d_is_dir e = true) by (unfold enters in En; by destruct (d_is_dir e)).
  rewrite Hd in He. cbn [negb orb] in He. rewrite all_open_forest in He. apply andb_true_iff in He as [-> Hfo]. cbn [negb].
  rewrite matches_forest. cbn [head from_option fst]. set (dir := sub_path path (d_name e)).
  assert (Hgo : ∀ i, find_loop fuel vid pid ((dir, d_entries e) :: (path, es) :: rest) (level' + 1) i false None =
    Some (nth_match (forest vid pid (level' + 1) dir (d_entries e) ++ forest vid pid level' path es ++ stack_matches vid pid (level' - 1) rest) i)).
  { intros i. rewrite IH; [|cbn; lia|cbn; by rewrite Hfo, Hes]. cbn [stack_matches].
    by replace (level' + 1 - 1) with level' by lia. }
  destruct (Z.leb_spec (level' + 1) 2).
  { replace (3 <=? level' + 1) with false by lia. by rewrite Hgo, <- !app_assoc. }
  replace (3 <=? level' + 1) with true by lia. destruct (ids_match vid pid e); cbn [negb andb app]; [|by rewrite Hgo, <- !app_assoc].
  destruct (Z.ltb_spec 0 inst).
  { by rewrite Hgo, nth_match_skip, <- !app_assoc. }
  destruct fuel as [|fuel]; [lia|]. cbn [find_loop]. by rewrite next_entry_clean, nth_match_first by lia.
Qed.

(** C37: The stack machine of [pci_find_dev] finds the right device: if every directory can be
    opened, it terminates and returns the path of device number [inst] (from 0) in the list of all
    matching devices in pre-order, or 0 and no path if there are not so many.  Only directories
    below an entry [pci*] of the root and at least two levels down are considered. *)
Theorem pci_find_dev_spec dir_name root vid pid inst :
  all_open root = true →
  pci_find_dev dir_name root vid pid inst = Some (nth_match (matches vid pid 1 dir_name root) inst).
Proof.
  intros Ho. rewrite all_open_forest in Ho. apply andb_true_iff in Ho as [Hr Ho]. unfold pci_find_dev. rewrite Hr. cbn [negb].
  rewrite find_loop_nth; [|cbn; rewrite tree_size_forest; lia|cbn; by rewrite Ho].
  rewrite matches_forest. cbn. by rewrite app_nil_r.
Qed.

(** ** Concrete runs *)

Definition leaf (name : string) (v d : Z) : dir_tree := DirT name true true (Some v) (Some d) [].

(** Two matching boards, one of them behind a bridge. *)
Definition sys_devices : dir_tree :=
  DirT "devices" true true None None
    [DirT "." true true None None []; DirT "platform" true true None None [leaf "x" 0x1760 0xff00];
     DirT "pci0000:00" true true None None
       [DirT "uevent" false true None None [];
        DirT "0000:00:1c.4" true true (Some 0x8086) (Some 1) [leaf "0000:05:00.0" 0x1760 0xff00];
        leaf "0000:00:1d.0" 0x1760 0xff00]].

Lemma pci_find_dev_witness :
  pci_find_dev "/sys/devices" sys_devices 0x1760 0xff00 0 =
    Some (Result true (Some "/sys/devices/pci0000:00/0000:00:1c.4/0000:05:00.0")) ∧
  pci_find_dev "/sys/devices" sys_devices 0x1760 0xff00 1 = Some (Result true (Some "/sys/devices/pci0000:00/0000:00:1d.0")) ∧
  pci_find_dev "/sys/devices" sys_devices 0x1760 0xff00 2 = Some (Result false None).
Proof.
  split; [|split]; (etransitivity; [exact (pci_find_dev_spec "/sys/devices" sys_devices 0x1760 0xff00 _ eq_refl)|vm_compute; reflexivity]).
Defined.

(** ** Time differences *)

Record timespec := mkts { tv_sec : Z; tv_nsec : Z }.

Definition timespec_sub (left right : timespec) : timespec :=
  let sec := tv_sec left - tv_sec right in
  let nsec := tv_nsec left - tv_nsec right in
  if nsec <? 0 then mkts (sec - 1) (nsec + 1000000000) else mkts sec nsec.

Definition nanoseconds (t : timespec) : Z := 1000000000 * tv_sec t + tv_nsec t.
Definition normal (t : timespec) : Prop := 0 <= tv_nsec t < 1000000000.

Lemma timespec_sub_spec l r : normal l → normal r →
  normal (timespec_sub l r) ∧ nanoseconds (timespec_sub l r) = nanoseconds l - nanoseconds r.
Proof.
  unfold normal, nanoseconds, timespec_sub. intros Hl Hr. destruct (Z.ltb_spec (tv_nsec l - tv_nsec r) 0); cbn; lia.
Qed.
