(* ===== verification/UserTool.v ===== *)
(** * The userspace tool

    [main] of [ctucanfd_userspace.cpp] (and the options of [regtest.cpp]): the command line, the address of the core
    on the PCI bus, the start of the core, one transmitted frame or the loop that monitors the bus.
    The loop does not end: [monitor] describes its first cycles. *)

From Stdlib Require Import ZArith Lia Ascii.
From stdpp Require Import base numbers list strings sets pretty.
From S2P Require Import Prelude Bitfield Regs Kregs LinuxDefs World Base Sim BaseCfg BaseTx RxFifo BaseRx Session Hw HwEquiv HwSpec Bittiming Timing Regtest Cli PciFind.

#[local] Open Scope string_scope.
#[local] Open Scope list_scope.
#[local] Open Scope Z_scope.

(** ** The options *)

(** The variables of [main]. *)
Record options := mkopt {
  addr_base : Z;
  ifc : Z;
  do_transmit : bool;
  gap : Z;
  bitrate_opt : Z;
  dbitrate : Z;
  tx_can_id : Z;
  do_periodic_transmit : bool;
  transmit_fdf : bool;
  loopback_mode : bool;
  test_read_speed : bool;
  addrs : Z * Z;
}.

Definition default_options : options := {|
  addr_base := 0; ifc := 0; do_transmit := false; gap := 1000; bitrate_opt := 1000000; dbitrate := 0;
  tx_can_id := 0x1ff; do_periodic_transmit := false; transmit_fdf := false; loopback_mode := false;
  test_read_speed := false; addrs := (0x43C30000, 0x43C70000) |}.

(** The options with a number, each converted to the type of its variable. *)
Definition set_number (c : ascii) (v : Z) (o : options) : option options :=
  let '(mkopt a i t g b d x p f l r ad) := o in
  match c with
  | "i"%char => Some (mkopt a (u32 v) t g b d x p f l r ad)
  | "a"%char => Some (mkopt v i t g b d x p f l r ad)
  | "g"%char => Some (mkopt a i t (s32 v) b d x p f l r ad)
  | "b"%char => Some (mkopt a i t g (s32 v) d x p f l r ad)
  | "B"%char => Some (mkopt a i t g b (s32 v) x p f l r ad)
  | "I"%char => Some (mkopt a i t g b d (s32 v) p f l r ad)
  | _ => None
  end.

(** The options without an argument that set a variable. *)
Definition set_flag (c : ascii) (o : options) : option options :=
  let '(mkopt a i t g b d x p f l r ad) := o in
  match c with
  | "l"%char => Some (mkopt a i t g b d x p f true r ad)
  | "t"%char => Some (mkopt a i true g b d x p f l r ad)
  | "T"%char => Some (mkopt a i t g b d x true f l r ad)
  | "f"%char => Some (mkopt a i t g b d x p true l r ad)
  | "r"%char => Some (mkopt a i t g b d x p f l true ad)
  | _ => None
  end.

Definition set_addrs (ad : Z * Z) (o : options) : options :=
  let '(mkopt a i t g b d x p f l r _) := o in mkopt a i t g b d x p f l r ad.

Definition stdout : Z := 1.
Definition stderr : Z := 2.

Section Tool.
Context {W : Type} `{World W}.
Abbreviation MH := (M ctucan_hw_priv W).
Abbreviation MR := (M rtool W).

(** [err], [errx] and [exit] after a message: the exit status. *)
Definition die {A} (msg : string) (status : Z) : MR (Z + A) :=
  call_ (user (u_fprintf stderr msg));; mret (inl (u8 status)).

(** [/sys/devices] and the contents of the files [resource]. *)
Context (sys : dir_tree) (resource : string → option string).

(** [pci_find_bar]; the value is indeterminate when nothing can be read. *)
Definition pci_find_bar (vid pid inst barnr : Z) : MR (Z + Z) :=
  match pci_find_dev "/sys/devices" sys vid pid inst with
  | None => no_fuel
  | Some Died => die "opendir failed" 1
  | Some (Result false _) | Some (Result _ None) => mret (inr 0)
  | Some (Result true (Some dev_dir)) =>
      call_ (user (u_fprintf stdout ("found " +:+ dev_dir +:+ "\n")));;
      match resource (dev_dir +:+ "/resource") with
      | None => mret (inr 0)
      | Some file =>
          let file := Nat.iter (Z.to_nat barnr) (fgets 199) file in
          bar1_base ← some_or Indeterminate (scan_lli file);
          mret (inr bar1_base)
      end
  end.

(** [case 'p'] *)
Definition option_p (o : options) : MR (Z + options) :=
  a ← pci_find_bar 0x1172 0xcafd 0 1;
  match a with inl e => mret (inl e) | inr a =>
  a ← (if negb (nz a) then pci_find_bar 0x1760 0xff00 0 1 else mret (inr a));
  match a with inl e => mret (inl e) | inr a =>
  if negb (nz a) then die "-p PCI device not found" 1 else
  mret (inr (set_addrs (a, u64 (a + 0x4000)) o))
  end end.

(** The body of the loop over the options. *)
Definition handle_option (progname : string) (opt : ascii * string) (o : options) : MR (Z + options) :=
  let '(c, optarg) := opt in
  let '(v, e) := strtoul optarg in
  match set_number c v o with
  | Some o' => if negb (String.eqb e "") then die ("-" +:+ String c " expects a number") 1 else mret (inr o')
  | None =>
      match set_flag c o with
      | Some o' => mret (inr o')
      | None =>
          match c with
          | "p"%char => option_p o
          | "h"%char =>
              call_ (user (u_fprintf stdout ("Usage: " +:+ progname +:+
                " [-i ifc] [-a address] [-l] [-t] [-T]\n\n  -t: Transmit\n")));;
              mret (inl 0)
          | _ => mret (inr o)
          end
      end
  end.

Fixpoint handle_options (progname : string) (opts : list (ascii * string)) (o : options) : MR (Z + options) :=
  match opts with
  | [] => mret (inr o)
  | opt :: opts' =>
      r ← handle_option progname opt o;
      match r with inl e => mret (inl e) | inr o' => handle_options progname opts' o' end
  end.

Definition user_optstring : string := "i:a:g:b:B:I:fltThpr".

(** The checks after the options: the physical address of the core. *)
Definition core_address (o : options) : MR (Z + Z) :=
  if 2 <=? ifc o then die "Err: ifc number must be 0 or 1.\n" 1 else
  mret (inr (if addr_base o =? 0 then (if ifc o =? 0 then fst (addrs o) else snd (addrs o)) else addr_base o)).

End Tool.

(** ** The core *)

Section Core.
Context {W : Type} `{World W}.
Abbreviation MH := (M ctucan_hw_priv W).

Definition usleep (us : Z) : MH unit := call_ (user (u_usleep us)).

Definition clock_gettime : MH timespec :=
  sec ← call (user u_clock_sec); nsec ← call (user u_clock_nsec); mret (mkts sec nsec).

(** [n] iterations of a loop with a counter that the body does not use. *)
Fixpoint repeat_m (n : nat) (m : MH unit) : MH unit :=
  match n with O => mret tt | S n' => m;; repeat_m n' m end.

(** The measurements of [test_read_speed]. *)
Definition measure (n : Z) (m : MH unit) (format : string) : MH unit :=
  tic ← clock_gettime;
  repeat_m (Z.to_nat n) m;;
  tac ← clock_gettime;
  let diff := timespec_sub tac tic in
  printf format [n; tv_sec diff; tv_nsec diff].

Definition read_speed : MH unit :=
  measure (1000 * 1000) (_ ← ctucan_hw_read32 CTU_CAN_FD_RX_DATA; mret tt) "%d reads takes %ld.%09ld s\n";;
  measure (1000 * 1000) (ctucan_hw_write32 CTU_CAN_FD_FILTER_C_VAL 0) "%d writes takes %ld.%09ld s\n".

(** The access check. *)
Definition identify : MH bool :=
  reg ← read_hw CTU_CAN_FD_DEVICE_ID;
  printf "DevID: 0x%08x, should be 0x%08x\n" [bf_get ctu_can_fd_device_id_version "device_id" reg; CTU_CAN_FD_ID];;
  ok ← ctucan_hw_check_access;
  if negb ok then call_ (user (u_fprintf stderr "error: ctucan_hw_check_access"));; mret false else
  version ← ctucan_hw_get_version;
  printf "Core version: %u\n" [version];;
  mret true.

Definition loopback_ctrlmode : can_ctrlmode := {|
  mode_mask := Z.lor CAN_CTRLMODE_LOOPBACK CAN_CTRLMODE_PRESUME_ACK;
  mode_flags := Z.lor CAN_CTRLMODE_LOOPBACK CAN_CTRLMODE_PRESUME_ACK |}.

(** From the reset to the enabled core; [Some]: the exit status after a failure. *)
Definition start_core (o : options) : MH (option Z) :=
  ctucan_hw_reset;;
  mode ← read_hw CTU_CAN_FD_MODE;
  when (nz (bf_get ctu_can_fd_mode_settings "ena" mode)) (printf "Core is enabled but should be disabled!\n" []);;
  r ← program_bitrates (bitrate_opt o) (dbitrate o);
  match r with
  | inl e => mret (Some (u8 e))
  | inr _ =>
      when (loopback_mode o) (ctucan_hw_set_mode loopback_ctrlmode);;
      ctucan_hw_enable true;;
      usleep 10000;;
      mode ← read_hw CTU_CAN_FD_MODE;
      printf "MODE=0x%02x\n" [mode];;
      mret None
  end.

(** *** Transmission *)

(** [memcpy] to the front of the data; what was there stays behind. *)
Definition with_data (d : list Z) (cf : canfd_frame) : canfd_frame :=
  set_len (Z.of_nat (length d)) (set_data (d ++ drop (length d) (data cf)) cf).

(** The single frame, on a variable with the indeterminate contents [junk]. *)
Definition single_frame (o : options) (junk : canfd_frame) : canfd_frame :=
  with_data [0xDE; 0xAD; 0xBE; 0xEF] (set_flags 0 (set_can_id (u32 (tx_can_id o)) junk)).

Definition zero_frame : canfd_frame := {| can_id := 0; len := 0; flags := 0; data := replicate 64 0 |}.

Definition periodic_frame (o : options) : canfd_frame :=
  let txf := set_flags 0 (set_can_id (u32 (tx_can_id o)) zero_frame) in
  if transmit_fdf o then
    with_data [0x11; 0x22; 0x33; 0x44; 0x55; 0x66; 0x77; 0x88; 0x99; 0xaa; 0xbb; 0xcc; 0xdd; 0xee]
      (set_flags (Z.lor (flags txf) CANFD_BRS) txf)
  else with_data [0x11; 0x22; 0x33; 0x44; 0x55; 0x66; 0x77; 0xEE] txf.

(** The buffer is marked as ready even if the insertion fails. *)
Definition send (txf : canfd_frame) (isfdf : bool) : MH unit :=
  res ← ctucan_hw_insert_frame txf 0 CTU_CAN_FD_TXT_BUFFER_1 isfdf;
  when (negb res) (printf "TX failed\n" []);;
  ctucan_hw_txt_set_rdy CTU_CAN_FD_TXT_BUFFER_1.

(** *** Monitoring *)

(** [for (int i = 0; i < cf.len; ++i)], with [n] iterations left. *)
Fixpoint print_bytes (cf : canfd_frame) (n : nat) (i : Z) : MH unit :=
  match n with
  | O => mret tt
  | S n' =>
      b ← some_or OutOfBounds (data cf !! Z.to_nat i);
      printf " %02x" [b];;
      print_bytes cf n' (i + 1)
  end.

Definition print_frame (cf : canfd_frame) (ts : Z) : MH unit :=
  printf "%llu: #%x [%u]" [ts; can_id cf; len cf];;
  print_bytes cf (Z.to_nat (len cf)) 0;;
  printf "\n" [].

(** [while (nrxf || rxsz)]: [true] when it ends within [n] iterations, [false] when it goes on after them;
    [junk] is the indeterminate frame variable of each iteration. *)
Fixpoint drain (n : nat) (junk : nat → canfd_frame) (nrxf rxsz : Z) : MH bool :=
  if nz nrxf || nz rxsz then
    match n with
    | O => mret false
    | S n' =>
        r ← ctucan_hw_read_rx_frame (junk n');
        print_frame (fst r) (snd r);;
        nrxf ← ctucan_hw_get_rx_frame_count;
        drain n' junk nrxf 0
    end
  else mret true.

(** The line on the state of the core. *)
Definition print_state (nrxf rxsz : Z) : MH unit :=
  status ← ctu_can_get_status;
  int_stat ← ctu_can_fd_int_sts;
  ctucan_hw_int_clr int_stat;;
  printf "%u RX frames, %u words" [nrxf; rxsz];;
  printf ", status 0x%08hx" [status];;
  settings ← ctu_can_fd_read16 CTU_CAN_FD_SETTINGS;
  printf ", settings 0x%04hhx" [settings];;
  printf ", INT_STAT 0x%04hx" [int_stat];;
  v ← read_hw CTU_CAN_FD_INT_ENA_SET;
  printf ", INT_ENA_SET 0x%04hx" [v];;
  v ← read_hw CTU_CAN_FD_INT_MASK_SET;
  printf ", INT_MASK_SET 0x%04hx" [v];;
  v ← read_hw CTU_CAN_FD_TX_STATUS;
  printf ", TX_STATUS 0x%04hx" [v];;
  v ← read_hw CTU_CAN_FD_TRV_DELAY;
  printf ", TRV_DELAY 0x%0hx" [v];;
  printf "\n" [];;
  when (nz (bf_get ctu_can_fd_status "ewl" status))
    (e ← ctu_can_fd_read_err_capt_alc;
     let get f := bf_get ctu_can_fd_err_capt_retr_ctr_alc_ts_info f e in
     printf "ERROR type %u pos %u ALC id_field %u bit %u\n"
       [get "err_type"; get "err_pos"; get "alc_id_field"; get "alc_bit"]).

(** An [int] that must not overflow. *)
Definition int_range (x : Z) : MH Z :=
  if (- 2 ^ 31 <=? x) && (x <? 2 ^ 31) then mret x else undefined SignedOverflow.

(** [rxsz] *)
Definition rx_words : MH Z :=
  reg ← ctucan_hw_read32 CTU_CAN_FD_RX_MEM_INFO;
  mret (u32 (bf_get ctu_can_fd_rx_mem_info "rx_buff_size" reg - bf_get ctu_can_fd_rx_mem_info "rx_mem_free" reg)).

(** One iteration of the endless loop: the next [loop_cycle], or [None] while [drain] is not done. *)
Definition monitor_cycle (o : options) (n : nat) (junk : nat → canfd_frame) (loop_cycle : Z) : MH (option Z) :=
  nrxf ← ctucan_hw_get_rx_frame_count;
  rxsz ← rx_words;
  print_state nrxf rxsz;;
  done ← drain n junk nrxf rxsz;
  if negb done then mret None else
  when (do_periodic_transmit o && nz (Z.land loop_cycle 1)) (send (periodic_frame o) (transmit_fdf o));;
  us ← int_range (1000 * gap o);
  usleep (u32 us);;
  next ← int_range (loop_cycle + 1);
  mret (Some next).

(** The first [cycles] iterations, each with at most [n] frames: whether they are complete. *)
Fixpoint monitor (cycles : nat) (o : options) (n : nat) (junk : nat → canfd_frame) (loop_cycle : Z) : MH bool :=
  match cycles with
  | O => mret true
  | S cycles' =>
      next ← monitor_cycle o n junk loop_cycle;
      match next with None => mret false | Some next => monitor cycles' o n junk next end
  end.

(** [main] with a mapped core: the exit status, or [None] in the monitoring loop. *)
Definition tool_core (o : options) (cycles n : nat) (junk : nat → canfd_frame) : MH (option Z) :=
  ok ← identify;
  if negb ok then mret (Some 1) else
  if test_read_speed o then read_speed;; mret (Some 0) else
  e ← start_core o;
  match e with
  | Some e => mret (Some e)
  | None =>
      if do_transmit o then send (single_frame o (junk n)) false;; mret (Some 0)
      else _ ← monitor cycles o n junk 0; mret None
  end.

(** [main] *)
Definition tool_main (sys : dir_tree) (resource : string → option string) (progname : string) (args : list string)
    (cycles n : nat) (junk : nat → canfd_frame) : M rtool W (option Z) :=
  r ← handle_options sys resource progname (getopt user_optstring None args) default_options;
  match r with
  | inl e => mret (Some e)
  | inr o =>
      a ← core_address o;
      match a with
      | inl e => mret (Some e)
      | inr addr =>
          p ← ctucanfd_init (u32 addr);
          match p with
          | None => mret (Some 1)
          | Some p => modify (set_rt_priv p);; on_priv (tool_core o cycles n junk)
          end
      end
  end.

(** *** [main] of [regtest.cpp] *)

Fixpoint regtest_options (progname : string) (opts : list (ascii * string)) (addr : Z) : M rtool W (Z + Z) :=
  match opts with
  | [] => mret (inr addr)
  | (c, optarg) :: opts' =>
      match c with
      | "a"%char =>
          let '(v, e) := strtoul optarg in
          if negb (String.eqb e "") then die "-i expects a number" 1 else regtest_options progname opts' (u32 v)
      | "h"%char =>
          call_ (user (u_fprintf stdout ("Usage: " +:+ progname +:+ " [-a ifc_addr]\n\n")));; mret (inl 0)
      | _ => regtest_options progname opts' addr
      end
  end.

Definition regtest_program (progname : string) (args : list string) : M rtool W (option Z) :=
  r ← regtest_options progname (getopt "a:th" None args) 0;
  match r with
  | inl e => mret (Some e)
  | inr addr => regtest_main addr
  end.

End Core.

(** ** Command lines *)

(** The command line for the given values of the variables. *)
Definition option_list (o : options) : list (ascii * string) :=
  let flag c (b : bool) := if b then [(c, "")] else [] in
  [("a"%char, pretty (addr_base o)); ("i"%char, pretty (ifc o)); ("g"%char, pretty (gap o));
   ("b"%char, pretty (bitrate_opt o)); ("B"%char, pretty (dbitrate o)); ("I"%char, pretty (tx_can_id o))] ++
  flag "t"%char (do_transmit o) ++ flag "T"%char (do_periodic_transmit o) ++ flag "f"%char (transmit_fdf o) ++
  flag "l"%char (loopback_mode o) ++ flag "r"%char (test_read_speed o).

Record options_ok (o : options) : Prop := {
  ok_addr : 0 <= addr_base o < 2 ^ 64;
  ok_ifc : 0 <= ifc o < 2 ^ 32;
  ok_gap : 0 <= gap o < 2 ^ 31;
  ok_bitrate : 0 <= bitrate_opt o < 2 ^ 31;
  ok_dbitrate : 0 <= dbitrate o < 2 ^ 31;
  ok_id : 0 <= tx_can_id o < 2 ^ 31;
  ok_addrs : addrs o = addrs default_options;
}.

Section CommandLine.
Context {W : Type} `{World W} (sys : dir_tree) (resource : string → option string) (progname : string).
Implicit Types (s : st rtool W).

Lemma s32_nonneg x : 0 <= x < 2 ^ 31 → s32 x = x.
Proof. intros Hx. rewrite <- (s32_small x) at 2 by lia. by rewrite u32_small by (unfold is_u32; lia). Qed.

Lemma option_list_ok o : Forall (option_ok user_optstring) (option_list o).
Proof.
  unfold option_list. apply Forall_app. split; [repeat constructor; done|].
  repeat (apply Forall_app; split); case_match; repeat constructor; done.
Qed.

(** An option with a number. *)
Lemma handle_number c n o o' opts s Q :
  0 <= n < 2 ^ 64 → set_number c n o = Some o' →
  wp (handle_options sys resource progname opts o') s Q →
  wp (handle_options sys resource progname ((c, pretty n) :: opts) o) s Q.
Proof.
  intros Hn Hc HQ. cbn [handle_options]. apply wp_bind. unfold handle_option. rewrite strtoul_pretty by done.
  rewrite Hc. cbn [String.eqb negb]. by apply wp_ret.
Qed.

(** An option without an argument. *)
Lemma handle_flag c o o' opts s Q :
  set_number c 0 o = None → set_flag c o = Some o' →
  wp (handle_options sys resource progname opts o') s Q →
  wp (handle_options sys resource progname ((c, "") :: opts) o) s Q.
Proof.
  intros Hn Hf HQ. cbn [handle_options]. apply wp_bind. unfold handle_option.
  change (strtoul "") with (0, ""). cbv iota. rewrite Hn, Hf. by apply wp_ret.
Qed.

(** C26: The command line of the userspace tool: the options written for a setting of all its variables, each number in
    decimal, are read back by [getopt], [strtoul] and the [switch] of [main] as exactly this setting,
    and nothing else happens. *)
Theorem tool_options_roundtrip o s :
  options_ok o →
  wp (handle_options sys resource progname
        (getopt user_optstring None (concat (option_args user_optstring <$> option_list o))) default_options) s
    (λ r s', r = inr o ∧ s' = s).
Proof.
  intros []. rewrite getopt_option_args by apply option_list_ok. unfold option_list. cbn [app].
  destruct o as [a i t g b d x p f l r ad]. cbn [addr_base ifc gap bitrate_opt dbitrate tx_can_id addrs do_transmit
    do_periodic_transmit transmit_fdf loopback_mode test_read_speed default_options] in *. subst ad.
  repeat (eapply handle_number; [lia|reflexivity|]). rewrite (u32_small i), !s32_nonneg by (unfold is_u32; lia).
  destruct t, p, f, l, r; cbn [app]; repeat (eapply handle_flag; [reflexivity|reflexivity|]); done.
Qed.

End CommandLine.

(** ** The start of the core *)

Section Start.
Context {W : Type} `{World W}.
Implicit Types (s : st ctucan_hw_priv W).

(** The requested bit rates are in the range of [program_bitrates]. *)
Definition rates_ok (o : options) : Prop :=
  rate_in (bitrate_opt o) ∧ rate_in (if nz (dbitrate o) then dbitrate o else 10 * bitrate_opt o).

(** The stores [l] configure the bit timing, then the loopback mode if it is requested, and then enable the core. *)
Definition configures (o : options) (p : ctucan_hw_priv) (l : list (Z * Z)) : Prop :=
  ∃ nom dat w wd v v',
    good_timing true (bitrate_opt o) nom ∧
    good_timing false (if nz (dbitrate o) then dbitrate o else 10 * bitrate_opt o) dat ∧
    btr_holds true w nom ∧ btr_holds false wd dat ∧
    (bf_get ctu_can_fd_mode_settings "ilbp" v = 1 ∧ bf_get ctu_can_fd_mode_settings "stm" v = 1) ∧
    bf_get ctu_can_fd_mode_settings "ena" v' = 1 ∧
    l = [(hw_at p CTUCANFD_BTR, w); (hw_at p CTUCANFD_BTR_FD, wd)] ++
        (if loopback_mode o then [(hw_at p CTUCANFD_MODE, v)] else []) ++ [(hw_at p CTUCANFD_MODE, v')].

Lemma wp_when_printf (b : bool) f args s Q : (∀ s', only_log s s' → Q tt s') → wp (when b (printf f args)) s Q.
Proof. intros HQ. apply wp_when; intros _; [by apply wp_printf|by apply HQ]. Qed.

Lemma tool_identify_wp s :
  le_hw (drv s) → wp identify s (λ _ s', only_log s s').
Proof.
  intros Hle. unfold identify, ctucan_hw_check_access, ctucan_hw_get_version. hsteps.
  apply wp_printf. intros s1 [D1 S1]. cbn [drv trace] in *. rewrite stores_app, app_nil_r in S1.
  assert (Hle1 : le_hw (drv s1)) by by rewrite D1. hsteps.
  destruct (negb (_ =? _)); wp_step; cbn [negb]; hsteps.
  - split; [done|]. cbn [trace]. by rewrite !stores_app, !app_nil_r.
  - apply wp_printf. intros s2 [D2 S2]. cbn [drv trace] in *. rewrite !stores_app, !app_nil_r in S2. hsteps.
    split; congruence.
Qed.

Lemma loopback_wp o s :
  le_hw (drv s) →
  wp (when (loopback_mode o) (ctucan_hw_set_mode loopback_ctrlmode)) s (λ _ s', drv s' = drv s ∧ ∃ v,
    (bf_get ctu_can_fd_mode_settings "ilbp" v = 1 ∧ bf_get ctu_can_fd_mode_settings "stm" v = 1) ∧
    stores (trace s') = stores (trace s) ++ if loopback_mode o then [(hw_at (drv s) CTUCANFD_MODE, v)] else []).
Proof.
  intros Hle. assert (Hv : ∀ x, is_u32 x →
    bf_get ctu_can_fd_mode_settings "ilbp" (mode_reg_word loopback_ctrlmode x) = 1 ∧
    bf_get ctu_can_fd_mode_settings "stm" (mode_reg_word loopback_ctrlmode x) = 1).
  { intros x _. destruct (mode_word_fields loopback_ctrlmode x) as [Hf _].
    split; [apply (Hf CAN_CTRLMODE_LOOPBACK)|apply (Hf CAN_CTRLMODE_PRESUME_ACK)]; unfold mode_fields; set_solver. }
  destruct (loopback_mode o); unfold when.
  - unfold ctucan_hw_set_mode, ctucan_hw_set_mode_reg. hsteps; try done.
    split; [done|]. eexists. split; [by apply (Hv (u32 v)), u32_range|]. cbn [trace].
    rewrite !stores_app. cbn [stores app]. rewrite app_nil_r, u32_small by (apply mode_reg_word_u32, u32_range). done.
  - wp_step. split; [done|]. eexists. split; [by apply (Hv 0)|]. by rewrite app_nil_r.
Qed.

(** The stores of the start. *)
Lemma start_core_wp o s :
  le_hw (drv s) → rates_ok o →
  wp (start_core o) s (λ r s', drv s' = drv s ∧ ∃ l,
    stores (trace s') = stores (trace s) ++ (hw_at (drv s) CTUCANFD_MODE, REG_MODE_RST) :: l ∧
    match r with
    | Some e => e = u8 (- EDOM) ∧ l = []
    | None => configures o (drv s) l
    end).
Proof.
  intros Hle [Hr1 Hr2]. unfold start_core, ctucan_hw_reset. cbv zeta. hstep. hstep. hstep. hstep. hstep.
  apply wp_when_printf. intros s1 [D1 S1]. cbn [drv trace] in *.
  rewrite !stores_app in S1. cbn [stores app] in S1. rewrite app_nil_r in S1.
  change (u32 (bf_set ctu_can_fd_mode_settings "rst" 1 0)) with REG_MODE_RST in S1.
  change CTU_CAN_FD_MODE with CTUCANFD_MODE in S1.
  wp_step. eapply wp_mono; [apply program_bitrates_wp; [by rewrite D1|done|done]|].
  intros [e|[nom dat]] s2 [D2 Hp].
  - destruct Hp as [-> S2]. hsteps. cbn [drv trace]. split; [congruence|]. exists []. split; [|done].
    by rewrite S2, S1.
  - destruct Hp as (Hn & Hd & w & wd & Hw & Hwd & S2). wp_step.
    assert (Hle2 : le_hw (drv s2)) by (by rewrite D2, D1).
    eapply wp_mono; [by apply loopback_wp|]. intros [] s3 (D3 & v' & Hv' & S3).
    assert (Hle3 : le_hw (drv s3)) by (by rewrite D3).
    unfold ctucan_hw_enable, usleep. hsteps. apply wp_printf. intros s4 [D4 S4]. hsteps. cbn [drv trace] in *.
    split; [congruence|]. eexists. split.
    { rewrite S4, !stores_app. cbn [stores app]. rewrite !app_nil_r, S3, S2, S1, D3, D2, D1, <- !app_assoc. reflexivity. }
    eexists nom, dat, w, wd, v', _. split; [exact Hn|]. split; [exact Hd|]. split; [exact Hw|]. split; [exact Hwd|].
    split; [exact Hv'|]. split; [|reflexivity].
    rewrite u32_small by (apply bf_set_u32; [bu_decide|apply u32_range]).
    by erewrite (bf_get_set_eq ctu_can_fd_mode_settings "ena") by (bu_decide || reflexivity).
Qed.

(** What is stored by [send]: the frame if the buffer takes it, and the command. *)
Definition sent (n : net_device) (cf : canfd_frame) (fd ok : bool) : list (Z * Z) :=
  (if ok then stores (hw_frame_image n cf 0 0 fd) else []) ++ [(reg_at n CTUCANFD_TX_COMMAND, 0x102)].

Lemma send_wp n cf fd s :
  drv s = hw_of n → le_dev n → frame_wf cf → len cf <= 64 →
  wp (send cf fd) s (λ _ s', drv s' = drv s ∧ ∃ v,
    stores (trace s') = stores (trace s) ++ sent n cf fd (hw_accessible v 0)).
Proof.
  intros Hd Hle Hcf Hl. destruct s as [p w tr]. cbn [drv] in Hd. subst p. unfold send. apply wp_bind.
  eapply wp_mono; [by apply hw_insert_frame_wp|]. intros ok s1 (D1 & t1 & T1 & [(Hb & _)|(_ & v & _ & Hok & ->)]); [done|].
  apply wp_bind. apply wp_when_printf. intros s2 [D2 S2]. unfold ctucan_hw_txt_set_rdy, ctucan_hw_txt_buf_give_command.
  cbv zeta. assert (Hle2 : le_hw (drv s2)) by (rewrite D2, D1; exact Hle).
  replace (len cf <=? 64) with true in Hok by lia. rewrite andb_true_r in Hok.
  apply wp_bind. lazymatch goal with |- wp _ ?s ?Q => change (wp (mret 0x100) s Q) end. hsteps. cbn [drv trace] in *. split; [congruence|]. exists v.
  change CTU_CAN_FD_TXT_BUFFER_1 with 0 in *. rewrite stores_app, S2, T1, stores_app, Hok, D2, D1, <- !app_assoc.
  unfold sent. by destruct (hw_accessible v 0).
Qed.

Lemma single_frame_wf o junk : frame_wf junk → length (data junk) = 64%nat → frame_wf (single_frame o junk).
Proof.
  intros [] Hl. split; cbn; [apply u32_range|done|done| |].
  - repeat (apply Forall_cons; split; [done|]). by apply Forall_drop.
  - intros _. rewrite length_drop, Hl. done.
Qed.

(** C25: The userspace tool with [-t], on every core, in every world, whatever the uninitialised frame
    variable holds, for bit rates in the range of [program_bitrates] and without [-r].  It returns.  On a core that does not
    identify itself it stores nothing; if a bit timing cannot be calculated it only resets
    the core; otherwise it stores, in this order: the reset, the two bit timings (within the limits and
    accurate), the loopback mode if requested, the enable bit, the words of the frame in TXT buffer
    1 if this is accessible, and the command that marks the buffer as ready (in any case).  In
    particular the core is never enabled before both bit timings are set. *)
Theorem tool_transmit_spec o cycles k junk n s :
  drv s = hw_of n → le_dev n → rates_ok o → frame_wf (junk k) → length (data (junk k)) = 64%nat →
  test_read_speed o = false → do_transmit o = true →
  wp (tool_core o cycles k junk) s (λ r s', drv s' = hw_of n ∧ ∃ l, stores (trace s') = stores (trace s) ++ l ∧
    ((r = Some 1 ∧ l = []) ∨
     (r = Some (u8 (- EDOM)) ∧ l = [(reg_at n CTUCANFD_MODE, REG_MODE_RST)]) ∨
     (r = Some 0 ∧ ∃ conf v, configures o (hw_of n) conf ∧
        l = (reg_at n CTUCANFD_MODE, REG_MODE_RST) :: conf ++ sent n (single_frame o (junk k)) false (hw_accessible v 0)))).
Proof.
  intros Hd Hle Hr Hj Hjl Hspeed Ht. assert (Hhw : le_hw (drv s)) by (rewrite Hd; exact Hle).
  unfold tool_core. rewrite Hspeed, Ht. apply wp_bind. eapply wp_mono; [by apply tool_identify_wp|].
  intros ok s1 [D1 S1]. destruct ok; cbn [negb].
  2: { apply wp_ret. split; [congruence|]. exists []. rewrite app_nil_r. auto. }
  apply wp_bind. eapply wp_mono; [apply start_core_wp; [by rewrite D1|done]|].
  intros [e|] s2 (D2 & l & S2 & Hl).
  { apply wp_ret. destruct Hl as [-> ->]. split; [congruence|]. eexists. rewrite S2, S1, D1, Hd. split; [done|].
    right. left. done. }
  apply wp_bind. eapply wp_mono.
  { apply (send_wp n (single_frame o (junk k)) false); [congruence|done|by apply single_frame_wf|done]. }
  intros [] s3 (D3 & v & S3). apply wp_ret. split; [congruence|]. eexists. rewrite S3, S2, S1, D1, Hd, <- app_assoc.
  split; [done|]. right. right. split; [done|]. rewrite D1, Hd in Hl. by exists l, v.
Qed.

End Start.

(** ** Concrete runs *)

Definition loopback_options : options :=
  mkopt 0 0 true 1000 500000 0 0x123 false false true false (0x43C30000, 0x43C70000).

Lemma tool_options_witness :
  wp (handle_options sys_devices (λ _, None) "tool"
        (getopt user_optstring None (concat (option_args user_optstring <$> option_list loopback_options))) default_options)
    (mkst (mkrt (-1) (hw_of sample_dev) 0 0) (mkscript [] [] []) []) (λ r _, r = inr loopback_options).
Proof.
  eapply wp_mono; [apply (tool_options_roundtrip sys_devices (λ _, None) "tool" loopback_options); by split|].
  intros r s' [Hr _]. exact Hr.
Defined.

Definition tool_addresses : list Z :=
  [0x43C30004; 0x43C30024; 0x43C30028; 0x43C30004; 0x43C30004;
   0x43C30100; 0x43C30104; 0x43C30108; 0x43C3010C; 0x43C30110; 0x43C30074].

(** A core with the right identifier and an empty buffer: the reset, both timings, MODE twice, five words, the command. *)
Lemma tool_transmit_witness :
  wp (tool_core loopback_options 0 0 (λ _, zero_frame)) (sample_hw [0xCAFD; 0xCAFD; 0xCAFD; 0; 0; 0; 0; 0x8])
    (λ r s', drv s' = hw_of sample_dev ∧ r = Some 0 ∧ fst <$> stores (trace s') = tool_addresses).
Proof.
  eapply wp_mono; [apply wp_and|].
  - apply (tool_transmit_spec loopback_options 0 0 (λ _, zero_frame) sample_dev (sample_hw [0xCAFD; 0xCAFD; 0xCAFD; 0; 0; 0; 0; 0x8]));
      [done|done|split; [left; cbn; lia|right; cbn; lia]|by split; [..|repeat constructor|]|done|done|done].
  - instantiate (1 := λ r s', r = Some 0 ∧ fst <$> stores (trace s') = tool_addresses). by vm_compute.
  - intros r s' [[Hd _] [Hr Hs]]. exact (conj Hd (conj Hr Hs)).
Defined.

(** The address of a BAR above 4 GiB is cut off by [ctucanfd_init]: the tool maps other memory. *)
Definition high_resource (path : string) : option string :=
  Some ("0x00000000f7c00000 0x00000000f7c0ffff 0x0000000000040200" +:+ String "010"
       ("0x0000004012340000 0x000000401234ffff 0x0000000000040200" +:+ String "010" "")).

Theorem high_bar_truncated :
  wp (tool_main sys_devices high_resource "tool" ["-p"; "-t"] 0 0 (λ _, zero_frame))
    (mkst (mkrt (-1) (hw_of sample_dev) 0 0) (mkscript [] [0; 3; 4096; 2 ^ 64 - 1] []) [])
    (λ _ s', EvCall (user (u_mmap 4096 0x12340000)) (2 ^ 64 - 1) ∈ trace s').
Proof. vm_compute. repeat constructor. Qed.
