(* ===== verification/Monitor.v ===== *)
(** * Monitoring the bus

    What the userspace tool prints: the frames of the RX FIFO, all of them, in order and each once,
    against the interface [RxDevice] that the kernel driver is verified against as well. *)

From Stdlib Require Import ZArith Lia Ascii.
From stdpp Require Import base numbers list strings.
From S2P Require Import Prelude Bitfield Regs Kregs LinuxDefs World Base Sim BaseCfg BaseTx RxFifo BaseRx Session Hw HwEquiv HwSpec Bittiming Timing Regtest Cli PciFind UserTool.

#[local] Open Scope string_scope.
#[local] Open Scope list_scope.
#[local] Open Scope Z_scope.

(** ** The output *)

Definition frame_format : string := "%llu: #%x [%u]".
Definition byte_format : string := " %02x".

(** What is printed of frames, in a trace. *)
Fixpoint frame_prints (tr : list event) : list (string * list Z) :=
  match tr with
  | [] => []
  | EvCall (user (u_printf f args)) _ :: tr' =>
      (if String.eqb f frame_format || String.eqb f byte_format then [(f, args)] else []) ++ frame_prints tr'
  | _ :: tr' => frame_prints tr'
  end.

Lemma frame_prints_app t1 t2 : frame_prints (t1 ++ t2) = frame_prints t1 ++ frame_prints t2.
Proof.
  induction t1 as [|e t1 IH]; [done|]. destruct e as [| |[]|]; try apply IH. destruct f; try apply IH.
  cbn [app frame_prints]. by rewrite IH, app_assoc.
Qed.

(** The line of a frame: timestamp, identifier, length, and the bytes of the payload. *)
Definition frame_line (cf : canfd_frame) (ts : Z) : list (string * list Z) :=
  (frame_format, [ts; can_id cf; len cf]) :: ((λ b, (byte_format, [b])) <$> take (Z.to_nat (len cf)) (data cf)).

(** The timestamp of the words of a frame. *)
Definition frame_ts (ws : list Z) : Z := Z.lor (nth 2 ws 0) (Z.shiftl (nth 3 ws 0) 32).

(** The line of the frame with the words [ws]; the bytes that the frame does not have (of a remote frame,
    whose length is printed as well) come from the frame variable. *)
Definition line_of (ws : list Z) (l : list (string * list Z)) : Prop :=
  ∃ cf0, l = frame_line (rx_decode cf0 (hd 0 ws) (tl ws)) (frame_ts ws).

(** ** The interface of the memory information *)

(** RX_MEM_INFO: all words of the buffer are free exactly if it is empty. *)
Class RxMem (W : Type) `{World W} (base : Z) (fifo : W → list Z) :=
  rxm_info : ∀ w v w', w_load32 (base + CTU_CAN_FD_RX_MEM_INFO) w = (v, w') →
    u32 (bf_get ctu_can_fd_rx_mem_info "rx_buff_size" (u32 v) - bf_get ctu_can_fd_rx_mem_info "rx_mem_free" (u32 v)) = 0 ↔
      fifo w = [].

Section Reception.
Context {W : Type} `{World W} (base : Z) (fifo : W → list Z) `{!RxDevice W base fifo}.
Implicit Types (s : st ctucan_hw_priv W).

Definition hw_ok (p : ctucan_hw_priv) : Prop := le_hw p ∧ hw_mem_base p = base.

(** A step that leaves the FIFO to the core and prints these lines of frames. *)
Definition printing (l : list (string * list Z)) s s' : Prop :=
  drv s' = drv s ∧ grows (fifo (world s)) (fifo (world s')) ∧
  ∃ tr, trace s' = trace s ++ tr ∧ frame_prints tr = l.

Lemma printing_refl s : printing [] s s.
Proof. split; [done|]. split; [apply grows_refl|]. exists []. by rewrite app_nil_r. Qed.

Lemma printing_trans l1 l2 s1 s2 s3 : printing l1 s1 s2 → printing l2 s2 s3 → printing (l1 ++ l2) s1 s3.
Proof.
  intros (D1 & G1 & t1 & T1 & P1) (D2 & G2 & t2 & T2 & P2). split; [congruence|].
  split; [by eapply grows_trans|]. exists (t1 ++ t2). by rewrite T2, T1, app_assoc, frame_prints_app, P1, P2.
Qed.

(** Nothing is printed of a frame. *)
Definition tame s s' : Prop := printing [] s s'.

#[export] Instance tame_preorder : PreOrder tame.
Proof. split; [exact printing_refl|]. intros s1 s2 s3. exact (printing_trans [] [] s1 s2 s3). Qed.

Definition tame_from s s' : Prop := hw_ok (drv s) → tame s s'.

#[export] Instance tame_from_preorder : PreOrder tame_from.
Proof.
  split; [by intros s _|]. intros s1 s2 s3 H12 H23 Hs. specialize (H12 Hs). etransitivity; [exact H12|].
  apply H23. destruct H12 as (-> & _). done.
Qed.

(** The computation returns and is tame. *)
Definition runs_tame {A} (m : M ctucan_hw_priv W A) : Prop := ∀ s, hw_ok (drv s) → wp m s (λ _ s', tame s s').

Lemma tame_wp {A} (m : M ctucan_hw_priv W A) : runs_tame m → keeps tame_from m.
Proof. intros Hm s Hs. specialize (Hm s Hs). unfold wp in Hm. by destruct (m s) as [[]]. Qed.

Lemma tame_step d w' tr0 e w : 
  grows (fifo w) (fifo w') → frame_prints [e] = [] → tame (mkst d w tr0) (mkst d w' (tr0 ++ [e])).
Proof. intros Hg He. split; [done|]. split; [done|]. by exists [e]. Qed.

Lemma runs_ret {A} (a : A) : runs_tame (mret a).
Proof. intros s Hs. by apply wp_ret. Qed.

Lemma runs_bind {A B} (m : M ctucan_hw_priv W A) (k : A → M ctucan_hw_priv W B) :
  runs_tame m → (∀ a, runs_tame (k a)) → runs_tame (m ≫= k).
Proof.
  intros Hm Hk s Hs. apply wp_bind. eapply wp_mono; [by apply Hm|]. intros a s1 H1.
  eapply wp_mono; [apply Hk; by destruct H1 as (-> & _)|]. intros b s2 H2. by transitivity s1.
Qed.

Lemma runs_when b m : runs_tame m → runs_tame (when b m).
Proof. intros Hm s Hs. apply wp_when; intros _; [by apply Hm|done]. Qed.

Lemma runs_read reg : reg ≠ CTUCANFD_RX_DATA → runs_tame (read_hw reg).
Proof.
  intros Hr [p w tr] [Hle Hb]. apply wp_read_hw; [done|]. intros v w' Hv. unfold hw_at in *. cbn [drv world trace] in *.
  apply tame_step; [|done]. rewrite Hb in Hv. eapply rxd_load; [|exact Hv]. lia.
Qed.

Lemma runs_read32 reg : reg ≠ CTUCANFD_RX_DATA → runs_tame (ctucan_hw_read32 reg).
Proof.
  intros Hr [p w tr] [Hle Hb]. unfold ctucan_hw_read32. wp_step. wp_step. apply wp_ioread32. intros v w' Hv.
  cbn [drv world trace] in *. apply tame_step; [|done]. rewrite Hb in Hv. eapply rxd_load; [|exact Hv]. lia.
Qed.

Lemma runs_write reg v :
  reg ≠ CTUCANFD_MODE → reg ≠ CTUCANFD_COMMAND → runs_tame (write_hw reg v).
Proof.
  intros Hm Hc [p w tr] [[Hr Hw] Hb]. unfold write_hw. wp_step. wp_step. cbn [drv] in *. rewrite Hw.
  unfold ctucan_hw_write32. wp_step. wp_step. apply wp_iowrite32. cbn [drv world trace].
  apply tame_step; [|done]. rewrite Hb. apply rxd_store; [lia|]. left. lia.
Qed.

Lemma runs_call c : (∀ r, frame_prints [EvCall c r] = []) → runs_tame (call_ c).
Proof.
  intros Hc [p w tr] _. apply wp_call_. intros r w' Hw. cbn [drv world trace].
  apply tame_step; [by eapply rxd_call|apply Hc].
Qed.

Lemma runs_printf f args :
  String.eqb f frame_format || String.eqb f byte_format = false → runs_tame (printf f args).
Proof. intros Hf. apply runs_call. intros r. cbn [frame_prints]. by rewrite Hf. Qed.

Lemma runs_int_range x : - 2 ^ 31 <= x < 2 ^ 31 → runs_tame (int_range x).
Proof. intros Hx. unfold int_range. replace ((- 2 ^ 31 <=? x) && (x <? 2 ^ 31)) with true by lia. apply runs_ret. Qed.

End Reception.



Ltac tame_step :=
  lazymatch goal with
  | |- runs_tame _ _ (mbind _ _) => apply runs_bind; [|intros ?]
  | |- runs_tame _ _ (mret _) => apply runs_ret
  | |- runs_tame _ _ (when _ _) => apply runs_when
  | |- runs_tame _ _ (read_hw _) => apply (runs_read _ _ _); done
  | |- runs_tame _ _ (write_hw _ _) => apply (runs_write _ _ _); done
  | |- runs_tame _ _ (printf _ _) => apply (runs_printf _ _ _); reflexivity
  | |- runs_tame _ _ (call_ _) => apply (runs_call _ _ _); done
  | |- runs_tame _ _ (let _ := _ in _) => cbv zeta
  end; cbv beta.

Ltac tame_run := repeat tame_step.

Section Monitoring.
Context {W : Type} `{World W} (base : Z) (fifo : W → list Z) `{!RxDevice W base fifo}.
Implicit Types (s : st ctucan_hw_priv W).
Abbreviation runs_tame := (runs_tame (W:=W) base fifo).

Lemma runs_print_state nrxf rxsz : runs_tame (print_state nrxf rxsz).
Proof.
  unfold print_state, ctu_can_get_status, ctu_can_fd_int_sts, ctucan_hw_int_clr, ctu_can_fd_read16,
    ctu_can_fd_read_err_capt_alc. tame_run.
  apply (runs_ret base fifo).
Qed.

(** *** Transmission *)

Lemma runs_of {A} (m : M ctucan_hw_priv W A) :
  keeps (tame_from base fifo) m → (∀ s, hw_ok base (drv s) → wp m s (λ _ _, True)) → runs_tame m.
Proof.
  intros Hk Hw s Hs. eapply wp_mono; [eapply keeps_wp; [exact Hk|by apply Hw]|]. intros a s' [_ Ht]. by apply Ht.
Qed.

(** A device of the kernel driver on the same core. *)
Definition dev_at (p : ctucan_hw_priv) : net_device :=
  upd_priv (λ r, set_mem_base (hw_mem_base p) (set_read_reg (hw_read_reg p) (set_write_reg (hw_write_reg p) r))) sample_dev.

Lemma hw_of_dev_at p : hw_of (dev_at p) = p.
Proof. by destruct p. Qed.

Lemma keeps_write_txt buf_base off v :
  0x100 <= buf_base → 0 <= off → keeps (tame_from base fifo) (ctucan_hw_write_txt_buf (W:=W) buf_base off v).
Proof.
  intros Hb Ho. apply tame_wp. unfold ctucan_hw_write_txt_buf.
  apply (runs_write _ _ _); unfold CTUCANFD_MODE, CTUCANFD_COMMAND; lia.
Qed.

Lemma keeps_insert_data fuel cf buf_base i :
  0x100 <= buf_base → 0 <= i → keeps (tame_from base fifo) (hw_insert_data (W:=W) fuel cf buf_base i).
Proof.
  intros Hb. revert i. induction fuel as [|fuel IH]; intros i Hi; cbn [hw_insert_data];
    (destruct (i <? len cf); [|apply keeps_ret, _]); [apply keeps_no_fuel, _|].
  apply keeps_bind; [apply _| |intros d].
  - destruct (load_le32 (data cf) i); [apply keeps_ret, _|apply keeps_undefined, _].
  - apply keeps_bind; [apply _| |intros _; apply IH; lia].
    apply keeps_write_txt; [done|]. unfold CTU_CAN_FD_DATA_1_4_W. lia.
Qed.

Lemma runs_insert_frame cf fd :
  frame_wf cf → runs_tame (ctucan_hw_insert_frame cf 0 CTU_CAN_FD_TXT_BUFFER_1 fd).
Proof.
  intros Hcf. apply runs_of.
  - unfold ctucan_hw_insert_frame. change (CTU_CAN_FD_TXT_BUFFER_COUNT <=? CTU_CAN_FD_TXT_BUFFER_1) with false.
    cbv iota. lazymatch goal with |- keeps _ (some_or _ _ ≫= ?k) => change (keeps (tame_from base fifo) (k 0x100)) end.
    cbv beta. unfold ctucan_hw_is_txt_buf_accessible, ctucan_hw_get_tx_status.
    apply keeps_bind; [apply _|apply tame_wp; tame_run; case_match; apply runs_ret|intros acc].
    cbv zeta. case_match; [apply keeps_ret, _|]. case_match; [apply keeps_ret, _|].
    repeat (apply keeps_bind; [apply _|apply keeps_write_txt; done|intros _]).
    apply keeps_bind; [apply _| |intros _; apply keeps_ret, _].
    unfold when. case_match; [by apply keeps_insert_data|apply keeps_ret, _].
  - intros [p w tr] [Hle _]. rewrite <- (hw_of_dev_at p) in *. eapply wp_mono; [|done].
    apply hw_insert_frame_wp; [exact Hle|done|done].
Qed.

Lemma runs_txt_set_rdy : runs_tame (ctucan_hw_txt_set_rdy CTU_CAN_FD_TXT_BUFFER_1).
Proof.
  unfold ctucan_hw_txt_set_rdy, ctucan_hw_txt_buf_give_command. cbv zeta.
  apply runs_bind; [apply (runs_ret base fifo)|intros v]. tame_run.
Qed.

Lemma runs_send cf fd : frame_wf cf → runs_tame (send cf fd).
Proof.
  intros Hcf. unfold send. apply runs_bind; [by apply runs_insert_frame|intros ok]. tame_run. apply runs_txt_set_rdy.
Qed.

Lemma periodic_frame_wf o : frame_wf (periodic_frame o).
Proof.
  unfold periodic_frame. destruct (transmit_fdf o); split; cbn; try apply u32_range; try done;
    repeat constructor; done.
Qed.

(** *** Reception *)

Lemma hw_wp_pop x xs s Q :
  hw_ok base (drv s) → fifo (world s) = x :: xs → is_u32 x →
  (∀ w', grows xs (fifo w') → Q x (mkst (drv s) w' (trace s ++ [EvLoad (base + CTUCANFD_RX_DATA) x]))) →
  wp (read_hw CTU_CAN_FD_RX_DATA) s Q.
Proof.
  intros [Hle Hb] Hf Hx HQ. apply wp_read_hw; [done|]. intros v w' Hv. unfold hw_at in *. rewrite Hb in *.
  destruct (rxd_pop _ _ _ Hv) as [-> Hg]. rewrite Hf in *. cbn [head default tail] in *.
  rewrite u32_small by done. by apply HQ.
Qed.

Lemma frame_prints_loads a ws : frame_prints (EvLoad a <$> ws) = [].
Proof. by induction ws. Qed.

(** The next word, in a computation that is known to return. *)
Lemma hw_pop_known {A} x xs (k : Z → M ctucan_hw_priv W A) s P Q :
  hw_ok base (drv s) → fifo (world s) = x :: xs → is_u32 x →
  wp (read_hw CTU_CAN_FD_RX_DATA ≫= k) s P →
  (∀ s', drv s' = drv s → grows xs (fifo (world s')) → wp (k x) s' P → wp (k x) s' Q) →
  wp (read_hw CTU_CAN_FD_RX_DATA ≫= k) s Q.
Proof.
  intros Hs Hf Hx Hw HQ. apply wp_unbind in Hw. apply wp_bind. eapply wp_mono.
  { apply (wp_and _ _ (λ a s', wp (k a) s' P) (λ a s', a = x ∧ drv s' = drv s ∧ grows xs (fifo (world s')))); [exact Hw|].
    eapply hw_wp_pop; [done|exact Hf|done|]. by intros w' Hg. }
  intros a s' (Hk & -> & Hd & Hg). by apply HQ.
Qed.

(** A frame after its first word; the result of the kernel driver. *)
Lemma hw_read_ffw_wp cf ffw rest more s :
  hw_ok base (drv s) → fifo (world s) = rest ++ more → hw_frame (ffw :: rest) → (64 <= length (data cf))%nat →
  wp (ctucan_hw_read_rx_frame_ffw cf ffw) s (λ r s', fst r = rx_decode cf ffw rest ∧ drv s' = drv s ∧
    grows more (fifo (world s')) ∧ ∃ tr, trace s' = trace s ++ tr ∧ frame_prints tr = []).
Proof.
  intros [Hle Hb] Hf Hfr Hcap. destruct s as [p w tr]. cbn [drv world trace] in *.
  eapply wp_mono.
  { eapply (same_wp_rel _ _ _ p (dev_at p)); [apply same_read_rx_frame|by destruct p|].
    apply (read_rx_frame_wp base fifo cf ffw rest more); [by split|exact Hf|exact Hfr|case_match; lia]. }
  intros r s' (Hd & b & Hr & -> & _ & Hg & Ht). cbn [drv world trace] in *. split_and!; [done..|].
  eexists. split; [exact Ht|apply frame_prints_loads].
Qed.

Lemma hw_read_frame_wp cf ws more s :
  hw_ok base (drv s) → fifo (world s) = ws ++ more → hw_frame ws → (64 <= length (data cf))%nat →
  wp (ctucan_hw_read_rx_frame cf) s (λ r s', fst r = rx_decode cf (hd 0 ws) (tl ws) ∧ snd r = frame_ts ws ∧
    drv s' = drv s ∧ grows more (fifo (world s')) ∧ ∃ tr, trace s' = trace s ++ tr ∧ frame_prints tr = []).
Proof.
  intros Hs Hf Hfr Hcap. destruct ws as [|ffw rest]; [done|]. pose proof Hfr as (Hffw & Hlen & Hu).
  destruct (hw_ffw_facts _ Hffw) as (_ & _ & Hn & _). pose proof Hffw as (Hx & Hrw & _).
  destruct rest as [|idw [|t0 [|t1 ws]]]; cbn [length] in Hlen; try lia.
  apply Forall_cons in Hu as [Hu0 [Hu1 [Hu2 Hu]%Forall_cons]%Forall_cons].
  unfold ctucan_hw_read_rx_frame. apply wp_bind. eapply hw_wp_pop; [done|exact Hf|done|].
  intros w0 (n0 & Hn0 & E0). cbn [app] in E0. set (s0 := mkst _ _ _).
  pose proof (hw_read_ffw_wp cf ffw (idw :: t0 :: t1 :: ws) (more ++ concat n0) s0) as Hw.
  specialize (Hw Hs ltac:(cbn [world s0]; by rewrite E0, app_assoc) Hfr Hcap).
  unfold ctucan_hw_read_rx_frame_ffw in *. cbv zeta in *.
  eapply hw_pop_known; [done|exact E0|done|exact Hw|]. clear Hw. intros s1 Hd1 (n1 & _ & E1) Hw.
  eapply hw_pop_known; [by rewrite Hd1|exact E1|done|exact Hw|]. clear Hw. intros s2 Hd2 (n2 & _ & E2) Hw.
  eapply hw_pop_known; [by rewrite Hd2, Hd1|exact E2|done|exact Hw|]. clear Hw. intros s3 Hd3 _ Hw.
  apply wp_unbind in Hw. apply wp_bind. eapply wp_mono; [exact Hw|]. clear Hw. intros ci s4 Hw.
  apply wp_unbind in Hw. apply wp_bind. eapply wp_mono; [exact Hw|]. clear Hw.
  intros _ s5 (Hr & Hd5 & Hg & tr & Ht & Hp). apply wp_ret. cbn [fst snd hd tl] in *. split_and!; [exact Hr|done|done| |].
  - eapply grows_trans; [|exact Hg]. by exists n0.
  - exists (EvLoad (base + CTUCANFD_RX_DATA) ffw :: tr). split; [|done]. rewrite Ht. cbn [trace s0]. by rewrite <- app_assoc.
Qed.

(** *** The output of a frame *)

Lemma wp_print f args s Q :
  (∀ s', printing fifo (frame_prints [EvCall (user (u_printf f args)) 0]) s s' → Q tt s') → wp (printf f args) s Q.
Proof.
  intros HQ. unfold printf. apply wp_call_. intros r w' Hw. apply HQ. split; [done|]. cbn [drv world trace].
  split; [by eapply rxd_call|]. by eexists.
Qed.

Lemma print_bytes_wp cf n i s :
  0 <= i → (Z.to_nat i + n <= length (data cf))%nat →
  wp (print_bytes cf n i) s (λ _ s', printing fifo ((λ b, (byte_format, [b])) <$> take n (drop (Z.to_nat i) (data cf))) s s').
Proof.
  revert i s. induction n as [|n IH]; intros i s Hi Hn; cbn [print_bytes].
  { apply wp_ret, printing_refl. }
  destruct (lookup_lt_is_Some_2 (data cf) (Z.to_nat i)) as [b Hb]; [lia|].
  apply wp_bind. eapply wp_some_or; [exact Hb|]. apply wp_bind, wp_print. intros s1 H1.
  eapply wp_mono; [apply IH; lia|]. intros [] s2 H2. rewrite (drop_S _ _ _ Hb). csimpl.
  replace (S (Z.to_nat i)) with (Z.to_nat (i + 1)) by lia. exact (printing_trans _ [_] _ _ _ _ H1 H2).
Qed.

Lemma print_frame_wp cf ts s :
  0 <= len cf <= Z.of_nat (length (data cf)) →
  wp (print_frame cf ts) s (λ _ s', printing fifo (frame_line cf ts) s s').
Proof.
  intros Hl. unfold print_frame. apply wp_bind, wp_print. intros s1 H1. apply wp_bind.
  eapply wp_mono; [apply print_bytes_wp; [done|lia]|]. intros [] s2 H2. rewrite drop_0 in H2.
  apply wp_print. intros s3 H3. rewrite <- (app_nil_r (frame_line _ _)).
  eapply printing_trans; [|exact H3]. exact (printing_trans _ [_] _ _ _ _ H1 H2).
Qed.

(** *** The queue *)

(** Whole frames are in the FIFO. *)
Definition holds s (frames : list (list Z)) : Prop := Forall hw_frame frames ∧ fifo (world s) = concat frames.

(** From [s] to [s'], with the frames [frames] in the FIFO at first: the frames [got] were printed, in
    order, the frames [left] are in the FIFO; the core may have received frames meanwhile. *)
Definition monitored (frames : list (list Z)) s (got left : list (list Z)) s' : Prop :=
  drv s' = drv s ∧ holds s' left ∧ ∃ tr new lines, Forall hw_frame new ∧ frames ++ new = got ++ left ∧
    trace s' = trace s ++ tr ∧ Forall2 line_of got lines ∧ frame_prints tr = concat lines.

Lemma monitored_refl frames s : holds s frames → monitored frames s [] frames s.
Proof.
  intros Hs. split; [done|]. split; [done|]. exists [], [], []. rewrite !app_nil_r. by split_and!.
Qed.

Lemma monitored_trans frames s g1 l1 s1 g2 l2 s2 :
  monitored frames s g1 l1 s1 → monitored l1 s1 g2 l2 s2 → monitored frames s (g1 ++ g2) l2 s2.
Proof.
  intros (D1 & _ & t1 & n1 & p1 & N1 & E1 & T1 & F1 & P1) (D2 & H2 & t2 & n2 & p2 & N2 & E2 & T2 & F2 & P2).
  split; [congruence|]. split; [done|]. exists (t1 ++ t2), (n1 ++ n2), (p1 ++ p2). split_and!.
  - by apply Forall_app.
  - by rewrite app_assoc, E1, <- !app_assoc, E2.
  - by rewrite T2, T1, app_assoc.
  - by apply Forall2_app.
  - by rewrite frame_prints_app, P1, P2, concat_app.
Qed.

Lemma monitored_tame frames s got lft s1 s2 :
  monitored frames s got lft s1 → tame fifo s1 s2 → ∃ new, monitored frames s got (lft ++ new) s2.
Proof.
  intros (D & [Hl Hf] & tr & n & lines & Hn & E & T & F & P) (D2 & (n2 & Hn2 & E2) & t2 & T2 & P2). exists n2.
  split; [congruence|]. split; [split; [by apply Forall_app|by rewrite E2, Hf, concat_app]|].
  exists (tr ++ t2), (n ++ n2), lines. split_and!.
  - by apply Forall_app.
  - by rewrite app_assoc, E, <- !app_assoc.
  - by rewrite T2, T, app_assoc.
  - done.
  - by rewrite frame_prints_app, P, P2, app_nil_r.
Qed.

Lemma holds_nil s frames : holds s frames → fifo (world s) = [] ↔ frames = [].
Proof.
  intros [Hf E]. rewrite E. split; [|by intros ->]. destruct frames as [|[|x f] fs]; [done| |done].
  by apply Forall_cons in Hf as [[] _].
Qed.

(** A number that the core reports of its FIFO: it is 0 exactly if there is no frame. *)
Definition fifo_count (m : M ctucan_hw_priv W Z) : Prop :=
  ∀ frames s, hw_ok base (drv s) → holds s frames →
    wp m s (λ v s', tame fifo s s' ∧ (nz v = false ↔ frames = [])).

Lemma count_frames : fifo_count ctucan_hw_get_rx_frame_count.
Proof.
  intros frames s [Hle Hb] Hh. unfold ctucan_hw_get_rx_frame_count. apply wp_bind. apply wp_read_hw; [done|].
  intros v w' Hv. unfold hw_at in *. rewrite Hb in *. apply wp_ret. destruct (rxd_count _ _ _ Hv) as [Hv32 Hc].
  split.
  - split; [done|]. cbn [world]. split; [|by eexists]. eapply rxd_load; [|exact Hv].
    unfold CTU_CAN_FD_RX_STATUS, CTUCANFD_RX_DATA. lia.
  - rewrite u32_small by done. rewrite <- (holds_nil s), nz_false by done. exact Hc.
Qed.

Context `{!RxMem W base fifo}.

Lemma count_words : fifo_count rx_words.
Proof.
  intros frames s [Hle Hb] Hh. unfold rx_words. apply wp_bind. unfold ctucan_hw_read32. wp_step. wp_step. apply wp_ioread32.
  intros v w' Hv. rewrite Hb in *. apply wp_ret. split.
  - split; [done|]. cbn [world]. split; [|by eexists]. eapply rxd_load; [|exact Hv].
    unfold CTU_CAN_FD_RX_MEM_INFO, CTUCANFD_RX_DATA. lia.
  - rewrite <- (holds_nil s), nz_false by done. by eapply rxm_info.
Qed.

(** One frame is read and printed. *)
Lemma monitor_frame cf f frames s :
  hw_ok base (drv s) → holds s (f :: frames) → (64 <= length (data cf))%nat →
  wp (r ← ctucan_hw_read_rx_frame cf; print_frame (fst r) (snd r)) s
    (λ _ s', ∃ new, monitored (f :: frames) s [f] (frames ++ new) s').
Proof.
  intros Hs [Hf E] Hcap. apply Forall_cons in Hf as [Hf Hfs]. apply wp_bind.
  eapply wp_mono; [apply (hw_read_frame_wp cf f (concat frames)); [done|exact E|done|done]|].
  intros r s1 (Hr & -> & Hd & (n1 & Hn1 & E1) & t1 & T1 & P1). rewrite Hr.
  destruct f as [|ffw rest]; [done|]. pose proof Hf as (Hffw & Hlen & _). cbn [hd tl] in *.
  destruct (hw_ffw_facts _ Hffw) as (_ & _ & _ & _ & Hl & _).
  eapply wp_mono; [apply print_frame_wp|].
  { cbn [rx_decode len data]. rewrite length_app, length_drop. lia. }
  intros [] s2 (Hd2 & (n2 & Hn2 & E2) & t2 & T2 & P2). exists (n1 ++ n2). split; [congruence|]. split.
  - split; [by rewrite !Forall_app|]. by rewrite E2, E1, !concat_app, app_assoc.
  - exists (t1 ++ t2), (n1 ++ n2), [frame_line (rx_decode cf ffw rest) (frame_ts (ffw :: rest))]. split_and!.
    + by apply Forall_app.
    + done.
    + by rewrite T2, T1, app_assoc.
    + constructor; [by exists cf|done].
    + rewrite frame_prints_app, P1, P2. cbn [concat app]. by rewrite app_nil_r.
Qed.

Lemma drain_wp n junk nrxf rxsz frames s got lft s1 :
  hw_ok base (drv s) → (∀ k, 64 <= length (data (junk k)))%nat → monitored frames s got lft s1 →
  (nz nrxf || nz rxsz = true → lft ≠ []) → (nz nrxf || nz rxsz = false → frames `prefix_of` got) →
  wp (drain n junk nrxf rxsz) s1 (λ b s', ∃ got' lft', monitored frames s got' lft' s' ∧
    if b then frames `prefix_of` got' else length got' = (length got + n)%nat).
Proof.
  intros Hs Hj. revert nrxf rxsz got lft s1. induction n as [|n IH]; intros nrxf rxsz got lft s1 Hm Ht Hz; cbn [drain];
    (destruct (nz nrxf || nz rxsz); [specialize (Ht eq_refl)|apply wp_ret; exists got, lft; split; [done|by apply Hz]]).
  { apply wp_ret. exists got, lft. split; [done|lia]. }
  destruct lft as [|f fs]; [done|]. pose proof Hm as (Hd & Hh & _).
  apply (wp_bind_assoc _ (λ r, print_frame (fst r) (snd r))), wp_bind.
  eapply wp_mono; [apply (monitor_frame (junk n) f fs); [by rewrite Hd|done|done]|].
  intros [] s2 [new Hm2]. pose proof (monitored_trans _ _ _ _ _ _ _ _ Hm Hm2) as Hm'. pose proof Hm2 as (Hd2 & Hh2 & _).
  apply wp_bind. eapply wp_mono; [apply (count_frames (fs ++ new)); [by rewrite Hd2, Hd|done]|].
  intros nrxf' s3 [Ht3 Hz3]. destruct (monitored_tame _ _ _ _ _ _ Hm' Ht3) as [new3 Hm3].
  eapply wp_mono; [eapply (IH nrxf' 0); [exact Hm3| |]|].
  - rewrite orb_false_r. intros E Hnil. apply app_nil in Hnil as [Hnil _]. apply Hz3 in Hnil. congruence.
  - rewrite orb_false_r. intros E. apply Hz3 in E. destruct Hm' as (_ & _ & tr & n' & lines & _ & E' & _).
    rewrite E, app_nil_r in E'. by exists n'.
  - intros b s4 (got' & lft' & Hm4 & Hb). exists got', lft'. split; [done|]. destruct b; [done|].
    rewrite Hb, length_app. simpl. lia.
Qed.

(** One cycle: every frame that is in the FIFO at its start is printed. *)
Lemma monitor_cycle_wp o n junk cycle frames s :
  hw_ok base (drv s) → (∀ k, 64 <= length (data (junk k)))%nat → holds s frames →
  - 2 ^ 31 <= 1000 * gap o < 2 ^ 31 → 0 <= cycle < 2 ^ 31 - 1 →
  wp (monitor_cycle o n junk cycle) s (λ r s', ∃ got lft, monitored frames s got lft s' ∧
    match r with Some next => next = cycle + 1 ∧ frames `prefix_of` got | None => length got = n end).
Proof.
  intros Hs Hj Hh Hg Hc. unfold monitor_cycle. apply wp_bind.
  eapply wp_mono; [by apply (count_frames frames)|]. intros nrxf s1 [Ht1 Hz1].
  destruct (monitored_tame _ _ _ _ _ _ (monitored_refl _ _ Hh) Ht1) as [new1 Hm1]. pose proof Hm1 as (Hd1 & Hh1 & _).
  apply wp_bind.
  eapply wp_mono; [apply (count_words (frames ++ new1)); [by rewrite Hd1|done]|]. intros rxsz s2 [Ht2 Hz2].
  destruct (monitored_tame _ _ _ _ _ _ Hm1 Ht2) as [new2 Hm2]. pose proof Hm2 as (Hd2 & _).
  apply wp_bind. eapply wp_mono; [apply runs_print_state; by rewrite Hd2|]. intros [] s3 Ht3.
  destruct (monitored_tame _ _ _ _ _ _ Hm2 Ht3) as [new3 Hm3].
  apply wp_bind. eapply wp_mono; [eapply (drain_wp n junk nrxf rxsz); [exact Hs|done|exact Hm3| |]|].
  { intros E Hnil. apply app_nil in Hnil as [[[Hnil Hn1]%app_nil _]%app_nil _].
    rewrite (proj2 Hz1 Hnil), (proj2 Hz2) in E by (by rewrite Hnil, Hn1). done. }
  { intros [E _]%orb_false_iff. apply Hz1 in E as ->. apply prefix_nil. }
  intros b s4 (got & lft & Hm4 & Hb). destruct b; cbn [negb]; [|by apply wp_ret; exists got, lft].
  pose proof Hm4 as (Hd4 & _). apply wp_bind.
  eapply wp_mono; [apply (runs_when base fifo); [apply runs_send, periodic_frame_wf|by rewrite Hd4]|]. intros [] s5 Ht5.
  destruct (monitored_tame _ _ _ _ _ _ Hm4 Ht5) as [new5 Hm5]. unfold int_range.
  replace ((- 2 ^ 31 <=? 1000 * gap o) && (1000 * gap o <? 2 ^ 31)) with true by lia. wp_step. wp_step.
  pose proof Hm5 as (Hd5 & _). apply wp_bind. eapply wp_mono; [apply (runs_call base fifo); [done|by rewrite Hd5]|]. intros [] s6 Ht6.
  destruct (monitored_tame _ _ _ _ _ _ Hm5 Ht6) as [new6 Hm6].
  replace ((- 2 ^ 31 <=? cycle + 1) && (cycle + 1 <? 2 ^ 31)) with true by lia. wp_step. wp_step.
  by exists got, ((lft ++ new5) ++ new6).
Qed.

Lemma monitor_wp cycles o n junk cycle frames s :
  hw_ok base (drv s) → (∀ k, 64 <= length (data (junk k)))%nat → holds s frames →
  - 2 ^ 31 <= 1000 * gap o < 2 ^ 31 → 0 <= cycle → cycle + Z.of_nat cycles < 2 ^ 31 →
  wp (monitor cycles o n junk cycle) s (λ b s', ∃ got lft, monitored frames s got lft s' ∧
    if b then (0 < cycles)%nat → frames `prefix_of` got else (n <= length got)%nat).
Proof.
  intros Hs Hj. revert cycle frames s Hs. induction cycles as [|cycles IH]; intros cycle frames s Hs Hh Hg Hc Hb; cbn [monitor].
  { apply wp_ret. exists [], frames. split; [by apply monitored_refl|lia]. }
  apply wp_bind. eapply wp_mono; [apply monitor_cycle_wp; [done|done|exact Hh|done|lia]|].
  intros [next|] s1 (got & lft & Hm & Hr); [|apply wp_ret; exists got, lft; split; [done|lia]].
  destruct Hr as [-> Hpre]. pose proof Hm as (Hd & Hh1 & _).
  eapply wp_mono; [apply (IH (cycle + 1) lft); [by rewrite Hd|done|done|lia|lia]|].
  intros b s2 (got2 & lft2 & Hm2 & Hb2). exists (got ++ got2), lft2. split; [by eapply monitored_trans|].
  destruct b; [intros _; by apply prefix_app_r|]. rewrite length_app. lia.
Qed.

(** C24: What the userspace tool prints while it monitors the bus, for every core that behaves as [RxDevice] and
    [RxMem] say: over any number of cycles, with or without periodic transmission, the lines of frames on the terminal
    are those of the received frames, each whole, once and in the order of the FIFO; frames that
    arrive meanwhile join the queue.  The cycles return without undefined behaviour; when they are
    complete, every frame that was in the FIFO at first has been printed, and
    otherwise one cycle printed [n] frames and still finds more. *)
Theorem monitor_prints_fifo cycles o n junk frames s :
  hw_ok base (drv s) → (∀ k, 64 <= length (data (junk k)))%nat → holds s frames →
  - 2 ^ 31 <= 1000 * gap o < 2 ^ 31 → 0 < Z.of_nat cycles < 2 ^ 31 →
  wp (monitor cycles o n junk 0) s (λ b s', ∃ got lft, monitored frames s got lft s' ∧
    if b then frames `prefix_of` got else (n <= length got)%nat).
Proof.
  intros Hs Hj Hh Hg Hc. eapply wp_mono; [by eapply monitor_wp; [..|lia|lia]|].
  intros b s' (got & lft & Hm & Hb). exists got, lft. split; [done|]. destruct b; [apply Hb; lia|done].
Qed.

End Monitoring.

(** ** A run *)

(** The FIFO world, with the memory information of a buffer of 128 words. *)
Record mem_world := with_mem { fifo_part : fifo_world }.

Definition mem_fifo (w : mem_world) : list Z := q_fifo (fifo_part w).

Definition mem_info (used : Z) : Z := 128 + (128 - Z.min used 128) * 2 ^ 16.

#[export] Instance mem_world_world : World mem_world := {
  w_load32 a w :=
    if a =? sample_base + CTU_CAN_FD_RX_MEM_INFO then (mem_info (Z.of_nat (length (mem_fifo w))), w)
    else let '(v, q) := w_load32 a (fifo_part w) in (v, with_mem q);
  w_store32 a v w := with_mem (w_store32 a v (fifo_part w));
  w_call c w := let '(r, q) := w_call c (fifo_part w) in (r, with_mem q);
  w_alloc k w := let '(o, q) := w_alloc k (fifo_part w) in (o, with_mem q);
}.

#[export] Instance mem_world_rx : RxDevice mem_world sample_base mem_fifo.
Proof.
  split.
  - intros [q] v w'. unfold w_load32, mem_world_world, mem_fifo; cbn [fifo_part].
    change (sample_base + CTUCANFD_RX_DATA =? sample_base + CTU_CAN_FD_RX_MEM_INFO) with false. cbv iota.
    destruct (fifo_world_world.(w_load32) _ q) as [v1 q1] eqn:E. intros [= <- <-]. by apply (rxd_pop (fifo:=q_fifo)) in E.
  - intros a [q] v w' Ha. unfold w_load32, mem_world_world, mem_fifo; cbn [fifo_part].
    destruct (a =? _). { intros [= _ <-]. apply grows_refl. }
    destruct (fifo_world_world.(w_load32) _ q) as [v1 q1] eqn:E. intros [= <- <-]. by eapply (rxd_load (fifo:=q_fifo)) in E.
  - intros [q] v w'. unfold w_load32, mem_world_world, mem_fifo; cbn [fifo_part].
    change (sample_base + CTUCANFD_RX_STATUS =? sample_base + CTU_CAN_FD_RX_MEM_INFO) with false. cbv iota.
    destruct (fifo_world_world.(w_load32) _ q) as [v1 q1] eqn:E. intros [= <- <-]. by apply (rxd_count (fifo:=q_fifo)) in E.
  - intros. apply grows_refl.
  - intros c [q] r w'. unfold w_call, mem_world_world, mem_fifo; cbn [fifo_part].
    destruct (fifo_world_world.(w_call) c q) as [r1 q1] eqn:E. intros [= <- <-]. by eapply (rxd_call (fifo:=q_fifo)) in E.
  - intros k [q] o w'. unfold w_alloc, mem_world_world, mem_fifo; cbn [fifo_part].
    destruct (fifo_world_world.(w_alloc) k q) as [o1 q1] eqn:E. intros [= <- <-]. by eapply (rxd_alloc (fifo:=q_fifo)) in E.
Qed.

#[export] Instance mem_world_mem : RxMem mem_world sample_base mem_fifo.
Proof.
  intros [q] v w'. unfold w_load32, mem_world_world; cbn [fifo_part]. rewrite Z.eqb_refl. intros [= <- _].
  set (used := Z.min (Z.of_nat (length (mem_fifo (with_mem q)))) 128).
  assert (Hu : mem_fifo (with_mem q) = [] ↔ used = 0).
  { unfold used. destruct (mem_fifo (with_mem q)); [done|]. split; [done|]. simpl length. lia. }
  rewrite Hu. unfold mem_info. fold used. assert (Hr : 0 <= used <= 128) by lia. clearbody used. clear Hu q.
  pose (P k := (u32 (bf_get ctu_can_fd_rx_mem_info "rx_buff_size" (u32 (128 + (128 - k) * 2 ^ 16)) -
    bf_get ctu_can_fd_rx_mem_info "rx_mem_free" (u32 (128 + (128 - k) * 2 ^ 16))) =? k)).
  assert (HP : P used = true) by (apply (Z_range_forallb 129 P); [by vm_compute|lia]).
  apply Z.eqb_eq in HP. by rewrite HP.
Qed.

Definition monitor_st : st ctucan_hw_priv mem_world :=
  mkst (hw_of sample_dev) (with_mem {| q_fifo := concat sample_rx; q_script := mkscript [] [] [] |}) [].

Definition monitor_options : options :=
  set_addrs (0, 0) (default default_options (set_flag "T" default_options)).

Lemma monitor_prints_witness :
  wp (monitor 2 monitor_options 5 (λ _, zero_frame) 0) monitor_st (λ b s', ∃ got lft,
    monitored mem_fifo sample_rx monitor_st got lft s' ∧ if b then sample_rx `prefix_of` got else (5 <= length got)%nat).
Proof.
  apply (monitor_prints_fifo sample_base mem_fifo 2 monitor_options 5 (λ _, zero_frame) sample_rx monitor_st);
    [by split|by intros _; cbn; lia|split; [apply sample_rx_hw|done]|by cbn|by cbn].
Defined.

(** Two frames are printed; of the second one, a remote frame, four bytes that were never received. *)
Example monitor_run :
  wp (monitor 2 monitor_options 5 (λ _, zero_frame) 0) monitor_st (λ b s', b = true ∧ frame_prints (trace s') =
    [("%llu: #%x [%u]", [7; 0x123; 2]); (" %02x", [0xAA]); (" %02x", [0xBB]);
     ("%llu: #%x [%u]", [8; 0x40000123; 4]); (" %02x", [0]); (" %02x", [0]); (" %02x", [0]); (" %02x", [0])]).
Proof. by vm_compute. Qed.
