(* ===== verification/RxSystem.v ===== *)
(** * The drivers on the RX buffer of the core

    A world whose RX FIFO is the RX buffer of [RxRtl], cycle by cycle: between the accesses of a driver the CAN core
    stores frames.  It satisfies the interfaces [RxDevice], [RxCore] and [RxMem] against which the
    reception of both drivers is verified, so that those theorems hold of the drivers on
    this buffer.

    One access is one clock cycle with the strobe of its register ([memory_registers.vhd]), followed by
    any number of cycles without.  MODE keeps its reset value (automatic mode, no error frames,
    no test mode) apart from RST and ENA, and RX_SETTINGS the timestamp of the end of a frame; RST and a
    cleared ENA reset the core and its buffer. *)

From Stdlib Require Import ZArith Lia.
From stdpp Require Import base numbers list strings.
From S2P Require Import Prelude Bitfield Regs LinuxDefs World Kregs Base Sim RxFifo RxRtl RxQueue RxStore RxRefine BaseRx Session Monitor.

#[local] Open Scope Z_scope.

(** ** The inputs *)

(** The strobes of one cycle, in automatic mode. *)
Definition strobes (read cdo rrb rxrpmv : bool) : reg_in :=
  {| mr_mode_rxbam := true; mr_command_cdo := cdo; mr_command_rrb := rrb; mr_command_rxrpmv := rxrpmv;
     mr_rx_data_read := read; mr_rx_settings_rtsop := false; mr_mode_erfm := false |}.

Definition no_strobe : reg_in := strobes false false false false.

Definition read_strobe : reg_in := strobes true false false false.

(** A write of COMMAND. *)
Definition command_strobe (v : Z) : reg_in :=
  strobes false (nz (FIELD_GET REG_COMMAND_CDO v)) (nz (FIELD_GET REG_COMMAND_RRB v)) (nz (FIELD_GET REG_COMMAND_RXRPMV v)).

(** The first [n] cycles of a CAN core. *)
Definition can_run (can : nat → can_in) (n : nat) : list (can_in * reg_in) := (λ i, (can i, no_strobe)) <$> seq 0 n.

(** The size of the buffer, the technology, the base address of the registers, and what the CAN core
    does after each reset, in accordance with the protocol. *)
Record core_env := {
  ce_width : Z;
  ce_width_ok : 5 <= ce_width <= 12;
  ce_asic : bool;
  ce_base : Z;
  ce_meta : metadata;
  ce_can : nat → nat → can_in;
  ce_ok : ∀ ep n, protocol_run false (can_run (ce_can ep) n) (mon_init ce_meta) = true;
}.

(** ** The words in the buffer *)

(** From the read pointer on, as many as the counter of free words says. *)
Definition rtl_words (k : Z) (s : rtl) : list Z :=
  (λ j, default 0 (ram_memory s !! Z.to_nat (ptr_u k (read_pointer s + Z.of_nat j)))) <$>
    seq 0 (Z.to_nat (G_RX_BUFF_SIZE k - rx_mem_free_i s)).

Lemma rtl_words_spec k s q : refines k s q → rtl_words k s = q_words q.
Proof.
  intros HR. unfold rtl_words. rewrite (rf_free _ _ _ HR).
  replace (Z.to_nat _) with (length (q_words q)) by (unfold zlen; lia).
  destruct (rf_ram _ _ _ HR) as [_ Hring]. apply list_eq. intros j. rewrite list_lookup_fmap.
  destruct (q_words q !! j) as [x|] eqn:Hx.
  - rewrite lookup_seq_lt by (by eapply lookup_lt_Some). simpl. f_equal. unfold ptr_u.
    specialize (Hring j x (lookup_app_l_Some _ _ _ _ Hx)). by rewrite Hring.
  - apply lookup_ge_None in Hx. by rewrite lookup_seq_ge.
Qed.

(** ** Consistent states *)

Section Env.
Context (E : core_env).

Abbreviation k := (ce_width E).

Abbreviation N := (G_RX_BUFF_SIZE k).

(** The monitor after [now] cycles since reset number [ep]. *)
Definition mon_at (ep now : nat) : core_monitor := mon_end (can_run (ce_can E ep) now) (mon_init (ce_meta E)).

Definition consistent (s : rtl) (ep now : nat) : Prop :=
  ∃ q, queue_inv N false (mon_at ep now) q ∧ refines k s q.

Lemma mon_at_S ep now : mon_at ep (S now) = mon_tick (ce_can E ep now) no_strobe (mon_at ep now).
Proof.
  unfold mon_at, can_run, mon_end. by rewrite seq_S, fmap_app, fold_left_app.
Qed.

(** Only MODE.ERFM matters to the protocol. *)
Lemma protocol_now ep now m :
  mr_mode_erfm m = false → protocol false (ce_can E ep now) m (mon_at ep now) = true.
Proof.
  intros Hm. pose proof (ce_ok E ep (S now)) as Hp. unfold can_run in Hp.
  rewrite seq_S, fmap_app, protocol_run_app in Hp. apply andb_true_iff in Hp as [_ Hp]. simpl in Hp.
  rewrite andb_true_r in Hp. unfold protocol in *. by rewrite Hm.
Qed.

Lemma mon_tick_strobe c m a : mr_mode_erfm m = false → mon_tick c m a = mon_tick c no_strobe a.
Proof. intros Hm. unfold mon_tick. f_equal. unfold next_state. by rewrite Hm. Qed.

Definition cycle (m : reg_in) (ep now : nat) (s : rtl) : rtl := tick k (ce_asic E) (ce_can E ep now) m s.

(** One cycle: the state stays consistent, and the FIFO changes as the interface says. *)
Lemma cycle_spec m ep now s :
  mr_mode_erfm m = false → consistent s ep now →
  consistent (cycle m ep now s) ep (S now) ∧
  (mr_command_rrb m = false →
   grows (if read_attempt m then tail (rtl_words k s) else rtl_words k s) (rtl_words k (cycle m ep now s))).
Proof.
  intros Hm (q & Hi & HR). pose proof (ce_width_ok E). pose proof (protocol_now ep now m Hm) as Hp.
  pose proof (protocol_commands _ _ _ _ _ _ Hi Hp) as Hc.
  assert (err_fits k q (ce_can E ep now) = true) as Hfit.
  { unfold err_fits. destruct (bool_decide_reflect (q_state q = s_rxb_store_err_ts_high)) as [Hs|]; [|done].
    destruct (qi_counts _ _ _ _ Hi) as (_ & _ & Hcnt). by rewrite Hs in Hcnt. }
  pose proof (refines_tick k (ce_asic E) ltac:(lia) _ _ _ _ _ m Hi Hc HR Hfit) as HR'.
  pose proof (queue_inv_tick _ _ _ _ _ _ Hi Hc) as Hi'. split.
  - exists (q_tick N (ce_can E ep now) m q). by rewrite mon_at_S, <- (mon_tick_strobe _ m).
  - intros Hrrb. rewrite (rtl_words_spec _ _ _ HR). unfold cycle. rewrite (rtl_words_spec _ _ _ HR').
    unfold q_tick. rewrite Hrrb, orb_false_r. destruct (q_reset q) eqn:Hr.
    + destruct (qi_reset _ _ _ _ Hi Hr) as [Hcl _]. rewrite <- Hcl. destruct (read_attempt m); apply grows_refl.
    + rewrite (normal_words N false _ m q _ Hi). exists (if q_commit q then [q_pend q] else []).
      destruct (q_commit q) eqn:Hcm; simpl; rewrite ?app_nil_r; (split; [|done]); [|done].
      pose proof (qi_held _ _ _ _ Hi) as Hh. unfold held in Hh.
      rewrite (qi_flags _ _ _ _ Hi) in Hh by (by rewrite Hcm). destruct Hh as [Hw _].
      destruct (Hw Hcm) as [?|[? _]]; [by constructor|done].
Qed.

(** Cycles without a strobe. *)
Fixpoint idle (n : nat) (ep now : nat) (s : rtl) : rtl :=
  match n with
  | O => s
  | S n => idle n ep (S now) (cycle no_strobe ep now s)
  end.

Lemma idle_spec n ep now s :
  consistent s ep now →
  consistent (idle n ep now s) ep (n + now) ∧ grows (rtl_words k s) (rtl_words k (idle n ep now s)).
Proof.
  revert now s. induction n as [|n IH]; intros now s Hs; simpl; [split; [done|apply grows_refl]|].
  destruct (cycle_spec no_strobe ep now s eq_refl Hs) as [Hc Hg]. destruct (IH _ _ Hc) as [Hi Hg'].
  rewrite Nat.add_succ_r in Hi. split; [done|]. eapply grows_trans; [by apply Hg|done].
Qed.

(** The buffer after a reset, with the memory as it was. *)
Definition reset_state (s : rtl) : rtl := rtl_init k (ram_memory s) (ram_data_out s).

Lemma reset_consistent s ep now ep' : consistent s ep now → consistent (reset_state s) ep' 0.
Proof.
  intros (q & _ & HR). pose proof (ce_width_ok E). pose proof (N_pos k ltac:(lia)).
  exists q_init. split; [by apply queue_inv_init; lia|]. apply refines_init; [lia|]. apply (rf_ram _ _ _ HR).
Qed.

End Env.

(** ** The world *)

Record rtl_world (E : core_env) := mkrw {
  rw_rtl : rtl;
  rw_epoch : nat;              (* the number of resets *)
  rw_now : nat;                (* the cycles since the last reset *)
  rw_idle : list nat;          (* the cycles after each access *)
  rw_script : script;          (* the other registers, and the kernel *)
  rw_ok : consistent E rw_rtl rw_epoch rw_now }.
Arguments mkrw {E}.
Arguments rw_rtl {E}.
Arguments rw_epoch {E}.
Arguments rw_now {E}.
Arguments rw_idle {E}.
Arguments rw_script {E}.
Arguments rw_ok {E}.

Definition rtl_fifo {E} (w : rtl_world E) : list Z := rtl_words (ce_width E) (rw_rtl w).

Section World.
Context {E : core_env}.
Implicit Types (w : rtl_world E).

Lemma access_ok m n w :
  mr_mode_erfm m = false →
  consistent E (idle E n (rw_epoch w) (S (rw_now w)) (cycle E m (rw_epoch w) (rw_now w) (rw_rtl w)))
    (rw_epoch w) (n + S (rw_now w)).
Proof. intros Hm. by apply idle_spec, cycle_spec, rw_ok. Qed.

(** An access with the strobes [m], and the cycles after it. *)
Definition bus_access (m : reg_in) (Hm : mr_mode_erfm m = false) (sc : script) w : rtl_world E :=
  mkrw _ _ _ (tail (rw_idle w)) sc (access_ok m (default 0%nat (head (rw_idle w))) w Hm).

(** RST or a cleared ENA. *)
Definition reset_world w : rtl_world E :=
  mkrw (reset_state E (rw_rtl w)) (S (rw_epoch w)) 0 (rw_idle w) (rw_script w)
    (reset_consistent E (rw_rtl w) (rw_epoch w) (rw_now w) (S (rw_epoch w)) (rw_ok w)).

Definition mode_resets (v : Z) : bool := nz (FIELD_GET REG_MODE_RST v) || negb (nz (FIELD_GET REG_MODE_ENA v)).

(** RX_STATUS and RX_MEM_INFO *)
Definition rx_status (o : reg_out) : Z :=
  Z.b2z (rx_empty o) + Z.b2z (rx_full o) * 2 + Z.b2z (rx_mof o) * 2 ^ 2 + rx_frame_count o * 2 ^ 4.

Definition rx_mem_info (o : reg_out) : Z := G_RX_BUFF_SIZE (ce_width E) + rx_mem_free o * 2 ^ 16.

#[export] Instance rtl_world_world : World (rtl_world E) := {
  w_load32 a w :=
    let o := rtl_out (rw_rtl w) in
    if a =? ce_base E + CTUCANFD_RX_DATA then
      (rxb_port_b_data_out o, bus_access read_strobe eq_refl (rw_script w) w)
    else if a =? ce_base E + CTUCANFD_RX_STATUS then (rx_status o, bus_access no_strobe eq_refl (rw_script w) w)
    else if a =? ce_base E + CTUCANFD_RX_MEM_INFO then (rx_mem_info o, bus_access no_strobe eq_refl (rw_script w) w)
    else let '(v, sc) := w_load32 a (rw_script w) in (v, bus_access no_strobe eq_refl sc w);
  w_store32 a v w :=
    if a =? ce_base E + CTUCANFD_COMMAND then bus_access (command_strobe v) eq_refl (rw_script w) w
    else if (a =? ce_base E + CTUCANFD_MODE) && mode_resets v then reset_world w
    else bus_access no_strobe eq_refl (rw_script w) w;
  w_call c w := let '(r, sc) := w_call c (rw_script w) in (r, bus_access no_strobe eq_refl sc w);
  w_alloc k w := let '(o, sc) := w_alloc k (rw_script w) in (o, bus_access no_strobe eq_refl sc w);
}.

#[export] Instance rtl_world_alloc_ok : AllocOk (rtl_world E).
Proof.
  intros k w cf w'. unfold w_alloc, rtl_world_world.
  destruct (script_world.(w_alloc) k (rw_script w)) as [o sc] eqn:Ea. intros [= -> _]. by eapply script_alloc_ok.
Qed.

(** ** The interfaces *)

Lemma access_fifo m Hm sc w :
  mr_command_rrb m = false →
  grows (if read_attempt m then tail (rtl_fifo w) else rtl_fifo w) (rtl_fifo (bus_access m Hm sc w)).
Proof.
  intros Hrrb. destruct (cycle_spec E m _ _ _ Hm (rw_ok w)) as [Hc Hg].
  destruct (idle_spec E (default 0%nat (head (rw_idle w))) _ _ _ Hc) as [_ Hi].
  eapply grows_trans; [by apply Hg|exact Hi].
Qed.

Lemma access_grows Hm sc w : grows (rtl_fifo w) (rtl_fifo (bus_access no_strobe Hm sc w)).
Proof. by apply (access_fifo no_strobe). Qed.

Lemma out_spec w : ∃ q, rtl_out (rw_rtl w) = q_out (G_RX_BUFF_SIZE (ce_width E)) q ∧ rtl_fifo w = q_words q ∧
  0 <= q_count q < 2 ^ 11 ∧ (q_count q = 0 ↔ q_words q = []) ∧
  Z.of_nat (length (q_words q)) <= G_RX_BUFF_SIZE (ce_width E).
Proof.
  destruct (rw_ok w) as (q & Hi & HR). pose proof (ce_width_ok E) as Hk. exists q.
  assert (5 <= ce_width E) as Hk' by lia. destruct (q_count_spec (ce_width E) Hk' _ _ q Hi) as [Hc He].
  assert (G_RX_BUFF_SIZE (ce_width E) <= 2 ^ 12) by (apply Z.pow_le_mono_r; lia).
  split_and!; [by eapply refines_out; [lia|..]|by apply rtl_words_spec|lia| |done|].
  - Z.div_mod_to_equations; lia.
  - pose proof (qi_size _ _ _ _ Hi) as Hs. unfold q_size in Hs. lia.
Qed.

Lemma rtl_head w : rxb_port_b_data_out (rtl_out (rw_rtl w)) = default 0 (head (rtl_fifo w)).
Proof. by destruct (out_spec w) as (q & -> & -> & _). Qed.

Lemma rtl_status w :
  let v := rx_status (rtl_out (rw_rtl w)) in
  is_u32 v ∧ (FIELD_GET REG_RX_STATUS_RXFRC v = 0 ↔ rtl_fifo w = []).
Proof.
  destruct (out_spec w) as (q & -> & -> & Hc & He & _). cbv zeta. rewrite <- He.
  unfold rx_status, REG_RX_STATUS_RXFRC. rewrite FIELD_GET_GENMASK by lia.
  set (o := q_out _ q). change (rx_frame_count o) with (q_count q).
  assert (0 <= Z.b2z (rx_empty o) + Z.b2z (rx_full o) * 2 + Z.b2z (rx_mof o) * 2 ^ 2 < 2 ^ 4).
  { destruct (rx_empty o), (rx_full o), (rx_mof o); simpl; lia. }
  rewrite low_field, Z.shiftr_0_r, Z.mod_small by lia. unfold is_u32. split; [lia|done].
Qed.

#[export] Instance rtl_world_rx : RxDevice (rtl_world E) (ce_base E) rtl_fifo.
Proof.
  split.
  - intros w v w'. unfold w_load32, rtl_world_world. rewrite Z.eqb_refl. intros [= <- <-].
    split; [apply rtl_head|]. by apply (access_fifo read_strobe).
  - intros a w v w' Ha. unfold w_load32, rtl_world_world.
    destruct (Z.eqb_spec a (ce_base E + CTUCANFD_RX_DATA)); [done|].
    destruct (a =? _); [intros [= _ <-]; apply access_grows|].
    destruct (a =? _); [intros [= _ <-]; apply access_grows|].
    destruct (script_world.(w_load32) _ _) as [v1 sc]. intros [= _ <-]. apply access_grows.
  - intros w v w'. unfold w_load32, rtl_world_world.
    replace (ce_base E + CTUCANFD_RX_STATUS =? ce_base E + CTUCANFD_RX_DATA) with false
      by (unfold CTUCANFD_RX_STATUS, CTUCANFD_RX_DATA; lia).
    rewrite Z.eqb_refl. intros [= <- _]. apply rtl_status.
  - intros a v w Ha Hv. unfold w_store32, rtl_world_world.
    destruct (Z.eqb_spec a (ce_base E + CTUCANFD_COMMAND)).
    + destruct Hv as [?| ->]; [done|]. by apply (access_fifo (command_strobe REG_COMMAND_CDO)).
    + destruct (Z.eqb_spec a (ce_base E + CTUCANFD_MODE)); [done|]. apply access_grows.
  - intros c w r w'. unfold w_call, rtl_world_world. destruct (script_world.(w_call) _ _). intros [= _ <-]. apply access_grows.
  - intros n w o w'. unfold w_alloc, rtl_world_world. destruct (script_world.(w_alloc) _ _). intros [= _ <-]. apply access_grows.
Qed.

Lemma reset_fifo w : rtl_fifo (reset_world w) = [].
Proof. unfold rtl_fifo, rtl_words. simpl. by rewrite Z.sub_diag. Qed.

#[export] Instance rtl_world_core : RxCore (rtl_world E) (ce_base E) rtl_fifo.
Proof.
  assert ((ce_base E + CTUCANFD_MODE =? ce_base E + CTUCANFD_COMMAND) = false) as Hne
    by (unfold CTUCANFD_MODE, CTUCANFD_COMMAND; lia).
  split.
  - intros w. unfold w_store32, rtl_world_world. rewrite Hne, Z.eqb_refl. apply reset_fifo.
  - intros v w. unfold w_store32, rtl_world_world. rewrite Hne, Z.eqb_refl. simpl. destruct (mode_resets v).
    + right. rewrite reset_fifo. apply grows_refl.
    + left. apply access_grows.
Qed.

#[export] Instance rtl_world_mem : RxMem (rtl_world E) (ce_base E) rtl_fifo.
Proof.
  intros w v w'. unfold w_load32, rtl_world_world.
  replace (ce_base E + CTU_CAN_FD_RX_MEM_INFO =? ce_base E + CTUCANFD_RX_DATA) with false
    by (unfold CTU_CAN_FD_RX_MEM_INFO, CTUCANFD_RX_DATA; lia).
  replace (ce_base E + CTU_CAN_FD_RX_MEM_INFO =? ce_base E + CTUCANFD_RX_STATUS) with false
    by (unfold CTU_CAN_FD_RX_MEM_INFO, CTUCANFD_RX_STATUS; lia).
  change CTUCANFD_RX_MEM_INFO with CTU_CAN_FD_RX_MEM_INFO. rewrite Z.eqb_refl. intros [= <- _].
  destruct (out_spec w) as (q & -> & -> & _ & _ & Hn). unfold rx_mem_info. simpl rx_mem_free.
  pose proof (ce_width_ok E) as Hk. pose proof (N_pos (ce_width E) (proj1 Hk)).
  assert (G_RX_BUFF_SIZE (ce_width E) <= 2 ^ 12) by (apply Z.pow_le_mono_r; lia).
  set (N := G_RX_BUFF_SIZE (ce_width E)) in *. set (n := Z.of_nat (length (q_words q))) in *.
  assert (0 <= n) by (unfold n; lia). rewrite (u32_small (N + _)) by (unfold is_u32; lia).
  change (bf_get ctu_can_fd_rx_mem_info "rx_buff_size"%string ?x) with (FIELD_GET (GENMASK 12 0) x).
  change (bf_get ctu_can_fd_rx_mem_info "rx_mem_free"%string ?x) with (FIELD_GET (GENMASK 28 16) x).
  rewrite !FIELD_GET_GENMASK by lia. rewrite Z.shiftr_0_r, low_field by lia. change (16 - 16) with 0. rewrite Z.shiftr_0_r.
  replace ((N + (N - n) * 2 ^ 16) mod 2 ^ (12 - 0 + 1)) with N.
  2: { replace (N + (N - n) * 2 ^ 16) with (N + ((N - n) * 8) * 2 ^ 13) by lia.
       change (12 - 0 + 1) with 13. rewrite Z_mod_plus_full, Z.mod_small; lia. }
  rewrite Z.mod_small, u32_small by (unfold is_u32; lia). unfold n.
  destruct (q_words q); simpl length; split; done || lia.
Qed.

End World.

(** C10: The RX buffer satisfies the interfaces of the drivers.  With any CAN core that keeps to the
    protocol after every reset, any size and technology, and any number of clock cycles between
    two accesses: a load of RX_DATA takes the oldest word, every other access only lets whole
    frames arrive, the frame count is 0 exactly when no word is there, a reset leaves nothing, and the
    free words equal the size exactly when the buffer is empty.  So what is proved of the reception of
    both drivers against these interfaces holds on this buffer. *)
Theorem rtl_buffer_contracts (E : core_env) :
  ∃ Hrx : RxDevice (rtl_world E) (ce_base E) rtl_fifo,
    RxCore (rtl_world E) (ce_base E) rtl_fifo ∧ RxMem (rtl_world E) (ce_base E) rtl_fifo.
Proof. exists rtl_world_rx. split; [apply rtl_world_core|apply rtl_world_mem]. Qed.

(** ** A run *)

(** A CAN core that goes through some cycles and is quiet then. *)
Definition can_list (md : metadata) (l : list can_in) (i : nat) : can_in := nth i l (can_quiet md).

Definition plain (l : list can_in) : list (can_in * reg_in) := (λ c, (c, no_strobe)) <$> l.

Lemma can_list_run md l n :
  can_run (can_list md l) (length l + n) = plain l ++ plain (replicate n (can_quiet md)).
Proof.
  unfold can_run, plain. rewrite seq_app, fmap_app. f_equal; apply list_eq; intros i; rewrite !list_lookup_fmap.
  - destruct (decide (i < length l)%nat) as [Hi|Hi].
    + rewrite lookup_seq_lt by done. simpl. unfold can_list.
      destruct (lookup_lt_is_Some_2 l i Hi) as [x Hx]. rewrite Hx. simpl. by rewrite (nth_lookup_Some _ _ _ _ Hx).
    + assert (l !! i = None) as -> by (apply lookup_ge_None; lia). by rewrite lookup_seq_ge by lia.
  - destruct (decide (i < n)%nat) as [Hi|Hi].
    + rewrite lookup_seq_lt, lookup_replicate_2 by done. simpl. unfold can_list. by rewrite nth_overflow by lia.
    + assert (replicate n (can_quiet md) !! i = None) as -> by (apply lookup_replicate_None; lia).
      by rewrite lookup_seq_ge by lia.
Qed.

Lemma quiet_run md n a :
  protocol false (can_quiet md) no_strobe (mon_init md) = true → mon_state a = s_rxb_idle →
  protocol_run false (plain (replicate n (can_quiet md))) a = true.
Proof.
  intros Hq. revert a. induction n as [|n IH]; intros a Ha; [done|]. simpl. apply andb_true_iff. split.
  - unfold protocol, asserted, relied_on, in_states in *. by rewrite Ha.
  - apply IH. unfold mon_tick. by rewrite Ha.
Qed.

Lemma can_list_ok md l n :
  protocol false (can_quiet md) no_strobe (mon_init md) = true →
  protocol_run false (plain l) (mon_init md) = true → mon_state (mon_end (plain l) (mon_init md)) = s_rxb_idle →
  protocol_run false (can_run (can_list md l) n) (mon_init md) = true.
Proof.
  intros Hq Hl Hs. pose proof (can_list_run md l n) as Hr.
  assert (protocol_run false (can_run (can_list md l) (length l + n)) (mon_init md) = true) as Hp.
  { rewrite Hr, protocol_run_app, Hl. simpl. by apply quiet_run. }
  rewrite Nat.add_comm in Hp. unfold can_run in *. rewrite seq_app, fmap_app, protocol_run_app in Hp.
  by apply andb_true_iff in Hp as [? _].
Qed.

(** Two frames arrive after the first reset. *)
Definition sample_can : list can_in := frame_cycles (md_dlc 2) [0xBBAA] ++ frame_cycles md0 [].

Definition sample_core (ep : nat) : nat → can_in := can_list md0 (match ep with O => sample_can | _ => [] end).

Lemma sample_core_ok ep n : protocol_run false (can_run (sample_core ep) n) (mon_init md0) = true.
Proof. apply can_list_ok; destruct ep; by vm_compute. Qed.

Definition sample_env : core_env :=
  {| ce_width := 5; ce_width_ok := ltac:(lia); ce_asic := true; ce_base := sample_base; ce_meta := md0;
     ce_can := sample_core; ce_ok := sample_core_ok |}.

Lemma power_up_ok : consistent sample_env (rtl_init 5 (replicate 32 0xDEAD) 0xBEEF) 0 0.
Proof.
  exists q_init. split; [by apply queue_inv_init|]. by apply refines_init.
Qed.

(** The first frame is complete when the poll begins, the second arrives during the poll. *)
Definition rtl_st : st net_device (rtl_world sample_env) :=
  mkst sample_dev (mkrw (E:=sample_env) _ 0 0 [15; 1; 1; 0; 1]%nat (mkscript [] [1] [true; true]) power_up_ok) [].

Example rtl_poll_run :
  wp (x ← ctucan_read32 CTUCANFD_STATUS; ctucan_rx_poll 16) rtl_st (λ wd s',
    wd = 2 ∧ rtl_fifo (world s') = [] ∧ (can_id <$> delivered (trace s')) = [0x123; 0x123] ∧
    (len <$> delivered (trace s')) = [2; 0]).
Proof. by vm_compute. Qed.
