(* ===== verification/Kvaser.v ===== *)
(** * The Kvaser logger: frames

    [kvaser.c] of [src/tools/Kvaser_logger/]: the generator of random frames and the access to
    two channels of a Kvaser interface.  Messages on the terminal are not modelled. *)

From Stdlib Require Import ZArith Lia.
From stdpp Require Import base numbers list strings.
From S2P Require Import Prelude LinuxDefs World Sim.

#[local] Open Scope string_scope.
#[local] Open Scope list_scope.
#[local] Open Scope Z_scope.

Definition EXIT_SUCCESS : Z := 0.
Definition EXIT_FAILURE : Z := 1.

(** [struct kvalt_can_frame] *)
Record kvalt_can_frame := mkkvf {
  data_length : Z;
  kv_id : Z;
  id_type : Z;
  fr_type : Z;
  kv_brs : Z;
  kv_rtr : Z;
  kv_data : list Z;
}.

(** [static canHandle hnd_chn_1, hnd_chn_2] and [stp_pid] of [stp.c] *)
Record logger := mklogger {
  hnd_chn_1 : Z;
  hnd_chn_2 : Z;
  stp_pid : Z;
}.

(** The constants of canlib. *)
Class Canlib := {
  canOK : Z;
  canOPEN_CAN_FD : Z;
  canOPEN_EXCLUSIVE : Z;
  canOPEN_REQUIRE_EXTENDED : Z;
  canFD_BITRATE_500K_80P : Z;
  canFD_BITRATE_2M_80P : Z;
  canMSG_RTR : Z;
  canMSG_EXT : Z;
  canMSG_STD : Z;
  canFDMSG_FDF : Z;
  canFDMSG_BRS : Z;
}.

Definition kvalt_dlc : list Z := [0; 1; 2; 3; 4; 5; 6; 7; 8; 12; 16; 20; 24; 32; 48; 64].

Section Kvaser.
Context {W : Type} `{World W} `{Canlib}.
Abbreviation ML := (M logger W).

Definition ucall_ (f : ucall) : ML unit := call_ (user f).

(** [check(id, stat)] *)
Definition kv_check (stat : Z) : ML unit :=
  when (negb (stat =? canOK)) (ucall_ (canGetErrorText stat)).

(** The label [ErrorExit] of [kvaser_init]. *)
Definition init_error_exit : ML Z :=
  h1 ← gets hnd_chn_1;
  h2 ← gets hnd_chn_2;
  _ ← call (user (canBusOff h1));
  stat ← call (user (canBusOff h2));
  kv_check stat;;
  _ ← call (user (canClose h1));
  stat ← call (user (canClose h2));
  kv_check stat;;
  stat ← call (user canUnloadLibrary);
  kv_check stat;;
  mret 1.

(** The settings of one channel; [false] for [goto ErrorExit]. *)
Definition init_channel (hnd : Z) : ML bool :=
  stat ← call (user (canSetBusParams hnd canFD_BITRATE_500K_80P));
  kv_check stat;;
  if negb (stat =? canOK) then mret false else
  stat ← call (user (canSetBusParamsFd hnd canFD_BITRATE_2M_80P));
  kv_check stat;;
  if negb (stat =? canOK) then mret false else
  stat ← call (user (canBusOn hnd));
  kv_check stat;;
  mret (stat =? canOK).

Definition open_flags : Z := Z.lor (Z.lor canOPEN_CAN_FD canOPEN_EXCLUSIVE) canOPEN_REQUIRE_EXTENDED.

Definition kvaser_init : ML Z :=
  ucall_ u_siginterrupt;;
  ucall_ canInitializeLibrary;;
  h1 ← call (user (canOpenChannel 0 open_flags));
  modify (λ l, mklogger h1 (hnd_chn_2 l) (stp_pid l));;
  h2 ← call (user (canOpenChannel 1 open_flags));
  modify (λ l, mklogger (hnd_chn_1 l) h2 (stp_pid l));;
  if h1 <? 0 then mret (-1) else
  if h2 <? 0 then mret (-1) else
  ok ← init_channel h1;
  if negb ok then init_error_exit else
  ok ← init_channel h2;
  if negb ok then init_error_exit else
  mret EXIT_SUCCESS.

(** [a[i]] of an array *)
Definition array_get (a : list Z) (i : Z) : ML Z :=
  if i <? 0 then undefined OutOfBounds else some_or OutOfBounds (a !! Z.to_nat i).

(** The loop over the data bytes, from byte [i], for [n] bytes: a byte outside of the array is
    undefined. *)
Fixpoint gen_data (n : nat) (i : nat) (d : list Z) : ML (list Z) :=
  match n with
  | O => mret d
  | S n' =>
      rval ← call (user u_rand);
      if decide (i < length d)%nat then gen_data n' (S i) (<[i := u8 (Z.rem rval 0xFF)]> d)
      else undefined OutOfBounds
  end.

(** The length of the data field from a random number. *)
Definition gen_length (fr brs rtr rval : Z) : ML Z :=
  if nz fr then
    if nz brs then array_get kvalt_dlc (Z.rem rval 16) else array_get kvalt_dlc (Z.rem rval 11)
  else if nz rtr then mret 0 else array_get kvalt_dlc (Z.rem rval 8).

(** [None] is the null pointer. *)
Definition generate_can_frame (frame : option kvalt_can_frame) : ML (Z * option kvalt_can_frame) :=
  match frame with
  | None => mret (EXIT_FAILURE, None)
  | Some _ =>
      rval ← call (user u_rand);
      let idt := u8 (Z.rem rval 2) in
      rval ← call (user u_rand);
      let fr := u8 (Z.rem rval 2) in
      rval ← call (user u_rand);
      let brs := if nz fr then u8 (Z.rem rval 2) else 0 in
      let rtr := if nz fr then 0 else u8 (Z.rem rval 2) in
      rval ← call (user u_rand);
      dl ← gen_length fr brs rtr rval;
      rval ← call (user u_rand);
      let id := if nz idt then Z.rem rval 536870912 else Z.rem rval 2048 in
      d ← gen_data (Z.to_nat dl) 0 (replicate 64 0);
      mret (EXIT_SUCCESS, Some (mkkvf dl id idt fr brs rtr d))
  end.

Definition send_flags (frame : kvalt_can_frame) : Z :=
  let flag := 0 in
  let flag := if nz (kv_rtr frame) then Z.lor flag canMSG_RTR else flag in
  let flag := if nz (id_type frame) then Z.lor flag canMSG_EXT else Z.lor flag canMSG_STD in
  let flag := if nz (fr_type frame) then Z.lor flag canFDMSG_FDF else flag in
  if nz (kv_brs frame) then Z.lor flag canFDMSG_BRS else flag.

(** The handle of a channel. *)
Definition channel_handle (channel : Z) : ML (option Z) :=
  if channel =? 0 then h ← gets hnd_chn_1; mret (Some h)
  else if channel =? 1 then h ← gets hnd_chn_2; mret (Some h)
  else mret None.

Definition kvaser_send_frame (frame : kvalt_can_frame) (channel : Z) : ML Z :=
  h ← channel_handle channel;
  match h with
  | None => mret EXIT_FAILURE
  | Some h =>
      stat ← call (user (canWrite h (kv_id frame) (kv_data frame) (data_length frame) (send_flags frame)));
      kv_check stat;;
      if negb (stat =? canOK) then mret EXIT_FAILURE else
      stat ← call (user (canWriteSync h 1000));
      kv_check stat;;
      if negb (stat =? canOK) then mret EXIT_FAILURE else
      mret EXIT_SUCCESS
  end.

(** What is read is not used by the logger: only the status is modelled. *)
Definition kvaser_read_frame (channel : Z) : ML Z :=
  h ← channel_handle channel;
  match h with
  | None => mret EXIT_FAILURE
  | Some h =>
      stat ← call (user (canReadWait h 100));
      mret (if stat =? canOK then EXIT_SUCCESS else EXIT_FAILURE)
  end.

End Kvaser.

(** ** What is generated *)

(** [rand] returns a number from 0 to [RAND_MAX], which is below 2^31. *)
Class RandOk (W : Type) `{World W} :=
  rand_range : ∀ w r w', w_call (user u_rand) w = (r, w') → 0 <= r < 2 ^ 31.

Definition is_bit (x : Z) : Prop := x = 0 ∨ x = 1.

(** A frame that can be sent: flags that are 0 or 1, RTR only in classic frames, BRS only in FD
    frames, a length that a DLC stands for, an identifier of its width. *)
Record frame_ok (f : kvalt_can_frame) : Prop := {
  fo_bits : is_bit (id_type f) ∧ is_bit (fr_type f) ∧ is_bit (kv_brs f) ∧ is_bit (kv_rtr f);
  fo_rtr : kv_rtr f = 1 → fr_type f = 0 ∧ data_length f = 0;
  fo_brs : kv_brs f = 1 → fr_type f = 1;
  fo_len : data_length f ∈ kvalt_dlc;
  fo_classic : fr_type f = 0 → data_length f <= 7;
  fo_slow : kv_brs f = 0 → data_length f <= 16;
  fo_id : 0 <= kv_id f < (if id_type f =? 0 then 2 ^ 11 else 2 ^ 29);
  fo_size : length (kv_data f) = 64%nat;
  fo_bytes : Forall (λ b, 0 <= b < 255) (kv_data f);
  fo_rest : ∀ i, data_length f <= Z.of_nat i → (i < 64)%nat → kv_data f !! i = Some 0;
}.

Section KvaserProofs.
Context {W : Type} `{World W} `{!RandOk W} `{Canlib}.
Implicit Types (s : st logger W).

(** From [s] to [s'] only random numbers were drawn. *)
Definition drew s s' : Prop :=
  drv s' = drv s ∧ ∃ rs, trace s' = trace s ++ ((λ r, EvCall (user u_rand) r) <$> rs).

Lemma drew_trans s s1 s2 : drew s s1 → drew s1 s2 → drew s s2.
Proof.
  intros [H1 [r1 T1]] [H2 [r2 T2]]. split; [congruence|]. exists (r1 ++ r2). by rewrite T2, T1, fmap_app, app_assoc.
Qed.

Lemma wp_rand s Q :
  (∀ r s', 0 <= r < 2 ^ 31 → drew s s' → Q r s') → wp (call (user u_rand)) s Q.
Proof.
  intros HQ. apply wp_call. intros r w' Hr. apply HQ; [by eapply rand_range|]. split; [done|]. by exists [r].
Qed.

Lemma rem_bit r : 0 <= r → is_bit (u8 (Z.rem r 2)).
Proof.
  intros Hr. rewrite Z.rem_mod_nonneg by lia. pose proof (Z.mod_pos_bound r 2 ltac:(lia)).
  unfold is_bit, u8. rewrite Z.mod_small by lia. lia.
Qed.

Lemma array_get_wp a i s Q :
  0 <= i < Z.of_nat (length a) → (∀ x, a !! Z.to_nat i = Some x → Q x s) → wp (array_get a i) s Q.
Proof.
  intros Hi HQ. unfold array_get. replace (i <? 0) with false by lia.
  destruct (lookup_lt_is_Some_2 a (Z.to_nat i)) as [x Hx]; [lia|]. rewrite Hx. by apply wp_ret, HQ.
Qed.

(** The entries of the table up to an index. *)
Lemma dlc_entry i x : kvalt_dlc !! i = Some x →
  x ∈ kvalt_dlc ∧ 0 <= x <= 64 ∧ ((i < 8)%nat → x <= 7) ∧ ((i < 11)%nat → x <= 16).
Proof.
  intros Hx. split; [by eapply list_elem_of_lookup_2|].
  do 16 (destruct i as [|i]; [injection Hx as <-; lia|]). done.
Qed.

Lemma gen_length_wp fr brs rtr r s Q :
  0 <= r → (rtr = 1 → fr = 0) → is_bit fr → is_bit brs → is_bit rtr → (brs = 1 → fr = 1) →
  (∀ x, x ∈ kvalt_dlc → 0 <= x <= 64 → (fr = 0 → x <= 7) → (brs = 0 → x <= 16) → (rtr = 1 → x = 0) → Q x s) →
  wp (gen_length fr brs rtr r) s Q.
Proof.
  intros Hr Hrf Hf Hb Ht Hbf HQ. unfold gen_length. rewrite !Z.rem_mod_nonneg by lia.
  pose proof (Z.mod_pos_bound r 16 ltac:(lia)). pose proof (Z.mod_pos_bound r 11 ltac:(lia)).
  pose proof (Z.mod_pos_bound r 8 ltac:(lia)).
  destruct Hf as [-> | ->]; cbn [nz Z.eqb negb].
  - destruct Ht as [-> | ->]; cbn [nz Z.eqb negb].
    + apply array_get_wp; [simpl; lia|]. intros x Hx. destruct (dlc_entry _ _ Hx) as (? & ? & H7 & H16).
      apply HQ; [done|lia|intros _; apply H7; lia|intros _; apply H16; lia|lia].
    + apply wp_ret, HQ; [by left|lia..].
  - destruct Hb as [-> | ->]; cbn [nz Z.eqb negb]; (apply array_get_wp; [simpl; lia|]); intros x Hx;
      destruct (dlc_entry _ _ Hx) as (? & ? & H7 & H16).
    + apply HQ; [done|lia|lia|intros _; apply H16; lia|]. intros Hrt. by apply Hrf in Hrt.
    + apply HQ; [done|lia|lia|lia|]. intros Hrt. by apply Hrf in Hrt.
Qed.

Lemma gen_data_wp n i d s Q :
  (i + n <= length d)%nat → Forall (λ b, 0 <= b < 255) d →
  (∀ d' s', drew s s' → length d' = length d → Forall (λ b, 0 <= b < 255) d' →
    (∀ j, (i + n <= j)%nat → d' !! j = d !! j) → Q d' s') →
  wp (gen_data n i d) s Q.
Proof.
  revert i d s. induction n as [|n IH]; intros i d s Hi Hd HQ; cbn [gen_data].
  { wp_step. apply HQ; [|done..]. split; [done|]. exists []. by rewrite app_nil_r. }
  wp_step. apply wp_rand. intros r s1 Hr Hs1. destruct (decide (i < length d)%nat); [|lia].
  apply IH; [rewrite length_insert; lia| |].
  - apply Forall_insert; [done|]. rewrite Z.rem_mod_nonneg by lia.
    pose proof (Z.mod_pos_bound r 0xFF ltac:(lia)). unfold u8. rewrite Z.mod_small; lia.
  - intros d' s' Hs' Hl Hf Hj. apply HQ; [by eapply drew_trans|by rewrite Hl, length_insert|done|].
    intros j Hij. rewrite Hj by lia. by rewrite list_lookup_insert_ne by lia.
Qed.

Lemma generate_can_frame_wp f0 s :
  wp (generate_can_frame (Some f0)) s (λ r s', drew s s' ∧
    fst r = EXIT_SUCCESS ∧ ∃ f, snd r = Some f ∧ frame_ok f).
Proof.
  unfold generate_can_frame. cbv zeta. wp_step. apply wp_rand. intros r1 s1 Hr1 E1. wp_step. apply wp_rand. intros r2 s2 Hr2 E2.
  wp_step. apply wp_rand. intros r3 s3 Hr3 E3. wp_step. apply wp_rand. intros r4 s4 Hr4 E4.
  pose proof (rem_bit r1 ltac:(lia)) as Hid. pose proof (rem_bit r2 ltac:(lia)) as Hfr. pose proof (rem_bit r3 ltac:(lia)) as Hb3.
  set (idt := u8 (Z.rem r1 2)) in *. set (fr := u8 (Z.rem r2 2)) in *.
  set (brs := if nz fr then u8 (Z.rem r3 2) else 0). set (rtr := if nz fr then 0 else u8 (Z.rem r3 2)).
  assert (Hbrs : is_bit brs ∧ (brs = 1 → fr = 1)).
  { unfold brs. destruct Hfr as [-> | ->]; cbn [nz Z.eqb negb]; [by split; [left|]|done]. }
  assert (Hrtr : is_bit rtr ∧ (rtr = 1 → fr = 0)).
  { unfold rtr. destruct Hfr as [-> | ->]; cbn [nz Z.eqb negb]; [done|by split; [left|]]. }
  destruct Hbrs as [Hbrs Hbf], Hrtr as [Hrtr Hrf]. clearbody idt fr brs rtr.
  wp_step. apply gen_length_wp; [lia|done..|]. intros x Hx Hx64 Hx7 Hx16 Hx0.
  wp_step. apply wp_rand. intros r5 s5 Hr5 E5. wp_step. apply gen_data_wp; [simpl; lia|by apply Forall_replicate|].
  intros d s6 E6 Hl Hd Hj. wp_step. split; [eauto 10 using drew_trans|]. split; [done|]. eexists. split; [reflexivity|].
  constructor; cbn; try done.
  - intros Hr. split; [auto|auto].
  - rewrite !Z.rem_mod_nonneg by lia. pose proof (Z.mod_pos_bound r5 536870912 ltac:(lia)).
    pose proof (Z.mod_pos_bound r5 2048 ltac:(lia)). destruct Hid as [-> | ->]; cbn [nz Z.eqb negb]; lia.
  - intros i Hi Hi64. rewrite Hj by lia. by apply lookup_replicate_2.
Qed.

(** C38: For every sequence of random numbers, [generate_can_frame] with a frame to fill returns 0
    and a well-formed frame: no byte outside of the array is written, RTR and BRS only occur in frames
    that have them, the length is one a DLC stands for (0 with RTR, at most 7 in classic
    frames, at most 16 in FD frames without BRS), the identifier fits its
    width, and the bytes behind the length are zero. *)
Theorem generate_can_frame_ok f0 s :
  wp (generate_can_frame (Some f0)) s (λ r s', drv s' = drv s ∧
    fst r = EXIT_SUCCESS ∧ ∃ f, snd r = Some f ∧ frame_ok f).
Proof. eapply wp_mono; [apply generate_can_frame_wp|]. by intros r s' [[? _] ?]. Qed.

End KvaserProofs.

(** ** A concrete run *)

(** A world whose random numbers come from a linear congruential generator. *)
Record lcg := mklcg { lcg_state : Z }.

#[export] Instance lcg_world : World lcg := {
  w_load32 _ w := (0, w);
  w_store32 _ _ w := w;
  w_call c w :=
    match c with
    | user u_rand => let x := (1103515245 * lcg_state w + 12345) mod 2 ^ 31 in (x / 2 ^ 16, mklcg x)
    | _ => (0, w)
    end;
  w_alloc _ w := (None, w);
}.

#[export] Instance lcg_rand_ok : RandOk lcg.
Proof.
  intros w r w' [= <- _]. pose proof (Z.mod_pos_bound (1103515245 * lcg_state w + 12345) (2 ^ 31) ltac:(lia)).
  split; [apply Z.div_pos; lia|]. apply Z.div_lt_upper_bound; lia.
Qed.

Definition lcg_st (seed : Z) : st logger lcg := mkst (mklogger 0 0 0) (mklcg seed) [].

Definition kv_empty : kvalt_can_frame := mkkvf 0 0 0 0 0 0 [].

(** The frame for a seed: a classic frame of two bytes. *)
Lemma generate_can_frame_witness :
  wp (generate_can_frame (Some kv_empty)) (lcg_st 7) (λ r _,
    fst r = EXIT_SUCCESS ∧ ∃ f, snd r = Some f ∧ frame_ok f ∧ data_length f = 2 ∧ kv_id f = 1811).
Proof.
  eapply wp_mono; [apply wp_and; [exact (generate_can_frame_ok kv_empty (lcg_st 7))|]|].
  - instantiate (1 := λ r _, (λ f, (data_length f, kv_id f)) <$> snd r = Some (2, 1811)). vm_compute. reflexivity.
  - intros r s' [(_ & Hr & f & Ef & Hf) Hx]. split; [exact Hr|]. exists f. rewrite Ef in Hx.
    injection Hx as H1 H2. split; [exact Ef|]. split; [exact Hf|]. split; [exact H1|exact H2].
Defined.
