(* ===== verification/Format.v ===== *)
(** * Formatted output

    What the logger of [src/tools/Kvaser_logger/] uses of [sprintf] and [fprintf]: decimal numbers with a
    minimal width, bytes as two hexadecimal digits, and the bound on the length of a number. *)

From Stdlib Require Import ZArith Lia Ascii.
From stdpp Require Import base numbers list strings pretty.
From S2P Require Import Prelude.

#[local] Open Scope string_scope.
#[local] Open Scope Z_scope.

(** ** Conversions *)

Fixpoint spaces (n : nat) : string :=
  match n with O => "" | S n' => String " " (spaces n') end.

(** [%<w>d] and [%<w>ld]; [%d] is [fmt_d 0]. *)
Definition fmt_d (w : nat) (x : Z) : string :=
  spaces (w - String.length (pretty x)) +:+ pretty x.

Definition hex_digit (x : Z) : ascii :=
  ascii_of_nat (Z.to_nat (if x <? 10 then 48 + x else 87 + x)).

(** [%02x] of an [unsigned char] *)
Definition fmt_02x (b : Z) : string := String (hex_digit (b / 16)) (String (hex_digit (b mod 16)) "").

(** ** Strings *)

Lemma string_length_app s t : String.length (s +:+ t) = (String.length s + String.length t)%nat.
Proof. induction s as [|c s IH]; simpl; [done|]. by rewrite IH. Qed.

(** Fixed-width fields can be told apart. *)
Lemma string_app_inj s1 s2 t1 t2 :
  String.length s1 = String.length s2 → s1 +:+ t1 = s2 +:+ t2 → s1 = s2 ∧ t1 = t2.
Proof.
  revert s2. induction s1 as [|c s1 IH]; intros [|c2 s2]; try done. simpl. intros [= Hl] [= -> Ht].
  destruct (IH _ Hl Ht) as [-> ->]. done.
Qed.

Lemma spaces_length n : String.length (spaces n) = n.
Proof. induction n as [|n IH]; simpl; [done|]. by rewrite IH. Qed.

(** ** Decimal numbers *)

Lemma pretty_N_go_length n x s :
  (x < 10 ^ N.of_nat n)%N → (String.length (pretty_N_go x s) <= n + String.length s)%nat.
Proof.
  revert x s. induction n as [|n IH]; intros x s Hx.
  - replace x with 0%N by (simpl in Hx; lia). rewrite pretty_N_go_0. lia.
  - destruct (decide (x = 0)%N) as [->|Hx0]; [rewrite pretty_N_go_0; lia|].
    rewrite pretty_N_go_step by lia. etrans; [apply IH|simpl; lia].
    apply N.Div0.div_lt_upper_bound. by rewrite Nat2N.inj_succ, N.pow_succ_r' in Hx.
Qed.

Lemma pretty_length n x :
  (0 < n)%nat → 0 <= x < 10 ^ Z.of_nat n → (String.length (pretty x) <= n)%nat.
Proof.
  intros Hn Hx. destruct x as [|p|p]; [simpl; lia| |lia].
  change (pretty (Z.pos p)) with (pretty (N.pos p)). unfold pretty, pretty_N. rewrite decide_False by done.
  etrans; [apply (pretty_N_go_length n)|simpl; lia]. zify. lia.
Qed.

Lemma pretty_N_go_ne_space x s s' : s ≠ String " " s' → pretty_N_go x s ≠ String " " s'.
Proof.
  revert s. induction (N.lt_wf_0 x) as [x _ IH]; intros s ?.
  destruct (decide (x = 0)%N) as [->|Hx]; [by rewrite pretty_N_go_0|].
  rewrite pretty_N_go_step by lia. apply IH; [by apply N.div_lt; lia|]. unfold pretty_N_char. by repeat case_match.
Qed.

Lemma pretty_ne_space x s : 0 <= x → pretty x ≠ String " " s.
Proof.
  intros Hx. destruct x as [|p|p]; [done| |lia].
  change (pretty (Z.pos p)) with (pretty (N.pos p)). unfold pretty, pretty_N. rewrite decide_False by done.
  by apply pretty_N_go_ne_space.
Qed.

Lemma fmt_d_length w x :
  (0 < w)%nat → 0 <= x < 10 ^ Z.of_nat w → String.length (fmt_d w x) = w.
Proof.
  intros Hw Hx. pose proof (pretty_length w x Hw Hx). unfold fmt_d. rewrite string_length_app, spaces_length. lia.
Qed.

Lemma spaces_app_inj m n s t :
  (∀ u, s ≠ String " " u) → (∀ u, t ≠ String " " u) → spaces m +:+ s = spaces n +:+ t → s = t.
Proof.
  intros Hs Ht. revert n. induction m as [|m IH]; intros [|n] E; simpl in E; [done| | |].
  - by destruct (Hs (spaces n +:+ t)).
  - by destruct (Ht (spaces m +:+ s)).
  - injection E as E. by eapply IH.
Qed.

(** A number can be read back from its field. *)
Lemma fmt_d_inj w x y : 0 <= x → 0 <= y → fmt_d w x = fmt_d w y → x = y.
Proof.
  intros Hx Hy E. apply spaces_app_inj in E; [by apply (inj pretty)|intros u; by apply pretty_ne_space..].
Qed.

(** ** Bytes *)

Lemma hex_digit_inj x y : 0 <= x < 16 → 0 <= y < 16 → hex_digit x = hex_digit y → x = y.
Proof.
  intros Hx Hy E. unfold hex_digit in E. apply (f_equal nat_of_ascii) in E.
  rewrite !nat_ascii_embedding in E; repeat case_match; lia.
Qed.

Lemma fmt_02x_inj a b : 0 <= a < 256 → 0 <= b < 256 → fmt_02x a = fmt_02x b → a = b.
Proof.
  intros Ha Hb [= H1 H2]. apply hex_digit_inj in H1, H2;
    try (apply Z.mod_pos_bound; lia); try (split; [apply Z.div_pos|apply Z.div_lt_upper_bound]; lia).
  rewrite (Z.div_mod a 16), (Z.div_mod b 16) by lia. lia.
Qed.
