(* ===== verification/StpLog.v ===== *)
(** * The Kvaser logger: logged samples

    [data_processor.c] of [src/tools/Kvaser_logger/]: the samples that the logic analyzer
    exported as text are parsed and written as a run-length code. *)

From Stdlib Require Import ZArith Lia Ascii Sorted.
From stdpp Require Import base numbers list strings pretty.
From S2P Require Import Prelude LinuxDefs World Kvaser.

#[local] Open Scope string_scope.
#[local] Open Scope list_scope.
#[local] Open Scope Z_scope.

(** ** Regular expressions

    The part of POSIX basic regular expressions the parser uses: a sequence of character sets, each
    once or repeated ([*]). *)
Inductive re_item :=
  | Once (p : ascii → bool)
  | Many (p : ascii → bool).

(** A match of [re] at the start of [s]. *)
Fixpoint re_here (re : list re_item) (s : list ascii) : bool :=
  match re with
  | [] => true
  | Once p :: re' => match s with c :: s' => p c && re_here re' s' | [] => false end
  | Many p :: re' =>
      (fix many (s : list ascii) : bool :=
         re_here re' s || match s with c :: s' => p c && many s' | [] => false end) s
  end.

(** [regexec]: a match anywhere. *)
Fixpoint re_search (re : list re_item) (s : list ascii) : bool :=
  re_here re s || match s with [] => false | _ :: s' => re_search re s' end.

Definition is_char (c : ascii) : ascii → bool := Ascii.eqb c.
Definition is_digit (c : ascii) : bool := (48 <=? Z.of_nat (nat_of_ascii c)) && (Z.of_nat (nat_of_ascii c) <=? 57).
Definition any_char (c : ascii) : bool := true.

(** ["[ ]*[0-9]*.[0-9]> [0-9] = [0-9]*"] *)
Definition sample_re : list re_item :=
  [Many (is_char " "); Many is_digit; Once any_char; Once is_digit; Once (is_char ">"); Once (is_char " ");
   Once is_digit; Once (is_char " "); Once (is_char "="); Once (is_char " "); Many is_digit].

(** ** Reading lines *)

Definition NUL : ascii := Ascii.zero.
Definition newline : ascii := "010".

(** The string in a buffer. *)
Fixpoint c_string (buf : list ascii) : list ascii :=
  match buf with
  | [] => []
  | c :: buf' => if Ascii.eqb c NUL then [] else c :: c_string buf'
  end.

(** [fgets] of at most [n] characters: the characters read, the rest of the file, and whether the end
    of the file was hit. *)
Fixpoint read_line (n : nat) (file : list ascii) : list ascii * list ascii * bool :=
  match n with
  | O => ([], file, false)
  | S n' =>
      match file with
      | [] => ([], [], true)
      | c :: file' =>
          if Ascii.eqb c newline then ([c], file', false)
          else let '(l, rest, eof) := read_line n' file' in (c :: l, rest, eof)
      end
  end.

(** [fgets(line_buf, 30, stp)]: the buffer (unchanged when nothing was read), the rest and
    [feof(stp)]. *)
Definition fgets30 (buf file : list ascii) : list ascii * list ascii * bool :=
  let '(l, rest, eof) := read_line 29 file in
  (match l with [] => buf | _ => l ++ [NUL] ++ drop (S (length l)) buf end, rest, eof).

(** [strcspn(line, "=")] *)
Fixpoint strcspn_eq (l : list ascii) : nat :=
  match l with
  | [] => 0
  | c :: l' => if Ascii.eqb c "=" then 0 else S (strcspn_eq l')
  end.

(** ** The parser *)

(** The variables of the loop of [parse_stp_output]. *)
Record parse_state := mkps {
  first_sample : bool;
  eq_pos : nat;
  prev_val : ascii;
  eq_count : Z;
}.

(** One matching line: what is written, and the new state.  [None]: the buffer is read out of bounds
    or the counter overflows. *)
Definition parse_line (ps : parse_state) (buf : list ascii) : option (list (Z * ascii) * parse_state) :=
  if negb (first_sample ps)
  then Some ([], mkps true (strcspn_eq (c_string buf)) (prev_val ps) (eq_count ps))
  else
    v ← buf !! (eq_pos ps + 2)%nat;
    if negb (Ascii.eqb (prev_val ps) v)
    then Some ([(eq_count ps, prev_val ps)], mkps true (eq_pos ps) v 0)
    else if eq_count ps =? 2 ^ 31 - 1 then None
    else Some ([], mkps true (eq_pos ps) v (eq_count ps + 1)).

(** The loop: the pairs of a count and a value in the order in which they are written. *)
Fixpoint parse_loop (fuel : nat) (ps : parse_state) (buf file : list ascii) : option (list (Z * ascii)) :=
  match fuel with
  | O => None
  | S fuel' =>
      let '(buf, rest, eof) := fgets30 buf file in
      if (eof : bool) then Some [(eq_count ps, prev_val ps)]
      else if negb (re_search sample_re (c_string buf)) then parse_loop fuel' ps buf rest
      else
        r ← parse_line ps buf;
        out ← parse_loop fuel' (snd r) buf rest;
        Some (fst r ++ out)
  end.

(** [parse_stp_output] writes these pairs; the contents of the buffer are arbitrary at first.
    Every iteration but the last one reads a character. *)
Definition parse_stp_output (buf file : list ascii) : option (list (Z * ascii)) :=
  parse_loop (S (length file)) (mkps false 0 "0" 0) buf file.

(** ** The language of an expression *)

Inductive re_lang : list re_item → list ascii → Prop :=
  | re_lang_nil : re_lang [] []
  | re_lang_once p c re s : p c = true → re_lang re s → re_lang (Once p :: re) (c :: s)
  | re_lang_done p re s : re_lang re s → re_lang (Many p :: re) s
  | re_lang_many p c re s : p c = true → re_lang (Many p :: re) s → re_lang (Many p :: re) (c :: s).

Lemma re_here_many p re s :
  re_here (Many p :: re) s =
    re_here re s || match s with c :: s' => p c && re_here (Many p :: re) s' | [] => false end.
Proof. by destruct s. Qed.

(** The matcher finds a match at the start exactly if a prefix is in the language. *)
Lemma re_here_spec re s : re_here re s = true ↔ ∃ s1 s2, s = s1 ++ s2 ∧ re_lang re s1.
Proof.
  split.
  - revert s. induction re as [|[p|p] re IH]; intros s Hs.
    + exists [], s. split; [done|constructor].
    + destruct s as [|c s]; [done|]. apply andb_true_iff in Hs as [Hc Hs].
      destruct (IH s Hs) as (s1 & s2 & -> & Hl). exists (c :: s1), s2. split; [done|by constructor].
    + induction s as [|c s IHs]; rewrite re_here_many in Hs; apply orb_true_iff in Hs as [Hs|Hs].
      * destruct (IH _ Hs) as (s1 & s2 & ? & ?). exists s1, s2. split; [done|by constructor].
      * done.
      * destruct (IH _ Hs) as (s1 & s2 & ? & ?). exists s1, s2. split; [done|by constructor].
      * apply andb_true_iff in Hs as [Hc Hs]. destruct (IHs Hs) as (s1 & s2 & -> & ?).
        exists (c :: s1), s2. split; [done|by constructor].
  - intros (s1 & s2 & -> & Hl). induction Hl as [|p c re s Hp Hl IH|p re s Hl IH|p c re s Hp Hl IH]; [done| | |].
    + cbn. by rewrite Hp.
    + rewrite re_here_many. by rewrite IH.
    + rewrite re_here_many. cbn [app]. by rewrite Hp, IH, orb_true_r.
Qed.

Lemma re_search_spec re s : re_search re s = true ↔ ∃ s0 s1 s2, s = s0 ++ s1 ++ s2 ∧ re_lang re s1.
Proof.
  induction s as [|c s IH]; cbn [re_search].
  - rewrite orb_false_r, re_here_spec. split.
    + intros (s1 & s2 & ? & ?). by exists [], s1, s2.
    + intros ([|? s0] & s1 & s2 & ? & ?); [by exists s1, s2|done].
  - rewrite orb_true_iff, re_here_spec, IH. split.
    + intros [(s1 & s2 & ? & ?)|(s0 & s1 & s2 & -> & ?)]; [by exists [], s1, s2|by exists (c :: s0), s1, s2].
    + intros ([|c' s0] & s1 & s2 & E & ?); [left; by exists s1, s2|right]. injection E as <- ->. by exists s0, s1, s2.
Qed.

Lemma re_lang_once_inv p re s : re_lang (Once p :: re) s → ∃ c s', s = c :: s' ∧ p c = true ∧ re_lang re s'.
Proof. inversion 1; eauto. Qed.

Lemma re_lang_many_inv p re s : re_lang (Many p :: re) s → ∃ s0 s', s = s0 ++ s' ∧ re_lang re s'.
Proof.
  remember (Many p :: re) as l eqn:E. intros Hl. induction Hl as [| |q re' s Hl IH|q c re' s Hq Hl IH]; try done.
  - injection E as -> ->. by exists [], s.
  - destruct (IH E) as (s0 & s' & -> & ?). by exists (c :: s0), s'.
Qed.

(** A line that matches has a [=] that is followed by a blank. *)
Lemma sample_re_eq s : re_search sample_re s = true → ∃ pre post, s = pre ++ "="%char :: " "%char :: post.
Proof.
  intros (s0 & s1 & s2 & -> & Hl)%re_search_spec. unfold sample_re in Hl.
  apply re_lang_many_inv in Hl as (a & t1 & -> & Hl). apply re_lang_many_inv in Hl as (b & t2 & -> & Hl).
  do 8 (let c := fresh "c" in let t := fresh "t" in apply re_lang_once_inv in Hl as (c & t & -> & ? & Hl)).
  repeat match goal with H : is_char _ _ = true |- _ => apply Ascii.eqb_eq in H; subst end.
  eexists (s0 ++ a ++ b ++ [_; _; _; _; _; _]), _. rewrite <- !app_assoc. cbn. reflexivity.
Qed.

(** ** Files of lines *)

(** A line that fits the buffer. *)
Record line_ok (l : list ascii) : Prop := {
  lo_length : (length l <= 28)%nat;
  lo_newline : newline ∉ l;
  lo_nul : NUL ∉ l;
}.

Definition file_of (lines : list (list ascii)) : list ascii := concat ((λ l, l ++ [newline]) <$> lines).

Definition is_sample (l : list ascii) : bool := re_search sample_re (l ++ [newline]).

(** The value on a line when its [=] is at position [p]. *)
Definition sample_at (p : nat) (l : list ascii) : option ascii := (l ++ [newline]) !! (p + 2)%nat.

Definition samples (lines : list (list ascii)) : list (list ascii) := filter is_sample lines.

(** The run-length code: [count] values [prev] came before. *)
Fixpoint run_lengths (count : Z) (prev : ascii) (vs : list ascii) : list (Z * ascii) :=
  match vs with
  | [] => [(count, prev)]
  | v :: vs' =>
      if Ascii.eqb prev v then run_lengths (count + 1) prev vs' else (count, prev) :: run_lengths 0 v vs'
  end.

(** *** The documented code

    [data_processor.h]: a list of pairs of a number and a value, where the number is that of the consecutive
    occurrences of the value; [4 0 5 1 3 0] stands for [000011111000]. *)
Definition expand_doc (out : list (Z * ascii)) : list ascii :=
  concat ((λ kv, replicate (Z.to_nat kv.1) kv.2) <$> out).

(** A code for the values [vs] in this format: it starts with the (possibly empty) run of [0], the value before the
    first one as the program has it, the further runs are not empty, and neighbouring runs have different values. *)
Record doc_code (vs : list ascii) (code : list (Z * ascii)) : Prop := {
  dc_values : expand_doc code = vs;
  dc_first : ∃ k code', code = (k, "0"%char) :: code' ∧ 0 <= k;
  dc_counts : Forall (λ kv, 1 <= kv.1) (tail code);
  dc_changes : Sorted (λ a b, a.2 ≠ b.2) code;
}.

(** Every count but the first one is one less. *)
Definition short_run (kv : Z * ascii) : Z * ascii := (kv.1 - 1, kv.2).
Definition one_short (code : list (Z * ascii)) : list (Z * ascii) :=
  match code with [] => [] | kv :: code' => kv :: (short_run <$> code') end.

(** The code in the documented format: [count] values [prev] came before. *)
Fixpoint doc_runs (count : Z) (prev : ascii) (vs : list ascii) : list (Z * ascii) :=
  match vs with
  | [] => [(count, prev)]
  | v :: vs' =>
      if Ascii.eqb prev v then doc_runs (count + 1) prev vs' else (count, prev) :: doc_runs 1 v vs'
  end.

(** What the program writes of a run that follows another one. *)
Lemma run_lengths_later vs : ∀ count prev, run_lengths count prev vs = short_run <$> doc_runs (count + 1) prev vs.
Proof.
  induction vs as [|v vs IH]; intros count prev; cbn [run_lengths doc_runs].
  - unfold short_run. cbn. by rewrite Z.add_simpl_r.
  - destruct (Ascii.eqb prev v); [apply IH|]. rewrite IH, fmap_cons. unfold short_run at 2. cbn.
    by rewrite Z.add_simpl_r.
Qed.

Lemma run_lengths_first vs : ∀ count prev, run_lengths count prev vs = one_short (doc_runs count prev vs).
Proof.
  induction vs as [|v vs IH]; intros count prev; cbn [run_lengths doc_runs]; [done|].
  destruct (Ascii.eqb prev v); [apply IH|]. cbn [one_short]. by rewrite run_lengths_later.
Qed.

Lemma doc_runs_head vs : ∀ count prev, ∃ k code', doc_runs count prev vs = (k, prev) :: code' ∧ count <= k.
Proof.
  induction vs as [|v vs IH]; intros count prev; cbn [doc_runs]; [by exists count, []|].
  destruct (Ascii.eqb prev v); [|by eexists count, _].
  destruct (IH (count + 1) prev) as (k & code' & E & ?). exists k, code'. split; [done|lia].
Qed.

Lemma replicate_more {A} k (v : A) vs : replicate (S k) v ++ vs = replicate k v ++ v :: vs.
Proof. by rewrite replicate_S_end, <- app_assoc. Qed.

Lemma doc_runs_expand vs : ∀ count prev, 0 <= count →
  expand_doc (doc_runs count prev vs) = replicate (Z.to_nat count) prev ++ vs.
Proof.
  unfold expand_doc. induction vs as [|v vs IH]; intros count prev Hc; cbn [doc_runs]; [done|].
  destruct (Ascii.eqb_spec prev v) as [->|Hne].
  - by rewrite IH, Z2Nat.inj_add, Nat.add_1_r, replicate_more by lia.
  - rewrite fmap_cons. cbn [concat]. by rewrite IH by lia.
Qed.

Lemma doc_runs_counts vs : ∀ count prev, Forall (λ kv, 1 <= kv.1) (tail (doc_runs count prev vs)).
Proof.
  induction vs as [|v vs IH]; intros count prev; cbn [doc_runs]; [constructor|].
  destruct (Ascii.eqb prev v); [apply IH|]. cbn [tail].
  destruct (doc_runs_head vs 1 v) as (k & code' & E & Hk). specialize (IH 1 v). rewrite E in *. by constructor.
Qed.

Lemma doc_runs_changes vs : ∀ count prev, Sorted (λ a b, a.2 ≠ b.2) (doc_runs count prev vs).
Proof.
  induction vs as [|v vs IH]; intros count prev; cbn [doc_runs]; [by repeat constructor|].
  destruct (Ascii.eqb_spec prev v) as [|Hne]; [apply IH|]. constructor; [apply IH|].
  destruct (doc_runs_head vs 1 v) as (k & code' & -> & _). by constructor.
Qed.

Lemma doc_runs_code vs : doc_code vs (doc_runs 0 "0" vs).
Proof.
  constructor.
  - by rewrite doc_runs_expand.
  - apply doc_runs_head.
  - apply doc_runs_counts.
  - apply doc_runs_changes.
Qed.

(** A code is determined by its values. *)
Lemma doc_runs_replicate n vs : ∀ count prev,
  doc_runs count prev (replicate n prev ++ vs) = doc_runs (count + Z.of_nat n) prev vs.
Proof.
  induction n as [|n IH]; intros count prev; cbn [replicate app doc_runs].
  - by rewrite Z.add_0_r.
  - rewrite Ascii.eqb_refl, IH. f_equal. lia.
Qed.

Lemma doc_runs_of_code code : ∀ count k prev,
  0 <= count <= k → Forall (λ kv, 1 <= kv.1) code → Sorted (λ a b, a.2 ≠ b.2) ((k, prev) :: code) →
  doc_runs count prev (replicate (Z.to_nat (k - count)) prev ++ expand_doc code) = (k, prev) :: code.
Proof.
  induction code as [|[k' v] code IH]; intros count k prev Hk Hc Hs; rewrite doc_runs_replicate.
  - cbn. do 2 f_equal. lia.
  - apply Sorted_inv in Hs as [Hs Hd%HdRel_inv]. apply Forall_cons in Hc as [Hk' Hc]. cbn [fst snd] in *.
    unfold expand_doc. rewrite fmap_cons. cbn [concat fst snd]. fold (expand_doc code).
    replace (Z.to_nat k') with (S (Z.to_nat (k' - 1))) by lia. cbn [replicate app doc_runs].
    destruct (Ascii.eqb_spec prev v); [done|]. rewrite IH by (done || lia). do 2 f_equal. lia.
Qed.

Lemma doc_code_unique vs code code' : doc_code vs code → doc_code vs code' → code = code'.
Proof.
  enough (Hu : ∀ code, doc_code vs code → code = doc_runs 0 "0" vs).
  { intros H1%Hu H2%Hu. congruence. }
  clear. intros code [<- (k & code' & -> & Hk) Hc Hs]. symmetry. unfold expand_doc. rewrite fmap_cons. cbn [concat fst snd].
  rewrite <- (Z.sub_0_r k) at 1. apply doc_runs_of_code; [lia|done|done].
Qed.

(** Read as documented, the shortened code loses a value of every run but the first one. *)
Lemma one_short_length k v code : Forall (λ kv, 1 <= kv.1) code →
  (length (expand_doc (one_short ((k, v) :: code))) + length code = length (expand_doc ((k, v) :: code)))%nat.
Proof.
  unfold expand_doc. cbn [one_short]. rewrite !fmap_cons. cbn [concat]. rewrite !length_app.
  induction 1 as [|[k' v'] code Hk Hc IH]; [done|]. rewrite !fmap_cons. cbn [concat length fst snd short_run] in *.
  rewrite !length_app, !length_replicate. lia.
Qed.

Lemma one_short_doc vs code : doc_code vs code →
  expand_doc (one_short code) = vs ↔ Forall (eq "0"%char) vs.
Proof.
  intros [<- (k & code' & -> & Hk) Hc Hs]. cbn [tail] in Hc. split.
  - intros E%(f_equal length). pose proof (one_short_length k "0" code' Hc) as Hl.
    destruct code' as [|kv code']; [|cbn [length] in Hl; lia]. unfold expand_doc. cbn. rewrite app_nil_r.
    by apply Forall_replicate.
  - destruct code' as [|[k' v] code']; [done|]. intros Hall. exfalso.
    apply Sorted_inv in Hs as [_ Hd%HdRel_inv]. apply Hd. cbn [snd]. apply Forall_cons in Hc as [Hk' _]. cbn [fst] in Hk'.
    rewrite Forall_forall in Hall. apply Hall. unfold expand_doc. rewrite !fmap_cons. cbn [concat fst snd].
    rewrite !elem_of_app. right. left. apply elem_of_replicate. split; [done|lia].
Qed.

(** *** Reading a line *)

Lemma read_line_ok l rest n :
  newline ∉ l → (length l < n)%nat → read_line n (l ++ newline :: rest) = (l ++ [newline], rest, false).
Proof.
  revert n. induction l as [|c l IH]; intros [|n] Hl Hn; cbn [length] in Hn; try lia; cbn [read_line app].
  - by rewrite Ascii.eqb_refl.
  - rewrite elem_of_cons in Hl. destruct (Ascii.eqb_spec c newline) as [->|_]; [tauto|].
    rewrite IH by (tauto || lia). done.
Qed.

Lemma c_string_app l rest : NUL ∉ l → c_string (l ++ NUL :: rest) = l.
Proof.
  induction l as [|c l IH]; intros Hl; cbn [c_string app]; [by rewrite Ascii.eqb_refl|].
  rewrite elem_of_cons in Hl. destruct (Ascii.eqb_spec c NUL) as [->|_]; [tauto|]. by rewrite IH by tauto.
Qed.

Lemma strcspn_le l pre post : l = pre ++ "="%char :: post → (strcspn_eq l <= length pre)%nat.
Proof.
  revert l. induction pre as [|c pre IH]; intros l ->; cbn [strcspn_eq app]; [by rewrite Ascii.eqb_refl|].
  destruct (Ascii.eqb c "="); [lia|]. cbn [length]. specialize (IH _ eq_refl). lia.
Qed.

(** The value of a matching line is on the line. *)
Lemma sample_at_some l :
  is_sample l = true → is_Some (sample_at (strcspn_eq (l ++ [newline])) l).
Proof.
  intros Hl. apply sample_re_eq in Hl as (pre & post & E).
  unfold sample_at. apply lookup_lt_is_Some_2. pose proof (strcspn_le _ _ _ E) as Hle.
  destruct post as [|c post].
  { exfalso. assert (Hlast : last (l ++ [newline]) = last (pre ++ ["="; " "]%char)) by by rewrite E.
    rewrite last_snoc, last_app in Hlast. done. }
  rewrite E in Hle |- *. rewrite length_app. cbn [length]. lia.
Qed.

(** *** The parser on a file of lines *)

Lemma fgets30_line buf l rest :
  length buf = 30%nat → line_ok l →
  ∃ buf', fgets30 buf (l ++ newline :: rest) = (buf', rest, false) ∧ length buf' = 30%nat ∧
    c_string buf' = l ++ [newline] ∧ ∀ i, (i <= length l)%nat → buf' !! i = (l ++ [newline]) !! i.
Proof.
  intros Hb [Hl Hn H0]. unfold fgets30. rewrite read_line_ok by (done || lia).
  exists ((l ++ [newline]) ++ NUL :: drop (S (length (l ++ [newline]))) buf).
  split; [by destruct l|]. split; [|split].
  - rewrite length_app. cbn [length]. rewrite length_drop, length_app. cbn [length]. lia.
  - apply c_string_app. rewrite elem_of_app, list_elem_of_singleton. intros [?|?]; done.
  - intros i Hi. rewrite lookup_app_l; [done|]. rewrite length_app. cbn. lia.
Qed.

(** From the second sample on. *)
Lemma parse_loop_samples p lines fuel prev count buf :
  length buf = 30%nat → Forall line_ok lines → (length lines < fuel)%nat →
  0 <= count → count + Z.of_nat (length lines) < 2 ^ 31 →
  (∀ l, l ∈ samples lines → strcspn_eq (l ++ [newline]) = p) →
  ∃ vs, sample_at p <$> samples lines = Some <$> vs ∧
    parse_loop fuel (mkps true p prev count) buf (file_of lines) = Some (run_lengths count prev vs).
Proof.
  revert fuel prev count buf. induction lines as [|l lines IH]; intros [|fuel] prev count buf Hb Hok Hf Hc Hn Hp;
    cbn [length] in *; try lia.
  - exists []. split; [done|]. cbn. done.
  - apply Forall_cons in Hok as [Hl Hok]. unfold file_of. cbn [fmap list_fmap concat].
    rewrite <- app_assoc. cbn [app]. fold (file_of lines).
    destruct (fgets30_line buf l (file_of lines) Hb Hl) as (buf' & E & Hb' & Hs & Hi).
    cbn [parse_loop]. rewrite E, Hs. fold (is_sample l).
    assert (Hp' : ∀ k, k ∈ samples lines → strcspn_eq (k ++ [newline]) = p).
    { intros k Hk. apply Hp. unfold samples in *. apply list_elem_of_filter in Hk as [? ?].
      apply list_elem_of_filter. split; [done|by right]. }
    destruct (is_sample l) eqn:Em; cbn [negb].
    + assert (Hpl : strcspn_eq (l ++ [newline]) = p).
      { apply Hp. unfold samples. apply list_elem_of_filter. split; [by apply Is_true_true|by left]. }
      destruct (sample_at_some l Em) as [v Hv]. rewrite Hpl in Hv.
      assert (Hbv : buf' !! (p + 2)%nat = Some v).
      { rewrite Hi; [exact Hv|]. apply lookup_lt_Some in Hv. rewrite length_app in Hv. cbn in Hv. lia. }
      unfold parse_line. cbn [first_sample negb eq_pos prev_val eq_count]. rewrite Hbv. cbn [mbind option_bind].
      unfold samples in *. rewrite filter_cons_True by (by rewrite Em). rewrite fmap_cons, Hv.
      destruct (Ascii.eqb_spec prev v) as [->|Hne]; cbn [negb].
      * replace (count =? 2 ^ 31 - 1) with false by lia. cbn [mbind option_bind fst snd app].
        destruct (IH fuel v (count + 1) buf') as (vs & Hvs & ->); try done; try lia.
        exists (v :: vs). rewrite Hvs. split; [done|]. cbn. by rewrite Ascii.eqb_refl.
      * cbn [mbind option_bind fst snd]. destruct (IH fuel v 0 buf') as (vs & Hvs & ->); try done; try lia.
        exists (v :: vs). rewrite Hvs. split; [done|]. cbn. destruct (Ascii.eqb_spec prev v); done.
    + destruct (IH fuel prev count buf') as (vs & Hv & Hrun); try done; try lia.
      exists vs. split; [|done]. unfold samples in *. rewrite filter_cons_False by (by rewrite Em; intros []). done.
Qed.

Lemma file_of_length lines : (length lines <= length (file_of lines))%nat.
Proof.
  unfold file_of. induction lines as [|l lines IH]; [done|]. rewrite fmap_cons. cbn [concat length].
  rewrite !length_app. cbn [length]. lia.
Qed.

(** The whole file: the lines before the first sample and that sample only set the column. *)
Lemma parse_loop_first lines fuel buf :
  length buf = 30%nat → Forall line_ok lines → (length lines < fuel)%nat →
  Z.of_nat (length lines) < 2 ^ 31 →
  (∀ l l', l ∈ samples lines → l' ∈ samples lines → strcspn_eq (l ++ [newline]) = strcspn_eq (l' ++ [newline])) →
  ∃ vs, (∀ l, head (samples lines) = Some l →
      sample_at (strcspn_eq (l ++ [newline])) <$> tail (samples lines) = Some <$> vs) ∧
    (samples lines = [] → vs = []) ∧
    parse_loop fuel (mkps false 0 "0" 0) buf (file_of lines) = Some (run_lengths 0 "0" vs).
Proof.
  revert fuel buf. induction lines as [|l lines IH]; intros [|fuel] buf Hb Hok Hf Hn Hp; cbn [length] in *; try lia.
  - by exists [].
  - apply Forall_cons in Hok as [Hl Hok]. unfold file_of. cbn [fmap list_fmap concat].
    rewrite <- app_assoc. cbn [app]. fold (file_of lines).
    destruct (fgets30_line buf l (file_of lines) Hb Hl) as (buf' & E & Hb' & Hs & _).
    cbn [parse_loop]. rewrite E, Hs. fold (is_sample l). unfold samples in *.
    destruct (is_sample l) eqn:Em; cbn [negb].
    + rewrite filter_cons_True in * by (by rewrite Em). unfold parse_line. cbn [first_sample negb prev_val eq_count].
      rewrite Hs. cbn [mbind option_bind fst snd app].
      destruct (parse_loop_samples (strcspn_eq (l ++ [newline])) lines fuel "0" 0 buf') as (vs & Hvs & ->); try done; try lia.
      { intros k Hk. apply Hp; [by right|by left]. }
      exists vs. split; [intros l0 [= <-]; exact Hvs|]. done.
    + rewrite filter_cons_False in * by (by rewrite Em; intros []). apply IH; done || lia.
Qed.


(** ** Every file

    Without any assumption on the contents: the loop ends and stays in the buffer. *)

Lemma read_line_length n file l rest eof :
  read_line n file = (l, rest, eof) →
  (length l <= n)%nat ∧ length file = (length l + length rest)%nat ∧ (eof = false → (0 < n)%nat → (0 < length l)%nat).
Proof.
  revert file l rest eof. induction n as [|n IH]; intros file l rest eof; cbn [read_line].
  { intros [= <- <- <-]. simpl. lia. }
  destruct file as [|c file]; [intros [= <- <- <-]; simpl; lia|].
  destruct (Ascii.eqb c newline); [intros [= <- <- <-]; simpl; lia|].
  destruct (read_line n file) as [[l' r'] e'] eqn:E. intros [= <- <- <-].
  destruct (IH _ _ _ _ E) as (? & ? & _). simpl. lia.
Qed.

(** The string in the buffer is at most 29 characters long. *)
Lemma c_string_length_app l rest : (length (c_string (l ++ NUL :: rest)) <= length l)%nat.
Proof. induction l as [|c l IH]; simpl; [lia|]. destruct (Ascii.eqb c NUL); simpl; lia. Qed.

Lemma fgets30_any buf file buf' rest eof :
  length buf = 30%nat → fgets30 buf file = (buf', rest, eof) →
  length buf' = 30%nat ∧ (eof = false → (length (c_string buf') <= 29)%nat ∧ (length rest < length file)%nat).
Proof.
  unfold fgets30. intros Hb. destruct (read_line 29 file) as [[l r] e] eqn:E. intros [= <- <- <-].
  destruct (read_line_length _ _ _ _ _ E) as (Hl & Hf & Hn). destruct l as [|c l].
  - split; [done|]. intros He. specialize (Hn He). simpl in Hn. lia.
  - split; [rewrite !length_app; pose proof (length_drop buf (S (length (c :: l)))) as Hd; rewrite Hb in Hd; simpl in *; lia|]. intros _.
    pose proof (c_string_length_app (c :: l) (drop (S (length (c :: l))) buf)). simpl in *. lia.
Qed.

Lemma parse_line_any ps buf :
  length buf = 30%nat → (length (c_string buf) <= 29)%nat → re_search sample_re (c_string buf) = true →
  (eq_pos ps <= 27)%nat → 0 <= eq_count ps < 2 ^ 31 - 1 →
  ∃ out ps', parse_line ps buf = Some (out, ps') ∧ (eq_pos ps' <= 27)%nat ∧ 0 <= eq_count ps' <= eq_count ps + 1.
Proof.
  intros Hb Hc Hre Hp Hn. unfold parse_line. destruct (first_sample ps); cbn [negb].
  - destruct (lookup_lt_is_Some_2 buf (eq_pos ps + 2)) as [v Hv]; [lia|]. rewrite Hv. cbn [mbind option_bind].
    destruct (negb _); [eexists _, _; repeat split; simpl; lia|].
    replace (eq_count ps =? 2 ^ 31 - 1) with false by lia. eexists _, _; repeat split; simpl; lia.
  - eexists _, _. split; [reflexivity|]. cbn. destruct (sample_re_eq _ Hre) as (pre & post & E).
    pose proof (strcspn_le _ _ _ E). apply (f_equal length) in E. rewrite length_app in E. simpl in E. lia.
Qed.

Lemma parse_loop_any fuel ps buf file :
  (length file < fuel)%nat → length buf = 30%nat → (eq_pos ps <= 27)%nat →
  0 <= eq_count ps → eq_count ps + Z.of_nat (length file) < 2 ^ 31 →
  is_Some (parse_loop fuel ps buf file).
Proof.
  revert ps buf file. induction fuel as [|fuel IH]; intros ps buf file Hf Hb Hp H0 Hn; [lia|]. cbn [parse_loop].
  destruct (fgets30 buf file) as [[buf' rest] eof] eqn:E. destruct (fgets30_any _ _ _ _ _ Hb E) as (Hb' & Hr).
  destruct eof; [by eexists|]. destruct (Hr eq_refl) as [Hc Hlt].
  destruct (re_search sample_re (c_string buf')) eqn:Hre; cbn [negb]; [|apply IH; lia].
  destruct (parse_line_any ps buf' Hb' Hc Hre Hp ltac:(lia)) as (out & ps' & -> & Hp' & Hn').
  cbn [mbind option_bind fst snd]. destruct (IH ps' buf' rest) as [o ->]; [lia..|]. by eexists.
Qed.

Lemma parse_stp_total buf file :
  length buf = 30%nat → Z.of_nat (length file) < 2 ^ 31 → is_Some (parse_stp_output buf file).
Proof. intros Hb Hf. apply parse_loop_any; simpl; lia. Qed.

(** ** Concrete runs *)

Definition ascii_line (s : string) : list ascii := String.list_ascii_of_string s.

(** A header and the samples 0 (for the column), 0000 11111 000. *)
Definition sample_file : list (list ascii) :=
  ascii_line <$> ["sample > value"; "  0.0> 0 = 0"; "  0.1> 0 = 0"; "  0.2> 0 = 0"; "  0.3> 0 = 0"; "  0.4> 0 = 0";
    "  0.5> 0 = 1"; "  0.6> 0 = 1"; "  0.7> 0 = 1"; "  0.8> 0 = 1"; "  0.9> 0 = 1";
    "  1.0> 0 = 0"; "  1.1> 0 = 0"; "  1.2> 0 = 0"].

Definition line_okb (l : list ascii) : bool :=
  (length l <=? 28)%nat && forallb (λ c, negb (Ascii.eqb c newline) && negb (Ascii.eqb c NUL)) l.

Lemma line_okb_ok l : line_okb l = true → line_ok l.
Proof.
  unfold line_okb. intros [Hl Hf]%andb_true_iff. apply Nat.leb_le in Hl. rewrite forallb_forall in Hf.
  constructor; [done| |]; intros Hin%list_elem_of_In; apply Hf in Hin; done.
Qed.

Lemma sample_file_ok : Forall line_ok sample_file.
Proof. apply Forall_forall. intros l Hl. apply line_okb_ok. revert l Hl. apply Forall_forall. by repeat constructor. Qed.

Lemma sample_file_column l : l ∈ samples sample_file → strcspn_eq (l ++ [newline]) = 9%nat.
Proof.
  intros Hl%list_elem_of_In. revert l Hl.
  assert (Hall : forallb (λ l, (strcspn_eq (l ++ [newline]) =? 9)%nat) (samples sample_file) = true) by (vm_compute; reflexivity).
  rewrite forallb_forall in Hall. intros l Hl. by apply Nat.eqb_eq, Hall.
Qed.

