(* ===== verification/Stp.v ===== *)
(** * The Kvaser logger: the logic analyzer

    [stp.c] of [src/tools/Kvaser_logger/]: the logic analyzer runs as a child process that takes
    commands from a pipe.  The strings are C strings, without the character NUL; messages on the
    terminal are not modelled. *)

From Stdlib Require Import ZArith Lia Ascii.
From stdpp Require Import base numbers list strings pretty.
From S2P Require Import Prelude LinuxDefs World Kvaser Format.

#[local] Open Scope string_scope.
#[local] Open Scope list_scope.
#[local] Open Scope Z_scope.

(** How a function ends: it returns, [exit]s or the program is replaced by [execv]. *)
Inductive flow :=
  | Returns (r : Z)
  | Exits (status : Z)
  | Execs (path : string).

Definition QUARTUS_STP_PATH : string := "/opt/quartus/bin/quartus_stp".

Definition quote : string := String "034" EmptyString.
Definition line_end : string := String "010" EmptyString.

(** ** The commands *)

Definition open_session_cmd (session : string) : string :=
  "open_session -name " +:+ session +:+ line_end.

Definition run_cmd (log : Z) (instance signals trigger : string) : string :=
  "run -instance " +:+ quote +:+ instance +:+ quote +:+ " -signal_set " +:+ quote +:+ signals +:+ quote +:+
  " -trigger " +:+ quote +:+ trigger +:+ quote +:+ " -data_log log_" +:+ fmt_d 0 log +:+ line_end.

Definition export_cmd (log : Z) (instance signals trigger dest : string) : string :=
  "export_data_log -instance " +:+ instance +:+ " -signal_set " +:+ quote +:+ signals +:+ quote +:+
  " -trigger " +:+ quote +:+ trigger +:+ quote +:+ " -data_log log_" +:+ fmt_d 0 log +:+
  " -filename " +:+ dest +:+ " -format tlb" +:+ line_end.

Definition close_session_cmd : string := "close_session" +:+ line_end.

Section Stp.
Context {W : Type} `{World W}.
Abbreviation ML := (M logger W).

(** [sprintf] (or [strcpy] and [strcat]) into an array of [n] characters. *)
Definition sprintf_buf (n : nat) (text : string) : ML string :=
  if decide (String.length text < n)%nat then mret text else undefined OutOfBounds.

(** [write] of a command; the result of the caller. *)
Definition send_command (cmd : string) : ML bool :=
  nbytes ← call (user (u_write pipe_write cmd));
  mret (nbytes =? Z.of_nat (String.length cmd)).

Definition prepare_child_pipes : ML Z :=
  r ← call (user (u_close pipe_write));
  if r =? -1 then mret EXIT_FAILURE else
  r ← call (user (u_dup2_stdin pipe_read));
  if r =? -1 then mret EXIT_FAILURE else
  r ← call (user (u_close pipe_read));
  if r =? -1 then mret EXIT_FAILURE else
  mret EXIT_SUCCESS.

(** [None] is the null pointer; [execv] only returns when it fails. *)
Definition stp_init (stp_path : option string) : ML flow :=
  match stp_path with
  | None => mret (Returns EXIT_FAILURE)
  | Some path =>
      r ← call (user u_pipe);
      if r =? -1 then mret (Returns EXIT_FAILURE) else
      pid ← call (user u_fork);
      modify (λ l, mklogger (hnd_chn_1 l) (hnd_chn_2 l) pid);;
      if pid =? 0 then
        r ← prepare_child_pipes;
        if nz r then mret (Returns EXIT_FAILURE) else
        r ← call (user (u_execv path));
        mret (if r =? -1 then Exits 127 else Execs path)
      else mret (Returns EXIT_SUCCESS)
  end.

Definition stp_exit : ML unit :=
  pid ← gets stp_pid;
  ucall_ (u_kill_term pid);;
  ucall_ (u_waitpid pid).

Definition stp_create_temp_session (in_session out_session : string) : ML Z :=
  cmd ← sprintf_buf 100 ("cp " +:+ in_session +:+ " " +:+ out_session);
  ucall_ (u_system cmd);;
  mret EXIT_SUCCESS.

Definition stp_start_session (session : string) : ML Z :=
  cmd ← sprintf_buf 300 (open_session_cmd session);
  ok ← send_command cmd;
  if negb ok then mret EXIT_FAILURE else
  ucall_ (u_usleep 1000000);;
  mret EXIT_SUCCESS.

Definition stp_run_aquisition (log : Z) (instance signals trigger : string) : ML Z :=
  cmd ← sprintf_buf 400 (run_cmd log instance signals trigger);
  ok ← send_command cmd;
  if negb ok then mret EXIT_FAILURE else
  ucall_ (u_usleep 200000);;
  mret EXIT_SUCCESS.

Definition stp_wait_aquisition_end : ML unit := ucall_ (u_usleep 200000).

Definition stp_export_log (log : Z) (instance signals trigger dest : string) : ML Z :=
  cmd ← sprintf_buf 200 (export_cmd log instance signals trigger dest);
  ok ← send_command cmd;
  if negb ok then mret EXIT_FAILURE else
  ucall_ (u_usleep 200000);;
  mret EXIT_SUCCESS.

Definition stp_close_session : ML Z :=
  ok ← send_command close_session_cmd;
  if negb ok then mret EXIT_FAILURE else
  ucall_ (u_usleep 1000000);;
  mret EXIT_SUCCESS.

End Stp.

(** ** Actions

    What the logger does to the outside, in order: shell commands, commands to the analyzer, frames on the
    bus, files and signals.  The file 0 is that of a failed open. *)

Inductive action :=
  | ASystem (cmd : string)
  | ACommand (cmd : string)
  | ASend (hnd id : Z) (msg : list Z) (dlc flag : Z)
  | AOpen (file : Z) (path : string)
  | APrint (file : Z) (text : string)
  | AClose (file : Z)
  | AKill (pid : Z).

Definition action_of (e : event) : list action :=
  match e with
  | EvCall (user (u_system cmd)) _ => [ASystem cmd]
  | EvCall (user (u_write _ cmd)) _ => [ACommand cmd]
  | EvCall (user (canWrite hnd id msg dlc flag)) _ => [ASend hnd id msg dlc flag]
  | EvCall (user (u_fopen path _)) file => [AOpen file path]
  | EvCall (user (u_fprintf file text)) _ => [APrint file text]
  | EvCall (user (u_fclose file)) _ => [AClose file]
  | EvCall (user (u_kill_term pid)) _ => [AKill pid]
  | _ => []
  end.

Definition actions (tr : list event) : list action := concat (action_of <$> tr).

Lemma actions_app t1 t2 : actions (t1 ++ t2) = actions t1 ++ actions t2.
Proof. unfold actions. by rewrite fmap_app, concat_app. Qed.

Section Did.
Context {W : Type} `{World W}.
Implicit Types (s : st logger W).

(** From [s] to [s'] exactly these actions happened. *)
Definition did s s' (acts : list action) : Prop :=
  ∃ tr, trace s' = trace s ++ tr ∧ actions tr = acts.

Lemma did_refl s : did s s [].
Proof. exists []. by rewrite app_nil_r. Qed.

Lemma did_trans s s1 s2 a1 a2 : did s s1 a1 → did s1 s2 a2 → did s s2 (a1 ++ a2).
Proof.
  intros (t1 & H1 & <-) (t2 & H2 & <-). exists (t1 ++ t2). by rewrite H2, H1, app_assoc, actions_app.
Qed.

Lemma did_ext s s' a b : did s s' a → a = b → did s s' b.
Proof. by intros ? <-. Qed.

Lemma did_modify f s s0 acts : did s0 s acts → did s0 (mkst (f (drv s)) (world s) (trace s)) acts.
Proof. done. Qed.

Lemma wp_did_call c s s0 acts Q :
  did s0 s acts →
  (∀ r s', drv s' = drv s → did s0 s' (acts ++ action_of (EvCall c r)) → Q r s') → wp (call c) s Q.
Proof.
  intros Hd HQ. apply wp_call_any. intros r w'. apply HQ; [done|]. eapply did_trans; [done|].
  eexists. split; [reflexivity|]. unfold actions. simpl. by rewrite app_nil_r.
Qed.

Lemma wp_did_call_ c s s0 acts Q :
  did s0 s acts →
  (∀ r s', drv s' = drv s → did s0 s' (acts ++ action_of (EvCall c r)) → Q tt s') → wp (call_ c) s Q.
Proof.
  intros Hd HQ. unfold call_. wp_step. eapply wp_did_call; [done|]. intros r s' Hs Hd'. wp_step. by eapply HQ.
Qed.

Lemma wp_sprintf_buf n text s Q : (String.length text < n)%nat → Q text s → wp (sprintf_buf n text) s Q.
Proof. intros Hn HQ. unfold sprintf_buf. rewrite decide_True by done. by apply wp_ret. Qed.

Lemma send_command_wp cmd s s0 acts Q :
  did s0 s acts → (∀ ok s', drv s' = drv s → did s0 s' (acts ++ [ACommand cmd]) → Q ok s') → wp (send_command cmd) s Q.
Proof.
  intros Hd HQ. unfold send_command. wp_step. eapply wp_did_call; [done|]. intros r s' Hs Hd'. wp_step. by apply HQ.
Qed.

End Did.

(** Symbolic execution that keeps the actions. *)
Ltac did_step :=
  lazymatch goal with
  | |- wp (mbind _ _) _ _ => apply wp_bind
  | |- wp (mret _) _ _ => apply wp_ret
  | |- wp (gets _) _ _ => apply wp_gets
  | |- wp (ucall_ _) _ _ => unfold ucall_
  | Hd : did _ ?s _ |- wp (modify ?f) ?s _ => apply wp_modify; apply (did_modify f) in Hd
  | Hd : did _ ?s _ |- wp (call_ _) ?s _ =>
      eapply wp_did_call_; [exact Hd|]; clear Hd; intros ? ? ? Hd; cbn [action_of] in Hd; rewrite ?app_nil_r in Hd
  | Hd : did _ ?s _ |- wp (call _) ?s _ =>
      eapply wp_did_call; [exact Hd|]; clear Hd; intros ? ? ? Hd; cbn [action_of] in Hd; rewrite ?app_nil_r in Hd
  | Hd : did _ ?s _ |- wp (send_command _) ?s _ =>
      eapply send_command_wp; [exact Hd|]; clear Hd; intros ? ? ? Hd
  | |- wp (if ?b then _ else _) _ _ => destruct b
  end; cbv beta.

(** At a [return]. *)
Ltac did_done HQ :=
  apply HQ; [congruence|eapply did_ext; [eassumption|rewrite <- ?app_assoc; reflexivity]].

Section StpProofs.
Context {W : Type} `{World W}.
Implicit Types (s : st logger W).

Lemma stp_create_temp_session_wp a b s s0 acts Q :
  (String.length a + String.length b <= 95)%nat → did s0 s acts →
  (∀ r s', drv s' = drv s → did s0 s' (acts ++ [ASystem ("cp " +:+ a +:+ " " +:+ b)]) → Q r s') →
  wp (stp_create_temp_session a b) s Q.
Proof.
  intros Hl Hd HQ. unfold stp_create_temp_session. did_step. apply wp_sprintf_buf.
  { rewrite !string_length_app. simpl. lia. }
  repeat did_step. did_done HQ.
Qed.

Lemma stp_start_session_wp a s s0 acts Q :
  (String.length a <= 279)%nat → did s0 s acts →
  (∀ r s', drv s' = drv s → did s0 s' (acts ++ [ACommand (open_session_cmd a)]) → Q r s') →
  wp (stp_start_session a) s Q.
Proof.
  intros Hl Hd HQ. unfold stp_start_session. did_step. apply wp_sprintf_buf.
  { unfold open_session_cmd. rewrite !string_length_app. simpl. lia. }
  repeat did_step; did_done HQ.
Qed.

Lemma fmt_d_log log : 0 <= log < 2 ^ 31 → (String.length (fmt_d 0 log) <= 10)%nat.
Proof. intros Hl. unfold fmt_d. simpl. apply pretty_length; [lia|]. simpl. lia. Qed.

Lemma stp_run_aquisition_wp log i g t s s0 acts Q :
  0 <= log < 2 ^ 31 → (String.length i + String.length g + String.length t <= 326)%nat → did s0 s acts →
  (∀ r s', drv s' = drv s → did s0 s' (acts ++ [ACommand (run_cmd log i g t)]) → Q r s') →
  wp (stp_run_aquisition log i g t) s Q.
Proof.
  intros Hlog Hl Hd HQ. pose proof (fmt_d_log log Hlog). unfold stp_run_aquisition. did_step. apply wp_sprintf_buf.
  { unfold run_cmd. rewrite !string_length_app. simpl String.length. lia. }
  repeat did_step; did_done HQ.
Qed.

Lemma stp_export_log_wp log i g t dest s s0 acts Q :
  0 <= log < 2 ^ 31 → (String.length i + String.length g + String.length t + String.length dest <= 94)%nat → did s0 s acts →
  (∀ r s', drv s' = drv s → did s0 s' (acts ++ [ACommand (export_cmd log i g t dest)]) → Q r s') →
  wp (stp_export_log log i g t dest) s Q.
Proof.
  intros Hlog Hl Hd HQ. pose proof (fmt_d_log log Hlog). unfold stp_export_log. did_step. apply wp_sprintf_buf.
  { unfold export_cmd. rewrite !string_length_app. simpl String.length. lia. }
  repeat did_step; did_done HQ.
Qed.

Lemma stp_close_session_wp s s0 acts Q :
  did s0 s acts → (∀ r s', drv s' = drv s → did s0 s' (acts ++ [ACommand close_session_cmd]) → Q r s') →
  wp stp_close_session s Q.
Proof. intros Hd HQ. unfold stp_close_session. repeat did_step; did_done HQ. Qed.

Lemma stp_exit_wp s s0 acts Q :
  did s0 s acts → (∀ r s', drv s' = drv s → did s0 s' (acts ++ [AKill (stp_pid (drv s))]) → Q r s') →
  wp stp_exit s Q.
Proof. intros Hd HQ. unfold stp_exit. repeat did_step. did_done HQ. Qed.

Lemma prepare_child_pipes_wp s s0 acts Q :
  did s0 s acts → (∀ r s', drv s' = drv s → did s0 s' acts → Q r s') → wp prepare_child_pipes s Q.
Proof. intros Hd HQ. unfold prepare_child_pipes. repeat did_step; apply HQ; done || congruence. Qed.

(** [stp_init] returns 0 only in the parent, or when there is no child. *)
Lemma stp_init_wp p s s0 acts Q :
  did s0 s acts →
  (∀ r s', did s0 s' acts → (r = Returns EXIT_SUCCESS → stp_pid (drv s') ≠ 0) →
    hnd_chn_1 (drv s') = hnd_chn_1 (drv s) → Q r s') → wp (stp_init (Some p)) s Q.
Proof.
  intros Hd HQ. unfold stp_init. do 2 did_step. did_step; [did_step; apply HQ; [done|done|congruence]|].
  do 4 did_step. destruct (Z.eqb_spec r0 0) as [->|Hr]; [|did_step; apply HQ; cbn; [exact Hd|done|congruence]].
  did_step. eapply prepare_child_pipes_wp; [exact Hd|]. clear Hd. intros r1 s2 H2 Hd.
  did_step; [did_step; apply HQ; [done|done|by rewrite H2; simpl; congruence]|].
  do 3 did_step. apply HQ; [done|by case_match|]. by rewrite H3, H2; simpl; congruence.
Qed.

End StpProofs.
