(* ===== verification/Logger.v ===== *)
(** * The Kvaser logger

    [store_frame_info], [process_stp_output] and [erase_file] of [data_processor.c], and the main program
    [kvalt_logger.c] of [src/tools/Kvaser_logger/].

    The contents of the files that the analyzer exports are arguments: [exports i] is what iteration [i]
    reads, [stack i] the contents of its uninitialised line buffer. *)

From Stdlib Require Import ZArith Lia Ascii.
From stdpp Require Import base numbers list strings pretty.
From S2P Require Import Prelude LinuxDefs World Kvaser Format StpLog Stp.

#[local] Open Scope string_scope.
#[local] Open Scope list_scope.
#[local] Open Scope Z_scope.

Definition export : string := "build/tmp_export".
Definition tmp_session : string := "build/tmp_session.stp".

(** [isspace] *)
Definition is_space (c : ascii) : bool :=
  let n := Z.of_nat (nat_of_ascii c) in (n =? 32) || ((9 <=? n) && (n <=? 13)).

Fixpoint skip_spaces (s : list ascii) : list ascii :=
  match s with
  | c :: s' => if is_space c then skip_spaces s' else s
  | [] => []
  end.

Fixpoint read_digits (acc : Z) (s : list ascii) : Z :=
  match s with
  | c :: s' => if is_digit c then read_digits (10 * acc + (Z.of_nat (nat_of_ascii c) - 48)) s' else acc
  | [] => acc
  end.

(** The number at the start of a string. *)
Definition read_int (s : list ascii) : Z :=
  match skip_spaces s with
  | "-"%char :: s' => - read_digits 0 s'
  | "+"%char :: s' => read_digits 0 s'
  | s' => read_digits 0 s'
  end.

Section Logger.
Context {W : Type} `{World W} `{Canlib}.
Abbreviation ML := (M logger W).

(** [fprintf(file, ...)]; a null pointer is not a file. *)
Definition fprintf (file : Z) (text : string) : ML unit :=
  if file =? 0 then undefined NullDeref else ucall_ (u_fprintf file text).

Fixpoint print_data (out : Z) (d : list Z) : ML unit :=
  match d with
  | [] => mret tt
  | b :: d' => fprintf out (fmt_02x b +:+ " ");; print_data out d'
  end.

Definition store_frame_info (frame : kvalt_can_frame) (out : Z) : ML Z :=
  (if nz (fr_type frame) then fprintf out "CAN FD  " else fprintf out "CAN 2.0 ");;
  (if nz (id_type frame) then fprintf out "EXTENDED " else fprintf out "BASE     ");;
  (if nz (kv_rtr frame) then fprintf out "RTR " else fprintf out "    ");;
  (if nz (kv_brs frame) then fprintf out "BRS " else fprintf out "    ");;
  fprintf out ("Data length: " +:+ fmt_d 2 (s32 (data_length frame)) +:+ " ");;
  fprintf out ("ID: " +:+ fmt_d 9 (kv_id frame) +:+ " ");;
  fprintf out "Data: ";;
  print_data out (kv_data frame);;
  mret EXIT_SUCCESS.

(** The output of [parse_stp_output]: the last pair ends the line. *)
Fixpoint print_runs (out : Z) (runs : list (Z * ascii)) : ML unit :=
  match runs with
  | [] => mret tt
  | [(n, v)] => fprintf out (fmt_d 0 n +:+ " " +:+ String v " " +:+ line_end)
  | (n, v) :: runs' => fprintf out (fmt_d 0 n +:+ " " +:+ String v " ");; print_runs out runs'
  end.

Definition write_stp_output (buf contents : list ascii) (out : Z) : ML Z :=
  fprintf out "Bit sequence: ";;
  runs ← some_or OutOfBounds (parse_stp_output buf contents);
  print_runs out runs;;
  mret EXIT_SUCCESS.

(** The second test is on [stp] again. *)
Definition process_stp_output (in_path out_path : string) (frame : kvalt_can_frame) (buf contents : list ascii) : ML Z :=
  path_with_ext ← sprintf_buf 200 ("./" +:+ in_path +:+ ".tbl");
  stp ← call (user (u_fopen path_with_ext "r"));
  if stp =? 0 then mret EXIT_FAILURE else
  out ← call (user (u_fopen out_path "a"));
  if stp =? 0 then mret EXIT_FAILURE else
  _ ← store_frame_info frame out;
  _ ← write_stp_output buf contents out;
  ucall_ (u_fclose stp);;
  ucall_ (u_fclose out);;
  mret EXIT_SUCCESS.

Definition erase_file (path : string) : ML unit :=
  cmd ← sprintf_buf 100 ("rm " +:+ path);
  ucall_ (u_system cmd).

Section Run.
Context (exports stack : Z → list ascii).

(** The body of the loop of [kvaalt_start_log]; [tx] is what the frame held before. *)
Definition log_frame (i : Z) (instance signals trigger outfile : string) (tx : kvalt_can_frame) : ML kvalt_can_frame :=
  gen ← generate_can_frame (Some tx);
  tx_frame ← some_or NullDeref (snd gen);
  _ ← stp_run_aquisition i instance signals trigger;
  _ ← kvaser_send_frame tx_frame 0;
  _ ← kvaser_read_frame 1;
  stp_wait_aquisition_end;;
  _ ← stp_export_log i instance signals trigger export;
  _ ← process_stp_output export outfile tx_frame (stack i) (exports i);
  mret tx_frame.

(** [n] more iterations from number [i] *)
Fixpoint log_loop (n : nat) (i : Z) (instance signals trigger outfile : string) (tx : kvalt_can_frame) : ML unit :=
  match n with
  | O => mret tt
  | S n' =>
      tx' ← log_frame i instance signals trigger outfile tx;
      log_loop n' (i + 1) instance signals trigger outfile tx'
  end.

Definition kvaalt_start_log (num_frames : Z) (session instance signals trigger outfile : string) (tx : kvalt_can_frame) : ML flow :=
  ucall_ u_srand;;
  r ← kvaser_init;
  if nz r then mret (Returns 1) else
  f ← stp_init (Some QUARTUS_STP_PATH);
  match f with
  | Returns r =>
      if nz r then mret (Returns 1) else
      erase_file outfile;;
      _ ← stp_create_temp_session session tmp_session;
      _ ← stp_start_session tmp_session;
      log_loop (Z.to_nat num_frames) 0 instance signals trigger outfile tx;;
      _ ← stp_close_session;
      stp_exit;;
      mret (Returns 0)
  | _ => mret f
  end.

(** [atoi]: undefined outside of [int]. *)
Definition atoi (s : string) : ML Z :=
  let n := read_int (String.list_ascii_of_string s) in
  if (- 2 ^ 31 <=? n) && (n <? 2 ^ 31) then mret n else undefined SignedOverflow.

(** [main]: how the process ends. *)
Definition main (argv : list string) (tx : kvalt_can_frame) : ML flow :=
  match argv with
  | [_; frame_count; session; instance; signals; trigger; outfile] =>
      if String.eqb frame_count "--help" || String.eqb frame_count "-h" then mret (Exits EXIT_FAILURE) else
      num_frames ← atoi frame_count;
      f ← kvaalt_start_log num_frames session instance signals trigger outfile tx;
      mret (match f with Returns r => Exits r | _ => f end)
  | _ => mret (Exits EXIT_FAILURE)
  end.

End Run.
End Logger.

(** ** What is written *)

(** The pieces of text of [store_frame_info]. *)
Definition frame_info (f : kvalt_can_frame) : list string :=
  [(if nz (fr_type f) then "CAN FD  " else "CAN 2.0 ");
   (if nz (id_type f) then "EXTENDED " else "BASE     ");
   (if nz (kv_rtr f) then "RTR " else "    ");
   (if nz (kv_brs f) then "BRS " else "    ");
   "Data length: " +:+ fmt_d 2 (s32 (data_length f)) +:+ " ";
   "ID: " +:+ fmt_d 9 (kv_id f) +:+ " "; "Data: "] ++
  ((λ b, fmt_02x b +:+ " ") <$> kv_data f).

Fixpoint runs_text (runs : list (Z * ascii)) : list string :=
  match runs with
  | [] => []
  | [(n, v)] => [fmt_d 0 n +:+ " " +:+ String v " " +:+ line_end]
  | (n, v) :: runs' => (fmt_d 0 n +:+ " " +:+ String v " ") :: runs_text runs'
  end.

Definition log_line (f : kvalt_can_frame) (runs : list (Z * ascii)) : list string :=
  frame_info f ++ "Bit sequence: " :: runs_text runs.

Section Written.
Context {W : Type} `{World W}.
Implicit Types (s : st logger W).

Lemma fprintf_wp out text s s0 acts Q :
  out ≠ 0 → did s0 s acts → (∀ s', drv s' = drv s → did s0 s' (acts ++ [APrint out text]) → Q tt s') →
  wp (fprintf out text) s Q.
Proof.
  intros Ho Hd HQ. unfold fprintf. destruct (Z.eqb_spec out 0); [done|]. repeat did_step. by apply HQ.
Qed.

(** Both branches of an [if] print. *)
Lemma fprintf_if_wp (b : bool) out t1 t2 s s0 acts Q :
  out ≠ 0 → did s0 s acts →
  (∀ s', drv s' = drv s → did s0 s' (acts ++ [APrint out (if b then t1 else t2)]) → Q tt s') →
  wp (if b then fprintf out t1 else fprintf out t2) s Q.
Proof. destruct b; apply fprintf_wp. Qed.

Lemma print_data_wp out d s s0 acts Q :
  out ≠ 0 → did s0 s acts →
  (∀ s', drv s' = drv s → did s0 s' (acts ++ (APrint out <$> ((λ b, fmt_02x b +:+ " ") <$> d))) → Q tt s') →
  wp (print_data out d) s Q.
Proof.
  revert s acts. induction d as [|b d IH]; intros s acts Ho Hd HQ; cbn [print_data].
  { apply wp_ret, HQ; [done|]. cbn. by rewrite app_nil_r. }
  did_step. eapply fprintf_wp; [done|exact Hd|]. intros s1 H1 Hd1. eapply IH; [done|exact Hd1|].
  intros s2 H2 Hd2. apply HQ; [congruence|]. eapply did_ext; [exact Hd2|]. cbn. by rewrite <- app_assoc.
Qed.

Lemma print_runs_wp out runs s s0 acts Q :
  out ≠ 0 → did s0 s acts →
  (∀ s', drv s' = drv s → did s0 s' (acts ++ (APrint out <$> runs_text runs)) → Q tt s') →
  wp (print_runs out runs) s Q.
Proof.
  revert s acts. induction runs as [|[n v] runs IH]; intros s acts Ho Hd HQ.
  { apply wp_ret, HQ; [done|]. cbn. by rewrite app_nil_r. }
  destruct runs as [|r runs]; [eapply fprintf_wp; [done|exact Hd|exact HQ]|].
  change (print_runs out ((n, v) :: r :: runs)) with (fprintf out (fmt_d 0 n +:+ " " +:+ String v " ");; print_runs out (r :: runs)).
  did_step. eapply fprintf_wp; [done|exact Hd|]. intros s1 H1 Hd1. eapply IH; [done|exact Hd1|].
  intros s2 H2 Hd2. apply HQ; [congruence|]. eapply did_ext; [exact Hd2|]. by rewrite <- app_assoc.
Qed.

Lemma store_frame_info_wp f out s s0 acts Q :
  out ≠ 0 → did s0 s acts →
  (∀ s', drv s' = drv s → did s0 s' (acts ++ (APrint out <$> frame_info f)) → Q EXIT_SUCCESS s') →
  wp (store_frame_info f out) s Q.
Proof.
  intros Ho Hd HQ. unfold store_frame_info.
  do 4 (did_step; eapply fprintf_if_wp; [done|exact Hd|]; clear Hd; intros ? ? Hd).
  do 3 (did_step; eapply fprintf_wp; [done|exact Hd|]; clear Hd; intros ? ? Hd).
  did_step. eapply print_data_wp; [done|exact Hd|]. clear Hd. intros ? ? Hd.
  did_step. apply HQ; [congruence|]. eapply did_ext; [exact Hd|]. rewrite <- !app_assoc. reflexivity.
Qed.

Lemma write_stp_output_wp buf contents runs out s s0 acts Q :
  out ≠ 0 → parse_stp_output buf contents = Some runs → did s0 s acts →
  (∀ s', drv s' = drv s → did s0 s' (acts ++ (APrint out <$> "Bit sequence: " :: runs_text runs)) → Q EXIT_SUCCESS s') →
  wp (write_stp_output buf contents out) s Q.
Proof.
  intros Ho Hp Hd HQ. unfold write_stp_output. did_step. eapply fprintf_wp; [done|exact Hd|]. intros s1 H1 Hd1.
  did_step. eapply wp_some_or; [exact Hp|]. did_step. eapply print_runs_wp; [done|exact Hd1|]. intros s2 H2 Hd2.
  did_step. apply HQ; [congruence|]. eapply did_ext; [exact Hd2|]. by rewrite <- app_assoc.
Qed.

End Written.

(** ** The frame in the log *)

Definition cat (l : list string) : string := foldr String.append "" l.

Definition text_of (a : action) : list string := match a with APrint _ t => [t] | _ => [] end.

Lemma text_of_prints out l : concat (text_of <$> (APrint out <$> l)) = l.
Proof. induction l as [|t l IH]; [done|]. cbn in *. by rewrite IH. Qed.

Section FrameText.
Context {W : Type} `{World W}.
Implicit Types (s : st logger W).

(** The text a computation writes to files. *)
Definition written {A} (m : M logger W A) s : string :=
  cat (concat (text_of <$> actions (drop (length (trace s)) (trace (snd (m s)))))).

Lemma store_frame_info_written f out s : out ≠ 0 → written (store_frame_info f out) s = cat (frame_info f).
Proof.
  intros Ho.
  assert (Hw : wp (store_frame_info f out) s (λ _ s', did s s' (APrint out <$> frame_info f))).
  { eapply store_frame_info_wp; [done|apply did_refl|]. by intros s' _ Hd. }
  apply wp_iff in Hw as (r & s' & E & tr & Ht & Ha). unfold written. rewrite E. cbn [snd]. rewrite Ht, drop_app_length, Ha.
  by rewrite text_of_prints.
Qed.

End FrameText.

Lemma cat_bytes_inj d1 d2 :
  length d1 = length d2 → Forall (λ b, 0 <= b < 255) d1 → Forall (λ b, 0 <= b < 255) d2 →
  cat ((λ b, fmt_02x b +:+ " ") <$> d1) = cat ((λ b, fmt_02x b +:+ " ") <$> d2) → d1 = d2.
Proof.
  revert d2. induction d1 as [|b d1 IH]; intros [|b2 d2]; try done. intros [= Hl] H1 H2 E.
  apply Forall_cons in H1 as [? ?], H2 as [? ?].
  apply string_app_inj in E as [Eb E]; [|done]. apply string_app_inj in Eb as [Eb _]; [|done].
  apply fmt_02x_inj in Eb; [|lia..]. subst b2. f_equal. by apply IH.
Qed.

(** A flag is printed as one of two texts. *)
Lemma flag_inj (x y : Z) (t1 t2 : string) : t1 ≠ t2 → is_bit x → is_bit y →
  (if nz x then t1 else t2) = (if nz y then t1 else t2) → x = y.
Proof. intros Hn [-> | ->] [-> | ->]; cbn; congruence. Qed.

Lemma flag_length (x y : Z) (t1 t2 : string) : String.length t1 = String.length t2 →
  String.length (if nz x then t1 else t2) = String.length (if nz y then t1 else t2).
Proof. by destruct (nz x), (nz y). Qed.

Lemma number_inj w x y t1 t2 : (0 < w)%nat → 0 <= x < 10 ^ Z.of_nat w → 0 <= y < 10 ^ Z.of_nat w →
  fmt_d w x +:+ t1 = fmt_d w y +:+ t2 → x = y ∧ t1 = t2.
Proof.
  intros Hw Hx Hy E. apply string_app_inj in E as [E ?]; [|by rewrite !fmt_d_length].
  split; [|done]. apply fmt_d_inj in E; lia.
Qed.

Lemma dlc_range x : x ∈ kvalt_dlc → 0 <= x < 10 ^ Z.of_nat 2 ∧ s32 x = x.
Proof. intros [i Hi]%list_elem_of_lookup_1. do 16 (destruct i as [|i]; [by injection Hi as <-|]). done. Qed.

Lemma id_range f : frame_ok f → 0 <= kv_id f < 10 ^ Z.of_nat 9.
Proof. intros Hf. pose proof (fo_id f Hf) as Hi. destruct (id_type f =? 0); simpl in *; lia. Qed.

Lemma string_append_assoc s t u : (s +:+ t) +:+ u = s +:+ (t +:+ u).
Proof. induction s as [|c s IH]; [done|]. exact (f_equal (String c) IH). Qed.

Lemma frame_info_inj f g : frame_ok f → frame_ok g → cat (frame_info f) = cat (frame_info g) → f = g.
Proof.
  intros Hf Hg E. pose proof Hf as [(? & ? & ? & ?) _ _ Hlf _ _ _ Hsf Hbf _].
  pose proof Hg as [(? & ? & ? & ?) _ _ Hlg _ _ _ Hsg Hbg _].
  destruct (dlc_range _ Hlf) as [Hrf Ef], (dlc_range _ Hlg) as [Hrg Eg].
  unfold frame_info in E. rewrite Ef, Eg in E. cbn [cat foldr app] in E.
  do 4 (let E1 := fresh "E1" in
    apply string_app_inj in E as [E1 E]; [|by apply flag_length]; apply flag_inj in E1; [|done..]).
  rewrite !string_append_assoc in E. apply string_app_inj in E as [_ E]; [|done].
  apply number_inj in E as [El E]; [|lia|done..]. do 2 (apply string_app_inj in E as [_ E]; [|done]).
  apply number_inj in E as [Ei E]; [|lia|by apply id_range..].
  do 2 (apply string_app_inj in E as [_ E]; [|done]).
  apply cat_bytes_inj in E; [|congruence|done..]. destruct f, g; simpl in *; congruence.
Qed.

(** The line that [store_frame_info] writes identifies the frame: two well-formed frames
    for which it writes the same text are equal, in all fields and all 64 data bytes.  The number
    fields are wide enough for every length and every identifier. *)
Theorem store_frame_info_injective {W} `{World W} f g out (s1 s2 : st logger W) :
  out ≠ 0 → frame_ok f → frame_ok g →
  written (store_frame_info f out) s1 = written (store_frame_info g out) s2 → f = g.
Proof. intros Ho Hf Hg. rewrite !store_frame_info_written by done. by apply frame_info_inj. Qed.

(** ** A run *)

(** The arguments fit the buffers: [cmd[100]] of [erase_file] and of [stp_create_temp_session], and
    [cmd[200]] of [stp_export_log], with a number of ten digits. *)
Record args_fit (session instance signals trigger outfile : string) : Prop := {
  fit_outfile : (String.length outfile <= 96)%nat;
  fit_session : (String.length session <= 74)%nat;
  fit_names : (String.length instance + String.length signals + String.length trigger <= 78)%nat;
}.

Section Spec.
Context `{Canlib}.
Context (exports stack : Z → list ascii) (instance signals trigger outfile : string).

Definition tbl_path : string := "./" +:+ export +:+ ".tbl".

(** What [process_stp_output] does in iteration [i]: it opens the exported file, and if that succeeds it logs the
    frame with the samples of the file; a failed open is all that is done otherwise. *)
Inductive saved (i : Z) (f : kvalt_can_frame) : list action → Prop :=
  | saved_nothing : saved i f [AOpen 0 tbl_path]
  | saved_line stp out runs :
      stp ≠ 0 → out ≠ 0 → parse_stp_output (stack i) (exports i) = Some runs →
      saved i f ([AOpen stp tbl_path; AOpen out outfile] ++ (APrint out <$> log_line f runs) ++ [AClose stp; AClose out]).

(** [n] iterations from number [i] on: the acquisition is started before the frame is
    sent, the export is requested after it, and the logged frame is the one that was sent. *)
Inductive logged (hnd : Z) : Z → nat → list action → Prop :=
  | logged_none i : logged hnd i 0 []
  | logged_frame i n f acts rest :
      frame_ok f → saved i f acts → logged hnd (i + 1) n rest →
      logged hnd i (S n)
        ([ACommand (run_cmd i instance signals trigger);
          ASend hnd (kv_id f) (kv_data f) (data_length f) (send_flags f);
          ACommand (export_cmd i instance signals trigger export)] ++ acts ++ rest).

End Spec.

Section RunProofs.
Context {W : Type} `{World W} `{!RandOk W} `{Canlib}.
Context (exports stack : Z → list ascii).
Context (Hstack : ∀ i, length (stack i) = 30%nat) (Hexports : ∀ i, Z.of_nat (length (exports i)) < 2 ^ 31).
Implicit Types (s : st logger W).

(** The output file could not be opened. *)
Definition no_outfile (outfile : string) s : Prop :=
  ∃ tr, trace s = tr ++ [EvCall (user (u_fopen outfile "a")) 0].

Lemma drew_did s s' s0 acts : did s0 s acts → drew s s' → did s0 s' acts.
Proof.
  intros Hd [_ [rs Ht]]. eapply did_ext; [eapply did_trans; [exact Hd|]|apply app_nil_r].
  eexists. split; [exact Ht|]. clear Ht. induction rs; [done|]. done.
Qed.

Lemma kv_check_wp stat s s0 acts Q :
  did s0 s acts → (∀ s', drv s' = drv s → did s0 s' acts → Q tt s') → wp (kv_check stat) s Q.
Proof.
  intros Hd HQ. unfold kv_check, when. repeat did_step; by apply HQ.
Qed.

Ltac kv_step :=
  lazymatch goal with
  | Hd : did _ ?s _ |- wp (kv_check _) ?s _ => eapply kv_check_wp; [exact Hd|]; clear Hd; intros ? ? Hd
  | |- _ => did_step
  end.

Lemma init_channel_wp h s s0 acts Q :
  did s0 s acts → (∀ r s', did s0 s' acts → Q r s') → wp (init_channel h) s Q.
Proof. intros Hd HQ. unfold init_channel. repeat kv_step; by apply HQ. Qed.

Lemma init_error_exit_wp s s0 acts Q :
  did s0 s acts → (∀ s', did s0 s' acts → Q 1 s') → wp init_error_exit s Q.
Proof. intros Hd HQ. unfold init_error_exit. repeat kv_step; by apply HQ. Qed.

Lemma kvaser_init_wp s s0 acts Q :
  did s0 s acts → (∀ r s', did s0 s' acts → Q r s') → wp kvaser_init s Q.
Proof.
  intros Hd HQ. unfold kvaser_init. repeat kv_step; try by apply HQ.
  eapply init_channel_wp; [exact Hd|]. clear Hd. intros [] ? Hd; cbn [negb].
  2: { eapply init_error_exit_wp; [exact Hd|]. by intros; apply HQ. }
  kv_step. eapply init_channel_wp; [exact Hd|]. clear Hd. intros [] ? Hd; cbn [negb].
  2: { eapply init_error_exit_wp; [exact Hd|]. by intros; apply HQ. }
  kv_step. by apply HQ.
Qed.

Lemma kvaser_send_frame_wp f s s0 acts Q :
  did s0 s acts →
  (∀ r s', drv s' = drv s →
    did s0 s' (acts ++ [ASend (hnd_chn_1 (drv s)) (kv_id f) (kv_data f) (data_length f) (send_flags f)]) → Q r s') →
  wp (kvaser_send_frame f 0) s Q.
Proof.
  intros Hd HQ. unfold kvaser_send_frame, channel_handle. cbn [Z.eqb]. repeat kv_step; (apply HQ; [congruence|exact Hd]).
Qed.

Lemma kvaser_read_frame_wp s s0 acts Q :
  did s0 s acts → (∀ r s', drv s' = drv s → did s0 s' acts → Q r s') → wp (kvaser_read_frame 1) s Q.
Proof.
  intros Hd HQ. unfold kvaser_read_frame, channel_handle. cbn [Z.eqb]. repeat kv_step; (apply HQ; [congruence|exact Hd]).
Qed.

Lemma outcome_seq {A B} (m : M logger W A) (k : A → M logger W B) s (P : A → st logger W → Prop) Q N :
  wp m s P → (∀ a s', P a s' → outcome (k a) s' Q N) → outcome (m ≫= k) s Q N.
Proof. intros Hm Hk. apply outcome_bind, outcome_wp. by eapply wp_mono. Qed.

Lemma store_frame_info_null f s Q outfile :
  no_outfile outfile s → outcome (store_frame_info f 0) s Q (no_outfile outfile).
Proof. intros Hn. unfold store_frame_info. by destruct (nz (fr_type f)). Qed.

Lemma process_stp_output_outcome outfile i f s s0 acts Q :
  did s0 s acts →
  (∀ r s' a, drv s' = drv s → saved exports stack outfile i f a → did s0 s' (acts ++ a) → Q r s') →
  outcome (process_stp_output export outfile f (stack i) (exports i)) s Q (no_outfile outfile).
Proof.
  intros Hd HQ. destruct (parse_stp_total (stack i) (exports i)) as [runs Hr]; [done|done|]. unfold process_stp_output.
  eapply (outcome_seq _ _ _ (λ path s', path = tbl_path ∧ s' = s)).
  { apply wp_sprintf_buf; [vm_compute; lia|done]. }
  intros path s' [-> ->]. apply outcome_bind, outcome_wp. did_step. rename Hd into Hd1.
  destruct (Z.eqb_spec r 0) as [->|Hr0].
  { apply outcome_wp. did_step. apply (HQ _ _ [AOpen 0 tbl_path]); [done|constructor|exact Hd1]. }
  apply outcome_bind, outcome_wp, wp_call_any. intros out w'.
  set (s2 := mkst _ _ _).
  assert (Hd2 : out ≠ 0 → did s0 s2 ((acts ++ [AOpen r tbl_path]) ++ [AOpen out outfile])).
  { intros Ho. eapply did_trans; [exact Hd1|]. eexists. split; [reflexivity|].
    done. }
  assert (H2 : drv s2 = drv s) by done.
  destruct (Z.eqb_spec out 0) as [->|Ho].
  { apply outcome_bind. apply store_frame_info_null. by eexists. }
  apply outcome_wp. specialize (Hd2 Ho). clearbody s2. clear Hd1.
  did_step. eapply store_frame_info_wp; [done|exact Hd2|]. clear Hd2. intros s3 H3 Hd.
  did_step. eapply write_stp_output_wp; [done|exact Hr|exact Hd|]. clear Hd. intros s4 H4 Hd.
  repeat did_step. eapply HQ; [congruence|apply (saved_line _ _ _ _ _ r out runs); done|]. eapply did_ext; [exact Hd|].
  unfold log_line. rewrite fmap_app. by rewrite <- !app_assoc.
Qed.

Section Loop.
Context (instance signals trigger outfile : string).
Context (Hnames : (String.length instance + String.length signals + String.length trigger <= 78)%nat).
Abbreviation saved := (saved exports stack outfile).
Abbreviation logged := (logged exports stack instance signals trigger outfile).

Lemma log_frame_outcome i tx s s0 acts Q :
  0 <= i < 2 ^ 31 → did s0 s acts →
  (∀ f a s', drv s' = drv s → frame_ok f → saved i f a →
    did s0 s' (acts ++ [ACommand (run_cmd i instance signals trigger);
      ASend (hnd_chn_1 (drv s)) (kv_id f) (kv_data f) (data_length f) (send_flags f);
      ACommand (export_cmd i instance signals trigger export)] ++ a) → Q f s') →
  outcome (log_frame exports stack i instance signals trigger outfile tx) s Q (no_outfile outfile).
Proof.
  intros Hi Hd HQ. unfold log_frame. eapply outcome_seq; [apply generate_can_frame_wp|].
  intros g s1 (Hw & _ & f & Ef & Hf). rewrite Ef. eapply drew_did in Hd; [|exact Hw]. destruct Hw as [H1 _].
  apply outcome_bind, outcome_wp. apply wp_ret.
  apply outcome_bind, outcome_wp. eapply stp_run_aquisition_wp; [lia|lia|exact Hd|]; clear Hd; intros r2 s2 H2 Hd.
  apply outcome_bind, outcome_wp. eapply kvaser_send_frame_wp; [exact Hd|]; clear Hd; intros r3 s3 H3 Hd; rewrite H2, H1 in Hd.
  apply outcome_bind, outcome_wp. eapply kvaser_read_frame_wp; [exact Hd|]; clear Hd; intros r4 s4 H4 Hd.
  apply outcome_bind, outcome_wp. unfold stp_wait_aquisition_end. repeat did_step.
  apply outcome_bind, outcome_wp. eapply stp_export_log_wp; [lia|unfold export; simpl; lia|exact Hd|]; clear Hd; intros r6 s6 H6 Hd.
  apply outcome_bind. eapply process_stp_output_outcome; [exact Hd|]. clear Hd. intros r' s7 a Hs Ha Hd.
  apply outcome_wp, wp_ret. eapply HQ; [congruence|done|exact Ha|]. eapply did_ext; [exact Hd|].
  by rewrite <- !app_assoc.
Qed.

Lemma log_loop_outcome n i tx s s0 acts Q :
  0 <= i → i + Z.of_nat n < 2 ^ 31 → did s0 s acts →
  (∀ a s', drv s' = drv s → logged (hnd_chn_1 (drv s)) i n a → did s0 s' (acts ++ a) → Q tt s') →
  outcome (log_loop exports stack n i instance signals trigger outfile tx) s Q (no_outfile outfile).
Proof.
  revert i tx s acts Q. induction n as [|n IH]; intros i tx s acts Q Hi Hn Hd HQ; cbn [log_loop].
  { apply outcome_wp, wp_ret. apply (HQ []); [done|constructor|]. by rewrite app_nil_r. }
  apply outcome_bind. eapply log_frame_outcome; [lia|exact Hd|]. clear Hd. intros f a s1 H1 Hf Ha Hd.
  eapply IH; [lia|lia|exact Hd|]. clear Hd. intros b s2 H2 Hb Hd.
  eapply HQ; [congruence|eapply logged_frame; [exact Hf|exact Ha|by rewrite <- H1]|].
  eapply did_ext; [exact Hd|]. by rewrite <- !app_assoc.
Qed.

End Loop.

(** What is known when [kvaalt_start_log] ends: a complete session, or nothing at all was done. *)
Definition session_log num_frames (session instance signals trigger outfile : string) (f : flow) s s' : Prop :=
  match f with
  | Returns 0 =>
      stp_pid (drv s') ≠ 0 ∧ ∃ acts,
        logged exports stack instance signals trigger outfile (hnd_chn_1 (drv s')) 0 (Z.to_nat num_frames) acts ∧
        did s s' ([ASystem ("rm " +:+ outfile); ASystem ("cp " +:+ session +:+ " " +:+ tmp_session);
          ACommand (open_session_cmd tmp_session)] ++ acts ++ [ACommand close_session_cmd; AKill (stp_pid (drv s'))])
  | _ => did s s' []
  end.

(** C35: The logger runs safely and in order.  For arguments that fit the buffers and every
    behaviour of the bus interface, the analyzer and the exported files, [kvaalt_start_log] terminates and
    writes no buffer out of its bounds; the only undefined behaviour is the use of the null pointer when
    the output file cannot be opened.  If it returns 0, the output file was erased, the session copied and
    opened, each frame was generated well-formed and sent between the start of its acquisition and
    its export, with its own number, each exported file that could be opened was logged with the frame that was sent
    and closed, no other was passed over, and at the end the session was closed and the process of the analyzer terminated; in
    all other cases none of this was begun. *)
Theorem kvaalt_start_log_spec num_frames session instance signals trigger outfile tx s :
  num_frames < 2 ^ 31 → args_fit session instance signals trigger outfile →
  outcome (kvaalt_start_log exports stack num_frames session instance signals trigger outfile tx) s
    (λ f s', session_log num_frames session instance signals trigger outfile f s s')
    (no_outfile outfile).
Proof.
  intros Hn [Hout Hses Hnames]. unfold kvaalt_start_log. pose proof (did_refl s) as Hd.
  apply outcome_bind, outcome_wp. repeat did_step.
  apply outcome_bind, outcome_wp. eapply kvaser_init_wp; [exact Hd|]. clear Hd. intros r1 s1 Hd.
  destruct (nz r1); [by apply outcome_wp, wp_ret|].
  apply outcome_bind, outcome_wp. eapply stp_init_wp; [exact Hd|]. clear Hd. intros f s2 Hd Hpid _.
  destruct f as [r2|?|?]; [|by apply outcome_wp, wp_ret..]. destruct (Z.eqb_spec r2 0) as [->|Hr2].
  2: { unfold nz. rewrite (proj2 (Z.eqb_neq _ _) Hr2). by apply outcome_wp, wp_ret. }
  cbn [nz Z.eqb negb]. specialize (Hpid eq_refl).
  apply outcome_bind, outcome_wp. unfold erase_file. did_step.
  apply wp_sprintf_buf; [rewrite string_length_app; simpl; lia|]. repeat did_step.
  apply outcome_bind, outcome_wp. eapply stp_create_temp_session_wp; [unfold tmp_session; simpl; lia|exact Hd|].
  clear Hd. intros ? s4 H4 Hd.
  apply outcome_bind, outcome_wp. eapply stp_start_session_wp; [unfold tmp_session; simpl; lia|exact Hd|].
  clear Hd. intros ? s5 H5 Hd.
  apply outcome_bind. eapply log_loop_outcome; [done|lia|lia|exact Hd|]. clear Hd. intros acts s6 H6 Hl Hd.
  apply outcome_wp. did_step. eapply stp_close_session_wp; [exact Hd|]. clear Hd. intros ? s7 H7 Hd.
  did_step. eapply stp_exit_wp; [exact Hd|]. clear Hd. intros ? s8 H8 Hd. did_step.
  assert (E8 : drv s8 = drv s5) by congruence. assert (E7 : drv s7 = drv s5) by congruence. rewrite E7 in Hd.
  unfold session_log. rewrite E8. split; [congruence|]. exists acts. split; [exact Hl|].
  eapply did_ext; [exact Hd|]. by rewrite <- !app_assoc.
Qed.

End RunProofs.

(** ** Concrete runs *)

(** A host with the results of [fork] and of opening the output file; the export can be opened. *)
Record rig := mkrig { rig_seed : Z; rig_fork : Z; rig_out : Z }.

#[export] Instance rig_world : World rig := {
  w_load32 _ w := (0, w);
  w_store32 _ _ w := w;
  w_call c w :=
    match c with
    | user u_rand =>
        let x := (1103515245 * rig_seed w + 12345) mod 2 ^ 31 in (x / 2 ^ 16, mkrig x (rig_fork w) (rig_out w))
    | user u_fork => (rig_fork w, w)
    | user (u_fopen _ mode) => (if String.eqb mode "r" then 3 else rig_out w, w)
    | user (u_write _ cmd) => (Z.of_nat (String.length cmd), w)
    | _ => (0, w)
    end;
  w_alloc _ w := (None, w);
}.

#[export] Instance rig_rand_ok : RandOk rig.
Proof.
  intros w r w' [= <- _]. pose proof (Z.mod_pos_bound (1103515245 * rig_seed w + 12345) (2 ^ 31) ltac:(lia)).
  split; [apply Z.div_pos; lia|]. apply Z.div_lt_upper_bound; lia.
Qed.

Definition rig_canlib : Canlib := {|
  canOK := 0; canOPEN_CAN_FD := 0x400; canOPEN_EXCLUSIVE := 8; canOPEN_REQUIRE_EXTENDED := 16;
  canFD_BITRATE_500K_80P := -1000; canFD_BITRATE_2M_80P := -1003;
  canMSG_RTR := 1; canMSG_EXT := 4; canMSG_STD := 2; canFDMSG_FDF := 0x10000; canFDMSG_BRS := 0x20000 |}.

Definition rig_st (fork out : Z) : st logger rig := mkst (mklogger 0 0 0) (mkrig 7 fork out) [].

Definition rig_prog (session : string) : M logger rig flow :=
  @kvaalt_start_log rig rig_world rig_canlib (λ _, file_of sample_file) (λ _, replicate 30 NUL)
    1 session "inst" "sigs" "trig" "out.txt" kv_empty.

Definition rig_run (fork out : Z) (session : string) : res flow * st logger rig := rig_prog session (rig_st fork out).

Lemma outcome_ok {A} (m : M logger rig A) s Q N a :
  outcome m s Q N → fst (m s) = Ok a → ∃ s', m s = (Ok a, s') ∧ Q a s'.
Proof. unfold outcome. destruct (m s) as [o s']. cbn. intros HQ ->. eauto. Qed.

Lemma short_args_fit : args_fit "debug.stp" "inst" "sigs" "trig" "out.txt".
Proof. constructor; vm_compute; lia. Qed.

(** One frame is logged. *)
Lemma kvaalt_start_log_witness :
  ∃ s', rig_prog "debug.stp" (rig_st 42 4) = (Ok (Returns 0), s') ∧
    @session_log rig rig_canlib (λ _, file_of sample_file) (λ _, replicate 30 NUL)
      1 "debug.stp" "inst" "sigs" "trig" "out.txt" (Returns 0) (rig_st 42 4) s'.
Proof.
  apply (outcome_ok (rig_prog "debug.stp") (rig_st 42 4)
    (λ f s', @session_log rig rig_canlib (λ _, file_of sample_file) (λ _, replicate 30 NUL)
      1 "debug.stp" "inst" "sigs" "trig" "out.txt" f (rig_st 42 4) s') (no_outfile "out.txt")).
  - exact (@kvaalt_start_log_spec rig rig_world rig_rand_ok rig_canlib (λ _, file_of sample_file) (λ _, replicate 30 NUL)
      (λ _, eq_refl) (λ _, eq_refl) 1 "debug.stp" "inst" "sigs" "trig" "out.txt" kv_empty (rig_st 42 4)
      eq_refl short_args_fit).
  - vm_compute. reflexivity.
Defined.

(** The session path of the example in [print_help] overflows [cmd[100]]. *)
Definition help_session : string :=
  "/DOKUMENTY/Skola/CVUT-FEL/CAN_FD_PCIe/FPGA_design/Quartus/CAN_FD_SoC/output_files/debug.stp".

Lemma help_session_overflow : fst (rig_run 42 4 help_session) = Ub OutOfBounds.
Proof. vm_compute. reflexivity. Qed.

(** When [fork] fails, [stp_init] returns 0 and [stp_exit] signals every process. *)
Lemma failed_fork_kills_all :
  fst (rig_run (-1) 4 "debug.stp") = Ok (Returns 0) ∧
  last (actions (trace (snd (rig_run (-1) 4 "debug.stp")))) = Some (AKill (-1)).
Proof. split; vm_compute; reflexivity. Qed.

(** An output file that cannot be opened is used nevertheless. *)
Lemma output_file_null_deref : fst (rig_run 42 0 "debug.stp") = Ub NullDeref.
Proof. vm_compute. reflexivity. Qed.

(** Two frames with one byte that differs, by the theorem on their texts. *)
Definition frame_a : kvalt_can_frame := mkkvf 1 5 0 0 0 0 (<[0%nat := 1]> (replicate 64 0)).
Definition frame_b : kvalt_can_frame := mkkvf 1 5 0 0 0 0 (<[0%nat := 2]> (replicate 64 0)).

Lemma frame_one_byte_ok b : 0 <= b < 255 → frame_ok (mkkvf 1 5 0 0 0 0 (<[0%nat := b]> (replicate 64 0))).
Proof.
  intros Hb. constructor; cbn [data_length kv_id id_type fr_type kv_brs kv_rtr kv_data]; unfold is_bit; [lia|lia|lia| |lia|lia|done|done| |].
  - by right; left.
  - apply Forall_insert; [by apply Forall_replicate|done].
  - intros i Hi Hi64. rewrite list_lookup_insert_ne by lia. by apply lookup_replicate_2.
Qed.

Lemma store_frame_info_witness :
  written (store_frame_info frame_a 4) (rig_st 42 4) ≠ written (store_frame_info frame_b 4) (rig_st 42 4).
Proof.
  intros E. assert (Hab : frame_a = frame_b).
  { apply (store_frame_info_injective frame_a frame_b 4 (rig_st 42 4) (rig_st 42 4));
      [lia|apply frame_one_byte_ok; lia|apply frame_one_byte_ok; lia|exact E]. }
  discriminate Hab.
Defined.
